(** * Verification of the Anthropic-to-Gemini relay bridge

    A shallow embedding of the parts of the relay service that its
    specification makes claims about:

    - [src/utils/signatureCache.js]  (module [SignatureCache]),
    - [src/services/antigravityClient.js]  (module [AntigravityClient]),
    - [src/services/anthropicGeminiBridgeService.js]  (modules [Bridge]
      and [Stream]).

    Conventions of the embedding.

    - JavaScript strings are [string]s (sequences of 8-bit characters);
      [String.length] stands for [.length], which agrees with JavaScript
      on ASCII text, the only text the modelled branches inspect.
    - JavaScript numbers that hold token counts, lengths, indices and
      millisecond instants are integers in [Z].
    - [Date.now()] is an explicit argument [now] of every operation that
      reads the clock; process-wide [Map]s are passed in and returned.
    - Duck-typed JSON values are values of the type [json]; a property
      read [o.k] is [field k o], with [None] standing for [undefined].
    - Logging and on-disk dumps have no effect on any modelled result and
      are left out. *)

From Stdlib Require Import ZArith Lia Bool List String Ascii.
From Stdlib Require Import DecimalString Sorted Permutation.
From Stdlib Require OrderedTypeEx.
Import ListNotations.

Local Open Scope string_scope.
Local Open Scope Z_scope.

(* ====================================================================== *)
(** * JavaScript strings                                                   *)
(* ====================================================================== *)

Module JsString.

Definition len (s : string) : Z := Z.of_nat (String.length s).

(** [!s] for a string: only the empty string is falsy. *)
Definition is_empty (s : string) : bool :=
  match s with EmptyString => true | String _ _ => false end.

(** White space recognised by [trim] and [\s], restricted to ASCII:
    space, TAB, LF, VT, FF, CR. *)
Definition is_space (c : ascii) : bool :=
  let n := nat_of_ascii c in
  (Nat.eqb n 32 || (Nat.leb 9 n && Nat.leb n 13))%bool.

Fixpoint trim_start (s : string) : string :=
  match s with
  | EmptyString => EmptyString
  | String c r => if is_space c then trim_start r else s
  end.

(** Drops trailing white space: a character is kept when something
    non-blank follows it or it is itself non-blank. *)
Fixpoint trim_end (s : string) : string :=
  match s with
  | EmptyString => EmptyString
  | String c r =>
      match trim_end r with
      | EmptyString => if is_space c then EmptyString else String c EmptyString
      | r' => String c r'
      end
  end.

Definition trim (s : string) : string := trim_end (trim_start s).

Definition upper_char (c : ascii) : ascii :=
  let n := nat_of_ascii c in
  if (Nat.leb 97 n && Nat.leb n 122)%bool then ascii_of_nat (n - 32) else c.

Definition lower_char (c : ascii) : ascii :=
  let n := nat_of_ascii c in
  if (Nat.leb 65 n && Nat.leb n 90)%bool then ascii_of_nat (n + 32) else c.

Fixpoint map_chars (f : ascii -> ascii) (s : string) : string :=
  match s with
  | EmptyString => EmptyString
  | String c r => String (f c) (map_chars f r)
  end.

Definition toUpperCase : string -> string := map_chars upper_char.
Definition toLowerCase : string -> string := map_chars lower_char.

(** [s.startsWith(p)] *)
Fixpoint startsWith (s p : string) : bool :=
  match p, s with
  | EmptyString, _ => true
  | String _ _, EmptyString => false
  | String a p', String b s' => (Ascii.eqb a b && startsWith s' p')%bool
  end.

(** [s.slice(n)] for [0 <= n]. *)
Fixpoint drop (n : nat) (s : string) : string :=
  match n, s with
  | O, _ => s
  | S _, EmptyString => EmptyString
  | S n', String _ r => drop n' r
  end.

(** [s.slice(0, n)] for [0 <= n]. *)
Fixpoint take (n : nat) (s : string) : string :=
  match n, s with
  | O, _ => EmptyString
  | S _, EmptyString => EmptyString
  | S n', String c r => String c (take n' r)
  end.

(** [s.indexOf(p)], [None] standing for [-1]. *)
Fixpoint indexOf (s p : string) : option nat :=
  if startsWith s p then Some O
  else match s with
       | EmptyString => None
       | String _ r => option_map S (indexOf r p)
       end.

(** [s.indexOf(p, from)] *)
Definition indexOf_from (s p : string) (from : nat) : option nat :=
  option_map (Nat.add from) (indexOf (drop from s) p).

(** [s.split('\n')]: never empty, the last element is what follows the
    last line feed. *)
Fixpoint split_lines (s : string) : list string :=
  match s with
  | EmptyString => [EmptyString]
  | String c r =>
      if Ascii.eqb c (ascii_of_nat 10) then EmptyString :: split_lines r
      else match split_lines r with
           | [] => [String c EmptyString]
           | l :: ls => String c l :: ls
           end
  end.

Definition includes (s p : string) : bool :=
  match indexOf s p with Some _ => true | None => false end.

(** [String(n)] for an integer [n]. *)
Definition of_Z (z : Z) : string := NilZero.string_of_int (Z.to_int z).

Fixpoint join (sep : string) (l : list string) : string :=
  match l with
  | [] => ""
  | [x] => x
  | x :: r => x ++ sep ++ join sep r
  end.

Definition concat_all (l : list string) : string := join "" l.

End JsString.

(* ====================================================================== *)
(** * JavaScript [Map] with string keys                                     *)
(* ====================================================================== *)

(** A [Map] iterates in insertion order and [cleanupCache] below depends
    on that order, so a map is the list of its entries, oldest insertion
    first.  [set] on a present key replaces the value in place, as
    [Map.prototype.set] does. *)

Module JsMap.
Section WithValue.
Context {V : Type}.

Definition t := list (string * V).

Definition empty : t := [].

Fixpoint get (k : string) (m : t) : option V :=
    match m with
    | [] => None
    | (k', v) :: r => if String.eqb k k' then Some v else get k r
    end.

Definition has (k : string) (m : t) : bool :=
    match get k m with Some _ => true | None => false end.

Fixpoint set (k : string) (v : V) (m : t) : t :=
    match m with
    | [] => [(k, v)]
    | (k', v') :: r =>
        if String.eqb k k' then (k, v) :: r else (k', v') :: set k v r
    end.

Fixpoint delete (k : string) (m : t) : t :=
    match m with
    | [] => []
    | (k', v) :: r =>
        if String.eqb k k' then delete k r else (k', v) :: delete k r
    end.

Definition size (m : t) : Z := Z.of_nat (List.length m).

Definition keys (m : t) : list string := map fst m.

End WithValue.
Arguments t : clear implicits.
End JsMap.

(* ====================================================================== *)
(** * JSON values                                                           *)
(* ====================================================================== *)

(** The values [JSON.parse] produces.  An object is the list of its
    properties in insertion order, which is what [Object.keys] and the
    spread syntax observe. *)

Module Json.

#[local] Set Warnings "-register-all".

Inductive json :=
| JNull
| JBool (b : bool)
| JNum (n : Z)
| JStr (s : string)
| JArr (items : list json)
| JObj (props : list (string * json)).

(** [Boolean(v)] *)
Definition truthy (v : json) : bool :=
  match v with
  | JNull => false
  | JBool b => b
  | JNum n => negb (n =? 0)
  | JStr s => negb (JsString.is_empty s)
  | JArr _ | JObj _ => true
  end.

(** [v.k] and [v?.k]: an own property of an object, [None] for
    [undefined].  None of the property names the bridge reads is defined
    on a string, number or array. *)
Definition field (k : string) (v : json) : option json :=
  match v with
  | JObj props => JsMap.get k props
  | _ => None
  end.

(** [o?.k] on a value that may itself be [undefined]. *)
Definition field_opt (k : string) (o : option json) : option json :=
  match o with Some v => field k v | None => None end.

Definition truthy_opt (o : option json) : bool :=
  match o with Some v => truthy v | None => false end.

(** [v[0]] and [v?.[0]]: first element of an array, property ["0"] of an
    object, first character of a string. *)
Definition index0 (v : json) : option json :=
  match v with
  | JArr (x :: _) => Some x
  | JObj props => JsMap.get "0" props
  | JStr (String c _) => Some (JStr (String c EmptyString))
  | _ => None
  end.

Definition index0_opt (o : option json) : option json :=
  match o with Some v => index0 v | None => None end.

(** [typeof v.k === 'string'], with the string. *)
Definition str_field (k : string) (v : json) : option string :=
  match field k v with Some (JStr s) => Some s | _ => None end.

(** [v.k === s] for a string literal [s]. *)
Definition field_is (k s : string) (v : json) : bool :=
  match field k v with Some (JStr s') => String.eqb s' s | _ => false end.

(** [v.type === t] *)
Definition type_is (t : string) (v : json) : bool := field_is "type" t v.

(** [Array.isArray(o) ? o : <none>] *)
Definition as_array (o : option json) : option (list json) :=
  match o with Some (JArr l) => Some l | _ => None end.

(** [typeof v === 'object'] for a truthy [v], i.e. an array or an object. *)
Definition is_object (v : json) : bool :=
  match v with JArr _ | JObj _ => true | _ => false end.

(** [{ ...v, k: x }] for an object [v]. *)
Definition with_field (k : string) (x : json) (v : json) : json :=
  match v with
  | JObj props => JObj (JsMap.set k x props)
  | _ => JObj [(k, x)]
  end.

(** [const { k: _, ...rest } = v] for an object [v]. *)
Definition without_field (k : string) (v : json) : json :=
  match v with
  | JObj props => JObj (JsMap.delete k props)
  | _ => v
  end.

Fixpoint mem (s : string) (l : list string) : bool :=
  match l with
  | [] => false
  | x :: r => (String.eqb s x || mem s r)%bool
  end.

(** [v.toString()] for a JSON value. *)
Fixpoint toString (v : json) : string :=
  match v with
  | JNull => "null"
  | JBool true => "true"
  | JBool false => "false"
  | JNum n => JsString.of_Z n
  | JStr s => s
  | JArr items =>
      JsString.join ","
        (map (fun x => match x with JNull => "" | _ => toString x end) items)
  | JObj _ => "[object Object]"
  end.

End Json.

(* ====================================================================== *)
(** * The signature cache ([signatureCache.js])                            *)
(* ====================================================================== *)

Module SignatureCache.

Definition SIGNATURE_CACHE_TTL_MS : Z := 2 * 60 * 60 * 1000.
Definition MIN_SIGNATURE_LENGTH : Z := 50.
Definition TEXT_HASH_LENGTH : nat := 16.
Definition TOOL_CACHE_LIMIT : Z := 500.
Definition FAMILY_CACHE_LIMIT : Z := 200.
Definition SESSION_CACHE_LIMIT : Z := 1000.
Definition MAX_ENTRIES_PER_SESSION : Z := 100.

(** [{ signature, timestamp }] *)
Record entry := { signature : string; timestamp : Z }.

(** [{ modelFamily, timestamp }] *)
Record family_entry := { modelFamily : string; family_timestamp : Z }.

(** The four module-level [Map]s. *)
Record store := {
  signatureCache : JsMap.t (JsMap.t entry);
  toolSignatureCache : JsMap.t entry;
  modelFamilyCache : JsMap.t family_entry;
  sessionLatestSignatureCache : JsMap.t entry
}.

Definition empty_store : store :=
  {| signatureCache := []; toolSignatureCache := [];
     modelFamilyCache := []; sessionLatestSignatureCache := [] |}.

(** Representation invariant of the four maps: no entry is stored under
    the empty key (every [cache*] function returns early on a falsy key). *)
Definition keys_ok {V} (m : JsMap.t V) : Prop :=
  Forall (fun kv => JsString.is_empty (fst kv) = false) m.

Definition store_wf (st : store) : Prop :=
  keys_ok (toolSignatureCache st) /\
  keys_ok (modelFamilyCache st) /\
  keys_ok (sessionLatestSignatureCache st) /\
  keys_ok (signatureCache st) /\
  Forall (fun kv => keys_ok (snd kv)) (signatureCache st).

Definition isExpired (now ts : Z) : bool := SIGNATURE_CACHE_TTL_MS <? now - ts.

Definition isValidSignature (sig : string) : bool :=
  MIN_SIGNATURE_LENGTH <=? JsString.len sig.

(** Stable sort of map entries by ascending time stamp, the order
    [entries.sort((a, b) => a[1].timestamp - b[1].timestamp)] produces. *)
Fixpoint insert_by_ts {V} (ts : V -> Z) (x : string * V) (l : list (string * V))
  : list (string * V) :=
  match l with
  | [] => [x]
  | y :: r => if ts (snd x) <=? ts (snd y) then x :: l
              else y :: insert_by_ts ts x r
  end.

Definition sort_by_ts {V} (ts : V -> Z) (l : list (string * V)) : list (string * V) :=
  fold_right (insert_by_ts ts) [] l.

Definition delete_all {V} (ks : list string) (m : JsMap.t V) : JsMap.t V :=
  fold_left (fun c k => JsMap.delete k c) ks m.

(** [cleanupCache(cache, limit, cacheName)]: nothing while the map is
    within its limit; otherwise the expired keys are deleted, and if the
    map is still over the limit the oldest entries go. *)
Definition cleanupCache {V} (ts : V -> Z) (now : Z) (cache : JsMap.t V) (limit : Z)
  : JsMap.t V :=
  if JsMap.size cache <=? limit then cache
  else
    let toDelete :=
      JsMap.keys (filter (fun kv => isExpired now (ts (snd kv))) cache) in
    let cache1 := delete_all toDelete cache in
    if limit <? JsMap.size cache1 then
      let entries := sort_by_ts ts cache1 in
      let overflow := JsMap.size cache1 - limit in
      delete_all (JsMap.keys (firstn (Z.to_nat overflow) entries)) cache1
    else cache1.

(** ** Layer 1: tool id -> signature *)

Definition cacheToolSignature (now : Z) (toolId sig : string) (st : store) : store :=
  if (JsString.is_empty toolId || JsString.is_empty sig)%bool then st
  else if negb (isValidSignature sig) then st
  else
    let c := JsMap.set toolId {| signature := sig; timestamp := now |}
                       (toolSignatureCache st) in
    {| signatureCache := signatureCache st;
       toolSignatureCache := cleanupCache timestamp now c TOOL_CACHE_LIMIT;
       modelFamilyCache := modelFamilyCache st;
       sessionLatestSignatureCache := sessionLatestSignatureCache st |}.

Definition getToolSignature (now : Z) (toolId : string) (st : store)
  : option string * store :=
  if JsString.is_empty toolId then (None, st)
  else match JsMap.get toolId (toolSignatureCache st) with
       | None => (None, st)
       | Some e =>
           if isExpired now (timestamp e) then
             (None,
              {| signatureCache := signatureCache st;
                 toolSignatureCache := JsMap.delete toolId (toolSignatureCache st);
                 modelFamilyCache := modelFamilyCache st;
                 sessionLatestSignatureCache := sessionLatestSignatureCache st |})
           else (Some (signature e), st)
       end.

(** ** Layer 2: signature -> model family *)

Definition cacheSignatureFamily (now : Z) (sig family : string) (st : store) : store :=
  if (JsString.is_empty sig || JsString.is_empty family)%bool then st
  else if negb (isValidSignature sig) then st
  else
    let c := JsMap.set sig {| modelFamily := family; family_timestamp := now |}
                       (modelFamilyCache st) in
    {| signatureCache := signatureCache st;
       toolSignatureCache := toolSignatureCache st;
       modelFamilyCache := cleanupCache family_timestamp now c FAMILY_CACHE_LIMIT;
       sessionLatestSignatureCache := sessionLatestSignatureCache st |}.

Definition getSignatureFamily (now : Z) (sig : string) (st : store)
  : option string * store :=
  if JsString.is_empty sig then (None, st)
  else match JsMap.get sig (modelFamilyCache st) with
       | None => (None, st)
       | Some e =>
           if isExpired now (family_timestamp e) then
             (None,
              {| signatureCache := signatureCache st;
                 toolSignatureCache := toolSignatureCache st;
                 modelFamilyCache := JsMap.delete sig (modelFamilyCache st);
                 sessionLatestSignatureCache := sessionLatestSignatureCache st |})
           else (Some (modelFamily e), st)
       end.

(** ** Layer 3: session id -> latest signature *)

Definition with_session (c : JsMap.t entry) (st : store) : store :=
  {| signatureCache := signatureCache st;
     toolSignatureCache := toolSignatureCache st;
     modelFamilyCache := modelFamilyCache st;
     sessionLatestSignatureCache := c |}.

Definition shouldStore (now : Z) (existing : option entry) (sig : string) : bool :=
  match existing with
  | None => true
  | Some e =>
      (isExpired now (timestamp e)
       || (JsString.len (signature e) <? JsString.len sig))%bool
  end.

Definition cacheSessionSignature (now : Z) (sessionId sig : string) (st : store)
  : store :=
  if (JsString.is_empty sessionId || JsString.is_empty sig)%bool then st
  else if negb (isValidSignature sig) then st
  else
    let existing := JsMap.get sessionId (sessionLatestSignatureCache st) in
    if shouldStore now existing sig then
      let c := JsMap.set sessionId {| signature := sig; timestamp := now |}
                         (sessionLatestSignatureCache st) in
      with_session (cleanupCache timestamp now c SESSION_CACHE_LIMIT) st
    else st.

Definition getSessionSignature (now : Z) (sessionId : string) (st : store)
  : option string * store :=
  if JsString.is_empty sessionId then (None, st)
  else match JsMap.get sessionId (sessionLatestSignatureCache st) with
       | None => (None, st)
       | Some e =>
           if isExpired now (timestamp e) then
             (None,
              with_session
                (JsMap.delete sessionId (sessionLatestSignatureCache st)) st)
           else (Some (signature e), st)
       end.

(** ** Legacy surface: session id + hash of the thinking text -> signature *)

Section TextHash.

(** [crypto.createHash('sha256').update(text).digest('hex')]: the digest is
    computed by the runtime; the cache only uses it as a function of the
    text. *)
Variable sha256_hex : string -> string.

Definition hashText (text : string) : string :=
  if JsString.is_empty text then ""
  else JsString.take TEXT_HASH_LENGTH (sha256_hex text).

Definition with_signatureCache (c : JsMap.t (JsMap.t entry)) (st : store) : store :=
  {| signatureCache := c;
     toolSignatureCache := toolSignatureCache st;
     modelFamilyCache := modelFamilyCache st;
     sessionLatestSignatureCache := sessionLatestSignatureCache st |}.

(** [getOrCreateSessionCache]: the outer map after the call and the
    session's inner map. *)
Definition getOrCreateSessionCache (sessionId : string) (c : JsMap.t (JsMap.t entry))
  : JsMap.t (JsMap.t entry) * JsMap.t entry :=
  match JsMap.get sessionId c with
  | Some inner => (c, inner)
  | None => (JsMap.set sessionId [] c, [])
  end.

(** The inner map is an object shared with the outer map, so every update
    of it is written back under the session id. *)
Definition cacheSignature (now : Z) (sessionId thinkingText sig : string) (st : store)
  : store :=
  if (JsString.is_empty sessionId || JsString.is_empty thinkingText
      || JsString.is_empty sig)%bool then st
  else if negb (isValidSignature sig) then st
  else
    let '(outer, sessionCache) := getOrCreateSessionCache sessionId (signatureCache st) in
    let textHash := hashText thinkingText in
    if JsString.is_empty textHash then with_signatureCache outer st
    else
      let evicted :=
        if MAX_ENTRIES_PER_SESSION <=? JsMap.size sessionCache then
          let entries := sort_by_ts timestamp sessionCache in
          let toRemove := Z.max 1 (Z.of_nat (List.length entries) / 4) in
          delete_all (JsMap.keys (firstn (Z.to_nat toRemove) entries)) sessionCache
        else sessionCache in
      let inner := JsMap.set textHash {| signature := sig; timestamp := now |} evicted in
      cacheSessionSignature now sessionId sig
        (with_signatureCache (JsMap.set sessionId inner outer) st).

Definition getCachedSignature (now : Z) (sessionId thinkingText : string) (st : store)
  : option string * store :=
  if (JsString.is_empty sessionId || JsString.is_empty thinkingText)%bool
  then (None, st)
  else match JsMap.get sessionId (signatureCache st) with
       | None => (None, st)
       | Some sessionCache =>
           let textHash := hashText thinkingText in
           if JsString.is_empty textHash then (None, st)
           else match JsMap.get textHash sessionCache with
                | None => (None, st)
                | Some e =>
                    if isExpired now (timestamp e) then
                      (None,
                       with_signatureCache
                         (JsMap.set sessionId (JsMap.delete textHash sessionCache)
                                    (signatureCache st)) st)
                    else (Some (signature e), st)
                end
       end.

End TextHash.

End SignatureCache.

(* ====================================================================== *)
(** * The upstream transport ([antigravityClient.js])                      *)
(* ====================================================================== *)

Module AntigravityClient.

(** ** Model-level cooldowns *)

(** [{ untilMs, reason }] *)
Record cooldown_entry := { untilMs : Z; reason : string }.

(** The process-wide [modelUnavailableCooldowns] map. *)
Definition cooldowns := JsMap.t cooldown_entry.

(** [{ remainingMs, reason }] *)
Record cooldown_info := { remainingMs : Z; info_reason : string }.

Definition no_cooldown : cooldown_info := {| remainingMs := 0; info_reason := "" |}.

(** Representation invariant: [setModelCooldown] only ever stores under a
    non-empty key an instant [Date.now() + duration] with [duration > 0]. *)
Definition cooldowns_wf (cds : cooldowns) : Prop :=
  Forall (fun kv => JsString.is_empty (fst kv) = false /\ 0 < untilMs (snd kv)) cds.

Definition getModelCooldownInfo (now : Z) (model : string) (cds : cooldowns)
  : cooldown_info * cooldowns :=
  let key := JsString.trim model in
  if JsString.is_empty key then (no_cooldown, cds)
  else match JsMap.get key cds with
       | None => (no_cooldown, cds)
       | Some e =>
           if untilMs e =? 0 then (no_cooldown, cds)
           else
             let remaining := untilMs e - now in
             if remaining <=? 0 then (no_cooldown, JsMap.delete key cds)
             else ({| remainingMs := remaining; info_reason := reason e |}, cds)
       end.

Definition setModelCooldown (now : Z) (model : string) (cooldownMs : Z) (why : string)
  (cds : cooldowns) : cooldowns :=
  let key := JsString.trim model in
  if JsString.is_empty key then cds
  else
    let duration := if 0 <? cooldownMs then cooldownMs else 0 in
    if duration =? 0 then cds
    else JsMap.set key {| untilMs := now + duration; reason := why |} cds.

(** The error object [createSyntheticAxiosError] builds: [response.status],
    [code], [message], the [reason] of [response.data.error] ([None] for
    [null]) and the [retry-after] response header. *)
Record synthetic_error := {
  err_status : Z;
  err_code : string;
  err_message : string;
  err_data_reason : option string;
  err_retry_after : string
}.

(** [Math.ceil(a / b)] for integers [a] and [b > 0]. *)
Definition ceil_div (a b : Z) : Z := - ((- a) / b).

Definition cooldown_error (info : cooldown_info) : synthetic_error :=
  let retryAfterSeconds := Z.max 1 (ceil_div (remainingMs info) 1000) in
  let cooldownReason := JsString.trim (info_reason info) in
  let cooldownMessage :=
    if String.eqb cooldownReason "MODEL_CAPACITY_EXHAUSTED"
    then "Model capacity exhausted (cooldown "
         ++ JsString.of_Z retryAfterSeconds ++ "s)"
    else "The requested model is currently unavailable (cooldown "
         ++ JsString.of_Z retryAfterSeconds ++ "s)" in
  {| err_status := 429;
     err_code := "ANTIGRAVITY_MODEL_COOLDOWN";
     err_message := cooldownMessage;
     err_data_reason :=
       if JsString.is_empty cooldownReason then None else Some cooldownReason;
     err_retry_after := JsString.of_Z retryAfterSeconds |}.

(** Outcome of [request]: the synthetic error thrown before anything is
    sent, or the result of the endpoint loop. *)
Inductive request_outcome (R : Type) :=
| Thrown (e : synthetic_error)
| Attempted (r : R).
Arguments Thrown {R} e.
Arguments Attempted {R} r.

(** [request], up to the point where the endpoint loop starts.  [model] is
    the upstream model [buildAntigravityEnvelope] resolved; [attemptRequest]
    stands for the rest of the function, the only part that calls [axios],
    run against the cooldown map as the check left it. *)
Definition request {R} (attemptRequest : cooldowns -> R)
  (now : Z) (model : string) (cds : cooldowns) : request_outcome R * cooldowns :=
  let '(cooldownInfo, cds1) := getModelCooldownInfo now model cds in
  if 0 <? remainingMs cooldownInfo
  then (Thrown (cooldown_error cooldownInfo), cds1)
  else (Attempted (attemptRequest cds1), cds1).

(** ** Thinking budget normalisation *)

(** [metadata.thinking]: the declared bounds, [None] for a bound that is
    not a finite number. *)
Record thinking_meta := { thinking_min : option Z; thinking_max : option Z }.

(** What [getAntigravityModelMetadata] returns for a known model. *)
Record model_metadata := {
  thinking : option thinking_meta;
  maxCompletionTokens : option Z
}.

(** [generationConfig.thinkingConfig].  [thinkingBudget] is
    [Number(thinkingConfig.thinkingBudget)] truncated to an integer, [None]
    when that number is not finite. *)
Record thinkingConfig := {
  thinkingBudget : option Z;
  thinkingLevel : option string;
  include_thoughts : option bool
}.

(** [request.generationConfig], restricted to the two properties the
    normalisation reads and writes; [maxOutputTokens] is [None] unless it
    is a finite number. *)
Record generationConfig := {
  maxOutputTokens : option Z;
  thinkingCfg : option thinkingConfig
}.

(** Truthiness of a number that may be absent. *)
Definition truthy_num (o : option Z) : bool :=
  match o with Some z => negb (z =? 0) | None => false end.

Definition truthy_str (o : option string) : bool :=
  match o with Some s => negb (JsString.is_empty s) | None => false end.

Section Thinking.

(** Both helpers live in [utils/antigravityModel], which is not part of
    the sources at hand; they are taken as given. *)
Variable normalizeAntigravityModelInput : string -> string.
Variable getAntigravityModelMetadata : string -> option model_metadata.

Definition normalizeAntigravityThinking (model : string) (gc : generationConfig)
  : generationConfig :=
  match thinkingCfg gc with
  | None => gc
  | Some tc =>
      let normalizedModel := normalizeAntigravityModelInput model in
      let tc :=
        if (truthy_str (thinkingLevel tc)
            && negb (JsString.startsWith normalizedModel "gemini-3-"))%bool
        then {| thinkingBudget := thinkingBudget tc;
                thinkingLevel := None;
                include_thoughts := include_thoughts tc |}
        else tc in
      let unchanged :=
        {| maxOutputTokens := maxOutputTokens gc; thinkingCfg := Some tc |} in
      let removed :=
        {| maxOutputTokens := maxOutputTokens gc; thinkingCfg := None |} in
      match getAntigravityModelMetadata normalizedModel with
      | None => unchanged
      | Some metadata =>
          match thinking metadata with
          | None => removed
          | Some th =>
              match thinkingBudget tc with
              | None => unchanged
              | Some budgetRaw =>
                  let budget := budgetRaw in
                  let minBudget := thinking_min th in
                  let maxBudget := thinking_max th in
                  let budget :=
                    match maxBudget with
                    | Some mx => if mx <? budget then mx else budget
                    | None => budget
                    end in
                  let effectiveMax := maxOutputTokens gc in
                  let setDefaultMax :=
                    (negb (truthy_num effectiveMax)
                     && truthy_num (maxCompletionTokens metadata))%bool in
                  let effectiveMax :=
                    if setDefaultMax then maxCompletionTokens metadata
                    else effectiveMax in
                  let budget :=
                    match effectiveMax with
                    | Some em =>
                        if (negb (em =? 0) && (em <=? budget))%bool
                        then Z.max 0 (em - 1) else budget
                    | None => budget
                    end in
                  let belowMin :=
                    match minBudget with
                    | Some mn => ((0 <=? budget) && (budget <? mn))%bool
                    | None => false
                    end in
                  if belowMin then removed
                  else
                    {| maxOutputTokens :=
                         if setDefaultMax then effectiveMax else maxOutputTokens gc;
                       thinkingCfg :=
                         Some {| thinkingBudget := Some budget;
                                 thinkingLevel := thinkingLevel tc;
                                 include_thoughts := include_thoughts tc |} |}
              end
          end
      end
  end.

(** The [generationConfig] that [normalizeAntigravityEnvelope] leaves in
    the envelope: thinking is normalised, then [maxOutputTokens] is
    dropped for every model whose name does not contain [claude]. *)
Definition normalizeAntigravityEnvelope (model : string) (gc : generationConfig)
  : generationConfig :=
  let gc := normalizeAntigravityThinking model gc in
  if negb (JsString.includes model "claude")
  then {| maxOutputTokens := None; thinkingCfg := thinkingCfg gc |}
  else gc.

End Thinking.

End AntigravityClient.

(* ====================================================================== *)
(** * The protocol bridge ([anthropicGeminiBridgeService.js])              *)
(* ====================================================================== *)

Module Bridge.
Import Json.

Definition MAX_ANTIGRAVITY_TOOL_RESULT_CHARS : Z := 200000.

(** [vendor === 'antigravity'], the vendor being [null] or a string. *)
Definition is_antigravity (vendor : option string) : bool :=
  match vendor with Some v => String.eqb v "antigravity" | None => false end.

(** ** Argument remapping of streamed tool calls *)

Definition has_truthy (k : string) (args : list (string * json)) : bool :=
  truthy_opt (JsMap.get k args).

(** Moves the value of property [from] to property [to]. *)
Definition rename_prop (from to : string) (args : list (string * json))
  : list (string * json) :=
  match JsMap.get from args with
  | Some v => JsMap.delete from (JsMap.set to v args)
  | None => args
  end.

(** The [pathStr] computed from a truthy [paths]. *)
Definition path_of_paths (paths : json) : string :=
  match paths with
  | JArr (JStr s :: _) => s
  | JStr s => s
  | _ => "."
  end.

Definition remap_search_args (args : list (string * json)) : list (string * json) :=
  let args :=
    if (has_truthy "description" args && negb (has_truthy "pattern" args))%bool
    then rename_prop "description" "pattern" args else args in
  let args :=
    if (has_truthy "query" args && negb (has_truthy "pattern" args))%bool
    then rename_prop "query" "pattern" args else args in
  if negb (has_truthy "path" args) then
    match JsMap.get "paths" args with
    | Some paths =>
        if truthy paths
        then JsMap.delete "paths"
               (JsMap.set "path" (JStr (path_of_paths paths)) args)
        else JsMap.set "path" (JStr ".") args
    | None => JsMap.set "path" (JStr ".") args
    end
  else args.

Definition remap_props (nameLower : string) (args : list (string * json))
  : list (string * json) :=
  if String.eqb nameLower "enterplanmode" then []
  else if (String.eqb nameLower "grep" || String.eqb nameLower "search"
           || String.eqb nameLower "glob"
           || String.eqb nameLower "search_code_definitions"
           || String.eqb nameLower "search_code_snippets")%bool
  then remap_search_args args
  else if String.eqb nameLower "read" then
    if (has_truthy "path" args && negb (has_truthy "file_path" args))%bool
    then rename_prop "path" "file_path" args else args
  else if String.eqb nameLower "ls" then
    if negb (has_truthy "path" args) then JsMap.set "path" (JStr ".") args else args
  else if (negb (has_truthy "path" args) && has_truthy "paths" args)%bool then
    match JsMap.get "paths" args with
    | Some (JArr [JStr s]) => JsMap.delete "paths" (JsMap.set "path" (JStr s) args)
    | _ => args
    end
  else args.

(** [remapFunctionCallArgs(name, args)] rewrites [args] in place; the
    result is the object as it stands afterwards.  Property writes on an
    array are invisible to every later reader, so arrays come back as they
    are. *)
Definition remapFunctionCallArgs (name : string) (args : json) : json :=
  match args with
  | JObj props => JObj (remap_props (JsString.toLowerCase name) props)
  | _ => args
  end.

(** ** Serialisation *)

Definition dquote : ascii := ascii_of_nat 34.
Definition backslash : ascii := ascii_of_nat 92.

Definition hex_digit (n : nat) : ascii :=
  if Nat.ltb n 10 then ascii_of_nat (48 + n) else ascii_of_nat (87 + n).

(** The escape [JSON.stringify] writes for one character of a string. *)
Definition json_escape_char (c : ascii) : string :=
  let n := nat_of_ascii c in
  if Nat.eqb n 34 then String backslash (String dquote "")
  else if Nat.eqb n 92 then String backslash (String backslash "")
  else if Nat.eqb n 8 then String backslash "b"
  else if Nat.eqb n 9 then String backslash "t"
  else if Nat.eqb n 10 then String backslash "n"
  else if Nat.eqb n 12 then String backslash "f"
  else if Nat.eqb n 13 then String backslash "r"
  else if Nat.ltb n 32
       then String backslash
              ("u00" ++ String (hex_digit (Nat.div n 16))
                          (String (hex_digit (Nat.modulo n 16)) ""))
  else String c "".

Fixpoint json_escape (s : string) : string :=
  match s with
  | EmptyString => EmptyString
  | String c r => json_escape_char c ++ json_escape r
  end.

(** [JSON.stringify(s)] for a string [s]. *)
Definition json_quote (s : string) : string :=
  String dquote (json_escape s ++ String dquote "").

Fixpoint insert_by_key (x : string * string) (l : list (string * string))
  : list (string * string) :=
  match l with
  | [] => [x]
  | y :: r => if String.ltb (fst x) (fst y) then x :: l
              else y :: insert_by_key x r
  end.

(** [Object.keys(value).sort()] together with the values. *)
Definition sort_by_key (l : list (string * string)) : list (string * string) :=
  fold_right insert_by_key [] l.

Fixpoint stableJsonStringify (v : json) : string :=
  match v with
  | JNull => "null"
  | JBool true => "true"
  | JBool false => "false"
  | JNum n => JsString.of_Z n
  | JStr s => json_quote s
  | JArr items =>
      "[" ++ JsString.join "," (map stableJsonStringify items) ++ "]"
  | JObj props =>
      let pairs :=
        (fix each (ps : list (string * json)) : list (string * string) :=
           match ps with
           | [] => []
           | (k, x) :: r => (k, stableJsonStringify x) :: each r
           end) props in
      "{" ++ JsString.join ","
               (map (fun kv => json_quote (fst kv) ++ ":" ++ snd kv)
                    (sort_by_key pairs))
          ++ "}"
  end.

Definition text_block (text : string) : json :=
  JObj [("type", JStr "text"); ("text", JStr text)].

(** ** Tool results for the size-constrained backend *)

Definition IMAGE_OMITTED_TEXT : string :=
  "[image omitted to fit Antigravity prompt limits; use the file path in the previous text block]".

(** The block appended once images were removed. *)
Definition image_omitted_block : json := text_block IMAGE_OMITTED_TEXT.

(** [block.type === 'image' && block.source?.type === 'base64' &&
    typeof block.source?.data === 'string'] *)
Definition is_base64_image (block : json) : bool :=
  (type_is "image" block
   && match field "source" block with
      | Some source =>
          (field_is "type" "base64" source
           && match str_field "data" source with Some _ => true | None => false end)%bool
      | None => false
      end)%bool.

Section ToolResults.

(** [compactToolResultTextForAntigravity(text, maxChars)]: a chain of
    regular-expression rewrites and truncations of one text; the
    sanitizer only uses the text it returns and that text's length. *)
Variable compactToolResultTextForAntigravity : string -> Z -> string.

(** The loop of [sanitizeToolResultBlocksForAntigravity] from [blocks] on
    with [usedChars] characters already kept: the blocks it pushes, and
    whether it skipped a base64 image.  The loop ends early once the
    character budget is used up. *)
Fixpoint sanitize_blocks (blocks : list json) (usedChars : Z) : list json * bool :=
  match blocks with
  | [] => ([], false)
  | block :: rest =>
      if negb (truthy block && is_object block)%bool then sanitize_blocks rest usedChars
      else if is_base64_image block then
        (fst (sanitize_blocks rest usedChars), true)
      else
        match (if type_is "text" block then str_field "text" block else None) with
        | Some s =>
            let remaining := MAX_ANTIGRAVITY_TOOL_RESULT_CHARS - usedChars in
            if remaining <=? 0 then ([], false)
            else
              let text := compactToolResultTextForAntigravity s remaining in
              let '(cleaned, removed) :=
                sanitize_blocks rest (usedChars + JsString.len text) in
              (with_field "text" (JStr text) block :: cleaned, removed)
        | None =>
            let usedChars := usedChars + 100 in
            if MAX_ANTIGRAVITY_TOOL_RESULT_CHARS <=? usedChars then ([block], false)
            else
              let '(cleaned, removed) := sanitize_blocks rest usedChars in
              (block :: cleaned, removed)
        end
  end.

Definition sanitizeToolResultBlocksForAntigravity (blocks : list json) : list json :=
  let '(cleaned, removedImage) := sanitize_blocks blocks 0 in
  if removedImage then (cleaned ++ [image_omitted_block])%list else cleaned.

End ToolResults.

(** ** Message normalisation *)

Definition MISSING_TOOL_RESULT_TEXT : string :=
  "[tool_result missing; tool execution interrupted]".

Definition synthetic_tool_result (toolUseId : string) : json :=
  JObj [("type", JStr "tool_result");
        ("tool_use_id", JStr toolUseId);
        ("is_error", JBool true);
        ("content", JArr [text_block MISSING_TOOL_RESULT_TEXT])].

(** The user message that closes the pending tool calls. *)
Definition synthetic_results_message (pendingToolUseIds : list string) : json :=
  JObj [("role", JStr "user");
        ("content", JArr (map synthetic_tool_result pendingToolUseIds))].

Definition isIgnorableTrailingText (part : json) : bool :=
  (truthy part && type_is "text" part
   && match str_field "text" part with
      | Some s =>
          let trimmed := JsString.trim s in
          (JsString.is_empty trimmed || String.eqb trimmed "(no content)")%bool
      | None => false
      end)%bool.

Definition is_thinking_part (part : json) : bool :=
  (type_is "thinking" part || type_is "redacted_thinking" part)%bool.

Definition normalizeAssistantThinkingOrderForVendor (vendor : option string)
  (parts : list json) : list json :=
  if negb (is_antigravity vendor) then parts
  else
    let present := filter truthy parts in
    let thinkingBlocks :=
      map (without_field "cache_control") (filter is_thinking_part present) in
    let otherBlocks :=
      filter (fun part => negb (is_thinking_part part || isIgnorableTrailingText part)%bool)
             present in
    (thinkingBlocks ++ otherBlocks)%list.

(** [stripNonToolPartsAfterToolUse]: everything up to the first
    [tool_use], and after it the [tool_use] parts only. *)
Fixpoint strip_after (seenToolUse : bool) (parts : list json) : list json :=
  match parts with
  | [] => []
  | part :: rest =>
      if negb (truthy part) then strip_after seenToolUse rest
      else if type_is "tool_use" part then part :: strip_after true rest
      else if negb seenToolUse then part :: strip_after seenToolUse rest
      else strip_after seenToolUse rest
  end.

Definition stripNonToolPartsAfterToolUse (parts : list json) : list json :=
  strip_after false parts.

(** Identifiers of the [tool_use] parts that carry a string [id]. *)
Definition tool_use_ids (parts : list json) : list string :=
  flat_map (fun part =>
              if type_is "tool_use" part
              then match str_field "id" part with Some id => [id] | None => [] end
              else []) parts.

(** The string [tool_use_id]s of the given parts. *)
Definition tool_result_ids (parts : list json) : list string :=
  flat_map (fun part =>
              match str_field "tool_use_id" part with Some id => [id] | None => [] end)
           parts.

Definition is_tool_result (part : json) : bool := type_is "tool_result" part.

Definition is_nil {A} (l : list A) : bool :=
  match l with [] => true | _ :: _ => false end.

(** [Array.isArray(message.content)] for a truthy [message], with the
    array. *)
Definition message_content (message : json) : option (list json) :=
  if truthy message then as_array (field "content" message) else None.

Definition closing_messages (pendingToolUseIds : list string) : list json :=
  if is_nil pendingToolUseIds then []
  else [synthetic_results_message pendingToolUseIds].

(** The parts of a user message that follows pending tool calls: results
    first, then a synthetic result for every call left unanswered, then
    the rest.  Nothing moves when no call is unanswered. *)
Definition with_missing_results (pendingToolUseIds : list string) (parts : list json)
  : list json :=
  let toolResults := filter is_tool_result parts in
  let toolResultIds := tool_result_ids toolResults in
  let missing :=
    filter (fun id => negb (mem id toolResultIds)) pendingToolUseIds in
  if is_nil missing then parts
  else (toolResults ++ map synthetic_tool_result missing
          ++ filter (fun p => negb (is_tool_result p)) parts)%list.

(** The message or the two messages pushed for a user message. *)
Definition split_user_message (message : json) (parts : list json) : list json :=
  let toolResults := filter is_tool_result parts in
  if is_nil toolResults then [with_field "content" (JArr parts) message]
  else
    let nonToolResults := filter (fun p => negb (is_tool_result p)) parts in
    if is_nil nonToolResults
    then [with_field "content" (JArr toolResults) message]
    else [with_field "content" (JArr toolResults) message;
          with_field "content" (JArr nonToolResults) message].

(** One iteration of the main loop of [normalizeAnthropicMessages]: the
    messages pushed for [message] and the pending tool-use ids carried to
    the next iteration. *)
Definition normalize_message (vendor : option string)
  (pendingToolUseIds : list string) (message : json) : list json * list string :=
  match message_content message with
  | None => ([message], pendingToolUseIds)
  | Some content =>
      let parts := filter truthy content in
      let is_assistant := field_is "role" "assistant" message in
      let is_user := field_is "role" "user" message in
      let parts :=
        if is_assistant then normalizeAssistantThinkingOrderForVendor vendor parts
        else parts in
      if (is_antigravity vendor && is_assistant)%bool then
        let stripped := stripNonToolPartsAfterToolUse parts in
        ((closing_messages pendingToolUseIds
            ++ [with_field "content" (JArr stripped) message])%list,
         tool_use_ids stripped)
      else
        let '(parts, pendingToolUseIds) :=
          if (is_antigravity vendor && is_user
              && negb (is_nil pendingToolUseIds))%bool
          then (with_missing_results pendingToolUseIds parts, [])
          else (parts, pendingToolUseIds) in
        if negb is_user then
          ([with_field "content" (JArr parts) message], pendingToolUseIds)
        else (split_user_message message parts, pendingToolUseIds)
  end.

(** The whole loop, followed by the closing message for tool calls still
    pending at the end. *)
Fixpoint normalize_messages (vendor : option string)
  (pendingToolUseIds : list string) (messages : list json) : list json :=
  match messages with
  | [] =>
      if is_antigravity vendor then closing_messages pendingToolUseIds else []
  | message :: rest =>
      let '(pushed, pending) := normalize_message vendor pendingToolUseIds message in
      (pushed ++ normalize_messages vendor pending rest)%list
  end.

(** [normalizeAnthropicMessages(messages, { vendor })] *)
Definition normalizeAnthropicMessages (vendor : option string) (messages : json)
  : json :=
  match messages with
  | JArr (m :: rest) => JArr (normalize_messages vendor [] (m :: rest))
  | _ => messages
  end.

(** ** Thought signatures *)

(** The characters of [/^[A-Za-z0-9+/_=-]+$/]. *)
Definition is_token_char (c : ascii) : bool :=
  let n := nat_of_ascii c in
  ((Nat.leb 65 n && Nat.leb n 90) || (Nat.leb 97 n && Nat.leb n 122)
   || (Nat.leb 48 n && Nat.leb n 57)
   || Nat.eqb n 43 || Nat.eqb n 47 || Nat.eqb n 95 || Nat.eqb n 61
   || Nat.eqb n 45)%bool.

Fixpoint all_chars (p : ascii -> bool) (s : string) : bool :=
  match s with
  | EmptyString => true
  | String c r => (p c && all_chars p r)%bool
  end.

(** [s.replace(/\s+/g, '')] *)
Fixpoint remove_spaces (s : string) : string :=
  match s with
  | EmptyString => EmptyString
  | String c r => if JsString.is_space c then remove_spaces r
                  else String c (remove_spaces r)
  end.

Definition sanitizeThoughtSignatureForAntigravity (signature : option json) : string :=
  match signature with
  | Some (JStr s) =>
      let trimmed := JsString.trim s in
      if JsString.is_empty trimmed then ""
      else
        let compacted := remove_spaces trimmed in
        if 65536 <? JsString.len compacted then ""
        else if negb (negb (JsString.is_empty compacted)
                      && all_chars is_token_char compacted)%bool then ""
        else if JsString.len compacted <? 8 then ""
        else compacted
  | _ => ""
  end.

(** ** Whether the built request asks for thoughts *)

(** [buildGeminiRequestFromAnthropic] creates
    [generationConfig.thinkingConfig], with [include_thoughts: true], only
    for the antigravity vendor, a [body.thinking.type] equal to
    ['enabled'], a finite [budget_tokens] and a history that admits
    thinking ([canEnableAntigravityThinking]). *)
Definition builds_thinkingConfig (vendor : option string) (body : json)
  (finite_budget canEnableThinking : bool) : bool :=
  (is_antigravity vendor
   && match field "thinking" body with
      | Some thinking => field_is "type" "enabled" thinking
      | None => false
      end
   && finite_budget && canEnableThinking)%bool.

(** ** Reading a backend payload *)

Definition mapGeminiFinishReasonToAnthropicStopReason (finishReason : option json)
  : string :=
  let normalized :=
    JsString.toUpperCase
      (match finishReason with
       | Some v => if truthy v then toString v else ""
       | None => ""
       end) in
  if String.eqb normalized "MAX_TOKENS" then "max_tokens" else "end_turn".

(** [payload?.candidates?.[0]?.content?.parts] *)
Definition candidate_parts (payload : option json) : option json :=
  field_opt "parts"
    (field_opt "content" (index0_opt (field_opt "candidates" payload))).

Definition extractGeminiParts (payload : option json) : list json :=
  match as_array (candidate_parts payload) with
  | Some parts => parts
  | None => []
  end.

(** A part's [text] when it is a non-empty string. *)
Definition part_text (part : json) : option string :=
  match str_field "text" part with
  | Some s => if JsString.is_empty s then None else Some s
  | None => None
  end.

Definition texts_where (keep : json -> bool) (parts : list json) : string :=
  JsString.concat_all
    (flat_map (fun part =>
                 match part_text part with
                 | Some s => if keep part then [s] else []
                 | None => []
                 end) parts).

Definition extractGeminiText (payload : option json) : string :=
  texts_where (fun part => negb (truthy_opt (field "thought" part)))
              (extractGeminiParts payload).

Definition extractGeminiThoughtText (payload : option json) : string :=
  texts_where (fun part => truthy_opt (field "thought" part))
              (extractGeminiParts payload).

(** [part.thoughtSignature || part.thought_signature || part.signature || ''],
    [None] standing for the empty string. *)
Definition resolveSignature (part : json) : option json :=
  let pick k := match field k part with
                | Some v => if truthy v then Some v else None
                | None => None
                end in
  match pick "thoughtSignature" with
  | Some v => Some v
  | None => match pick "thought_signature" with
            | Some v => Some v
            | None => pick "signature"
            end
  end.

Fixpoint first_signature (keep : json -> bool) (parts : list json) : option json :=
  match parts with
  | [] => None
  | part :: r =>
      if keep part then
        match resolveSignature part with
        | Some v => Some v
        | None => first_signature keep r
        end
      else first_signature keep r
  end.

Definition extractGeminiThoughtSignature (payload : option json) : option json :=
  let parts := extractGeminiParts payload in
  match first_signature
          (fun part => truthy_opt (field_opt "name" (field "functionCall" part)))
          parts with
  | Some v => Some v
  | None => first_signature (fun part => truthy_opt (field "thought" part)) parts
  end.

(** A counter of [usageMetadata], [x || 0]; the counters are numbers. *)
Definition usage_count (k : string) (usage : json) : Z :=
  match field k usage with Some (JNum n) => n | _ => 0 end.

Definition resolveUsageOutputTokens (usageMetadata : option json) : Z :=
  match usageMetadata with
  | Some usage =>
      if (truthy usage && is_object usage)%bool then
        let promptTokens := usage_count "promptTokenCount" usage in
        let candidateTokens := usage_count "candidatesTokenCount" usage in
        let thoughtTokens := usage_count "thoughtsTokenCount" usage in
        let totalTokens := usage_count "totalTokenCount" usage in
        let outputTokens := candidateTokens + thoughtTokens in
        if ((outputTokens =? 0) && (0 <? totalTokens))%bool
        then Z.max 0 (totalTokens - promptTokens)
        else outputTokens
      else 0
  | None => 0
  end.

Section Runtime.

(** [JSON.parse], [None] when it throws.  *)
Variable JSON_parse : string -> option json.

(** [buildToolUseId()] draws random bytes; [buildToolUseId n] is the
    identifier of the [n]-th draw of the request. *)
Variable buildToolUseId : nat -> string.

Definition normalizeToolUseInput (input : option json) : json :=
  match input with
  | None | Some JNull => JObj []
  | Some (JArr l) => JArr l
  | Some (JObj o) => JObj o
  | Some (JStr s) =>
      let trimmed := JsString.trim s in
      if JsString.is_empty trimmed then JObj []
      else match JSON_parse trimmed with
           | Some parsed => if is_object parsed then parsed else JObj []
           | None => JObj []
           end
  | Some _ => JObj []
  end.

(** What [pushThinkingBlock] appends. *)
Definition thinking_blocks (thinkingText : string) (sig : option json) : list json :=
  let normalizedSignature := match sig with Some (JStr s) => s | _ => "" end in
  if (JsString.is_empty thinkingText && JsString.is_empty normalizedSignature)%bool
  then []
  else if JsString.is_empty normalizedSignature
       then [JObj [("type", JStr "thinking"); ("thinking", JStr thinkingText)]]
       else [JObj [("type", JStr "thinking"); ("thinking", JStr thinkingText);
                   ("signature", JStr normalizedSignature)]].

(** What [flushText] appends. *)
Definition flushed (currentText : string) : list json :=
  if JsString.is_empty currentText then [] else [text_block currentText].

(** The loop of [convertGeminiPayloadToAnthropicContent]: the blocks
    appended from [parts] on, given the pending [currentText] and the
    number [n] of identifiers drawn so far. *)
Fixpoint convert_parts (parts : list json) (currentText : string) (n : nat)
  : list json * nat :=
  match parts with
  | [] => (flushed currentText, n)
  | part :: rest =>
      if match field "thought" part with Some (JBool true) => true | _ => false end
      then
        let '(blocks, n') := convert_parts rest "" n in
        ((flushed currentText
            ++ thinking_blocks
                 (match str_field "text" part with Some s => s | None => "" end)
                 (resolveSignature part)
            ++ blocks)%list, n')
      else
        match part_text part with
        | Some s => convert_parts rest (currentText ++ s) n
        | None =>
            match field "functionCall" part with
            | Some functionCall =>
                match field "name" functionCall with
                | Some name =>
                    if truthy name then
                      let '(toolUseId, n1) :=
                        match str_field "id" functionCall with
                        | Some id =>
                            if JsString.is_empty id
                            then (buildToolUseId n, S n) else (id, n)
                        | None => (buildToolUseId n, S n)
                        end in
                      let '(blocks, n') := convert_parts rest "" n1 in
                      ((flushed currentText
                         ++ match resolveSignature part with
                            | Some sig => thinking_blocks "" (Some sig)
                            | None => []
                            end
                         ++ [JObj [("type", JStr "tool_use");
                                   ("id", JStr toolUseId);
                                   ("name", name);
                                   ("input",
                                    normalizeToolUseInput (field "args" functionCall))]]
                         ++ blocks)%list, n')
                    else convert_parts rest currentText n
                | None => convert_parts rest currentText n
                end
            | None => convert_parts rest currentText n
            end
        end
  end.

Definition is_thinking_block (b : json) : bool :=
  (type_is "thinking" b || type_is "redacted_thinking" b)%bool.

Definition convertGeminiPayloadToAnthropicContent (payload : option json) (n : nat)
  : list json * nat :=
  let '(content, n') := convert_parts (extractGeminiParts payload) "" n in
  let thinkingBlocks := filter is_thinking_block content in
  match thinkingBlocks, content with
  | _ :: _, first :: _ =>
      if is_thinking_block first then (content, n')
      else ((thinkingBlocks
               ++ filter (fun b => negb (is_thinking_block b)) content)%list, n')
  | _, _ => (content, n')
  end.

(** ** The non-streaming reply *)

(** What [tryExtractWriteToolFromText] returns on success: the text before
    the directive and the [input] of the synthesized [Write] call. *)
Record extracted_write := { prefixText : string; write_input : json }.

(** [isEnvEnabled(process.env[TEXT_TOOL_FALLBACK_ENV])] *)
Variable text_tool_fallback : bool.

(** [tryExtractWriteToolFromText(text, process.cwd())]; it resolves paths
    through the runtime's [path] module and is taken as given. *)
Variable tryExtractWriteToolFromText : string -> option extracted_write.

(** The fields of [responseBody] that depend on the payload. *)
Record reply := {
  content : list json;
  stop_reason : string;
  input_tokens : Z;
  output_tokens : Z
}.

Definition EMPTY_REPLY_TEXT : string :=
  "上游返回空响应（可能被截断、连接中断或限流导致）。请重试，或改用 stream=true。".

Definition has_tool_use (blocks : list json) : bool :=
  existsb (type_is "tool_use") blocks.

(** From [convertGeminiPayloadToAnthropicContent(payload)] to
    [responseBody] in the non-streaming branch of
    [handleAnthropicMessagesToGemini]. *)
Definition nonstream_reply (payload : option json) (n : nat) : reply :=
  let '(content, n) := convertGeminiPayloadToAnthropicContent payload n in
  let content :=
    match content with [] => [text_block EMPTY_REPLY_TEXT] | _ => content end in
  let hasToolUse := has_tool_use content in
  let '(content, hasToolUse) :=
    if (negb hasToolUse && text_tool_fallback)%bool then
      match tryExtractWriteToolFromText (extractGeminiText payload) with
      | Some extracted =>
          (((if JsString.is_empty (prefixText extracted) then []
             else [text_block (prefixText extracted)])
              ++ [JObj [("type", JStr "tool_use");
                        ("id", JStr (buildToolUseId n));
                        ("name", JStr "Write");
                        ("input", write_input extracted)]])%list,
           true)
      | None => (content, hasToolUse)
      end
    else (content, hasToolUse) in
  let usageMetadata :=
    match field_opt "usageMetadata" payload with
    | Some u => if truthy u then u else JObj []
    | None => JObj []
    end in
  let finishReason :=
    field_opt "finishReason" (index0_opt (field_opt "candidates" payload)) in
  {| content := content;
     stop_reason :=
       if hasToolUse then "tool_use"
       else mapGeminiFinishReasonToAnthropicStopReason finishReason;
     input_tokens := usage_count "promptTokenCount" usageMetadata;
     output_tokens := resolveUsageOutputTokens (Some usageMetadata) |}.

End Runtime.

End Bridge.

(* ====================================================================== *)
(** * The streaming translator                                              *)
(* ====================================================================== *)

(** The streaming branch of [handleAnthropicMessagesToGemini]: the
    closures of the request share mutable variables, which make up the
    [state]; every callback ([data], [end], [error] and the two watchdog
    timers) is a function on that state.  [res.write] appends to [out].

    - [parseSSELine] ([utils/sseParser]) is not among the sources and is a
      parameter, as are the replies of the non-streaming rescue requests,
      which come from the network.
    - A [functionCall.name] or a thought signature that is truthy and no
      string raises a [TypeError] inside the callback ([outcome]): the
      callback is left at once and the variables stay as they are.  What
      the caller of a [data] listener does with the exception is outside
      the sources; the model goes on with the next upstream event, and a
      process that stops instead has seen a prefix of the events.
    - The writes to the process-wide signature cache made while thinking
      text streams do not feed back into the stream and are left out, and
      so are usage accounting, logging and debug dumps. *)

Module Stream.
Import Json Bridge.

(** ** Events written to the client *)

Inductive block_type := Text | Thinking | ToolUse.

Definition block_type_eqb (a b : block_type) : bool :=
  match a, b with
  | Text, Text | Thinking, Thinking | ToolUse, ToolUse => true
  | _, _ => false
  end.

(** [content_block] of a [content_block_start] event. *)
Inductive content_block :=
| TextBlock
| ThinkingBlock
| ToolUseBlock (id name : string).

(** [delta] of a [content_block_delta] event. *)
Inductive block_delta :=
| text_delta (text : string)
| thinking_delta (thinking : string)
| signature_delta (signature : string)
| input_json_delta (partial_json : string).

Inductive sse_event :=
| message_start (id model : string)
| content_block_start (index : Z) (block : content_block)
| content_block_delta (index : Z) (delta : block_delta)
| content_block_stop (index : Z)
| message_delta (stop_reason : string) (output_tokens : Z)
| message_stop
| error_event (type message : string).

(** ** State of one streaming response *)

(** [currentIndex], [currentBlockType] and every event handed to
    [writeAnthropicSseEvent] so far, in order.  Events handed over after
    [res.end()] are listed as well; what the client receives is a prefix
    of [out]. *)
Record block_state := {
  out : list sse_event;
  currentIndex : Z;
  currentBlockType : option block_type
}.

(** An entry of [pendingToolCallsById]: [name] is whatever truthy value
    the upstream sent, [args] an object once there is one. *)
Record pending_call := {
  pending_name : json;
  pending_args : option (list (string * json));
  pending_argsJson : string
}.

Record emit_state := {
  emittedText : string;
  emittedThinking : string;
  emittedThoughtSignature : string;
  emittedAnyToolUse : bool;
  emittedToolCallKeys : list string;
  pendingToolCallsById : JsMap.t pending_call;
  mcpXmlBuffer : string;
  inMcpXml : bool;
  idsDrawn : nat
}.

Record conn_state := {
  buffer : string;
  finished : bool;
  ended : bool;
  aborted : bool;
  usageMetadata : option json;
  finishReason : option json;
  rescueAttempted : bool;
  forcedRescueAttempted : bool;
  rescueRequests : nat;
  receivedAnyUpstreamBytes : bool;
  activityTimeout : bool;
  firstByteTimeout : bool
}.

Record state := { blk : block_state; emit : emit_state; conn : conn_state }.

Definition on_blk (f : block_state -> block_state) (s : state) : state :=
  {| blk := f (blk s); emit := emit s; conn := conn s |}.
Definition on_emit (f : emit_state -> emit_state) (s : state) : state :=
  {| blk := blk s; emit := f (emit s); conn := conn s |}.
Definition on_conn (f : conn_state -> conn_state) (s : state) : state :=
  {| blk := blk s; emit := emit s; conn := f (conn s) |}.

Definition write (e : sse_event) : state -> state :=
  on_blk (fun b => {| out := (out b ++ [e])%list;
                      currentIndex := currentIndex b;
                      currentBlockType := currentBlockType b |}).

Definition set_currentIndex (i : Z) : state -> state :=
  on_blk (fun b => {| out := out b; currentIndex := i;
                      currentBlockType := currentBlockType b |}).

Definition set_currentBlockType (t : option block_type) : state -> state :=
  on_blk (fun b => {| out := out b; currentIndex := currentIndex b;
                      currentBlockType := t |}).

Definition set_emittedText (x : string) : state -> state :=
  on_emit (fun e =>
    {| emittedText := x; emittedThinking := emittedThinking e;
       emittedThoughtSignature := emittedThoughtSignature e;
       emittedAnyToolUse := emittedAnyToolUse e;
       emittedToolCallKeys := emittedToolCallKeys e;
       pendingToolCallsById := pendingToolCallsById e;
       mcpXmlBuffer := mcpXmlBuffer e; inMcpXml := inMcpXml e;
       idsDrawn := idsDrawn e |}).

Definition set_emittedThinking (x : string) : state -> state :=
  on_emit (fun e =>
    {| emittedText := emittedText e; emittedThinking := x;
       emittedThoughtSignature := emittedThoughtSignature e;
       emittedAnyToolUse := emittedAnyToolUse e;
       emittedToolCallKeys := emittedToolCallKeys e;
       pendingToolCallsById := pendingToolCallsById e;
       mcpXmlBuffer := mcpXmlBuffer e; inMcpXml := inMcpXml e;
       idsDrawn := idsDrawn e |}).

Definition set_emittedThoughtSignature (x : string) : state -> state :=
  on_emit (fun e =>
    {| emittedText := emittedText e; emittedThinking := emittedThinking e;
       emittedThoughtSignature := x;
       emittedAnyToolUse := emittedAnyToolUse e;
       emittedToolCallKeys := emittedToolCallKeys e;
       pendingToolCallsById := pendingToolCallsById e;
       mcpXmlBuffer := mcpXmlBuffer e; inMcpXml := inMcpXml e;
       idsDrawn := idsDrawn e |}).

Definition set_emittedAnyToolUse (x : bool) : state -> state :=
  on_emit (fun e =>
    {| emittedText := emittedText e; emittedThinking := emittedThinking e;
       emittedThoughtSignature := emittedThoughtSignature e;
       emittedAnyToolUse := x;
       emittedToolCallKeys := emittedToolCallKeys e;
       pendingToolCallsById := pendingToolCallsById e;
       mcpXmlBuffer := mcpXmlBuffer e; inMcpXml := inMcpXml e;
       idsDrawn := idsDrawn e |}).

Definition set_emittedToolCallKeys (x : list string) : state -> state :=
  on_emit (fun e =>
    {| emittedText := emittedText e; emittedThinking := emittedThinking e;
       emittedThoughtSignature := emittedThoughtSignature e;
       emittedAnyToolUse := emittedAnyToolUse e;
       emittedToolCallKeys := x;
       pendingToolCallsById := pendingToolCallsById e;
       mcpXmlBuffer := mcpXmlBuffer e; inMcpXml := inMcpXml e;
       idsDrawn := idsDrawn e |}).

Definition set_pendingToolCallsById (x : JsMap.t pending_call) : state -> state :=
  on_emit (fun e =>
    {| emittedText := emittedText e; emittedThinking := emittedThinking e;
       emittedThoughtSignature := emittedThoughtSignature e;
       emittedAnyToolUse := emittedAnyToolUse e;
       emittedToolCallKeys := emittedToolCallKeys e;
       pendingToolCallsById := x;
       mcpXmlBuffer := mcpXmlBuffer e; inMcpXml := inMcpXml e;
       idsDrawn := idsDrawn e |}).

Definition set_mcpXml (buf : string) (inXml : bool) : state -> state :=
  on_emit (fun e =>
    {| emittedText := emittedText e; emittedThinking := emittedThinking e;
       emittedThoughtSignature := emittedThoughtSignature e;
       emittedAnyToolUse := emittedAnyToolUse e;
       emittedToolCallKeys := emittedToolCallKeys e;
       pendingToolCallsById := pendingToolCallsById e;
       mcpXmlBuffer := buf; inMcpXml := inXml;
       idsDrawn := idsDrawn e |}).

Definition set_idsDrawn (x : nat) : state -> state :=
  on_emit (fun e =>
    {| emittedText := emittedText e; emittedThinking := emittedThinking e;
       emittedThoughtSignature := emittedThoughtSignature e;
       emittedAnyToolUse := emittedAnyToolUse e;
       emittedToolCallKeys := emittedToolCallKeys e;
       pendingToolCallsById := pendingToolCallsById e;
       mcpXmlBuffer := mcpXmlBuffer e; inMcpXml := inMcpXml e;
       idsDrawn := x |}).

Definition set_buffer (x : string) : state -> state :=
  on_conn (fun c =>
    {| buffer := x; finished := finished c; ended := ended c; aborted := aborted c;
       usageMetadata := usageMetadata c; finishReason := finishReason c;
       rescueAttempted := rescueAttempted c;
       forcedRescueAttempted := forcedRescueAttempted c;
       rescueRequests := rescueRequests c;
       receivedAnyUpstreamBytes := receivedAnyUpstreamBytes c;
       activityTimeout := activityTimeout c;
       firstByteTimeout := firstByteTimeout c |}).

Definition set_finished (x : bool) : state -> state :=
  on_conn (fun c =>
    {| buffer := buffer c; finished := x; ended := ended c; aborted := aborted c;
       usageMetadata := usageMetadata c; finishReason := finishReason c;
       rescueAttempted := rescueAttempted c;
       forcedRescueAttempted := forcedRescueAttempted c;
       rescueRequests := rescueRequests c;
       receivedAnyUpstreamBytes := receivedAnyUpstreamBytes c;
       activityTimeout := activityTimeout c;
       firstByteTimeout := firstByteTimeout c |}).

(** [res.end()] *)
Definition res_end : state -> state :=
  on_conn (fun c =>
    {| buffer := buffer c; finished := finished c; ended := true; aborted := aborted c;
       usageMetadata := usageMetadata c; finishReason := finishReason c;
       rescueAttempted := rescueAttempted c;
       forcedRescueAttempted := forcedRescueAttempted c;
       rescueRequests := rescueRequests c;
       receivedAnyUpstreamBytes := receivedAnyUpstreamBytes c;
       activityTimeout := activityTimeout c;
       firstByteTimeout := firstByteTimeout c |}).

(** [abortController.abort()] *)
Definition abort : state -> state :=
  on_conn (fun c =>
    {| buffer := buffer c; finished := finished c; ended := ended c; aborted := true;
       usageMetadata := usageMetadata c; finishReason := finishReason c;
       rescueAttempted := rescueAttempted c;
       forcedRescueAttempted := forcedRescueAttempted c;
       rescueRequests := rescueRequests c;
       receivedAnyUpstreamBytes := receivedAnyUpstreamBytes c;
       activityTimeout := activityTimeout c;
       firstByteTimeout := firstByteTimeout c |}).

Definition set_usageMetadata (x : option json) : state -> state :=
  on_conn (fun c =>
    {| buffer := buffer c; finished := finished c; ended := ended c; aborted := aborted c;
       usageMetadata := x; finishReason := finishReason c;
       rescueAttempted := rescueAttempted c;
       forcedRescueAttempted := forcedRescueAttempted c;
       rescueRequests := rescueRequests c;
       receivedAnyUpstreamBytes := receivedAnyUpstreamBytes c;
       activityTimeout := activityTimeout c;
       firstByteTimeout := firstByteTimeout c |}).

Definition set_finishReason (x : option json) : state -> state :=
  on_conn (fun c =>
    {| buffer := buffer c; finished := finished c; ended := ended c; aborted := aborted c;
       usageMetadata := usageMetadata c; finishReason := x;
       rescueAttempted := rescueAttempted c;
       forcedRescueAttempted := forcedRescueAttempted c;
       rescueRequests := rescueRequests c;
       receivedAnyUpstreamBytes := receivedAnyUpstreamBytes c;
       activityTimeout := activityTimeout c;
       firstByteTimeout := firstByteTimeout c |}).

(** One more non-streaming request goes out; [forced] marks the second,
    tool-forcing one. *)
Definition note_rescue_request (forced : bool) : state -> state :=
  on_conn (fun c =>
    {| buffer := buffer c; finished := finished c; ended := ended c; aborted := aborted c;
       usageMetadata := usageMetadata c; finishReason := finishReason c;
       rescueAttempted := true;
       forcedRescueAttempted := (forced || forcedRescueAttempted c)%bool;
       rescueRequests := S (rescueRequests c);
       receivedAnyUpstreamBytes := receivedAnyUpstreamBytes c;
       activityTimeout := activityTimeout c;
       firstByteTimeout := firstByteTimeout c |}).

(** Arms or clears the two watchdog timers and records that bytes came. *)
Definition set_timers (received activity firstByte : bool) : state -> state :=
  on_conn (fun c =>
    {| buffer := buffer c; finished := finished c; ended := ended c; aborted := aborted c;
       usageMetadata := usageMetadata c; finishReason := finishReason c;
       rescueAttempted := rescueAttempted c;
       forcedRescueAttempted := forcedRescueAttempted c;
       rescueRequests := rescueRequests c;
       receivedAnyUpstreamBytes := received;
       activityTimeout := activity;
       firstByteTimeout := firstByte |}).

(** ** Per-request constants and inputs *)

(** What the closures capture from the request: the vendor, whether the
    built request asks for thoughts
    ([generationConfig.thinkingConfig.include_thoughts === true]), the
    identifier and model echoed to the client, and the tool named by the
    latest task list ([plannedToolName]). *)
Record request_config := {
  isAntigravityVendor : bool;
  include_thoughts : bool;
  messageId : string;
  responseModel : string;
  plannedToolName : option string
}.

Definition wantsThinkingBlockFirst (cfg : request_config) : bool :=
  (isAntigravityVendor cfg && include_thoughts cfg)%bool.

(** Result of [parseSSELine] on a non-blank line. *)
Inductive parsed_line :=
| ControlLine
| InvalidLine
| DataLine (data : json)
| OtherLine.

(** Outcome of a non-streaming rescue request: it fails, or it resolves
    with [rawResponse]. *)
Inductive rescue_reply :=
| RescueFailed
| RescueReplied (rawResponse : option json).

(** What the upstream stream and the timers deliver. *)
Inductive upstream_event :=
| DataChunk (chunk : string)
| StreamEnd
| StreamError (message : string)
| ActivityTimerFires
| FirstByteTimerFires.

(** ** Block-level writes *)

Definition is_open (t : option block_type) : bool :=
  match t with Some Text | Some Thinking => true | _ => false end.

Definition startTextBlock (index : Z) : state -> state :=
  write (content_block_start index TextBlock).

Definition startThinkingBlock (index : Z) : state -> state :=
  write (content_block_start index ThinkingBlock).

Definition stopCurrentBlock (s : state) : state :=
  write (content_block_stop (currentIndex (blk s))) s.

(** [if (currentBlockType === 'text' || currentBlockType === 'thinking')
    stopCurrentBlock()] *)
Definition stop_if_open (s : state) : state :=
  if is_open (currentBlockType (blk s)) then stopCurrentBlock s else s.

Definition switchBlockType (nextType : block_type) (s : state) : state :=
  if match currentBlockType (blk s) with
     | Some t => block_type_eqb t nextType
     | None => false
     end
  then s
  else
    let s := stop_if_open s in
    let s := set_currentIndex (currentIndex (blk s) + 1) s in
    let s := set_currentBlockType (Some nextType) s in
    match nextType with
    | Text => startTextBlock (currentIndex (blk s)) s
    | Thinking => startThinkingBlock (currentIndex (blk s)) s
    | ToolUse => s
    end.

(** A delta for the block that is current. *)
Definition write_delta (d : block_delta) (s : state) : state :=
  write (content_block_delta (currentIndex (blk s)) d) s.

(** ** How a callback ends *)

(** A callback or one of its steps returns, or a [TypeError] leaves it
    at once; [s] holds the variables of the request as they are then. *)
Inductive outcome :=
| Returned (s : state)
| Raised (s : state).

Definition state_of (o : outcome) : state :=
  match o with Returned s | Raised s => s end.

(** The statements after a step run only when it returned. *)
Definition and_then (o : outcome) (next : state -> outcome) : outcome :=
  match o with
  | Returned s => next s
  | Raised s => Raised s
  end.

(** [for (const x of l) body(x)] *)
Fixpoint for_each {A} (body : A -> state -> outcome) (l : list A) (s : state)
  : outcome :=
  match l with
  | [] => Returned s
  | x :: rest => and_then (body x s) (for_each body rest)
  end.

Section Translator.

Variable JSON_parse : string -> option json.
Variable buildToolUseId : nat -> string.
Variable parseSSELine : string -> parsed_line.
Variable cfg : request_config.

Definition canStartThinkingBlock (s : state) : bool :=
  if (isAntigravityVendor cfg && wantsThinkingBlockFirst cfg
      && emittedAnyToolUse (emit s))%bool then false
  else if currentIndex (blk s) <? 0 then true
  else if match currentBlockType (blk s) with Some Thinking => true | _ => false end
  then true
  else negb (JsString.is_empty (emittedThinking (emit s))
             && JsString.is_empty (emittedThoughtSignature (emit s)))%bool.

(** [emitToolUseBlock(name, args, id)] for a [name] that is a string: the
    arguments are remapped, then the block is written whole under the
    next index.  Where the name comes from the upstream and may be of
    another type, the callers go through [emit_call] and
    [emit_rescued]. *)
Definition emitToolUseBlock (name : string) (args : option json) (id : option string)
  (s : state) : state :=
  let args :=
    match args with
    | Some a => if (truthy a && is_object a)%bool
                then Some (remapFunctionCallArgs name a) else Some a
    | None => None
    end in
  let '(toolUseId, s) :=
    match id with
    | Some i =>
        if JsString.is_empty i
        then (buildToolUseId (idsDrawn (emit s)), set_idsDrawn (S (idsDrawn (emit s))) s)
        else (i, s)
    | None =>
        (buildToolUseId (idsDrawn (emit s)), set_idsDrawn (S (idsDrawn (emit s))) s)
    end in
  let jsonArgs :=
    stableJsonStringify
      (match args with
       | Some a => if truthy a then a else JObj []
       | None => JObj []
       end) in
  let s := set_currentIndex (currentIndex (blk s) + 1) s in
  let toolIndex := currentIndex (blk s) in
  let s := write (content_block_start toolIndex (ToolUseBlock toolUseId name)) s in
  let s := write (content_block_delta toolIndex (input_json_delta jsonArgs)) s in
  let s := write (content_block_stop toolIndex) s in
  let s := set_emittedAnyToolUse true s in
  set_currentBlockType None s.

(** [emitToolUseBlock(name, args, id)] as the function call path calls
    it, with a truthy [name] and an object [args]: the call starts with
    [remapFunctionCallArgs(name, args)], whose [(name || '').toLowerCase()]
    throws a [TypeError] when the name is not a string, before anything
    is written. *)
Definition emit_call (name : json) (args : list (string * json)) (id : option string)
  (s : state) : outcome :=
  match name with
  | JStr name => Returned (emitToolUseBlock name (Some (JObj args)) id s)
  | _ => Raised s
  end.

(** [{ args, json, canContinue }]; [args] is an object that is no array,
    or [null]. *)
Record call_args := {
  resolved_args : option (list (string * json));
  resolved_json : string;
  canContinue : bool
}.

Definition resolveFunctionCallArgs (functionCall : json) : call_args :=
  let is_true k := match field k functionCall with
                   | Some (JBool true) => true | _ => false end in
  let is_true_string k := match field k functionCall with
                          | Some (JStr s) => String.eqb s "true" | _ => false end in
  let canContinue :=
    (is_true "willContinue" || is_true "will_continue" || is_true "continue"
     || is_true_string "willContinue" || is_true_string "will_continue")%bool in
  let raw :=
    match field "args" functionCall with
    | Some v => v
    | None =>
        match field "partialArgs" functionCall with
        | Some v => v
        | None =>
            match field "partial_args" functionCall with
            | Some v => v
            | None =>
                match field "argsJson" functionCall with
                | Some v => v
                | None =>
                    match field "args_json" functionCall with
                    | Some v => v
                    | None => JStr ""
                    end
                end
            end
        end
    end in
  match raw with
  | JObj props =>
      {| resolved_args := Some props; resolved_json := ""; canContinue := canContinue |}
  | _ =>
      let json := match raw with
                  | JStr s => s
                  | JNull => ""
                  | _ => toString raw
                  end in
      if JsString.is_empty json then
        {| resolved_args := None; resolved_json := ""; canContinue := canContinue |}
      else
        match JSON_parse json with
        | Some (JObj props) =>
            {| resolved_args := Some props; resolved_json := "";
               canContinue := canContinue |}
        | _ =>
            {| resolved_args := None; resolved_json := json;
               canContinue := canContinue |}
        end
  end.

(** ** The inline tag bridge *)

Inductive xml_action :=
| TextAction (text : string)
| ToolAction (name : string) (args : json).

Definition MAX_BUFFER_CHARS : Z := 65536.

(** The buffer, the [inMcpXml] flag and the actions collected so far. *)
Record xml_state := {
  xml_buffer : string;
  xml_in : bool;
  xml_actions : list xml_action
}.

Definition appendToBuffer (text : string) (x : xml_state) : xml_state :=
  if JsString.is_empty text then x
  else
    let buf := xml_buffer x ++ text in
    if MAX_BUFFER_CHARS <? JsString.len buf
    then {| xml_buffer := ""; xml_in := false;
            xml_actions := (xml_actions x ++ [TextAction buf])%list |}
    else {| xml_buffer := buf; xml_in := xml_in x; xml_actions := xml_actions x |}.

(** One pass over the body of the [while (inMcpXml && mcpXmlBuffer)]
    loop: the loop is left, or it goes on with a shorter buffer. *)
Inductive loop_step :=
| Break (x : xml_state)
| Continue (x : xml_state).

Definition xml_iteration (x : xml_state) : loop_step :=
  if negb (xml_in x && negb (JsString.is_empty (xml_buffer x)))%bool then Break x
  else
    match JsString.indexOf (xml_buffer x) "<mcp__" with
    | None =>
        Break {| xml_buffer := ""; xml_in := false;
                 xml_actions := (xml_actions x ++ [TextAction (xml_buffer x)])%list |}
    | Some startIdx =>
        let actions :=
          match startIdx with
          | O => xml_actions x
          | S _ => (xml_actions x
                      ++ [TextAction (JsString.take startIdx (xml_buffer x))])%list
          end in
        let buf := JsString.drop startIdx (xml_buffer x) in
        match JsString.indexOf buf ">" with
        | None => Break {| xml_buffer := buf; xml_in := true; xml_actions := actions |}
        | Some tagEnd =>
            let toolName := JsString.take (tagEnd - 1) (JsString.drop 1 buf) in
            let endTag := "</" ++ toolName ++ ">" in
            match JsString.indexOf_from buf endTag (tagEnd + 1) with
            | None =>
                Break {| xml_buffer := buf; xml_in := true; xml_actions := actions |}
            | Some closeIdx =>
                let inputStr :=
                  JsString.trim
                    (JsString.take (closeIdx - (tagEnd + 1))
                                   (JsString.drop (tagEnd + 1) buf)) in
                let input :=
                  if JsString.is_empty inputStr then JObj []
                  else match JSON_parse inputStr with
                       | Some v => v
                       | None => JObj [("input", JStr inputStr)]
                       end in
                let actions := (actions ++ [ToolAction toolName input])%list in
                let rest := JsString.drop (closeIdx + String.length endTag) buf in
                if JsString.is_empty rest
                then Break {| xml_buffer := rest; xml_in := false;
                              xml_actions := actions |}
                else Continue {| xml_buffer := rest;
                                 xml_in := JsString.includes rest "<mcp__";
                                 xml_actions := actions |}
            end
        end
    end.

(** The loop.  Every pass that does not leave it removes a complete tag
    from the buffer, so [fuel] above the buffer length is never used up. *)
Fixpoint xml_loop (fuel : nat) (x : xml_state) : xml_state :=
  match fuel with
  | O => x
  | S fuel' =>
      match xml_iteration x with
      | Break r => r
      | Continue x' => xml_loop fuel' x'
      end
  end.

(** The loop as it runs in the source, without a bound. *)
Inductive xml_loop_runs : xml_state -> xml_state -> Prop :=
| loop_leaves x r : xml_iteration x = Break r -> xml_loop_runs x r
| loop_goes_on x x' r :
    xml_iteration x = Continue x' -> xml_loop_runs x' r -> xml_loop_runs x r.

(** [processMcpXmlBridgeDelta(deltaText)] for a non-empty text: the new
    buffer and flag, and the actions. *)
Definition processMcpXmlBridgeDelta (deltaText : string) (buf : string) (inXml : bool)
  : xml_state :=
  let start := {| xml_buffer := buf; xml_in := inXml; xml_actions := [] |} in
  if negb inXml then
    match JsString.indexOf deltaText "<mcp__" with
    | None =>
        {| xml_buffer := buf; xml_in := inXml; xml_actions := [TextAction deltaText] |}
    | Some startIdx =>
        let prefix := JsString.take startIdx deltaText in
        let x :=
          {| xml_buffer := buf; xml_in := true;
             xml_actions := if JsString.is_empty prefix then []
                            else [TextAction prefix] |} in
        let x := appendToBuffer (JsString.drop startIdx deltaText) x in
        xml_loop (S (String.length (xml_buffer x))) x
    end
  else
    let x := appendToBuffer deltaText start in
    xml_loop (S (String.length (xml_buffer x))) x.

(** ** Tool calls *)

(** [flushPendingToolCallById(id, { force })].  The entry is updated in
    place before the block is emitted and deleted after it, so it stays,
    updated, when [emitToolUseBlock] throws. *)
Definition flushPendingToolCallById (id : string) (force : bool) (s : state) : outcome :=
  match JsMap.get id (pendingToolCallsById (emit s)) with
  | None => Returned s
  | Some pending =>
      if negb (truthy (pending_name pending)) then Returned s
      else
        let pending :=
          match pending_args pending with
          | Some _ => pending
          | None =>
              if JsString.is_empty (pending_argsJson pending) then pending
              else match JSON_parse (pending_argsJson pending) with
                   | Some (JObj parsed) =>
                       {| pending_name := pending_name pending;
                          pending_args := Some parsed;
                          pending_argsJson := "" |}
                   | _ => pending
                   end
          end in
        match (match pending_args pending with
               | Some args => Some args
               | None => if force then Some [] else None
               end) with
        | None => Returned s
        | Some args =>
            let pending :=
              {| pending_name := pending_name pending;
                 pending_args := Some args;
                 pending_argsJson := pending_argsJson pending |} in
            let s := set_pendingToolCallsById
                       (JsMap.set id pending (pendingToolCallsById (emit s))) s in
            let toolKey := "id:" ++ id in
            if mem toolKey (emittedToolCallKeys (emit s)) then
              Returned (set_pendingToolCallsById
                          (JsMap.delete id (pendingToolCallsById (emit s))) s)
            else
              let s := set_emittedToolCallKeys
                         (toolKey :: emittedToolCallKeys (emit s)) s in
              let s := stop_if_open s in
              let s := set_currentBlockType (Some ToolUse) s in
              and_then (emit_call (pending_name pending) args (Some id) s)
                (fun s =>
                   Returned (set_pendingToolCallsById
                               (JsMap.delete id (pendingToolCallsById (emit s))) s))
        end
  end.

(** The body of [for (const part of parts)] in the [data] callback. *)
Definition function_call_run (part : json) (s : state) : outcome :=
  match field "functionCall" part with
  | None => Returned s
  | Some functionCall =>
      match field "name" functionCall with
      | None => Returned s
      | Some name =>
          if negb (truthy name) then Returned s
          else
            let id := match str_field "id" functionCall with
                      | Some i => if JsString.is_empty i then None else Some i
                      | None => None
                      end in
            let r := resolveFunctionCallArgs functionCall in
            match id with
            | None =>
                let finalArgs := match resolved_args r with
                                 | Some a => a
                                 | None => []
                                 end in
                let toolKey :=
                  toString name ++ ":" ++ stableJsonStringify (JObj finalArgs) in
                if mem toolKey (emittedToolCallKeys (emit s)) then Returned s
                else
                  let s := set_emittedToolCallKeys
                             (toolKey :: emittedToolCallKeys (emit s)) s in
                  let s := stop_if_open s in
                  let s := set_currentBlockType (Some ToolUse) s in
                  emit_call name finalArgs None s
            | Some id =>
                let pending :=
                  match JsMap.get id (pendingToolCallsById (emit s)) with
                  | Some p => p
                  | None => {| pending_name := name; pending_args := None;
                               pending_argsJson := "" |}
                  end in
                let pending :=
                  match resolved_args r with
                  | Some a => {| pending_name := name; pending_args := Some a;
                                 pending_argsJson := "" |}
                  | None =>
                      {| pending_name := name;
                         pending_args := pending_args pending;
                         pending_argsJson :=
                           pending_argsJson pending ++ resolved_json r |}
                  end in
                let s := set_pendingToolCallsById
                           (JsMap.set id pending (pendingToolCallsById (emit s))) s in
                if canContinue r then Returned s
                else flushPendingToolCallById id false s
            end
      end
  end.

(** The variables after that body, whether it returned or threw. *)
Definition function_call_step (part : json) (s : state) : state :=
  state_of (function_call_run part s).

(** ** Deltas against what was already emitted *)

(** The part of the cumulative value [full] not emitted yet: the suffix
    when [full] extends [emitted], all of [full] otherwise. *)
Definition delta_of (full emitted : string) : string :=
  if JsString.startsWith full emitted
  then JsString.drop (String.length emitted) full
  else full.

Definition signature_step (thoughtSignature : string) (s : state) : state :=
  if (negb (JsString.is_empty thoughtSignature) && canStartThinkingBlock s)%bool then
    let emitted := emittedThoughtSignature (emit s) in
    let delta :=
      if JsString.startsWith thoughtSignature emitted
      then JsString.drop (String.length emitted) thoughtSignature
      else if negb (String.eqb thoughtSignature emitted) then thoughtSignature
      else "" in
    if JsString.is_empty delta then s
    else
      let s := switchBlockType Thinking s in
      let s := write_delta (signature_delta delta) s in
      set_emittedThoughtSignature thoughtSignature s
  else s.

(** The same for [thoughtSignature] as the callback has it: the empty
    string, or any truthy value; [startsWith] is no function of a value
    that is not a string. *)
Definition signature_run (thoughtSignature : option json) (s : state) : outcome :=
  match thoughtSignature with
  | Some (JStr sig) => Returned (signature_step sig s)
  | Some sig =>
      if (truthy sig && canStartThinkingBlock s)%bool then Raised s else Returned s
  | None => Returned s
  end.

Definition thought_step (fullThought : string) (s : state) : state :=
  if (negb (JsString.is_empty fullThought) && canStartThinkingBlock s)%bool then
    let delta := delta_of fullThought (emittedThinking (emit s)) in
    if JsString.is_empty delta then s
    else
      let s := switchBlockType Thinking s in
      let s := set_emittedThinking fullThought s in
      write_delta (thinking_delta delta) s
  else s.

(** One action of the inline tag bridge. *)
Definition action_step (s : state) (action : xml_action) : state :=
  match action with
  | TextAction text =>
      if JsString.is_empty text then s
      else write_delta (text_delta text) (switchBlockType Text s)
  | ToolAction name args =>
      let s := stop_if_open s in
      emitToolUseBlock name (Some (if truthy args then args else JObj [])) None s
  end.

Definition text_step (fullText : string) (s : state) : state :=
  if JsString.is_empty fullText then s
  else
    let delta := delta_of fullText (emittedText (emit s)) in
    if JsString.is_empty delta then s
    else
      let x := processMcpXmlBridgeDelta delta (mcpXmlBuffer (emit s))
                                        (inMcpXml (emit s)) in
      let s := set_mcpXml (xml_buffer x) (xml_in x) s in
      let s := fold_left action_step (xml_actions x) s in
      set_emittedText fullText s.

(** ** The [data] callback *)

(** What the callback does with one parsed payload. *)
Definition handle_payload (payload : json) (s : state) : outcome :=
  let s := match field "usageMetadata" payload with
           | Some u => if truthy u then set_usageMetadata (Some u) s else s
           | None => s
           end in
  let candidate :=
    match field "candidates" payload with
    | Some (JArr (c :: _)) => Some c
    | _ => None
    end in
  let s := match field_opt "finishReason" candidate with
           | Some fr => if truthy fr then set_finishReason (Some fr) s else s
           | None => s
           end in
  let parts := extractGeminiParts (Some payload) in
  let rawThoughtSignature := extractGeminiThoughtSignature (Some payload) in
  let thoughtSignature :=
    if isAntigravityVendor cfg
    then Some (JStr (sanitizeThoughtSignatureForAntigravity rawThoughtSignature))
    else rawThoughtSignature in
  let fullThought := extractGeminiThoughtText (Some payload) in
  and_then
    (if wantsThinkingBlockFirst cfg
     then and_then (signature_run thoughtSignature s)
                   (fun s => Returned (thought_step fullThought s))
     else Returned s)
    (fun s =>
       and_then (for_each function_call_run parts s)
         (fun s =>
            and_then (signature_run thoughtSignature s)
              (fun s =>
                 let s := thought_step fullThought s in
                 Returned (text_step (extractGeminiText (Some payload)) s)))).

Definition handle_line (line : string) (s : state) : outcome :=
  if JsString.is_empty (JsString.trim line) then Returned s
  else
    match parseSSELine line with
    | DataLine data =>
        if truthy data then
          let payload := match field "response" data with
                         | Some r => if truthy r then r else data
                         | None => data
                         end in
          handle_payload payload s
        else Returned s
    | _ => Returned s
    end.

(** The last element of a non-empty list and the elements before it. *)
Fixpoint pop_last (l : list string) : list string * string :=
  match l with
  | [] => ([], "")
  | [x] => ([], x)
  | x :: r => let '(init, last) := pop_last r in (x :: init, last)
  end.

(** The [data] callback.  A [TypeError] leaves it with the rest of the
    chunk unread. *)
Definition on_data (chunk : string) (s : state) : state :=
  let s := set_timers true true false s in
  if finished (conn s) then s
  else
    let '(lines, rest) := pop_last (JsString.split_lines (buffer (conn s) ++ chunk)) in
    let s := set_buffer rest s in
    state_of (for_each handle_line lines s).

(** ** Ending the stream *)

Definition FALLBACK_TEXT : string := "上游流式连接异常中断（无有效内容）。请重试。".

(** The replies to the first rescue request and to the forced one. *)
Variable first_rescue : rescue_reply.
Variable forced_rescue : rescue_reply.

(** [response || rawResponse] *)
Definition rescue_payload (rawResponse : option json) : option json :=
  match field_opt "response" rawResponse with
  | Some r => if truthy r then Some r else rawResponse
  | None => rawResponse
  end.

Definition adopt_usage (payload : option json) (s : state) : state :=
  match field_opt "usageMetadata"
          (match payload with
           | Some p => if truthy p then Some p else None
           | None => None
           end) with
  | Some u => if truthy u then set_usageMetadata (Some u) s else s
  | None => s
  end.

(** [content.find((b) => b?.type === 'tool_use' && b?.name)] *)
Definition find_tool_use (blocks : list json) : option json :=
  find (fun b => (type_is "tool_use" b && truthy_opt (field "name" b))%bool) blocks.

(** The block is closed and [emitToolUseBlock] is entered; a name that is
    not a string makes it throw before it writes, which the enclosing
    [catch] absorbs. *)
Definition emit_rescued (toolUse : json) (s : state) : state :=
  let s := stop_if_open s in
  let s := set_currentBlockType (Some ToolUse) s in
  match field "name" toolUse with
  | Some (JStr name) =>
      emitToolUseBlock name (field "input" toolUse) (str_field "id" toolUse) s
  | _ => s
  end.

(** The text of a rescued reply: its non-empty text blocks, concatenated. *)
Definition rescued_text (blocks : list json) : string :=
  JsString.concat_all
    (flat_map (fun b => if type_is "text" b
                        then match part_text b with Some t => [t] | None => [] end
                        else []) blocks).

Definition convert_rescued (payload : option json) (s : state) : list json * state :=
  let '(blocks, n) :=
    convertGeminiPayloadToAnthropicContent JSON_parse buildToolUseId payload
                                           (idsDrawn (emit s)) in
  (blocks, set_idsDrawn n s).

Definition emit_rescued_text (rescuedContent : list json) (s : state) : state :=
  if JsString.is_empty (emittedText (emit s)) then
    let text := rescued_text rescuedContent in
    if JsString.is_empty text then s
    else
      let s := switchBlockType Text s in
      let s := set_emittedText text s in
      write_delta (text_delta text) s
  else s.

Definition tryRescueAfterMissingFinishReason (s : state) : state :=
  if negb (isAntigravityVendor cfg) then s
  else if rescueAttempted (conn s) then s
  else if emittedAnyToolUse (emit s) then s
  else
    let s := note_rescue_request false s in
    match first_rescue with
    | RescueFailed => s
    | RescueReplied rawResponse =>
        let payload := rescue_payload rawResponse in
        let s := adopt_usage payload s in
        let '(rescuedContent, s) := convert_rescued payload s in
        match find_tool_use rescuedContent with
        | Some toolUse => emit_rescued toolUse s
        | None =>
            match (if forcedRescueAttempted (conn s) then None
                   else match plannedToolName cfg with
                        | Some n => if JsString.is_empty n then None else Some n
                        | None => None
                        end) with
            | Some _ =>
                let s := note_rescue_request true s in
                match forced_rescue with
                | RescueFailed => s
                | RescueReplied forcedRawResponse =>
                    let forcedPayload := rescue_payload forcedRawResponse in
                    let s := adopt_usage forcedPayload s in
                    let '(forcedContent, s) := convert_rescued forcedPayload s in
                    match find_tool_use forcedContent with
                    | Some toolUse => emit_rescued toolUse s
                    | None => emit_rescued_text rescuedContent s
                    end
                end
            | None => emit_rescued_text rescuedContent s
            end
        end
    end.

(** [message_delta] and [message_stop], then [res.end()]. *)
Definition close_message (stop_reason : string) (outputTokens : Z) (s : state) : state :=
  let s := stop_if_open s in
  let s := write (message_delta stop_reason outputTokens) s in
  let s := write message_stop s in
  res_end s.

Definition inferred_stop_reason (s : state) : string :=
  if emittedAnyToolUse (emit s) then "tool_use" else "end_turn".

Definition has_any_content (s : state) : bool :=
  (negb (JsString.is_empty (emittedText (emit s)))
   || emittedAnyToolUse (emit s)
   || negb (JsString.is_empty (emittedThinking (emit s))))%bool.

(** [finalize()]: it returns once the response is closed, or throws
    while it flushes the pending calls, before anything is closed. *)
Definition finalize (s : state) : outcome :=
  if finished (conn s) then Returned s
  else
    let s := set_finished true s in
    and_then
      (for_each (fun id => flushPendingToolCallById id true)
                (JsMap.keys (pendingToolCallsById (emit s))) s)
      (fun s =>
         let s :=
           if JsString.is_empty (mcpXmlBuffer (emit s)) then s
           else
             let raw := mcpXmlBuffer (emit s) in
             let s := set_mcpXml "" false s in
             write_delta (text_delta raw) (switchBlockType Text s) in
         Returned
           (if truthy_opt (finishReason (conn s)) then
              close_message
                (if emittedAnyToolUse (emit s) then "tool_use"
                 else mapGeminiFinishReasonToAnthropicStopReason (finishReason (conn s)))
                (resolveUsageOutputTokens (usageMetadata (conn s))) s
            else
              let outputTokens := resolveUsageOutputTokens (usageMetadata (conn s)) in
              if has_any_content s
              then close_message (inferred_stop_reason s) outputTokens s
              else
                let s := tryRescueAfterMissingFinishReason s in
                if has_any_content s then
                  close_message (inferred_stop_reason s)
                                (resolveUsageOutputTokens (usageMetadata (conn s))) s
                else
                  let s := switchBlockType Text s in
                  let s := set_emittedText FALLBACK_TEXT s in
                  let s := write_delta (text_delta FALLBACK_TEXT) s in
                  close_message "end_turn" outputTokens s)).

(** ** The other callbacks *)

(** The [end] callback: [finalize().catch(...)] logs what [finalize]
    throws. *)
Definition on_end (s : state) : state :=
  state_of (finalize (set_timers (receivedAnyUpstreamBytes (conn s)) false false s)).

(** [message] is what [sanitizeUpstreamError] made of the error. *)
Definition on_error (message : string) (s : state) : state :=
  let s := set_timers (receivedAnyUpstreamBytes (conn s)) false false s in
  if finished (conn s) then s
  else
    let s :=
      write (error_event "api_error"
               (if JsString.is_empty message then "Upstream error" else message)) s in
    res_end s.

Definition on_activity_timeout (s : state) : state :=
  if negb (activityTimeout (conn s)) then s
  else if finished (conn s) then s
  else
    let s := set_finished true s in
    let s := abort s in
    let s := set_timers (receivedAnyUpstreamBytes (conn s)) (activityTimeout (conn s))
                        false s in
    let s :=
      write (error_event "overloaded_error"
               "Upstream stream timed out (zombie connection). Please try again.") s in
    res_end s.

Definition on_first_byte_timeout (s : state) : state :=
  if negb (firstByteTimeout (conn s)) then s
  else if (finished (conn s) || receivedAnyUpstreamBytes (conn s))%bool then s
  else
    let s := set_finished true s in
    let s := abort s in
    let s :=
      write (error_event "overloaded_error"
               "Upstream stream timed out before first byte. Please try again.") s in
    res_end s.

(** The state once the upstream stream is established: [message_start]
    is written, the timers are armed and, when thoughts were asked for,
    a thinking block is open at index 0. *)
Definition start : state :=
  let wants := wantsThinkingBlockFirst cfg in
  {| blk :=
       {| out :=
            (message_start (messageId cfg) (responseModel cfg)
             :: if wants then [content_block_start 0 ThinkingBlock] else [])%list;
          currentIndex := if wants then 0 else -1;
          currentBlockType := if wants then Some Thinking else None |};
     emit :=
       {| emittedText := ""; emittedThinking := ""; emittedThoughtSignature := "";
          emittedAnyToolUse := false; emittedToolCallKeys := [];
          pendingToolCallsById := []; mcpXmlBuffer := ""; inMcpXml := false;
          idsDrawn := 0 |};
     conn :=
       {| buffer := ""; finished := false; ended := false; aborted := false;
          usageMetadata := None; finishReason := None;
          rescueAttempted := false; forcedRescueAttempted := false;
          rescueRequests := 0; receivedAnyUpstreamBytes := false;
          activityTimeout := true;
          firstByteTimeout := isAntigravityVendor cfg |} |}.

Definition step (s : state) (e : upstream_event) : state :=
  match e with
  | DataChunk chunk => on_data chunk s
  | StreamEnd => on_end s
  | StreamError message => on_error message s
  | ActivityTimerFires => on_activity_timeout s
  | FirstByteTimerFires => on_first_byte_timeout s
  end.

(** The response after the given upstream events, in order. *)
Definition run (events : list upstream_event) : state := fold_left step events start.

End Translator.

(** ** Well-formed block traces *)

(** Reading the events in order: the highest index started so far and the
    block that is open, if any.  [None] when an event is out of place: a
    start while a block is open or with an index not above every earlier
    one, a delta or a stop for a block that is not the open one. *)
Definition scan_event (st : option (Z * option Z)) (e : sse_event)
  : option (Z * option Z) :=
  match st with
  | None => None
  | Some (top, open) =>
      match e with
      | content_block_start i _ =>
          match open with
          | None => if top <? i then Some (i, Some i) else None
          | Some _ => None
          end
      | content_block_delta i _ =>
          match open with
          | Some j => if i =? j then st else None
          | None => None
          end
      | content_block_stop i =>
          match open with
          | Some j => if i =? j then Some (top, None) else None
          | None => None
          end
      | _ => st
      end
  end.

Definition scan (events : list sse_event) : option (Z * option Z) :=
  fold_left scan_event events (Some (-1, None)).

(** Indices strictly increase and never recur, every block runs through
    start, deltas and stop in that order, and a block starts only after
    the one before it was stopped. *)
Definition blocks_well_formed (events : list sse_event) : bool :=
  match scan events with Some _ => true | None => false end.

(** The same, read off the trace block by block. *)
Definition event_index (e : sse_event) : option Z :=
  match e with
  | content_block_start i _ | content_block_delta i _ | content_block_stop i =>
      Some i
  | _ => None
  end.

Definition concerns (i : Z) (e : sse_event) : bool :=
  match event_index e with Some j => j =? i | None => false end.

(** The events of block [i], in the order they were written. *)
Definition events_at (i : Z) (events : list sse_event) : list sse_event :=
  filter (concerns i) events.

(** The indices of the [content_block_start] events, in order. *)
Definition start_indices (events : list sse_event) : list Z :=
  flat_map (fun e => match e with
                     | content_block_start i _ => [i]
                     | _ => []
                     end) events.

Definition is_start (e : sse_event) : bool :=
  match e with content_block_start _ _ => true | _ => false end.

Definition is_delta (e : sse_event) : bool :=
  match e with content_block_delta _ _ => true | _ => false end.

Definition is_stop (e : sse_event) : bool :=
  match e with content_block_stop _ => true | _ => false end.

(** One start and deltas after it: a block that was not stopped yet. *)
Definition block_running (l : list sse_event) : bool :=
  match l with
  | [] => false
  | e :: rest => is_start e && forallb is_delta rest
  end.

(** Nothing at all, or one start, deltas and one stop at the end. *)
Definition block_done (l : list sse_event) : bool :=
  match l with
  | [] => true
  | e :: rest =>
      is_start e && forallb is_delta (removelast rest) && is_stop (last rest e)
  end.

(** The events of one block are in start, delta, stop order. *)
Definition block_in_order (l : list sse_event) : bool :=
  block_running l || block_done l.

(** The block a [switchBlockType] opens. *)
Definition opened_block (t : block_type) : list content_block :=
  match t with
  | Text => [TextBlock]
  | Thinking => [ThinkingBlock]
  | ToolUse => []
  end.

End Stream.

(* ====================================================================== *)
(** * Bounds of the signature caches                                        *)
(* ====================================================================== *)

(** What [src/utils/signatureCache.js] keeps bounded. *)

Module CacheBounds.
Import SignatureCache.

(** A [Map] holds each key once. *)
Definition distinct_keys {V} (m : JsMap.t V) : Prop := NoDup (JsMap.keys m).

Definition within {V} (limit : Z) (m : JsMap.t V) : Prop :=
  distinct_keys m /\ JsMap.size m <= limit.

(** Every layer is within its limit; the number of sessions of the
    text-hash layer has no limit in the source. *)
Definition store_bounded (st : store) : Prop :=
  within TOOL_CACHE_LIMIT (toolSignatureCache st) /\
  within FAMILY_CACHE_LIMIT (modelFamilyCache st) /\
  within SESSION_CACHE_LIMIT (sessionLatestSignatureCache st) /\
  distinct_keys (signatureCache st) /\
  Forall (fun kv => within MAX_ENTRIES_PER_SESSION (snd kv)) (signatureCache st).

End CacheBounds.

(* ====================================================================== *)
(** * Antigravity endpoints and system instruction                          *)
(* ====================================================================== *)

(** More of [src/services/antigravityClient.js]: the base URLs that
    [request] walks and [ensureAntigravitySystemInstruction]. *)

Module AntigravityEndpoints.
Import Json.

(** ** Base URLs *)

Definition DAILY_URL : string := "https://daily-cloudcode-pa.googleapis.com".
Definition PROD_URL : string := "https://cloudcode-pa.googleapis.com".
Definition DAILY_SANDBOX_URL : string :=
  "https://daily-cloudcode-pa.sandbox.googleapis.com".

(** Truthiness of [process.env.NAME]: unset and empty are falsy. *)
Definition env_truthy (v : option string) : bool :=
  match v with Some s => negb (JsString.is_empty s) | None => false end.

(** [process.env.ANTIGRAVITY_API_URL || 'https://daily-cloudcode-pa.googleapis.com'] *)
Definition getAntigravityApiUrl (apiUrl : option string) : string :=
  match apiUrl with
  | Some s => if JsString.is_empty s then DAILY_URL else s
  | None => DAILY_URL
  end.

(** [s.endsWith('/')] *)
Fixpoint ends_with_slash (s : string) : bool :=
  match s with
  | EmptyString => false
  | String c EmptyString => Ascii.eqb c "/"
  | String _ r => ends_with_slash r
  end.

(** [s.slice(0, -1)] *)
Fixpoint drop_last (s : string) : string :=
  match s with
  | EmptyString => EmptyString
  | String _ EmptyString => EmptyString
  | String c r => String c (drop_last r)
  end.

Definition normalizeBaseUrl (url : string) : string :=
  let str := JsString.trim url in
  if ends_with_slash str then drop_last str else str.

Definition DEFAULT_URLS : list string := [DAILY_URL; PROD_URL; DAILY_SANDBOX_URL].

(** [getAntigravityApiUrlCandidates()], as a function of the two
    environment variables it reads. *)
Definition getAntigravityApiUrlCandidates (apiUrl allowFallback : option string)
  : list string :=
  let configured := normalizeBaseUrl (getAntigravityApiUrl apiUrl) in
  let allow :=
    match allowFallback with
    | Some v => (String.eqb v "true" || String.eqb v "1")%bool
    | None => false
    end in
  if (env_truthy apiUrl && negb allow)%bool then [configured]
  else if existsb (String.eqb configured) (map normalizeBaseUrl DEFAULT_URLS)
  then configured
       :: filter (fun u => negb (String.eqb (normalizeBaseUrl u) configured))
                 DEFAULT_URLS
  else configured :: DEFAULT_URLS.

(** ** The endpoint order of [request] *)

Definition PROD_HOST : string := "cloudcode-pa.googleapis.com".
Definition DAILY_HOST : string := "daily-cloudcode-pa.sandbox.googleapis.com".

Definition endpoint_score (u : string) : Z :=
  if JsString.includes u PROD_HOST then 0
  else if JsString.includes u DAILY_HOST then 1 else 2.

(** [Array.from(new Set(l))]: the first occurrence of every element. *)
Fixpoint dedupe (seen l : list string) : list string :=
  match l with
  | [] => []
  | x :: r => if mem x seen then dedupe seen r else x :: dedupe (x :: seen) r
  end.

(** The stable [sort((a, b) => aScore - bScore)]. *)
Fixpoint insert_by_score (x : string) (l : list string) : list string :=
  match l with
  | [] => [x]
  | y :: r => if endpoint_score x <=? endpoint_score y then x :: l
              else y :: insert_by_score x r
  end.

Definition sort_by_score (l : list string) : list string :=
  fold_right insert_by_score [] l.

(** The [endpoints] the loop of [request] walks, for the upstream [model]. *)
Definition request_endpoints (apiUrl allowFallback : option string) (model : string)
  : list string :=
  let endpoints := getAntigravityApiUrlCandidates apiUrl allowFallback in
  if (negb (env_truthy apiUrl) && JsString.includes model "claude")%bool then
    let ordered :=
      (filter (fun u => JsString.includes u PROD_HOST) endpoints
       ++ filter (fun u => negb (JsString.includes u PROD_HOST)) endpoints)%list in
    sort_by_score (dedupe [] ordered)
  else endpoints.

(** ** The system instruction *)

Definition ANTIGRAVITY_MIN_SYSTEM_PROMPT : string :=
  "You are Antigravity, a powerful agentic AI coding assistant designed by the Google Deepmind team working on Advanced Agentic Coding.You are pair programming with a USER to solve their coding task. The task may require creating a new codebase, modifying or debugging an existing codebase, or simply answering a question.**Proactiveness**".

Definition ANTIGRAVITY_MIN_SYSTEM_PROMPT_MARKER : string :=
  "You are Antigravity, a powerful agentic AI coding assistant designed by the Google Deepmind team working on Advanced Agentic Coding.".

(** [typeof part?.text === 'string' ? part.text : ''] contains the marker. *)
Definition has_marker (part : json) : bool :=
  JsString.includes (match str_field "text" part with Some t => t | None => "" end)
                    ANTIGRAVITY_MIN_SYSTEM_PROMPT_MARKER.

Definition prompt_part : json := JObj [("text", JStr ANTIGRAVITY_MIN_SYSTEM_PROMPT)].

(** [sys.parts] after the call, from [sys.parts] before it. *)
Definition ensured_parts (sys : json) : list json :=
  let parts := match as_array (field "parts" sys) with Some l => l | None => [] end in
  if existsb has_marker parts then parts else prompt_part :: parts.

(** [ensureAntigravitySystemInstruction(requestPayload)]: the payload as
    it is serialised afterwards.  A [systemInstruction] that is an array
    gets [role] and [parts] as properties that the serialisation of an
    array leaves out, so it comes back as it is. *)
Definition ensureAntigravitySystemInstruction (requestPayload : json) : json :=
  match requestPayload with
  | JObj _ =>
      match field "systemInstruction" requestPayload with
      | Some (JArr items) => requestPayload
      | existing =>
          let sys := match existing with
                     | Some (JObj props) => JObj props
                     | _ => JObj []
                     end in
          let parts := ensured_parts sys in
          let sys := with_field "role" (JStr "user") sys in
          let sys := with_field "parts" (JArr parts) sys in
          with_field "systemInstruction" sys requestPayload
      end
  | _ => requestPayload
  end.

End AntigravityEndpoints.

(* ====================================================================== *)
(** * Preparing the Anthropic request                                       *)
(* ====================================================================== *)

(** More of [src/services/anthropicGeminiBridgeService.js]: the helpers
    [buildGeminiRequestFromAnthropic] runs on the messages and on the
    request before it is sent.  A function that rewrites its argument in
    place returns the value as it stands afterwards. *)

Module Preprocess.
Import Json Bridge.

(** ** Model families *)

(** [isModelCompatible(cachedFamily, targetModel)], either argument being
    [null] or a string. *)
Definition isModelCompatible (cachedFamily targetModel : option string) : bool :=
  match cachedFamily, targetModel with
  | Some cachedFamily, Some targetModel =>
      if (JsString.is_empty cachedFamily || JsString.is_empty targetModel)%bool
      then true
      else
        let c := JsString.toLowerCase cachedFamily in
        let t := JsString.toLowerCase targetModel in
        let both f := (JsString.includes c f && JsString.includes t f)%bool in
        if String.eqb c t then true
        else if both "gemini-1.5" then true
        else if both "gemini-2.0" then true
        else if both "gemini-2.5" then true
        else if both "claude-3-5" then true
        else if both "claude-3-7" then true
        else if both "claude-sonnet-4" then true
        else if both "claude-opus-4" then true
        else false
  | _, _ => true
  end.

Definition extractModelFamily (modelName : option string) : string :=
  match modelName with
  | Some modelName =>
      if JsString.is_empty modelName then ""
      else
        let name := JsString.toLowerCase modelName in
        if JsString.includes name "gemini-2.5" then "gemini-2.5"
        else if JsString.includes name "gemini-2.0" then "gemini-2.0"
        else if JsString.includes name "gemini-1.5" then "gemini-1.5"
        else if JsString.includes name "claude-opus-4" then "claude-opus-4"
        else if JsString.includes name "claude-sonnet-4" then "claude-sonnet-4"
        else if JsString.includes name "claude-3-7" then "claude-3-7"
        else if JsString.includes name "claude-3-5" then "claude-3-5"
        else name
  | None => ""
  end.

(** ** System prompt *)

Definition SYSTEM_REMINDER_PREFIX : string := "<system-reminder>".

(** [part.text || ''] as [join] writes it. *)
Definition text_or_empty (part : json) : string :=
  match field "text" part with
  | Some t => if truthy t then toString t else ""
  | None => ""
  end.

Definition extractAnthropicText (content : option json) : string :=
  match content with
  | Some (JStr s) => s
  | Some (JArr parts) =>
      JsString.concat_all
        (map text_or_empty
             (filter (fun part => (truthy part && type_is "text" part)%bool) parts))
  | _ => ""
  end.

(** [shouldSkipText(text)] for a string. *)
Definition shouldSkipText (text : string) : bool :=
  if JsString.is_empty text then true
  else JsString.startsWith (JsString.trim_start text) SYSTEM_REMINDER_PREFIX.

(** What one candidate text adds to the system parts. *)
Definition system_part (text : string) : list json :=
  if (negb (JsString.is_empty text) && negb (shouldSkipText text))%bool
  then [JObj [("text", JStr text)]] else [].

Definition buildSystemParts (system : option json) : list json :=
  match system with
  | None => []
  | Some system =>
      if negb (truthy system) then []
      else
        match system with
        | JArr parts =>
            flat_map
              (fun part =>
                 if (negb (truthy part) || negb (type_is "text" part))%bool then []
                 else
                   system_part
                     (extractAnthropicText
                        (Some (match field "text" part with
                               | Some t => if truthy t then t else JStr ""
                               | None => JStr ""
                               end))))
              parts
        | _ => system_part (extractAnthropicText (Some system))
        end
  end.

(** ** Purifying the thinking history *)

(** [block?.type === 'thinking' || block?.type === 'redacted_thinking'] *)
Definition is_thinking_type (block : json) : bool :=
  (type_is "thinking" block || type_is "redacted_thinking" block)%bool.

Definition PLACEHOLDER_BLOCK : json := JObj [("type", JStr "text"); ("text", JStr "...")].

(** The body of the loop for a message that is not protected: the message
    afterwards and whether it was modified. *)
Definition purify_message (msg : json) : json * bool :=
  if negb (field_is "role" "assistant" msg) then (msg, false)
  else
    match field "content" msg with
    | Some (JArr content) =>
        let kept := filter (fun block => negb (is_thinking_type block)) content in
        if Nat.eqb (List.length kept) (List.length content)
        then (with_field "content" (JArr kept) msg, false)
        else
          (with_field "content"
             (JArr (match kept with [] => [PLACEHOLDER_BLOCK] | _ => kept end)) msg,
           true)
    | _ => (msg, false)
    end.

(** The loop from index [i] on; indices from [start] on are protected. *)
Fixpoint purify_from (i start : nat) (messages : list json) : list json * bool :=
  match messages with
  | [] => ([], false)
  | msg :: rest =>
      let '(msg', m1) :=
        if Nat.leb start i then (msg, false) else purify_message msg in
      let '(rest', m2) := purify_from (S i) start rest in
      (msg' :: rest', (m1 || m2)%bool)
  end.

(** [purifyHistoryThinking(messages, strategy)]: the messages afterwards
    and the returned flag. *)
Definition purifyHistoryThinking (messages : list json) (strategy : string)
  : list json * bool :=
  if String.eqb strategy "none" then (messages, false)
  else
    match messages with
    | [] => (messages, false)
    | _ =>
        let protectedCount := if String.eqb strategy "soft" then 4%nat else 0%nat in
        purify_from 0 (List.length messages - protectedCount)%nat messages
    end.

(** ** Closing a broken tool loop *)

Definition MIN_SIGNATURE_LENGTH : Z := 50.

Record conversation_state := {
  inToolLoop : bool;
  interruptedTool : bool;
  lastAssistantIdx : option nat
}.

(** The index of the last message whose role is [assistant], the list
    starting at index [i]. *)
Fixpoint last_assistant_from (i : nat) (messages : list json) : option nat :=
  match messages with
  | [] => None
  | msg :: rest =>
      match last_assistant_from (S i) rest with
      | Some j => Some j
      | None => if field_is "role" "assistant" msg then Some i else None
      end
  end.

(** [Array.isArray(msg?.content) ? msg.content : []] *)
Definition content_blocks (msg : json) : list json :=
  match field "content" msg with Some (JArr l) => l | _ => [] end.

Definition analyzeConversationState (messages : list json) : conversation_state :=
  let state idx loop interrupted :=
    {| inToolLoop := loop; interruptedTool := interrupted; lastAssistantIdx := idx |} in
  match last_assistant_from 0 messages with
  | None => state None false false
  | Some idx =>
      let assistantMsg := nth idx messages JNull in
      if negb (existsb (type_is "tool_use") (content_blocks assistantMsg))
      then state (Some idx) false false
      else
        let lastMsg := last messages JNull in
        if negb (field_is "role" "user" lastMsg) then state (Some idx) false false
        else
          match field "content" lastMsg with
          | Some (JArr lastContent) =>
              if existsb (type_is "tool_result") lastContent
              then state (Some idx) true false
              else state (Some idx) false true
          | Some (JStr _) => state (Some idx) false true
          | _ => state (Some idx) false false
          end
  end.

(** [signature.length >= MIN_SIGNATURE_LENGTH] for
    [signature = block.signature || '']: a string and an array have
    their length, a number and [true] have none, and an object has the
    one it holds as a property, which [at_least] compares with the
    number as [>=] does. *)
Definition signature_long_enough (at_least : json -> Z -> bool)
  (signature : option json) : bool :=
  match signature with
  | Some (JStr s) => MIN_SIGNATURE_LENGTH <=? JsString.len s
  | Some (JArr items) => MIN_SIGNATURE_LENGTH <=? Z.of_nat (List.length items)
  | Some (JObj props) =>
      match JsMap.get "length" props with
      | Some x => at_least x MIN_SIGNATURE_LENGTH
      | None => false
      end
  | _ => false
  end.

(** A thinking block with a truthy [thinking] and a signature of at least
    [MIN_SIGNATURE_LENGTH] characters. *)
Definition is_valid_thinking (at_least : json -> Z -> bool) (block : json) : bool :=
  (type_is "thinking" block
   && truthy_opt (field "thinking" block)
   && signature_long_enough at_least (field "signature" block))%bool.

Definition text_message (role text : string) : json :=
  JObj [("role", JStr role);
        ("content", JArr [JObj [("type", JStr "text"); ("text", JStr text)]])].

Definition LOOP_CLOSED_ASSISTANT : json :=
  text_message "assistant"
    "[System: Tool execution completed. Proceeding to final response.]".

Definition LOOP_CLOSED_USER : json :=
  text_message "user"
    "Please provide the final result based on the tool output above.".

Definition INTERRUPTED_ASSISTANT : json :=
  text_message "assistant" "[Tool call was interrupted by user.]".

(** [closeToolLoopForThinking(messages)]: the messages afterwards and the
    returned flag; [at_least x n] stands for [x >= n] of the source on a
    value that is not known to be a number. *)
Definition closeToolLoopForThinking (at_least : json -> Z -> bool)
  (messages : list json) : list json * bool :=
  let state := analyzeConversationState messages in
  if (negb (inToolLoop state) && negb (interruptedTool state))%bool
  then (messages, false)
  else
    let hasValidThinking :=
      match lastAssistantIdx state with
      | Some idx =>
          existsb (is_valid_thinking at_least) (content_blocks (nth idx messages JNull))
      | None => false
      end in
    if hasValidThinking then (messages, false)
    else if inToolLoop state
    then ((messages ++ [LOOP_CLOSED_ASSISTANT; LOOP_CLOSED_USER])%list, true)
    else
      match lastAssistantIdx state with
      | Some idx =>
          ((firstn (S idx) messages ++ INTERRUPTED_ASSISTANT :: skipn (S idx) messages)%list,
           true)
      | None => (messages, true)
      end.

(** ** Merging consecutive messages of one role *)

(** [a === b] for two property reads of freshly parsed JSON: two absent
    properties are equal, primitives are compared by value, and two
    objects or arrays are never the same object. *)
Definition strict_eq (a b : option json) : bool :=
  match a, b with
  | None, None => true
  | Some JNull, Some JNull => true
  | Some (JBool x), Some (JBool y) => Bool.eqb x y
  | Some (JNum x), Some (JNum y) => x =? y
  | Some (JStr x), Some (JStr y) => String.eqb x y
  | _, _ => false
  end.

(** The four ways [current.content] takes up [next.content]; otherwise
    [current] stays as it is and [next] is dropped. *)
Definition merged_content (currentContent nextContent : option json) : option json :=
  match currentContent, nextContent with
  | Some (JArr c), Some (JArr n) => Some (JArr (c ++ n))
  | Some (JArr c), Some (JStr n) => Some (JArr (c ++ [text_block n]))
  | Some (JStr c), Some (JStr n) =>
      Some (JStr (c ++ String (ascii_of_nat 10) (String (ascii_of_nat 10) n)))
  | Some (JStr c), Some (JArr n) => Some (JArr (text_block c :: n))
  | _, _ => None
  end.

(** Merging [next] into [current]; [None] when the source throws a
    [TypeError], which it does on reading [content] of [null]. *)
Definition merge_into (current next : json) : option json :=
  match current, next with
  | JNull, _ | _, JNull => None
  | JObj _, _ =>
      match merged_content (field "content" current) (field "content" next) with
      | Some content => Some (with_field "content" content current)
      | None => Some current
      end
  | _, _ => Some current
  end.

(** The loop, [current] being the message under construction. *)
Fixpoint merge_loop (current : json) (rest : list json) : option (list json) :=
  match rest with
  | [] => Some [current]
  | next :: rest' =>
      if strict_eq (field "role" current) (field "role" next) then
        match merge_into current next with
        | Some current' => merge_loop current' rest'
        | None => None
        end
      else option_map (cons current) (merge_loop next rest')
  end.

(** [mergeConsecutiveMessages(messages)]: the messages afterwards and the
    returned flag, [None] when it throws. *)
Definition mergeConsecutiveMessages (messages : list json) : option (list json * bool) :=
  match messages with
  | [] | [_] => Some (messages, false)
  | first :: rest =>
      match merge_loop first rest with
      | Some merged =>
          if Nat.eqb (List.length merged) (List.length messages)
          then Some (messages, false)
          else Some (merged, true)
      | None => None
      end
  end.

(** ** Removing every [cache_control] *)

Fixpoint deepCleanCacheControl (value : json) : json :=
  match value with
  | JArr items => JArr (map deepCleanCacheControl items)
  | JObj props =>
      JObj ((fix each (ps : list (string * json)) : list (string * json) :=
               match ps with
               | [] => []
               | (k, x) :: r =>
                   if String.eqb "cache_control" k then each r
                   else (k, deepCleanCacheControl x) :: each r
               end) props)
  | _ => value
  end.

(** Whether some object inside [value] has a [cache_control] property. *)
Fixpoint has_cache_control (value : json) : bool :=
  match value with
  | JArr items => existsb has_cache_control items
  | JObj props =>
      (fix any (ps : list (string * json)) : bool :=
         match ps with
         | [] => false
         | (k, x) :: r =>
             (String.eqb "cache_control" k || has_cache_control x || any r)%bool
         end) props
  | _ => false
  end.

End Preprocess.

(* ====================================================================== *)
(** * Account lockout after an upstream 429                                 *)
(* ====================================================================== *)

(** [bumpAntigravityQuotaStrike] and
    [resolveAntigravityAccountRateLimitSeconds] of
    [src/services/anthropicGeminiBridgeService.js].  The strike counts
    the map holds are the positive ones the function itself stores. *)

Module RateLimit.

Definition ANTIGRAVITY_DEFAULT_RATE_LIMIT_SECONDS : Z := 30.
Definition ANTIGRAVITY_QUOTA_LOCKOUT_SECONDS : list Z := [60; 300; 1800; 7200].
Definition ANTIGRAVITY_QUOTA_STRIKE_TTL_MS : Z := 6 * 60 * 60 * 1000.

(** [{ count, lastAtMs }] *)
Record strike := { count : Z; lastAtMs : Z }.

(** The process-wide [antigravityQuotaStrikesByAccountId] map. *)
Definition strikes := JsMap.t strike.

(** [bumpAntigravityQuotaStrike(accountId)]: the strike count it returns
    and the map afterwards. *)
Definition bumpAntigravityQuotaStrike (now : Z) (accountId : string) (m : strikes)
  : Z * strikes :=
  let key := JsString.trim accountId in
  if JsString.is_empty key then (1, m)
  else
    let existing := JsMap.get key m in
    let previous :=
      match existing with
      | Some e =>
          if now - lastAtMs e <=? ANTIGRAVITY_QUOTA_STRIKE_TTL_MS then count e else 0
      | None => 0
      end in
    let nextCount :=
      Z.min (Z.of_nat (List.length ANTIGRAVITY_QUOTA_LOCKOUT_SECONDS)) (previous + 1) in
    (nextCount, JsMap.set key {| count := nextCount; lastAtMs := now |} m).

(** [retryDelayMs && retryDelayMs > 0 ? Math.max(1, Math.ceil(retryDelayMs / 1000)) : null] *)
Definition parsed_seconds (retryDelayMs : option Z) : option Z :=
  match retryDelayMs with
  | Some ms => if 0 <? ms then Some (Z.max 1 (AntigravityClient.ceil_div ms 1000))
               else None
  | None => None
  end.

(** [parsedSeconds || 0] *)
Definition or_zero (o : option Z) : Z := match o with Some z => z | None => 0 end.

(** [resolveAntigravityAccountRateLimitSeconds({ accountId, reason, retryDelayMs })]:
    the seconds, [None] for [null], and the strike map afterwards. *)
Definition resolveAntigravityAccountRateLimitSeconds
  (now : Z) (accountId : string) (reason : option string) (retryDelayMs : option Z)
  (m : strikes) : option Z * strikes :=
  let parsedSeconds := parsed_seconds retryDelayMs in
  match reason with
  | Some r =>
      if String.eqb r "RATE_LIMIT_EXCEEDED" then
        (Some (Z.max ANTIGRAVITY_DEFAULT_RATE_LIMIT_SECONDS (or_zero parsedSeconds)), m)
      else if String.eqb r "QUOTA_EXHAUSTED" then
        let '(strike, m') := bumpAntigravityQuotaStrike now accountId m in
        let idx :=
          Z.min (strike - 1)
                (Z.of_nat (List.length ANTIGRAVITY_QUOTA_LOCKOUT_SECONDS) - 1) in
        let base := nth (Z.to_nat idx) ANTIGRAVITY_QUOTA_LOCKOUT_SECONDS 0 in
        (Some (Z.max base (or_zero parsedSeconds)), m')
      else (None, m)
  | None => (None, m)
  end.

(** The lockouts of a series of [QUOTA_EXHAUSTED] answers for one
    account, at the given instants and without a retry delay. *)
Fixpoint quota_lockouts (accountId : string) (instants : list Z) (m : strikes)
  : list (option Z) :=
  match instants with
  | [] => []
  | now :: later =>
      let '(seconds, m') :=
        resolveAntigravityAccountRateLimitSeconds now accountId
          (Some "QUOTA_EXHAUSTED") None m in
      seconds :: quota_lockouts accountId later m'
  end.

End RateLimit.

(* ====================================================================== *)
(** * Truncating tool results                                               *)
(* ====================================================================== *)

(** [truncateTextSafe] of [src/services/anthropicGeminiBridgeService.js]. *)

Module Truncation.

(** [s.lastIndexOf(c)] for a character [c], the string starting at index
    [i]; [None] stands for [-1]. *)
Fixpoint last_index_from (i : nat) (c : ascii) (s : string) : option nat :=
  match s with
  | EmptyString => None
  | String a r =>
      match last_index_from (S i) c r with
      | Some j => Some j
      | None => if Ascii.eqb a c then Some i else None
      end
  end.

Definition lastIndexOf (s : string) (c : ascii) : option nat := last_index_from 0 c s.

(** [lastClose < lastOpen], [lastClose] being [-1] when absent. *)
Definition closes_before (lastClose : option nat) (lastOpen : nat) : bool :=
  match lastClose with
  | Some j => Nat.ltb j lastOpen
  | None => true
  end.

(** The position at which [truncateTextSafe] cuts a text longer than
    [maxChars]. *)
Definition split_position (text : string) (maxChars : nat) : nat :=
  let sub := JsString.take maxChars text in
  let splitPos := maxChars in
  let splitPos :=
    match lastIndexOf sub "<" with
    | Some lastOpen =>
        if closes_before (lastIndexOf sub ">") lastOpen
        then Nat.min splitPos lastOpen else splitPos
    | None => splitPos
    end in
  match lastIndexOf sub "{" with
  | Some lastOpenBrace =>
      if (closes_before (lastIndexOf sub "}") lastOpenBrace
          && Nat.ltb (maxChars - lastOpenBrace) 100)%bool
      then Nat.min splitPos lastOpenBrace else splitPos
  | None => splitPos
  end.

(** [truncateTextSafe(text, maxChars)] for a string [text] and an integer
    [maxChars]. *)
Definition truncateTextSafe (text : string) (maxChars : Z) : string :=
  if JsString.is_empty text then ""
  else if maxChars <=? 0 then ""
  else if JsString.len text <=? maxChars then text
  else
    let splitPos := split_position text (Z.to_nat maxChars) in
    let truncated := JsString.take splitPos text in
    let omitted := Z.max 0 (JsString.len text - Z.of_nat splitPos) in
    truncated ++ String (ascii_of_nat 10) "...[truncated "
              ++ JsString.of_Z omitted ++ " chars]".

End Truncation.


(* ====================================================================== *)
(** * Thinking blocks first                                                 *)
(* ====================================================================== *)

(** [sortThinkingBlocksFirst] of
    [src/services/anthropicGeminiBridgeService.js], which
    [buildGeminiRequestFromAnthropic] runs on the merged messages. *)

Module ThinkingOrder.
Import Json Bridge Preprocess.

(** The first loop over the blocks of a message: [needsReorder], given
    [sawNonThinking] so far. *)
Fixpoint needs_reorder (sawNonThinking : bool) (blocks : list json) : bool :=
  match blocks with
  | [] => false
  | block :: rest =>
      if negb (truthy block) then needs_reorder sawNonThinking rest
      else if is_thinking_type block
           then (sawNonThinking || needs_reorder sawNonThinking rest)%bool
           else needs_reorder true rest
  end.

(** The four arrays the second loop fills. *)
Record partition := {
  thinkingBlocks : list json;
  textBlocks : list json;
  toolBlocks : list json;
  otherBlocks : list json
}.

Definition no_blocks : partition :=
  {| thinkingBlocks := []; textBlocks := []; toolBlocks := []; otherBlocks := [] |}.

(** One pass of the second loop; [None] when [block.text?.trim()] throws
    a [TypeError], which it does on a [text] that is neither a string nor
    [null] nor absent. *)
Definition partition_step (acc : partition) (block : json) : option partition :=
  if negb (truthy block) then Some acc
  else if is_thinking_type block then
    Some {| thinkingBlocks := thinkingBlocks acc ++ [block];
            textBlocks := textBlocks acc;
            toolBlocks := toolBlocks acc;
            otherBlocks := otherBlocks acc |}
  else if type_is "text" block then
    match field "text" block with
    | None | Some JNull => Some acc
    | Some (JStr s) =>
        let text := JsString.trim s in
        if (negb (JsString.is_empty text) && negb (String.eqb text "(no content)"))%bool
        then Some {| thinkingBlocks := thinkingBlocks acc;
                     textBlocks := textBlocks acc ++ [block];
                     toolBlocks := toolBlocks acc;
                     otherBlocks := otherBlocks acc |}
        else Some acc
    | Some _ => None
    end
  else if type_is "tool_use" block then
    Some {| thinkingBlocks := thinkingBlocks acc;
            textBlocks := textBlocks acc;
            toolBlocks := toolBlocks acc ++ [block];
            otherBlocks := otherBlocks acc |}
  else
    Some {| thinkingBlocks := thinkingBlocks acc;
            textBlocks := textBlocks acc;
            toolBlocks := toolBlocks acc;
            otherBlocks := otherBlocks acc ++ [block] |}.

Fixpoint partition_loop (acc : partition) (blocks : list json) : option partition :=
  match blocks with
  | [] => Some acc
  | block :: rest =>
      match partition_step acc block with
      | Some acc' => partition_loop acc' rest
      | None => None
      end
  end.

(** The body of the loop over the messages: the message afterwards and
    whether it was modified. *)
Definition sort_message (msg : json) : option (json * bool) :=
  if negb (field_is "role" "assistant" msg) then Some (msg, false)
  else
    match field "content" msg with
    | Some (JArr blocks) =>
        if (List.length blocks <=? 1)%nat then Some (msg, false)
        else
          let needsReorder := needs_reorder false blocks in
          if (negb needsReorder && (List.length blocks <=? 1)%nat)%bool
          then Some (msg, false)
          else
            match partition_loop no_blocks blocks with
            | Some p =>
                let newContent :=
                  (thinkingBlocks p ++ textBlocks p ++ otherBlocks p ++ toolBlocks p)%list in
                if (negb (List.length newContent =? List.length blocks)%nat
                    || needsReorder)%bool
                then Some (with_field "content" (JArr newContent) msg, true)
                else Some (msg, false)
            | None => None
            end
    | _ => Some (msg, false)
    end.

(** [sortThinkingBlocksFirst(messages)]: the messages afterwards and the
    returned flag, [None] when it throws. *)
Fixpoint sortThinkingBlocksFirst (messages : list json) : option (list json * bool) :=
  match messages with
  | [] => Some ([], false)
  | msg :: rest =>
      match sort_message msg with
      | Some (msg', modified) =>
          match sortThinkingBlocksFirst rest with
          | Some (rest', modified') => Some (msg' :: rest', (modified || modified')%bool)
          | None => None
          end
      | None => None
      end
  end.

End ThinkingOrder.

(* ====================================================================== *)
(** * Reading an upstream error                                             *)
(* ====================================================================== *)

(** [parseGoogleErrorReason] of [src/utils/googleErrorParser.js] and what
    the bridge does with the reason of a 429.  A body is absent, a string
    or a value that is already parsed; the [Buffer] branch of
    [safeJsonParse] is left out. *)

Module ErrorParser.
Import Json RateLimit.

Section Parse.

(** [JSON.parse], [None] when it throws. *)
Variable JSON_parse : string -> option json.

(** [safeJsonParse(value)], [JNull] for [null]. *)
Definition safeJsonParse (value : option json) : json :=
  match value with
  | None => JNull
  | Some v =>
      if negb (truthy v) then JNull
      else
        match v with
        | JStr s =>
            let trimmed := JsString.trim s in
            if JsString.is_empty trimmed then JNull
            else match JSON_parse trimmed with
                 | Some parsed => parsed
                 | None => JNull
                 end
        | JArr _ | JObj _ => v
        | _ => JNull
        end
  end.

(** [typeof x === 'string' && x], with the string. *)
Definition nonempty_string (x : option json) : option string :=
  match x with
  | Some (JStr s) => if JsString.is_empty s then None else Some s
  | _ => None
  end.

(** The loop over [details]. *)
Fixpoint first_reason (details : list json) : option string :=
  match details with
  | [] => None
  | detail :: rest =>
      if (negb (truthy detail) || negb (is_object detail))%bool then first_reason rest
      else
        match nonempty_string (field "reason" detail) with
        | Some reason => Some reason
        | None =>
            match nonempty_string (field_opt "reason" (field "metadata" detail)) with
            | Some metadataReason => Some metadataReason
            | None => first_reason rest
            end
        end
  end.

(** [code === 429] *)
Definition is_429 (code : option json) : bool :=
  match code with Some (JNum n) => n =? 429 | _ => false end.

(** [status === 'RESOURCE_EXHAUSTED'] *)
Definition is_exhausted (status : option json) : bool :=
  match status with Some (JStr s) => String.eqb s "RESOURCE_EXHAUSTED" | _ => false end.

(** [parseGoogleErrorReason(errorBody)], [None] for [null]. *)
Definition parseGoogleErrorReason (errorBody : option json) : option string :=
  let parsed := safeJsonParse errorBody in
  let details := field_opt "details" (field "error" parsed) in
  match details with
  | Some (JArr items) => first_reason items
  | _ =>
      let code := field_opt "code" (field "error" parsed) in
      let status := field_opt "status" (field "error" parsed) in
      let message := field_opt "message" (field "error" parsed) in
      if (is_429 code && is_exhausted status)%bool then Some "RESOURCE_EXHAUSTED"
      else if (is_429 code && negb (truthy_opt details) && is_exhausted status)%bool
      then Some "RESOURCE_EXHAUSTED"
      else if (is_429 code
               && match message with
                  | Some (JStr m) =>
                      JsString.includes (JsString.toLowerCase m)
                                        "resource has been exhausted"
                  | _ => false
                  end)%bool
      then Some "RESOURCE_EXHAUSTED"
      else None
  end.

(** [parseGoogleRetryDelayMs] reads decimal fractions; it is taken as it
    is, [None] for [null]. *)
Variable parseGoogleRetryDelayMs : option json -> option Z.

(** [parseAntigravity429Meta(error)] of the bridge, from
    [error?.response?.data]: [reason] and [retryDelayMs]. *)
Definition parseAntigravity429Meta (body : option json) : option string * option Z :=
  let reason :=
    match parseGoogleErrorReason body with
    | Some r => if JsString.is_empty r then None else Some r
    | None => None
    end in
  let retryDelayMs :=
    match parseGoogleRetryDelayMs body with
    | Some ms => if ms =? 0 then None else Some ms
    | None => None
    end in
  (reason, retryDelayMs).

(** [resetsInSeconds] of the bridge for an upstream 429: the account is
    marked as rate limited for that long, and with [None] the error is
    thrown on. *)
Definition resetsInSeconds (now : Z) (accountId : string) (body : option json)
  (m : strikes) : option Z * strikes :=
  let '(reason, retryDelayMs) := parseAntigravity429Meta body in
  resolveAntigravityAccountRateLimitSeconds now accountId reason retryDelayMs m.

End Parse.

End ErrorParser.

(** Comparisons with string literals are decided by computation, never
    unfolded by [simpl]. *)
#[local] Arguments String.eqb : simpl never.
#[local] Arguments JsString.trim : simpl never.
#[local] Arguments JsString.toLowerCase : simpl never.
#[local] Arguments JsString.toUpperCase : simpl never.
#[local] Arguments Bridge.MAX_ANTIGRAVITY_TOOL_RESULT_CHARS : simpl never.
#[local] Arguments Z.sub : simpl never.
#[local] Arguments Z.add : simpl never.

(* ====================================================================== *)
(** * Facts about strings and maps                                          *)
(* ====================================================================== *)

Module JsStringFacts.
Import JsString.

Lemma is_empty_true s : is_empty s = true <-> s = "".
Proof. destruct s; simpl; split; congruence. Qed.

Lemma is_empty_false s : is_empty s = false <-> s <> "".
Proof. destruct s; simpl; split; congruence. Qed.

End JsStringFacts.

Module JsMapFacts.
Import JsMap.
Section WithValue.
Context {V : Type}.
Implicit Types (m : JsMap.t V) (k : string) (v : V).

Lemma get_set_eq k v m : get k (set k v m) = Some v.
Proof.
  induction m as [|[k' v'] r IH]; simpl.
  - now rewrite String.eqb_refl.
  - destruct (String.eqb k k') eqn:E; simpl.
    + now rewrite String.eqb_refl.
    + now rewrite E.
Qed.

Lemma get_set_ne k k' v m : k <> k' -> get k' (set k v m) = get k' m.
Proof.
  intros Hne. induction m as [|[k0 v0] r IH]; simpl.
  - destruct (String.eqb k' k) eqn:E; [|reflexivity].
    apply String.eqb_eq in E. congruence.
  - destruct (String.eqb k k0) eqn:E; simpl.
    + apply String.eqb_eq in E. subst k0.
      destruct (String.eqb k' k) eqn:E'; [|reflexivity].
      apply String.eqb_eq in E'. congruence.
    + destruct (String.eqb k' k0); [reflexivity|exact IH].
Qed.

Lemma get_delete_eq k m : get k (delete k m) = None.
Proof.
  induction m as [|[k' v'] r IH]; simpl; [reflexivity|].
  destruct (String.eqb k k') eqn:E; simpl; [exact IH|].
  now rewrite E.
Qed.

Lemma get_delete_ne k k' m : k <> k' -> get k' (delete k m) = get k' m.
Proof.
  intros Hne. induction m as [|[k0 v0] r IH]; simpl; [reflexivity|].
  destruct (String.eqb k k0) eqn:E; simpl.
  - apply String.eqb_eq in E. subst k0.
    destruct (String.eqb k' k) eqn:E'; [|exact IH].
    apply String.eqb_eq in E'. congruence.
  - destruct (String.eqb k' k0); [reflexivity|exact IH].
Qed.

(** Deleting can only remove bindings. *)
Lemma get_delete_Some k k' v m :
  get k' (delete k m) = Some v -> get k' m = Some v.
Proof.
  destruct (String.eqb k k') eqn:E.
  - apply String.eqb_eq in E. subst. now rewrite get_delete_eq.
  - apply String.eqb_neq in E. now rewrite get_delete_ne.
Qed.

Lemma delete_absent k m : get k m = None -> delete k m = m.
Proof.
  induction m as [|[k' v'] r IH]; simpl; [reflexivity|].
  destruct (String.eqb k k') eqn:E; [discriminate|].
  intros H. now rewrite IH.
Qed.

Lemma get_delete_all_Some ks k' v m :
  get k' (fold_left (fun c k => delete k c) ks m) = Some v ->
  get k' m = Some v.
Proof.
  revert m. induction ks as [|k ks IH]; simpl; intros m H; [exact H|].
  apply IH in H. now apply get_delete_Some in H.
Qed.

Lemma get_In k v m : get k m = Some v -> In (k, v) m.
Proof.
  induction m as [|[k' v'] r IH]; simpl; [discriminate|].
  destruct (String.eqb k k') eqn:E.
  - apply String.eqb_eq in E. intros [= <-]. subst. now left.
  - intros H. right. now apply IH.
Qed.

End WithValue.
End JsMapFacts.

(* ====================================================================== *)
(** * The signature cache                                                   *)
(* ====================================================================== *)

Module SignatureCacheProofs.
Import JsMap JsMapFacts SignatureCache.

Lemma keys_ok_get {V} (m : JsMap.t V) k v :
  keys_ok m -> get k m = Some v -> k <> "".
Proof.
  intros Hok Hget. apply get_In in Hget.
  unfold keys_ok in Hok. rewrite Forall_forall in Hok.
  specialize (Hok _ Hget). simpl in Hok.
  now apply JsStringFacts.is_empty_false.
Qed.

Lemma keys_ok_set {V} (m : JsMap.t V) k v :
  JsString.is_empty k = false -> keys_ok m -> keys_ok (set k v m).
Proof.
  intros Hk. unfold keys_ok.
  induction m as [|[k' v'] r IH]; simpl; intros Hok.
  - constructor; [exact Hk|constructor].
  - inversion Hok as [|? ? Hhd Htl]; subst.
    destruct (String.eqb k k'); constructor; auto.
Qed.

Lemma keys_ok_delete {V} (m : JsMap.t V) k :
  keys_ok m -> keys_ok (delete k m).
Proof.
  unfold keys_ok. induction m as [|[k' v'] r IH]; simpl; intros Hok; [constructor|].
  inversion Hok as [|? ? Hhd Htl]; subst.
  destruct (String.eqb k k'); [auto|constructor; auto].
Qed.

Lemma keys_ok_delete_all {V} ks (m : JsMap.t V) :
  keys_ok m -> keys_ok (delete_all ks m).
Proof.
  revert m. unfold delete_all.
  induction ks as [|k ks IH]; simpl; intros m Hok; [exact Hok|].
  apply IH. now apply keys_ok_delete.
Qed.

Lemma keys_ok_cleanup {V} (ts : V -> Z) now (m : JsMap.t V) limit :
  keys_ok m -> keys_ok (cleanupCache ts now m limit).
Proof.
  intros Hok. unfold cleanupCache.
  destruct (size m <=? limit); [exact Hok|].
  destruct (limit <? _); repeat apply keys_ok_delete_all; exact Hok.
Qed.

(** Cleaning up never adds or changes a binding. *)
Lemma get_cleanup_Some {V} (ts : V -> Z) now (m : JsMap.t V) limit k v :
  get k (cleanupCache ts now m limit) = Some v -> get k m = Some v.
Proof.
  unfold cleanupCache, delete_all.
  destruct (size m <=? limit); [auto|].
  destruct (limit <? _); intros H;
    repeat (apply get_delete_all_Some in H); exact H.
Qed.

Lemma Forall_snd_set {V} (P : V -> Prop) (m : JsMap.t V) k v :
  P v -> Forall (fun kv => P (snd kv)) m -> Forall (fun kv => P (snd kv)) (set k v m).
Proof.
  intros Hv. induction m as [|[k' v'] r IH]; simpl; intros H.
  - now repeat constructor.
  - inversion H; subst. destruct (String.eqb k k'); constructor; auto.
Qed.

Lemma Forall_snd_get {V} (P : V -> Prop) (m : JsMap.t V) k v :
  Forall (fun kv => P (snd kv)) m -> get k m = Some v -> P v.
Proof.
  intros H Hget. apply get_In in Hget. rewrite Forall_forall in H.
  exact (H _ Hget).
Qed.

(** ** Every operation keeps the representation invariant *)

Lemma empty_store_wf : store_wf empty_store.
Proof. repeat split; constructor. Qed.

Ltac split_or_false H :=
  apply Bool.orb_false_iff in H; destruct H.

Lemma cacheToolSignature_wf now k sig st :
  store_wf st -> store_wf (cacheToolSignature now k sig st).
Proof.
  intros (Ht & Hf & Hs & Ho & Hi). unfold cacheToolSignature.
  destruct (_ || _)%bool eqn:E; [repeat split; assumption|].
  destruct (negb _); [repeat split; assumption|].
  split_or_false E.
  repeat split; simpl; try assumption.
  apply keys_ok_cleanup, keys_ok_set; assumption.
Qed.

Lemma cacheSignatureFamily_wf now sig fam st :
  store_wf st -> store_wf (cacheSignatureFamily now sig fam st).
Proof.
  intros (Ht & Hf & Hs & Ho & Hi). unfold cacheSignatureFamily.
  destruct (_ || _)%bool eqn:E; [repeat split; assumption|].
  destruct (negb _); [repeat split; assumption|].
  split_or_false E.
  repeat split; simpl; try assumption.
  apply keys_ok_cleanup, keys_ok_set; assumption.
Qed.

Lemma cacheSessionSignature_wf now sid sig st :
  store_wf st -> store_wf (cacheSessionSignature now sid sig st).
Proof.
  intros (Ht & Hf & Hs & Ho & Hi). unfold cacheSessionSignature.
  destruct (_ || _)%bool eqn:E; [repeat split; assumption|].
  destruct (negb _); [repeat split; assumption|].
  destruct (shouldStore _ _ _); [|repeat split; assumption].
  split_or_false E.
  repeat split; simpl; try assumption.
  apply keys_ok_cleanup, keys_ok_set; assumption.
Qed.

Lemma cacheSignature_wf sha now sid text sig st :
  store_wf st -> store_wf (cacheSignature sha now sid text sig st).
Proof.
  intros (Ht & Hf & Hs & Ho & Hi). unfold cacheSignature.
  destruct (_ || _)%bool eqn:E; [repeat split; assumption|].
  destruct (negb _); [repeat split; assumption|].
  split_or_false E. split_or_false H.
  unfold getOrCreateSessionCache.
  assert (Hinner : forall outer inner,
            keys_ok outer -> Forall (fun kv => keys_ok (snd kv)) outer ->
            keys_ok inner ->
            store_wf
              (if JsString.is_empty (hashText sha text)
               then with_signatureCache outer st
               else
                 cacheSessionSignature now sid sig
                   (with_signatureCache
                      (set sid
                         (set (hashText sha text)
                            {| signature := sig; timestamp := now |}
                            (if MAX_ENTRIES_PER_SESSION <=? size inner
                             then
                               delete_all
                                 (keys
                                    (firstn
                                       (Z.to_nat
                                          (Z.max 1
                                             (Z.of_nat
                                                (Datatypes.length
                                                   (sort_by_ts timestamp inner)) / 4)))
                                       (sort_by_ts timestamp inner))) inner
                             else inner)) outer) st))).
  { intros outer inner Hko Hki Hin.
    destruct (JsString.is_empty (hashText sha text)) eqn:Eh.
    - repeat split; simpl; assumption.
    - apply cacheSessionSignature_wf.
      repeat split; simpl; try assumption.
      + now apply keys_ok_set.
      + apply Forall_snd_set; [|assumption].
        apply keys_ok_set; [assumption|].
        destruct (_ <=? _); [now apply keys_ok_delete_all|assumption]. }
  destruct (get sid (signatureCache st)) as [inner|] eqn:Eg.
  - apply Hinner; try assumption.
    exact (Forall_snd_get keys_ok _ _ _ Hi Eg).
  - apply Hinner.
    + now apply keys_ok_set.
    + apply Forall_snd_set; [constructor|assumption].
    + constructor.
Qed.

(** ** Lookups of expired entries *)

Lemma expired_true now ts :
  SIGNATURE_CACHE_TTL_MS < now - ts -> isExpired now ts = true.
Proof. intros H. unfold isExpired. now apply Z.ltb_lt. Qed.

Section ExpiredLookups.
Variable sha256_hex : string -> string.
Variables (now now' : Z) (st : store).
Hypothesis Hwf : store_wf st.

Lemma tool_lookup_expired k e :
  get k (toolSignatureCache st) = Some e ->
  SIGNATURE_CACHE_TTL_MS < now - timestamp e ->
  exists st1,
    getToolSignature now k st = (None, st1) /\
    get k (toolSignatureCache st1) = None /\
    getToolSignature now' k st1 = (None, st1).
Proof.
  intros Hget Hexp. destruct Hwf as (Ht & _).
  pose proof (keys_ok_get _ _ _ Ht Hget) as Hk.
  apply JsStringFacts.is_empty_false in Hk.
  unfold getToolSignature. rewrite Hk, Hget, (expired_true _ _ Hexp).
  eexists; split; [reflexivity|]. simpl.
  rewrite get_delete_eq. split; reflexivity.
Qed.

Lemma family_lookup_expired k e :
  get k (modelFamilyCache st) = Some e ->
  SIGNATURE_CACHE_TTL_MS < now - family_timestamp e ->
  exists st1,
    getSignatureFamily now k st = (None, st1) /\
    get k (modelFamilyCache st1) = None /\
    getSignatureFamily now' k st1 = (None, st1).
Proof.
  intros Hget Hexp. destruct Hwf as (_ & Hf & _).
  pose proof (keys_ok_get _ _ _ Hf Hget) as Hk.
  apply JsStringFacts.is_empty_false in Hk.
  unfold getSignatureFamily. rewrite Hk, Hget, (expired_true _ _ Hexp).
  eexists; split; [reflexivity|]. simpl.
  rewrite get_delete_eq. split; reflexivity.
Qed.

Lemma session_lookup_expired k e :
  get k (sessionLatestSignatureCache st) = Some e ->
  SIGNATURE_CACHE_TTL_MS < now - timestamp e ->
  exists st1,
    getSessionSignature now k st = (None, st1) /\
    get k (sessionLatestSignatureCache st1) = None /\
    getSessionSignature now' k st1 = (None, st1).
Proof.
  intros Hget Hexp. destruct Hwf as (_ & _ & Hs & _).
  pose proof (keys_ok_get _ _ _ Hs Hget) as Hk.
  apply JsStringFacts.is_empty_false in Hk.
  unfold getSessionSignature. rewrite Hk, Hget, (expired_true _ _ Hexp).
  eexists; split; [reflexivity|]. simpl.
  rewrite get_delete_eq. split; reflexivity.
Qed.

Lemma text_lookup_expired k text inner e :
  get k (signatureCache st) = Some inner ->
  get (hashText sha256_hex text) inner = Some e ->
  SIGNATURE_CACHE_TTL_MS < now - timestamp e ->
  exists st1 inner1,
    getCachedSignature sha256_hex now k text st = (None, st1) /\
    get k (signatureCache st1) = Some inner1 /\
    get (hashText sha256_hex text) inner1 = None /\
    getCachedSignature sha256_hex now' k text st1 = (None, st1).
Proof.
  intros Hout Hin Hexp. destruct Hwf as (_ & _ & _ & Ho & Hi).
  pose proof (keys_ok_get _ _ _ Ho Hout) as Hk.
  apply JsStringFacts.is_empty_false in Hk.
  pose proof (Forall_snd_get keys_ok _ _ _ Hi Hout) as Hinner.
  pose proof (keys_ok_get _ _ _ Hinner Hin) as Hh.
  apply JsStringFacts.is_empty_false in Hh.
  assert (Ht : JsString.is_empty text = false).
  { destruct text; [|reflexivity]. unfold hashText in Hh. simpl in Hh. discriminate. }
  unfold getCachedSignature.
  rewrite Hk, Ht, Hout, Hh, Hin, (expired_true _ _ Hexp). simpl.
  eexists; eexists; split; [reflexivity|]. simpl.
  rewrite get_set_eq. split; [reflexivity|].
  rewrite get_delete_eq. split; reflexivity.
Qed.

End ExpiredLookups.

(** C6.  On each of the four lookup surfaces, looking up an entry whose
    age exceeds the two-hour TTL returns not-found and removes the entry
    from its map; looking the same key up again, at any later instant,
    returns not-found again and leaves the store as it is. *)
Theorem expired_lookup_deletes_and_reports_not_found
  (sha256_hex : string -> string) (now now' : Z) (st : store) (k : string) :
  store_wf st ->
  (forall e,
      get k (toolSignatureCache st) = Some e ->
      SIGNATURE_CACHE_TTL_MS < now - timestamp e ->
      exists st1,
        getToolSignature now k st = (None, st1) /\
        get k (toolSignatureCache st1) = None /\
        getToolSignature now' k st1 = (None, st1)) /\
  (forall e,
      get k (modelFamilyCache st) = Some e ->
      SIGNATURE_CACHE_TTL_MS < now - family_timestamp e ->
      exists st1,
        getSignatureFamily now k st = (None, st1) /\
        get k (modelFamilyCache st1) = None /\
        getSignatureFamily now' k st1 = (None, st1)) /\
  (forall e,
      get k (sessionLatestSignatureCache st) = Some e ->
      SIGNATURE_CACHE_TTL_MS < now - timestamp e ->
      exists st1,
        getSessionSignature now k st = (None, st1) /\
        get k (sessionLatestSignatureCache st1) = None /\
        getSessionSignature now' k st1 = (None, st1)) /\
  (forall text inner e,
      get k (signatureCache st) = Some inner ->
      get (hashText sha256_hex text) inner = Some e ->
      SIGNATURE_CACHE_TTL_MS < now - timestamp e ->
      exists st1 inner1,
        getCachedSignature sha256_hex now k text st = (None, st1) /\
        get k (signatureCache st1) = Some inner1 /\
        get (hashText sha256_hex text) inner1 = None /\
        getCachedSignature sha256_hex now' k text st1 = (None, st1)).
Proof.
  intros Hwf. repeat split.
  - intros e. now apply tool_lookup_expired.
  - intros e. now apply family_lookup_expired.
  - intros e. now apply session_lookup_expired.
  - intros text inner e. now apply text_lookup_expired.
Qed.

(** A store holding one entry of age TTL + 1 ms on every surface; the
    digest is a stand-in that maps every text to the same 64 characters. *)
Definition sample_signature : string :=
  "c2lnbmF0dXJlLXNpZ25hdHVyZS1zaWduYXR1cmUtc2lnbmF0dXJlLXNpZw==".

Definition sample_digest (_ : string) : string :=
  "9f86d081884c7d659a2feaa0c55ad015a3bf4f1b2b0b822cd15d6c15b0f00a08".

Definition sample_entry : entry :=
  {| signature := sample_signature; timestamp := 1000 |}.

Definition sample_store : store :=
  {| signatureCache := [("sess-1", [("9f86d081884c7d65", sample_entry)])];
     toolSignatureCache := [("sess-1", sample_entry)];
     modelFamilyCache :=
       [("sess-1", {| modelFamily := "gemini-2.5"; family_timestamp := 1000 |})];
     sessionLatestSignatureCache := [("sess-1", sample_entry)] |}.

Lemma sample_store_wf : store_wf sample_store.
Proof. repeat split; repeat constructor. Qed.

Lemma expired_lookup_witness :
  getSessionSignature 7201001 "sess-1" sample_store
    = (None, with_session [] sample_store) /\
  getSessionSignature 7201002 "sess-1" (with_session [] sample_store)
    = (None, with_session [] sample_store) /\
  getCachedSignature sample_digest 7201001 "sess-1" "thinking" sample_store
    = (None, with_signatureCache [("sess-1", [])] sample_store) /\
  getCachedSignature sample_digest 7201002 "sess-1" "thinking"
      (with_signatureCache [("sess-1", [])] sample_store)
    = (None, with_signatureCache [("sess-1", [])] sample_store).
Proof.
  destruct (expired_lookup_deletes_and_reports_not_found
              sample_digest 7201001 7201002 sample_store "sess-1" sample_store_wf)
    as (_ & _ & Hs & Ht).
  destruct (Hs sample_entry eq_refl ltac:(vm_compute; reflexivity))
    as (s1 & H1 & _ & H2).
  destruct (Ht "thinking" [("9f86d081884c7d65", sample_entry)] sample_entry
               eq_refl eq_refl ltac:(vm_compute; reflexivity))
    as (t1 & i1 & H3 & _ & _ & H4).
  vm_compute in H1. injection H1 as <-.
  vm_compute in H3. injection H3 as <-.
  repeat split; assumption.
Defined.

(** ** The session-latest overwrite rule *)

Lemma shouldStore_false now e sig :
  isExpired now (timestamp e) = false ->
  JsString.len sig <= JsString.len (signature e) ->
  shouldStore now (Some e) sig = false.
Proof.
  intros He Hlen. unfold shouldStore. rewrite He. simpl.
  apply Z.ltb_ge. exact Hlen.
Qed.

(** C7 (as the code has it).  While the entry stored for a session has
    not expired, [cacheSessionSignature] leaves the store untouched unless
    the offered signature is strictly longer, and whatever entry the
    session has afterwards carries a signature at least as long as before. *)
Theorem session_signature_kept_unless_longer
  (now : Z) (sessionId sig : string) (st : store) (e : entry) :
  get sessionId (sessionLatestSignatureCache st) = Some e ->
  isExpired now (timestamp e) = false ->
  (JsString.len sig <= JsString.len (signature e) ->
   cacheSessionSignature now sessionId sig st = st) /\
  (forall e',
      get sessionId
          (sessionLatestSignatureCache (cacheSessionSignature now sessionId sig st))
        = Some e' ->
      JsString.len (signature e) <= JsString.len (signature e')).
Proof.
  intros Hget Hfresh. split.
  - intros Hlen. unfold cacheSessionSignature.
    destruct (_ || _)%bool; [reflexivity|].
    destruct (negb _); [reflexivity|].
    now rewrite Hget, shouldStore_false.
  - intros e'. unfold cacheSessionSignature.
    destruct (_ || _)%bool; [rewrite Hget; intros [= <-]; lia|].
    destruct (negb _); [rewrite Hget; intros [= <-]; lia|].
    rewrite Hget. unfold shouldStore. rewrite Hfresh. simpl.
    destruct (JsString.len (signature e) <? JsString.len sig) eqn:Elen.
    + simpl. intros H. apply get_cleanup_Some in H.
      rewrite get_set_eq in H. injection H as <-. simpl.
      apply Z.ltb_lt in Elen. lia.
    + rewrite Hget. intros [= <-]. lia.
Qed.

Lemma session_signature_kept_witness :
  cacheSessionSignature 2000 "sess-1"
    "c2lnbmF0dXJlLXNpZ25hdHVyZS1zaWduYXR1cmUtc2lnbmF0dXJlLQ==" sample_store
  = sample_store.
Proof.
  apply (session_signature_kept_unless_longer 2000 "sess-1" _ sample_store sample_entry);
    [reflexivity | reflexivity | vm_compute; discriminate].
Defined.

(** C7 fails as stated: an expired entry is replaced by a valid signature
    that is shorter, so the stored length drops from 60 to 56. *)
Lemma expired_session_signature_overwritten_by_shorter :
  let shorter := "c2lnbmF0dXJlLXNpZ25hdHVyZS1zaWduYXR1cmUtc2lnbmF0dXJlLQ==" in
  let st' := cacheSessionSignature 7201001 "sess-1" shorter sample_store in
  get "sess-1" (sessionLatestSignatureCache sample_store) = Some sample_entry /\
  get "sess-1" (sessionLatestSignatureCache st')
    = Some {| signature := shorter; timestamp := 7201001 |} /\
  JsString.len shorter = 56 /\
  JsString.len (signature sample_entry) = 60 /\
  ~ (JsString.len (signature sample_entry) < JsString.len shorter).
Proof. vm_compute. repeat split; try reflexivity. discriminate. Qed.

End SignatureCacheProofs.

(* ====================================================================== *)
(** * The upstream transport                                                *)
(* ====================================================================== *)

Module AntigravityClientProofs.
Import JsMap JsMapFacts AntigravityClient.

(** ** Cooldown map invariant *)

Lemma cooldowns_wf_get cds k e :
  cooldowns_wf cds -> get k cds = Some e -> k <> "" /\ 0 < untilMs e.
Proof.
  intros Hwf Hget. apply get_In in Hget.
  unfold cooldowns_wf in Hwf. rewrite Forall_forall in Hwf.
  destruct (Hwf _ Hget) as [Hk Hu]. simpl in *.
  split; [now apply JsStringFacts.is_empty_false|exact Hu].
Qed.

Lemma cooldowns_wf_set cds k e :
  JsString.is_empty k = false -> 0 < untilMs e ->
  cooldowns_wf cds -> cooldowns_wf (set k e cds).
Proof.
  intros Hk Hu. unfold cooldowns_wf.
  induction cds as [|[k' e'] r IH]; simpl; intros Hwf.
  - now repeat constructor.
  - inversion Hwf; subst. destruct (String.eqb k k'); constructor; auto.
Qed.

Lemma cooldowns_wf_delete cds k :
  cooldowns_wf cds -> cooldowns_wf (delete k cds).
Proof.
  unfold cooldowns_wf.
  induction cds as [|[k' e'] r IH]; simpl; intros Hwf; [constructor|].
  inversion Hwf; subst. destruct (String.eqb k k'); [auto|constructor; auto].
Qed.

Lemma setModelCooldown_wf now model ms why cds :
  0 <= now -> cooldowns_wf cds -> cooldowns_wf (setModelCooldown now model ms why cds).
Proof.
  intros Hnow Hwf. unfold setModelCooldown.
  destruct (JsString.is_empty _) eqn:Ek; [exact Hwf|].
  destruct (0 <? ms) eqn:Ems; simpl; [|exact Hwf].
  apply Z.ltb_lt in Ems.
  destruct (ms =? 0) eqn:E0; [exact Hwf|].
  apply cooldowns_wf_set; simpl; [exact Ek|lia|exact Hwf].
Qed.

Lemma getModelCooldownInfo_wf now model cds :
  cooldowns_wf cds -> cooldowns_wf (snd (getModelCooldownInfo now model cds)).
Proof.
  intros Hwf. unfold getModelCooldownInfo.
  destruct (JsString.is_empty _); [exact Hwf|].
  destruct (get _ cds) as [e|]; [|exact Hwf].
  destruct (untilMs e =? 0); [exact Hwf|].
  destruct (_ <=? 0); simpl; [now apply cooldowns_wf_delete|exact Hwf].
Qed.

(** ** Fail-fast on a cooling model *)

Lemma ceil_div_pos r : 0 < r -> 1 <= ceil_div r 1000.
Proof.
  intros Hr. unfold ceil_div.
  assert ((- r) / 1000 < 0) by (apply Z.div_lt_upper_bound; lia).
  lia.
Qed.

(** [ceil_div r 1000] is the least number of whole seconds covering [r]
    milliseconds. *)
Lemma ceil_div_spec r :
  1000 * (ceil_div r 1000 - 1) < r <= 1000 * ceil_div r 1000.
Proof.
  unfold ceil_div.
  pose proof (Z.div_mod (- r) 1000 ltac:(lia)) as Hdm.
  pose proof (Z.mod_pos_bound (- r) 1000 ltac:(lia)) as Hb.
  lia.
Qed.

(** C9.  While the model's cooldown entry has not run out, [request]
    throws the synthetic 429 whose [retry-after] is the remaining cooldown
    in whole seconds (rounded up) and never reaches the endpoint loop;
    from the cooldown instant on, the lookup deletes the entry and the
    request goes to the endpoint loop. *)
Theorem request_fails_fast_while_model_cools_down
  {R : Type} (attemptRequest : cooldowns -> R)
  (now : Z) (model : string) (cds : cooldowns) (e : cooldown_entry) :
  cooldowns_wf cds ->
  get (JsString.trim model) cds = Some e ->
  (now < untilMs e ->
   exists err,
     request attemptRequest now model cds = (Thrown err, cds) /\
     err_status err = 429 /\
     err_retry_after err = JsString.of_Z (ceil_div (untilMs e - now) 1000)) /\
  (untilMs e <= now ->
   let cds' := delete (JsString.trim model) cds in
   request attemptRequest now model cds = (Attempted (attemptRequest cds'), cds') /\
   get (JsString.trim model) cds' = None).
Proof.
  intros Hwf Hget.
  destruct (cooldowns_wf_get _ _ _ Hwf Hget) as [Hk Hu].
  apply JsStringFacts.is_empty_false in Hk.
  assert (Hu0 : (untilMs e =? 0) = false) by (apply Z.eqb_neq; lia).
  split.
  - intros Hlt. unfold request, getModelCooldownInfo.
    rewrite Hk, Hget, Hu0.
    assert (Hr : (untilMs e - now <=? 0) = false) by (apply Z.leb_gt; lia).
    rewrite Hr. simpl remainingMs.
    assert (Hp : (0 <? untilMs e - now) = true) by (apply Z.ltb_lt; lia).
    rewrite Hp. eexists; split; [reflexivity|]. split; [reflexivity|].
    simpl. rewrite Z.max_r; [reflexivity|]. apply ceil_div_pos. lia.
  - intros Hge. simpl. unfold request, getModelCooldownInfo.
    rewrite Hk, Hget, Hu0.
    assert (Hr : (untilMs e - now <=? 0) = true) by (apply Z.leb_le; lia).
    rewrite Hr. simpl. split; [reflexivity|apply get_delete_eq].
Qed.

Definition sample_cooldowns : cooldowns :=
  [("gemini-2.5-pro", {| untilMs := 61500; reason := "MODEL_CAPACITY_EXHAUSTED" |})].

Lemma request_fails_fast_witness :
  request (fun _ => tt) 60000 " gemini-2.5-pro " sample_cooldowns
    = (Thrown {| err_status := 429;
                 err_code := "ANTIGRAVITY_MODEL_COOLDOWN";
                 err_message := "Model capacity exhausted (cooldown 2s)";
                 err_data_reason := Some "MODEL_CAPACITY_EXHAUSTED";
                 err_retry_after := "2" |},
       sample_cooldowns) /\
  request (fun _ => tt) 61500 " gemini-2.5-pro " sample_cooldowns
    = (Attempted tt, []).
Proof.
  assert (Hwf : cooldowns_wf sample_cooldowns)
    by (repeat constructor).
  destruct (request_fails_fast_while_model_cools_down
              (fun _ : cooldowns => tt) 60000 " gemini-2.5-pro "
              sample_cooldowns _ Hwf eq_refl) as [H1 _].
  destruct (request_fails_fast_while_model_cools_down
              (fun _ : cooldowns => tt) 61500 " gemini-2.5-pro "
              sample_cooldowns _ Hwf eq_refl) as [_ H2].
  destruct (H1 ltac:(vm_compute; reflexivity)) as (err & Herr & _).
  destruct (H2 ltac:(vm_compute; discriminate)) as [Hatt _].
  split; [reflexivity|exact Hatt].
Defined.

(** ** Thinking budget *)

(** The effective output ceiling: [maxOutputTokens] unless it is absent
    or zero and the model declares a non-zero [maxCompletionTokens]. *)
Definition effective_max (gc : generationConfig) (md : model_metadata) : option Z :=
  if (negb (truthy_num (maxOutputTokens gc))
      && truthy_num (maxCompletionTokens md))%bool
  then maxCompletionTokens md else maxOutputTokens gc.

(** The budget in closed form: capped by the declared maximum, then
    brought under a non-zero effective ceiling. *)
Definition clamped_budget (th : thinking_meta) (em : option Z) (b : Z) : Z :=
  let b1 := match thinking_max th with Some mx => Z.min b mx | None => b end in
  match em with
  | Some m => if m =? 0 then b1 else if m <=? b1 then Z.max 0 (m - 1) else b1
  | None => b1
  end.

Lemma clamped_budget_bounds th em b :
  (forall mx, thinking_max th = Some mx ->
     (forall m, em = Some m -> 0 <= m) -> 0 <= mx -> clamped_budget th em b <= mx) /\
  (forall m, em = Some m -> 0 < m ->
     clamped_budget th em b <= m - 1 /\
     (forall b1, b1 = match thinking_max th with Some mx => Z.min b mx | None => b end ->
        m <= b1 -> clamped_budget th em b = m - 1)).
Proof.
  unfold clamped_budget. split.
  - intros mx Hmx Hem Hpos. rewrite Hmx.
    destruct em as [m|]; [|lia].
    specialize (Hem m eq_refl).
    destruct (m =? 0); [lia|].
    destruct (m <=? Z.min b mx) eqn:E; [|lia].
    apply Z.leb_le in E. lia.
  - intros m -> Hm.
    assert (E0 : (m =? 0) = false) by (apply Z.eqb_neq; lia). rewrite E0.
    split.
    + destruct (m <=? _) eqn:E; [lia|]. apply Z.leb_gt in E. lia.
    + intros b1 -> Hle. apply Z.leb_le in Hle. rewrite Hle. lia.
Qed.

Section ThinkingBudget.
Variable normalizeAntigravityModelInput : string -> string.
Variable getAntigravityModelMetadata : string -> option model_metadata.

Let normalizeThinking :=
  normalizeAntigravityThinking normalizeAntigravityModelInput getAntigravityModelMetadata.
Let normalizeEnvelope :=
  normalizeAntigravityEnvelope normalizeAntigravityModelInput getAntigravityModelMetadata.

Lemma envelope_keeps_thinkingCfg model gc :
  thinkingCfg (normalizeEnvelope model gc) = thinkingCfg (normalizeThinking model gc).
Proof.
  unfold normalizeEnvelope, normalizeAntigravityEnvelope.
  destruct (negb _); reflexivity.
Qed.

Lemma normalizeThinking_budget model gc tc md th b :
  thinkingCfg gc = Some tc ->
  thinkingBudget tc = Some b ->
  getAntigravityModelMetadata (normalizeAntigravityModelInput model) = Some md ->
  thinking md = Some th ->
  let final := clamped_budget th (effective_max gc md) b in
  thinkingCfg (normalizeThinking model gc) =
    if match thinking_min th with
       | Some mn => ((0 <=? final) && (final <? mn))%bool
       | None => false
       end
    then None
    else Some {| thinkingBudget := Some final;
                 thinkingLevel :=
                   if (truthy_str (thinkingLevel tc)
                       && negb (JsString.startsWith
                                  (normalizeAntigravityModelInput model) "gemini-3-"))%bool
                   then None else thinkingLevel tc;
                 include_thoughts := include_thoughts tc |}.
Proof.
  intros Htc Hb Hmd Hth final.
  unfold normalizeThinking, normalizeAntigravityThinking.
  rewrite Htc.
  set (lvl := (truthy_str (thinkingLevel tc) && _)%bool).
  assert (Hbud : thinkingBudget
            (if lvl then {| thinkingBudget := thinkingBudget tc;
                            thinkingLevel := None;
                            include_thoughts := include_thoughts tc |} else tc)
          = Some b) by (destruct lvl; simpl; assumption).
  cbv zeta. rewrite Hmd, Hth, Hbud.
  assert (Hfinal :
    match
      (if (negb (truthy_num (maxOutputTokens gc))
           && truthy_num (maxCompletionTokens md))%bool
       then maxCompletionTokens md else maxOutputTokens gc)
    with
    | Some em =>
        if (negb (em =? 0)
            && (em <=? match thinking_max th with
                       | Some mx => if mx <? b then mx else b
                       | None => b
                       end))%bool
        then Z.max 0 (em - 1)
        else match thinking_max th with
             | Some mx => if mx <? b then mx else b
             | None => b
             end
    | None => match thinking_max th with
              | Some mx => if mx <? b then mx else b
              | None => b
              end
    end = final).
  { unfold final, clamped_budget, effective_max.
    assert (Hmin : match thinking_max th with
                   | Some mx => if mx <? b then mx else b
                   | None => b
                   end
                   = match thinking_max th with
                     | Some mx => Z.min b mx
                     | None => b
                     end).
    { destruct (thinking_max th) as [mx|]; [|reflexivity].
      destruct (mx <? b) eqn:E; [apply Z.ltb_lt in E|apply Z.ltb_ge in E]; lia. }
    rewrite Hmin.
    destruct (if (negb (truthy_num (maxOutputTokens gc))
                  && truthy_num (maxCompletionTokens md))%bool
              then maxCompletionTokens md else maxOutputTokens gc) as [em|];
      [|reflexivity].
    destruct (em =? 0); reflexivity. }
  rewrite Hfinal.
  destruct (thinking_min th) as [mn|].
  - destruct ((0 <=? final) && (final <? mn))%bool; [reflexivity|].
    simpl. destruct lvl; reflexivity.
  - simpl. destruct lvl; reflexivity.
Qed.

(** C8 (as the code has it).  For a thinking-capable model and a finite
    budget, the budget is capped by the declared maximum and brought to
    [max 0 (ceiling - 1)] when it reaches a non-zero effective ceiling;
    [thinkingConfig] is removed when that result is non-negative and below
    the declared minimum, and otherwise - also for a negative result - the
    result is the budget the envelope carries. *)
Theorem thinking_budget_clamped_or_removed
  (model : string) (gc : generationConfig) (tc : thinkingConfig)
  (md : model_metadata) (th : thinking_meta) (b : Z) :
  thinkingCfg gc = Some tc ->
  thinkingBudget tc = Some b ->
  getAntigravityModelMetadata (normalizeAntigravityModelInput model) = Some md ->
  thinking md = Some th ->
  let final := clamped_budget th (effective_max gc md) b in
  let sent := thinkingCfg (normalizeEnvelope model gc) in
  (forall mn, thinking_min th = Some mn -> 0 <= final < mn -> sent = None) /\
  ((forall mn, thinking_min th = Some mn -> final < 0 \/ mn <= final) ->
   exists tc', sent = Some tc' /\ thinkingBudget tc' = Some final).
Proof.
  intros Htc Hb Hmd Hth final sent.
  unfold sent. rewrite envelope_keeps_thinkingCfg.
  rewrite (normalizeThinking_budget model gc tc md th b Htc Hb Hmd Hth).
  fold final. split.
  - intros mn Hmn [H0 H1]. rewrite Hmn.
    apply Z.leb_le in H0. apply Z.ltb_lt in H1. now rewrite H0, H1.
  - intros Hkeep. destruct (thinking_min th) as [mn|].
    + destruct (Hkeep mn eq_refl) as [Hneg|Hge].
      * assert (E : (0 <=? final) = false) by (apply Z.leb_gt; lia).
        rewrite E. simpl. eexists; split; reflexivity.
      * assert (E : (final <? mn) = false) by (apply Z.ltb_ge; lia).
        rewrite E, Bool.andb_false_r. eexists; split; reflexivity.
    + eexists; split; reflexivity.
Qed.

End ThinkingBudget.

(** A model table with one thinking-capable entry. *)
Definition sample_metadata (model : string) : option model_metadata :=
  if String.eqb model "claude-opus-4-5-thinking"
  then Some {| thinking := Some {| thinking_min := Some 1024;
                                   thinking_max := Some 32768 |};
               maxCompletionTokens := Some 64000 |}
  else None.

Definition sample_config (budget : Z) : generationConfig :=
  {| maxOutputTokens := Some 4096;
     thinkingCfg := Some {| thinkingBudget := Some budget;
                            thinkingLevel := None;
                            include_thoughts := Some true |} |}.

Lemma thinking_budget_witness :
  thinkingCfg (normalizeAntigravityEnvelope (fun m : string => m) sample_metadata
                 "claude-opus-4-5-thinking" (sample_config 50000))
    = Some {| thinkingBudget := Some 4095;
              thinkingLevel := None;
              include_thoughts := Some true |} /\
  thinkingCfg (normalizeAntigravityEnvelope (fun m : string => m) sample_metadata
                 "claude-opus-4-5-thinking" (sample_config 512))
    = None.
Proof.
  destruct (thinking_budget_clamped_or_removed (fun m : string => m) sample_metadata
              "claude-opus-4-5-thinking" (sample_config 50000) _ _ _ 50000
              eq_refl eq_refl eq_refl eq_refl) as [_ Hkeep].
  destruct (thinking_budget_clamped_or_removed (fun m : string => m) sample_metadata
              "claude-opus-4-5-thinking" (sample_config 512) _ _ _ 512
              eq_refl eq_refl eq_refl eq_refl) as [Hdrop _].
  split.
  - destruct Hkeep as (tc' & Hsent & _).
    + intros mn [= <-]. right. vm_compute. discriminate.
    + reflexivity.
  - apply (Hdrop 1024 eq_refl). vm_compute. split; [discriminate|reflexivity].
Defined.

(** C8 fails as stated: the budget -1 lies below the declared minimum
    1024, yet [thinkingConfig] stays in the envelope with that budget. *)
Lemma negative_budget_below_minimum_is_kept :
  thinkingCfg (normalizeAntigravityEnvelope (fun m : string => m) sample_metadata
                 "claude-opus-4-5-thinking" (sample_config (-1)))
    = Some {| thinkingBudget := Some (-1);
              thinkingLevel := None;
              include_thoughts := Some true |} /\
  (-1 < 1024).
Proof. split; [reflexivity|lia]. Qed.

End AntigravityClientProofs.

(* ====================================================================== *)
(** * The non-streaming reply                                               *)
(* ====================================================================== *)

Module NonStreamProofs.
Import Json Bridge.

Section Reply.
Variable JSON_parse : string -> option json.
Variable buildToolUseId : nat -> string.
Variable text_tool_fallback : bool.
Variable tryExtractWriteToolFromText : string -> option extracted_write.





End Reply.

(** Payloads with one text part and a given [finishReason]. *)
Definition text_payload (finishReason : list (string * json)) : option json :=
  Some (JObj [("candidates",
               JArr [JObj (("content",
                            JObj [("parts", JArr [JObj [("text", JStr "done")]])])
                           :: finishReason)])]).

Definition no_parse (_ : string) : option json := None.
Definition no_write (_ : string) : option extracted_write := None.
Definition sample_ids (n : nat) : string := "toolu_" ++ JsString.of_Z (Z.of_nat n).

Lemma nonstream_stop_reason_examples :
  let stop fr := stop_reason (nonstream_reply no_parse sample_ids true no_write
                                (text_payload fr) 0) in
  stop [("finishReason", JStr "max_tokens")] = "max_tokens" /\
  stop [("finishReason", JStr "MAX_TOKENS")] = "max_tokens" /\
  stop [("finishReason", JStr "SAFETY")] = "end_turn" /\
  stop [("finishReason", JStr "RECITATION")] = "end_turn" /\
  stop [("finishReason", JStr "STOP")] = "end_turn" /\
  stop [] = "end_turn".
Proof. vm_compute. repeat split; reflexivity. Qed.


End NonStreamProofs.

(* ====================================================================== *)
(** * Facts about JSON values                                               *)
(* ====================================================================== *)

Module JsonFacts.
Import Json JsMap JsMapFacts.

Lemma field_with_field_eq k x v : field k (with_field k x v) = Some x.
Proof.
  destruct v; simpl; try now rewrite String.eqb_refl.
  apply get_set_eq.
Qed.

Lemma field_with_field_ne k k' x v :
  k <> k' -> (exists props, v = JObj props) ->
  field k' (with_field k x v) = field k' v.
Proof.
  intros Hne [props ->]. simpl. now apply get_set_ne.
Qed.

Lemma set_set (V : Type) k (x y : V) (m : JsMap.t V) :
  set k x (set k y m) = set k x m.
Proof.
  induction m as [|[k' v'] r IH]; simpl.
  - now rewrite String.eqb_refl.
  - destruct (String.eqb k k') eqn:E; simpl.
    + now rewrite String.eqb_refl.
    + now rewrite E, IH.
Qed.

Lemma with_field_twice k x y v :
  with_field k x (with_field k y v) = with_field k x v.
Proof.
  destruct v; simpl; try now rewrite String.eqb_refl.
  now rewrite set_set.
Qed.

Lemma field_Some_obj k v x : field k v = Some x -> exists props, v = JObj props.
Proof. destruct v; simpl; try discriminate. eauto. Qed.


Lemma field_is_with_field_ne k k' s x v :
  k <> k' -> (exists props, v = JObj props) ->
  field_is k' s (with_field k x v) = field_is k' s v.
Proof.
  intros Hne Hobj. unfold field_is. now rewrite field_with_field_ne.
Qed.

Lemma type_is_eq t t' v : type_is t v = true -> type_is t' v = true -> t = t'.
Proof.
  unfold type_is, field_is. destruct (field "type" v) as [[]|]; try discriminate.
  intros H1 H2. apply String.eqb_eq in H1, H2. congruence.
Qed.

End JsonFacts.

(* ====================================================================== *)
(** * Tool-result sanitisation                                              *)
(* ====================================================================== *)

Module ToolResultProofs.
Import Json JsonFacts Bridge.



Section Sanitize.
Variable compact : string -> Z -> string.

Let loop := sanitize_blocks compact.



Lemma loop_removed_image blocks used :
  snd (loop blocks used) = true -> existsb is_base64_image blocks = true.
Proof.
  unfold loop. revert used.
  induction blocks as [|block rest IH]; simpl; intros used H; [discriminate|].
  destruct (negb _) eqn:Eobj.
  { rewrite (IH _ H). apply Bool.orb_true_r. }
  destruct (is_base64_image block) eqn:Eimg; [reflexivity|]. simpl.
  destruct (if type_is "text" block then str_field "text" block else None) as [s|].
  - destruct (_ <=? 0); [discriminate|].
    destruct (sanitize_blocks compact rest _) as [cleaned removed] eqn:Erest.
    simpl in H. subst removed. apply (f_equal snd) in Erest. exact (IH _ Erest).
  - destruct (_ <=? used + 100); [discriminate|].
    destruct (sanitize_blocks compact rest _) as [cleaned removed] eqn:Erest.
    simpl in H. subst removed. apply (f_equal snd) in Erest. exact (IH _ Erest).
Qed.















End Sanitize.

Definition png_block (data : string) : json :=
  JObj [("type", JStr "image");
        ("source", JObj [("type", JStr "base64");
                         ("media_type", JStr "image/png");
                         ("data", JStr data)])].

(** A stand-in for the compaction: texts within the budget are kept. *)
Definition keep_text (s : string) (_ : Z) : string := s.




Definition resource_block : json :=
  JObj [("type", JStr "resource"); ("resource", JObj [("uri", JStr "file:///tmp/a")])].

(** An image behind the point where the budget runs out is dropped with
    the rest, and no note is appended: 2000 blocks that are no text use
    up the 200000 characters. *)
Example image_behind_the_budget_gets_no_note :
  let blocks := (repeat resource_block 2000 ++ [png_block "iVBORw0KGgo="])%list in
  existsb is_base64_image blocks = true /\
  sanitizeToolResultBlocksForAntigravity keep_text blocks = repeat resource_block 2000.
Proof. vm_compute. split; reflexivity. Qed.

End ToolResultProofs.

(* ====================================================================== *)
(** * Argument remapping                                                    *)
(* ====================================================================== *)

Module RemapProofs.
Import Json Bridge.

Lemma grep_query_becomes_pattern_with_default_path :
  remapFunctionCallArgs "Grep" (JObj [("query", JStr "foo")])
  = JObj [("pattern", JStr "foo"); ("path", JStr ".")].
Proof. reflexivity. Qed.

End RemapProofs.

(* ====================================================================== *)
(** * Message normalisation                                                 *)
(* ====================================================================== *)

Module NormalizeProofs.
Import Json JsonFacts JsMap JsMapFacts Bridge.

(** ** Filters *)

Section Filters.
Context {A : Type}.
Implicit Types (f g : A -> bool) (l : list A).

Lemma filter_all f l : Forall (fun x => f x = true) l -> filter f l = l.
Proof.
  induction 1 as [|x r Hx _ IH]; simpl; [reflexivity|]. now rewrite Hx, IH.
Qed.

Lemma filter_none f l : Forall (fun x => f x = false) l -> filter f l = [].
Proof.
  induction 1 as [|x r Hx _ IH]; simpl; [reflexivity|]. now rewrite Hx.
Qed.

Lemma Forall_filter f l : Forall (fun x => f x = true) (filter f l).
Proof.
  induction l as [|x r IH]; simpl; [constructor|].
  destruct (f x) eqn:E; [constructor|]; assumption.
Qed.

Lemma Forall_filter_keeps (P : A -> Prop) f l : Forall P l -> Forall P (filter f l).
Proof.
  induction 1 as [|x r Hx _ IH]; simpl; [constructor|].
  destruct (f x); [constructor|]; assumption.
Qed.

Lemma filter_twice f l : filter f (filter f l) = filter f l.
Proof. apply filter_all, Forall_filter. Qed.

Lemma filter_then_complement f l : filter (fun x => negb (f x)) (filter f l) = [].
Proof.
  apply filter_none. eapply Forall_impl; [|apply Forall_filter].
  intros x Hx. simpl in Hx. now rewrite Hx.
Qed.

Lemma filter_complement_then f l : filter f (filter (fun x => negb (f x)) l) = [].
Proof.
  apply filter_none. eapply Forall_impl; [|apply Forall_filter].
  intros x Hx. simpl in Hx. now apply Bool.negb_true_iff.
Qed.

Lemma is_nil_true l : is_nil l = true -> l = [].
Proof. destruct l; [reflexivity|discriminate]. Qed.

End Filters.

(** ** Messages and parts *)

Lemma delete_twice (V : Type) k (m : JsMap.t V) : delete k (delete k m) = delete k m.
Proof. apply delete_absent, get_delete_eq. Qed.

Lemma without_field_twice k v : without_field k (without_field k v) = without_field k v.
Proof. destruct v; simpl; try reflexivity. now rewrite delete_twice. Qed.

Lemma type_is_without_cache_control t v :
  type_is t (without_field "cache_control" v) = type_is t v.
Proof.
  destruct v; try reflexivity.
  unfold type_is, field_is. simpl.
  rewrite get_delete_ne; [reflexivity|discriminate].
Qed.

Lemma truthy_without_field k v : truthy (without_field k v) = truthy v.
Proof. destruct v; reflexivity. Qed.

Lemma message_content_obj m c :
  message_content m = Some c -> exists props, m = JObj props.
Proof.
  unfold message_content. destruct (truthy m); [|discriminate].
  destruct (field "content" m) eqn:E; [|discriminate].
  intros _. eapply field_Some_obj; eauto.
Qed.

Lemma message_content_with_content parts m :
  message_content (with_field "content" (JArr parts) m) = Some parts.
Proof.
  unfold message_content. rewrite field_with_field_eq.
  destruct m; reflexivity.
Qed.

Lemma role_with_content r parts m c :
  message_content m = Some c ->
  field_is "role" r (with_field "content" (JArr parts) m) = field_is "role" r m.
Proof.
  intros Hc. apply field_is_with_field_ne; [discriminate|].
  eapply message_content_obj; eauto.
Qed.

Lemma with_content_twice x y m :
  with_field "content" x (with_field "content" y m) = with_field "content" x m.
Proof. apply with_field_twice. Qed.

(** ** Synthetic tool results *)

Lemma synthetic_results_truthy ids :
  Forall (fun x => truthy x = true) (map synthetic_tool_result ids).
Proof. induction ids; simpl; constructor; auto. Qed.

Lemma synthetic_results_are_results ids :
  Forall (fun x => is_tool_result x = true) (map synthetic_tool_result ids).
Proof. induction ids; simpl; constructor; auto. Qed.

Lemma synthetic_result_ids ids :
  tool_result_ids (map synthetic_tool_result ids) = ids.
Proof. induction ids as [|id r IH]; simpl; [reflexivity|]. now rewrite IH. Qed.

Lemma tool_result_ids_app l1 l2 :
  tool_result_ids (l1 ++ l2) = (tool_result_ids l1 ++ tool_result_ids l2)%list.
Proof. unfold tool_result_ids. apply flat_map_app. Qed.

Lemma mem_app s l1 l2 : mem s (l1 ++ l2) = (mem s l1 || mem s l2)%bool.
Proof.
  induction l1 as [|x r IH]; simpl; [reflexivity|].
  now rewrite IH, Bool.orb_assoc.
Qed.

Lemma mem_refl_all ids :
  filter (fun id => negb (mem id ids)) ids = [].
Proof.
  apply filter_none. rewrite Forall_forall. intros id Hin.
  apply Bool.negb_false_iff.
  induction ids as [|x r IH]; simpl in *; [contradiction|].
  destruct Hin as [->|Hin]; [now rewrite String.eqb_refl|].
  rewrite (IH Hin). apply Bool.orb_true_r.
Qed.

(** ** Stripping and ordering the parts of an assistant message *)

Definition is_tool_use_part (x : json) : bool := (truthy x && type_is "tool_use" x)%bool.

Lemma strip_after_subset b l x : In x (strip_after b l) -> In x l.
Proof.
  revert b. induction l as [|y r IH]; simpl; intros b Hin; [contradiction|].
  destruct (negb (truthy y)); [right; eauto|].
  destruct (type_is "tool_use" y).
  - destruct Hin as [->|Hin]; [now left|right; eauto].
  - destruct (negb b); [|right; eauto].
    destruct Hin as [->|Hin]; [now left|right; eauto].
Qed.

Lemma strip_after_keeps (P : json -> Prop) b l : Forall P l -> Forall P (strip_after b l).
Proof.
  rewrite !Forall_forall. intros H x Hin. apply H. eapply strip_after_subset; eauto.
Qed.

Lemma strip_after_truthy b l : Forall (fun x => truthy x = true) (strip_after b l).
Proof.
  revert b. induction l as [|y r IH]; simpl; intros b; [constructor|].
  destruct (truthy y) eqn:Ey; simpl; [|apply IH].
  destruct (type_is "tool_use" y); [constructor; auto|].
  destruct (negb b); [constructor; auto|apply IH].
Qed.

Lemma strip_after_seen_tools l : Forall (fun x => is_tool_use_part x = true) (strip_after true l).
Proof.
  induction l as [|y r IH]; simpl; [constructor|].
  destruct (truthy y) eqn:Ey; simpl; [|exact IH].
  destruct (type_is "tool_use" y) eqn:Et; [|exact IH].
  constructor; [|exact IH]. unfold is_tool_use_part. now rewrite Ey, Et.
Qed.

Lemma strip_after_of_tools b l :
  Forall (fun x => is_tool_use_part x = true) l -> strip_after b l = l.
Proof.
  intros H. revert b. induction H as [|y r Hy _ IH]; intros b; simpl; [reflexivity|].
  unfold is_tool_use_part in Hy. apply Bool.andb_true_iff in Hy as [Ey Et].
  rewrite Ey, Et. simpl. now rewrite IH.
Qed.

Lemma strip_twice l :
  stripNonToolPartsAfterToolUse (stripNonToolPartsAfterToolUse l)
  = stripNonToolPartsAfterToolUse l.
Proof.
  unfold stripNonToolPartsAfterToolUse.
  induction l as [|y r IH]; simpl; [reflexivity|].
  destruct (truthy y) eqn:Ey; simpl; [|exact IH].
  destruct (type_is "tool_use" y) eqn:Et; simpl.
  - rewrite Ey, Et. simpl. f_equal. apply strip_after_of_tools, strip_after_seen_tools.
  - rewrite Ey, Et. simpl. now rewrite IH.
Qed.

Lemma strip_after_prefix T O :
  Forall (fun x => truthy x = true /\ type_is "tool_use" x = false) T ->
  strip_after false (T ++ O) = (T ++ strip_after false O)%list.
Proof.
  induction 1 as [|y r [Ey Et] _ IH]; simpl; [reflexivity|].
  rewrite Ey, Et. simpl. now rewrite IH.
Qed.

Lemma thinking_not_tool_use x : is_thinking_part x = true -> type_is "tool_use" x = false.
Proof.
  unfold is_thinking_part. intros H.
  destruct (type_is "tool_use" x) eqn:E; [|reflexivity].
  apply Bool.orb_true_iff in H as [H|H];
    pose proof (type_is_eq _ _ _ H E); discriminate.
Qed.

Lemma is_thinking_without_cache_control x :
  is_thinking_part (without_field "cache_control" x) = is_thinking_part x.
Proof. unfold is_thinking_part. now rewrite !type_is_without_cache_control. Qed.

Section Ordering.
Variable vendor : option string.
Hypothesis Hanti : is_antigravity vendor = true.

Let thinking_of (parts : list json) : list json :=
  map (without_field "cache_control") (filter is_thinking_part (filter truthy parts)).
Let others_of (parts : list json) : list json :=
  filter (fun part => negb (is_thinking_part part || isIgnorableTrailingText part)%bool)
         (filter truthy parts).

Lemma order_unfold parts :
  normalizeAssistantThinkingOrderForVendor vendor parts
  = (thinking_of parts ++ others_of parts)%list.
Proof.
  unfold normalizeAssistantThinkingOrderForVendor. now rewrite Hanti.
Qed.

Lemma thinking_of_props parts :
  Forall (fun x => truthy x = true /\ is_thinking_part x = true) (thinking_of parts).
Proof.
  unfold thinking_of. rewrite Forall_map.
  induction parts as [|y r IH]; simpl; [constructor|].
  destruct (truthy y) eqn:Ey; simpl; [|exact IH].
  destruct (is_thinking_part y) eqn:Et; simpl; [|exact IH].
  constructor; [|exact IH].
  now rewrite truthy_without_field, is_thinking_without_cache_control.
Qed.

Lemma others_of_props parts :
  Forall (fun x => truthy x = true /\
                   negb (is_thinking_part x || isIgnorableTrailingText x) = true)
         (others_of parts).
Proof.
  unfold others_of.
  induction parts as [|y r IH]; simpl; [constructor|].
  destruct (truthy y) eqn:Ey; simpl; [|exact IH].
  destruct (negb _) eqn:En; [|exact IH].
  constructor; [|exact IH]. now split.
Qed.

Lemma map_without_twice l :
  map (without_field "cache_control") (map (without_field "cache_control") l)
  = map (without_field "cache_control") l.
Proof.
  rewrite map_map. apply map_ext. intros x. apply without_field_twice.
Qed.

(** Ordering is the identity on an ordered and stripped list. *)
Lemma order_of_stripped parts :
  let s := stripNonToolPartsAfterToolUse
             (normalizeAssistantThinkingOrderForVendor vendor parts) in
  normalizeAssistantThinkingOrderForVendor vendor s = s.
Proof.
  intros s. unfold s. rewrite (order_unfold parts).
  unfold stripNonToolPartsAfterToolUse.
  pose proof (thinking_of_props parts) as HT.
  pose proof (others_of_props parts) as HO.
  rewrite strip_after_prefix.
  2:{ eapply Forall_impl; [|exact HT]. intros x [Hx Ht]. split; [exact Hx|].
      now apply thinking_not_tool_use. }
  set (T := thinking_of parts) in *.
  set (S' := strip_after false (others_of parts)).
  assert (HS : Forall (fun x => truthy x = true /\
                 negb (is_thinking_part x || isIgnorableTrailingText x) = true) S')
    by (apply strip_after_keeps; exact HO).
  rewrite order_unfold. unfold thinking_of, others_of.
  assert (Htruthy : filter truthy (T ++ S') = (T ++ S')%list).
  { apply filter_all. apply Forall_app. split.
    - eapply Forall_impl; [|exact HT]. now intros x [Hx _].
    - eapply Forall_impl; [|exact HS]. now intros x [Hx _]. }
  rewrite Htruthy, !filter_app.
  assert (H1 : filter is_thinking_part T = T).
  { apply filter_all. eapply Forall_impl; [|exact HT]. now intros x [_ Hx]. }
  assert (H2 : filter is_thinking_part S' = []).
  { apply filter_none. eapply Forall_impl; [|exact HS]. intros x [_ Hx].
    apply Bool.negb_true_iff, Bool.orb_false_iff in Hx. tauto. }
  assert (H3 : filter (fun part => negb (is_thinking_part part
                                         || isIgnorableTrailingText part)) T = []).
  { apply filter_none. eapply Forall_impl; [|exact HT]. intros x [_ Hx].
    now rewrite Hx. }
  assert (H4 : filter (fun part => negb (is_thinking_part part
                                         || isIgnorableTrailingText part)) S' = S').
  { apply filter_all. eapply Forall_impl; [|exact HS]. now intros x [_ Hx]. }
  rewrite H1, H2, H3, H4, app_nil_r. simpl. f_equal.
  unfold T, thinking_of. apply map_without_twice.
Qed.

End Ordering.

(** ** Re-running the loop on what it pushed *)

Lemma field_is_eq k s s' v : field_is k s v = true -> field_is k s' v = true -> s = s'.
Proof.
  unfold field_is. destruct (field k v) as [[]|]; try discriminate.
  intros H1 H2. apply String.eqb_eq in H1, H2. congruence.
Qed.

Lemma user_not_assistant m :
  field_is "role" "user" m = true -> field_is "role" "assistant" m = false.
Proof.
  intros Hu. destruct (field_is "role" "assistant" m) eqn:E; [|reflexivity].
  pose proof (field_is_eq _ _ _ _ Hu E). discriminate.
Qed.

Section Rerun.
Variable vendor : option string.

(** Every pending id has an answer among [parts]. *)
Definition answered (pending : list string) (parts : list json) : Prop :=
  Forall (fun id => mem id (tool_result_ids (filter is_tool_result parts)) = true)
         pending.

Lemma answered_no_missing pending parts :
  answered pending parts -> with_missing_results pending parts = parts.
Proof.
  intros H. unfold with_missing_results.
  rewrite (filter_none (fun id => negb (mem id _)) pending); [reflexivity|].
  eapply Forall_impl; [|exact H]. intros id Hid. simpl in Hid. now rewrite Hid.
Qed.

Lemma answered_nonempty pending parts :
  answered pending parts -> pending <> [] -> filter is_tool_result parts <> [].
Proof.
  intros H Hne E. unfold answered in H. rewrite E in H.
  destruct pending as [|id r]; [congruence|]. inversion H; subst. discriminate.
Qed.

(** A user message made of tool results only, answering what is pending. *)
Lemma rerun_results_message pending m c X :
  message_content m = Some c ->
  field_is "role" "user" m = true ->
  Forall (fun x => truthy x = true) X ->
  Forall (fun x => is_tool_result x = true) X ->
  X <> [] ->
  answered pending X ->
  normalize_message vendor pending (with_field "content" (JArr X) m)
  = ([with_field "content" (JArr X) m],
     if (is_antigravity vendor && negb (is_nil pending))%bool then [] else pending).
Proof.
  intros Hc Hu Ht Hr Hne Hans.
  unfold normalize_message.
  rewrite message_content_with_content, !(role_with_content _ _ _ _ Hc).
  rewrite Hu, (user_not_assistant _ Hu), Bool.andb_false_r, (filter_all _ _ Ht).
  rewrite Bool.andb_true_r.
  assert (Hsplit : split_user_message (with_field "content" (JArr X) m) X
                   = [with_field "content" (JArr X) m]).
  { assert (Hn : filter (fun p => negb (is_tool_result p)) X = []).
    { apply filter_none. eapply Forall_impl; [|exact Hr].
      intros x Hx. simpl in Hx. now rewrite Hx. }
    unfold split_user_message. rewrite (filter_all _ _ Hr), Hn.
    destruct X as [|x r]; [congruence|]. simpl is_nil. cbv iota.
    now rewrite with_content_twice. }
  destruct (is_antigravity vendor && negb (is_nil pending))%bool.
  - rewrite (answered_no_missing _ _ Hans). simpl. now rewrite Hsplit.
  - simpl. now rewrite Hsplit.
Qed.

(** A user message without tool results, nothing pending for it. *)
Lemma rerun_plain_user_message pending m c X :
  message_content m = Some c ->
  field_is "role" "user" m = true ->
  Forall (fun x => truthy x = true) X ->
  filter is_tool_result X = [] ->
  (is_antigravity vendor && negb (is_nil pending))%bool = false ->
  normalize_message vendor pending (with_field "content" (JArr X) m)
  = ([with_field "content" (JArr X) m], pending).
Proof.
  intros Hc Hu Ht Hr Hp.
  unfold normalize_message.
  rewrite message_content_with_content, !(role_with_content _ _ _ _ Hc).
  rewrite Hu, (user_not_assistant _ Hu), Bool.andb_false_r, (filter_all _ _ Ht).
  rewrite Bool.andb_true_r, Hp. simpl.
  unfold split_user_message. rewrite Hr. simpl. now rewrite with_content_twice.
Qed.

(** A message that is neither a user message nor an assistant message of
    the size-constrained vendor. *)
Lemma rerun_other_message pending m c :
  message_content m = Some c ->
  field_is "role" "user" m = false ->
  (is_antigravity vendor && field_is "role" "assistant" m)%bool = false ->
  let X := filter truthy c in
  normalize_message vendor pending (with_field "content" (JArr X) m)
  = ([with_field "content" (JArr X) m], pending).
Proof.
  intros Hc Hu Ha X.
  assert (Horder : (if field_is "role" "assistant" m
                    then normalizeAssistantThinkingOrderForVendor vendor X else X) = X).
  { destruct (field_is "role" "assistant" m); [|reflexivity].
    rewrite Bool.andb_true_r in Ha.
    unfold normalizeAssistantThinkingOrderForVendor. now rewrite Ha. }
  unfold normalize_message.
  rewrite message_content_with_content, !(role_with_content _ _ _ _ Hc).
  rewrite Hu, Ha, Bool.andb_false_r.
  assert (Hf : filter truthy X = X) by apply filter_twice.
  rewrite Hf, Horder. simpl. now rewrite with_content_twice.
Qed.

(** An assistant message of the size-constrained vendor, ordered and
    stripped, with nothing pending. *)
Lemma rerun_assistant_message m c :
  is_antigravity vendor = true ->
  message_content m = Some c ->
  field_is "role" "assistant" m = true ->
  let s := stripNonToolPartsAfterToolUse
             (normalizeAssistantThinkingOrderForVendor vendor (filter truthy c)) in
  normalize_message vendor [] (with_field "content" (JArr s) m)
  = ([with_field "content" (JArr s) m], tool_use_ids s).
Proof.
  intros Hanti Hc Ha s.
  unfold normalize_message.
  rewrite message_content_with_content, !(role_with_content _ _ _ _ Hc).
  rewrite Ha, Hanti. simpl andb. cbv iota.
  assert (Hs : filter truthy s = s) by (apply filter_all, strip_after_truthy).
  assert (Ho : normalizeAssistantThinkingOrderForVendor vendor s = s)
    by (apply (order_of_stripped vendor Hanti)).
  assert (Hst : stripNonToolPartsAfterToolUse s = s) by apply strip_twice.
  rewrite Hs, Ho, Hst. simpl. now rewrite with_content_twice.
Qed.

(** The closing message for pending tool calls. *)
Lemma rerun_closing_message pending :
  is_antigravity vendor = true -> pending <> [] ->
  normalize_message vendor pending (synthetic_results_message pending)
  = ([synthetic_results_message pending], []).
Proof.
  intros Hanti Hne.
  pose (X := map synthetic_tool_result pending).
  assert (Hself : synthetic_results_message pending
                  = with_field "content" (JArr X) (synthetic_results_message pending))
    by reflexivity.
  rewrite Hself at 1.
  rewrite (rerun_results_message pending (synthetic_results_message pending) X X).
  - rewrite Hanti. destruct pending; [congruence|]. now rewrite <- Hself.
  - reflexivity.
  - reflexivity.
  - apply synthetic_results_truthy.
  - apply synthetic_results_are_results.
  - unfold X. destruct pending; [congruence|discriminate].
  - unfold answered, X.
    rewrite (filter_all _ _ (synthetic_results_are_results pending)).
    rewrite synthetic_result_ids. rewrite Forall_forall. intros id Hin.
    pose proof (mem_refl_all pending) as Hm.
    destruct (mem id pending) eqn:E; [reflexivity|].
    assert (Hin' : In id (filter (fun id => negb (mem id pending)) pending)).
    { apply filter_In. split; [exact Hin|]. now rewrite E. }
    rewrite Hm in Hin'. contradiction.
Qed.

(** [steps pending outs pending']: fed [outs] one by one from [pending],
    the loop pushes each message as it is and ends with [pending']. *)
Fixpoint steps (pending : list string) (outs : list json) (pending' : list string)
  : Prop :=
  match outs with
  | [] => pending = pending'
  | x :: r =>
      exists q, normalize_message vendor pending x = ([x], q) /\ steps q r pending'
  end.

Lemma steps_run pending outs pending' rest :
  steps pending outs pending' ->
  normalize_messages vendor pending (outs ++ rest)
  = (outs ++ normalize_messages vendor pending' rest)%list.
Proof.
  revert pending. induction outs as [|x r IH]; simpl; intros pending H.
  - now subst.
  - destruct H as (q & Hx & Hr). rewrite Hx. simpl. now rewrite (IH _ Hr).
Qed.

Lemma missing_results_answer pending parts :
  Forall (fun x => truthy x = true) parts ->
  answered pending (with_missing_results pending parts) /\
  Forall (fun x => truthy x = true) (with_missing_results pending parts).
Proof.
  intros Ht. unfold with_missing_results.
  set (TR := filter is_tool_result parts).
  set (missing := filter (fun id => negb (mem id (tool_result_ids TR))) pending).
  destruct (is_nil missing) eqn:En.
  - split; [|exact Ht]. apply is_nil_true in En.
    unfold answered. fold TR. rewrite Forall_forall. intros id Hin.
    destruct (mem id (tool_result_ids TR)) eqn:E; [reflexivity|].
    assert (Hin' : In id missing).
    { apply filter_In. split; [exact Hin|]. now rewrite E. }
    rewrite En in Hin'. contradiction.
  - split.
    + unfold answered. rewrite !filter_app.
      unfold TR at 1. rewrite filter_twice. fold TR.
      rewrite (filter_all _ _ (synthetic_results_are_results missing)).
      rewrite filter_complement_then, app_nil_r.
      rewrite tool_result_ids_app, synthetic_result_ids.
      rewrite Forall_forall. intros id Hin. rewrite mem_app.
      destruct (mem id (tool_result_ids TR)) eqn:E; [reflexivity|]. simpl.
      assert (Hin' : In id missing).
      { apply filter_In. split; [exact Hin|]. now rewrite E. }
      clear -Hin'. induction missing as [|y r IH]; simpl in *; [contradiction|].
      destruct Hin' as [->|Hin']; [now rewrite String.eqb_refl|].
      rewrite (IH Hin'). apply Bool.orb_true_r.
    + apply Forall_app. split; [apply Forall_filter_keeps; exact Ht|].
      apply Forall_app. split; [apply synthetic_results_truthy|].
      apply Forall_filter_keeps; exact Ht.
Qed.

(** What the loop pushed for a user message is pushed again unchanged. *)
Lemma split_user_steps pending m c parts :
  message_content m = Some c ->
  field_is "role" "user" m = true ->
  Forall (fun x => truthy x = true) parts ->
  answered pending parts \/ (is_antigravity vendor && negb (is_nil pending))%bool = false ->
  (pending <> [] -> is_antigravity vendor = true -> answered pending parts) ->
  steps pending (split_user_message m parts)
        (if (is_antigravity vendor && negb (is_nil pending))%bool then [] else pending).
Proof.
  intros Hc Hu Ht Hcase Hans.
  unfold split_user_message.
  set (TR := filter is_tool_result parts).
  set (NTR := filter (fun p => negb (is_tool_result p)) parts).
  assert (HtTR : Forall (fun x => truthy x = true) TR)
    by (apply Forall_filter_keeps; exact Ht).
  assert (HtNTR : Forall (fun x => truthy x = true) NTR)
    by (apply Forall_filter_keeps; exact Ht).
  assert (HrTR : Forall (fun x => is_tool_result x = true) TR) by apply Forall_filter.
  assert (Hpend : (is_antigravity vendor && negb (is_nil pending))%bool = true ->
                  answered pending parts).
  { intros E. apply Bool.andb_true_iff in E as [Ea En]. apply Hans; [|exact Ea].
    destruct pending; [discriminate|congruence]. }
  assert (HansTR : (is_antigravity vendor && negb (is_nil pending))%bool = true ->
                   answered pending TR).
  { intros E. specialize (Hpend E). unfold answered in *. unfold TR.
    now rewrite filter_twice. }
  destruct (is_nil TR) eqn:En.
  - (* no tool result at all *)
    apply is_nil_true in En.
    destruct (is_antigravity vendor && negb (is_nil pending))%bool eqn:E.
    + exfalso. specialize (Hpend eq_refl).
      apply Bool.andb_true_iff in E as [_ E].
      apply (answered_nonempty _ _ Hpend); [|exact En].
      destruct pending; [discriminate|congruence].
    + simpl. eexists. split; [|reflexivity].
      now apply (rerun_plain_user_message pending m c parts).
  - assert (HTRne : TR <> []) by (destruct TR; [discriminate|congruence]).
    assert (Hfirst :
      normalize_message vendor pending (with_field "content" (JArr TR) m)
      = ([with_field "content" (JArr TR) m],
         if (is_antigravity vendor && negb (is_nil pending))%bool then [] else pending)).
    { destruct (is_antigravity vendor && negb (is_nil pending))%bool eqn:E.
      - rewrite (rerun_results_message pending m c TR); auto. now rewrite E.
      - unfold normalize_message.
        rewrite message_content_with_content, !(role_with_content _ _ _ _ Hc).
        rewrite Hu, (user_not_assistant _ Hu), Bool.andb_false_r,
          (filter_all _ _ HtTR).
        rewrite Bool.andb_true_r, E. simpl.
        unfold split_user_message. rewrite (filter_all _ _ HrTR), En.
        unfold TR at 1. rewrite filter_then_complement. simpl.
        now rewrite with_content_twice. }
    destruct (is_nil NTR) eqn:En2.
    + simpl. eexists. split; [exact Hfirst|reflexivity].
    + simpl. eexists. split; [exact Hfirst|].
      eexists. split; [|reflexivity].
      apply (rerun_plain_user_message _ m c NTR); auto.
      * unfold NTR. apply filter_complement_then.
      * destruct (is_antigravity vendor && negb (is_nil pending))%bool eqn:E;
          [|exact E].
        simpl. apply Bool.andb_false_r.
Qed.

Lemma normalize_message_steps pending m :
  steps pending (fst (normalize_message vendor pending m))
        (snd (normalize_message vendor pending m)).
Proof.
  unfold normalize_message at 1 2.
  destruct (message_content m) as [c|] eqn:Hc.
  2:{ simpl. eexists. split; [|reflexivity].
      unfold normalize_message. now rewrite Hc. }
  set (X := filter truthy c).
  assert (HX : Forall (fun x => truthy x = true) X) by apply Forall_filter.
  destruct (is_antigravity vendor && field_is "role" "assistant" m)%bool eqn:Eaa.
  - (* assistant message of the size-constrained vendor *)
    apply Bool.andb_true_iff in Eaa as [Hanti Ha]. rewrite Ha. cbv zeta.
    unfold fst, snd, closing_messages.
    destruct (is_nil pending) eqn:En.
    + apply is_nil_true in En. subst pending. simpl.
      eexists. split; [|reflexivity].
      now apply rerun_assistant_message.
    + simpl. eexists. split.
      * apply rerun_closing_message; [exact Hanti|].
        destruct pending; [discriminate|congruence].
      * eexists. split; [|reflexivity]. now apply rerun_assistant_message.
  - cbv zeta.
    assert (Horder : (if field_is "role" "assistant" m
                      then normalizeAssistantThinkingOrderForVendor vendor X else X) = X).
    { destruct (field_is "role" "assistant" m); [|reflexivity].
      rewrite Bool.andb_true_r in Eaa.
      unfold normalizeAssistantThinkingOrderForVendor. now rewrite Eaa. }
    rewrite Horder.
    destruct (field_is "role" "user" m) eqn:Hu.
    + (* user message *)
      rewrite Bool.andb_true_r.
      destruct (is_antigravity vendor && negb (is_nil pending))%bool eqn:E.
      * destruct (missing_results_answer pending X HX) as [Hans Ht].
        simpl.
        pose proof (split_user_steps pending m c
                      (with_missing_results pending X) Hc Hu Ht (or_introl Hans)
                      (fun _ _ => Hans)) as Hs.
        now rewrite E in Hs.
      * simpl.
        pose proof (split_user_steps pending m c X Hc Hu HX (or_intror E)) as Hs.
        rewrite E in Hs. apply Hs.
        intros Hne Hanti. rewrite Hanti in E. simpl in E.
        destruct pending; [congruence|discriminate].
    + (* any other message *)
      rewrite Bool.andb_false_r. simpl.
      eexists. split; [|reflexivity].
      now apply rerun_other_message.
Qed.

Lemma normalize_messages_twice pending messages :
  normalize_messages vendor pending (normalize_messages vendor pending messages)
  = normalize_messages vendor pending messages.
Proof.
  revert pending. induction messages as [|m rest IH]; intros pending.
  - simpl. unfold closing_messages.
    destruct (is_antigravity vendor) eqn:Hanti; [|simpl; now rewrite Hanti].
    destruct (is_nil pending) eqn:En.
    + apply is_nil_true in En. subst. simpl. now rewrite Hanti.
    + simpl. rewrite rerun_closing_message; [|exact Hanti|].
      * simpl. now rewrite Hanti.
      * destruct pending; [discriminate|congruence].
  - simpl. pose proof (normalize_message_steps pending m) as Hs.
    destruct (normalize_message vendor pending m) as [pushed pending'].
    simpl in Hs. rewrite (steps_run _ _ _ _ Hs). now rewrite IH.
Qed.

End Rerun.

(** C5.  Normalising a message list that is already normalised changes
    nothing, for every vendor option. *)
Theorem normalizeAnthropicMessages_idempotent (vendor : option string) (messages : json) :
  normalizeAnthropicMessages vendor (normalizeAnthropicMessages vendor messages)
  = normalizeAnthropicMessages vendor messages.
Proof.
  destruct messages as [| | | |items|]; try reflexivity.
  destruct items as [|m rest]; [reflexivity|].
  unfold normalizeAnthropicMessages at 2 3.
  destruct (normalize_messages vendor [] (m :: rest)) as [|x r] eqn:E; [reflexivity|].
  unfold normalizeAnthropicMessages. rewrite <- E.
  now rewrite normalize_messages_twice.
Qed.

(** An interrupted tool call: the thinking block moves to the front and
    loses [cache_control], the placeholder text goes, and the user turn
    is split behind a synthetic result. *)
Definition interrupted_turn : json :=
  JArr [JObj [("role", JStr "assistant");
              ("content",
               JArr [text_block "Let me look";
                     JObj [("type", JStr "thinking");
                           ("thinking", JStr "read the file first");
                           ("signature", JStr "c2lnbmF0dXJl");
                           ("cache_control", JObj [("type", JStr "ephemeral")])];
                     JObj [("type", JStr "tool_use"); ("id", JStr "toolu_1");
                           ("name", JStr "Read"); ("input", JObj [])];
                     text_block "(no content)"])];
        JObj [("role", JStr "user"); ("content", JArr [text_block "continue"])]].

Example normalize_interrupted_turn :
  normalizeAnthropicMessages (Some "antigravity") interrupted_turn
  = JArr [JObj [("role", JStr "assistant");
                ("content",
                 JArr [JObj [("type", JStr "thinking");
                             ("thinking", JStr "read the file first");
                             ("signature", JStr "c2lnbmF0dXJl")];
                       text_block "Let me look";
                       JObj [("type", JStr "tool_use"); ("id", JStr "toolu_1");
                             ("name", JStr "Read"); ("input", JObj [])]])];
          JObj [("role", JStr "user");
                ("content", JArr [synthetic_tool_result "toolu_1"])];
          JObj [("role", JStr "user"); ("content", JArr [text_block "continue"])]]
  /\ normalizeAnthropicMessages None interrupted_turn = interrupted_turn.
Proof. split; vm_compute; reflexivity. Qed.

End NormalizeProofs.

(* ====================================================================== *)
(** * The streaming translator                                              *)
(* ====================================================================== *)

Module StreamProofs.
Import Json Bridge Stream.

(** ** A stream that ends without [finishReason] after one text chunk *)

(** [{model: "claude-x", stream: true, messages: [{role: "user",
    content: "hi"}]}] *)
Definition hello_request : json :=
  JObj [("model", JStr "claude-x"); ("stream", JBool true);
        ("messages", JArr [JObj [("role", JStr "user"); ("content", JStr "hi")]])].

(** [{candidates: [{content: {parts: [{text: "Hello"}]}}]}] *)
Definition hello_payload : json :=
  JObj [("candidates",
         JArr [JObj [("content",
                      JObj [("parts", JArr [JObj [("text", JStr "Hello")]])])]])].

Definition hello_config (vendor : option string) (finite_budget canEnableThinking : bool)
  (messageId : string) (planned : option string) : request_config :=
  {| isAntigravityVendor := is_antigravity vendor;
     include_thoughts :=
       builds_thinkingConfig vendor hello_request finite_budget canEnableThinking;
     messageId := messageId;
     responseModel := "claude-x";
     plannedToolName := planned |}.

Section Hello.
Variable JSON_parse : string -> option json.
Variable buildToolUseId : nat -> string.
Variable parseSSELine : string -> parsed_line.
Variables (vendor : option string) (finite_budget canEnableThinking : bool).
Variables (messageId : string) (planned : option string).
Variables (first_rescue forced_rescue : rescue_reply).

Let cfg := hello_config vendor finite_budget canEnableThinking messageId planned.
Let run_hello :=
  run JSON_parse buildToolUseId parseSSELine cfg first_rescue forced_rescue.

Lemma on_data_hello (chunk line : string) (s : state) :
  JsString.split_lines chunk = [line; ""] ->
  JsString.is_empty (JsString.trim line) = false ->
  parseSSELine line = DataLine hello_payload ->
  finished (conn s) = false ->
  buffer (conn s) = "" ->
  on_data JSON_parse buildToolUseId parseSSELine cfg chunk s
  = state_of (handle_payload JSON_parse buildToolUseId cfg hello_payload
                (set_buffer "" (set_timers true true false s))).
Proof.
  intros Hsplit Hline Hparse Hfin Hbuf.
  unfold on_data.
  change (finished (conn (set_timers true true false s))) with (finished (conn s)).
  change (buffer (conn (set_timers true true false s))) with (buffer (conn s)).
  rewrite Hfin, Hbuf. change ("" ++ chunk) with chunk. rewrite Hsplit.
  cbn [pop_last for_each]. unfold handle_line.
  rewrite Hline, Hparse. cbn [truthy hello_payload field JsMap.get].
  now destruct (handle_payload _ _ _ _ _).
Qed.

(** C1.  One chunk holding one line whose payload has the single part
    [{text: "Hello"}], then a clean end without [finishReason]: the client
    receives [message_start], a text block at index 0 with the delta
    ["Hello"], [message_delta] with [end_turn] and [message_stop]; no
    rescue request is made and no error event is written. *)
Theorem hello_stream_completes_normally (chunk line : string) :
  JsString.split_lines chunk = [line; ""] ->
  JsString.is_empty (JsString.trim line) = false ->
  parseSSELine line = DataLine hello_payload ->
  let s := run_hello [DataChunk chunk; StreamEnd] in
  out (blk s)
    = [message_start messageId "claude-x";
       content_block_start 0 TextBlock;
       content_block_delta 0 (text_delta "Hello");
       content_block_stop 0;
       message_delta "end_turn" 0;
       message_stop] /\
  rescueRequests (conn s) = 0%nat /\
  ended (conn s) = true.
Proof.
  intros Hsplit Hline Hparse.
  unfold run_hello, run. cbn [fold_left step].
  rewrite (on_data_hello chunk line (start cfg) Hsplit Hline Hparse eq_refl eq_refl).
  unfold cfg, hello_config, builds_thinkingConfig.
  destruct (is_antigravity vendor); vm_compute; repeat split; reflexivity.
Qed.

End Hello.

(** A stand-in for [parseSSELine] that knows the one line of the
    scenario. *)
Definition hello_line : string := "data: " ++ stableJsonStringify hello_payload.
Definition hello_chunk : string := hello_line ++ String (ascii_of_nat 10) "".

Definition parse_hello_line (line : string) : parsed_line :=
  if String.eqb line hello_line then DataLine hello_payload else InvalidLine.

Definition no_parse (_ : string) : option json := None.
Definition numbered_id (n : nat) : string := "toolu_" ++ JsString.of_Z (Z.of_nat n).

Lemma hello_stream_witness :
  out (blk (run no_parse numbered_id parse_hello_line
              (hello_config (Some "antigravity") false false "msg_01" None)
              RescueFailed RescueFailed [DataChunk hello_chunk; StreamEnd]))
  = [message_start "msg_01" "claude-x";
     content_block_start 0 TextBlock;
     content_block_delta 0 (text_delta "Hello");
     content_block_stop 0;
     message_delta "end_turn" 0;
     message_stop].
Proof.
  apply (hello_stream_completes_normally no_parse numbered_id parse_hello_line
           (Some "antigravity") false false "msg_01" None RescueFailed RescueFailed
           hello_chunk hello_line);
    vm_compute; reflexivity.
Defined.

(** ** The inline tag loop ends *)

Lemma drop_length n s :
  String.length (JsString.drop n s) = (String.length s - n)%nat.
Proof.
  revert s. induction n as [|n IH]; intros [|c r]; cbn; try reflexivity.
  apply IH.
Qed.

Lemma xml_iteration_shrinks JSON_parse x x' :
  xml_iteration JSON_parse x = Continue x' ->
  (String.length (xml_buffer x') < String.length (xml_buffer x))%nat.
Proof.
  unfold xml_iteration. destruct (negb _); [discriminate|].
  destruct (JsString.indexOf (xml_buffer x) "<mcp__") as [startIdx|]; [|discriminate].
  cbv zeta.
  destruct (JsString.indexOf _ ">") as [tagEnd|]; [|discriminate].
  destruct (JsString.indexOf_from _ _ _) as [closeIdx|]; [|discriminate].
  destruct (JsString.is_empty _) eqn:E; [discriminate|].
  intros [= <-]. cbn [xml_buffer].
  apply JsStringFacts.is_empty_false in E.
  set (rest := JsString.drop _ _) in *.
  assert (Hpos : (0 < String.length rest)%nat)
    by (destruct rest; [congruence|cbn; lia]).
  unfold rest in *. rewrite !drop_length in *. cbn [append String.length] in *.
  lia.
Qed.

(** With fuel above the buffer length the bounded loop is the loop of the
    source: it stops because the loop was left, not because the fuel ran
    out. *)
Lemma xml_loop_runs_to_end JSON_parse fuel x :
  (String.length (xml_buffer x) < fuel)%nat ->
  xml_loop_runs JSON_parse x (xml_loop JSON_parse fuel x).
Proof.
  revert x. induction fuel as [|fuel IH]; intros x Hlen; [lia|].
  cbn [xml_loop]. destruct (xml_iteration JSON_parse x) as [r|x'] eqn:E.
  - now apply loop_leaves.
  - apply (loop_goes_on JSON_parse x x'); [exact E|].
    apply IH. apply xml_iteration_shrinks in E. lia.
Qed.

Lemma xml_loop_runs_once JSON_parse x r r' :
  xml_loop_runs JSON_parse x r -> xml_loop_runs JSON_parse x r' -> r = r'.
Proof.
  intros H. revert r'. induction H as [x r E|x x' r E _ IH]; intros r' H';
    inversion H' as [? ? E'|? x'' ? E' Hrest]; subst; rewrite E in E';
    try discriminate; injection E' as <-; [reflexivity|now apply IH].
Qed.

(** ** Block events are well ordered on every stream *)

Lemma scan_snoc events e : scan (events ++ [e]) = scan_event (scan events) e.
Proof. unfold scan. now rewrite fold_left_app. Qed.

(** A block is open exactly when [currentBlockType] is text or thinking,
    and it is the block at [currentIndex]; no index above [currentIndex]
    was used. *)
Definition tracked (b : block_state) : Prop :=
  match scan (out b) with
  | Some (top, open) =>
      top <= currentIndex b /\
      open = if is_open (currentBlockType b) then Some (currentIndex b) else None
  | None => False
  end.

(** No block is open, whatever [currentBlockType] says: the state between
    a stop and the assignment that follows it. *)
Definition closed (b : block_state) : Prop :=
  match scan (out b) with
  | Some (top, open) => top <= currentIndex b /\ open = None
  | None => False
  end.

Lemma blk_on_emit f s : blk (on_emit f s) = blk s.
Proof. reflexivity. Qed.

Lemma blk_on_conn f s : blk (on_conn f s) = blk s.
Proof. reflexivity. Qed.

Ltac blk_same :=
  unfold set_emittedText, set_emittedThinking, set_emittedThoughtSignature,
    set_emittedAnyToolUse, set_emittedToolCallKeys, set_pendingToolCallsById,
    set_mcpXml, set_idsDrawn, set_buffer, set_finished, res_end, abort,
    set_usageMetadata, set_finishReason, note_rescue_request, set_timers;
  rewrite ?blk_on_emit, ?blk_on_conn.

Lemma tracked_closed b : tracked b -> is_open (currentBlockType b) = false -> closed b.
Proof.
  unfold tracked, closed. destruct (scan (out b)) as [[top open]|]; [|auto].
  intros [H1 H2] E. now rewrite E in H2.
Qed.

Lemma stop_if_open_closed s : tracked (blk s) -> closed (blk (stop_if_open s)).
Proof.
  intros H. unfold stop_if_open.
  destruct (is_open (currentBlockType (blk s))) eqn:E; [|now apply tracked_closed].
  unfold tracked in H. unfold closed, stopCurrentBlock, write. cbn [blk on_blk out currentIndex].
  rewrite scan_snoc.
  destruct (scan (out (blk s))) as [[top open]|]; [|contradiction].
  rewrite E in H. destruct H as [H1 ->]. cbn [scan_event].
  rewrite Z.eqb_refl. auto.
Qed.

Lemma closed_set_type t s :
  closed (blk s) -> is_open t = false -> tracked (blk (set_currentBlockType t s)).
Proof.
  unfold closed, tracked, set_currentBlockType.
  cbn [blk on_blk out currentIndex currentBlockType].
  destruct (scan (out (blk s))) as [[top open]|]; [|auto].
  intros [H1 H2] E. now rewrite E.
Qed.

Lemma closed_set_type_closed t s :
  closed (blk s) -> closed (blk (set_currentBlockType t s)).
Proof. auto. Qed.

(** Events that belong to no content block. *)
Definition outside_blocks (e : sse_event) : bool :=
  match e with
  | content_block_start _ _ | content_block_delta _ _ | content_block_stop _ => false
  | _ => true
  end.

Lemma write_outside_tracked e s :
  outside_blocks e = true -> tracked (blk s) -> tracked (blk (write e s)).
Proof.
  intros He. unfold tracked, write.
  cbn [blk on_blk out currentIndex currentBlockType]. rewrite scan_snoc.
  destruct (scan (out (blk s))) as [[top open]|]; [|auto].
  destruct e; try discriminate; auto.
Qed.

Lemma write_outside_closed e s :
  outside_blocks e = true -> closed (blk s) -> closed (blk (write e s)).
Proof.
  intros He. unfold closed, write.
  cbn [blk on_blk out currentIndex currentBlockType]. rewrite scan_snoc.
  destruct (scan (out (blk s))) as [[top open]|]; [|auto].
  destruct e; try discriminate; auto.
Qed.

Lemma write_delta_tracked d s :
  tracked (blk s) -> is_open (currentBlockType (blk s)) = true ->
  tracked (blk (write_delta d s)).
Proof.
  unfold tracked, write_delta, write.
  cbn [blk on_blk out currentIndex currentBlockType]. rewrite scan_snoc.
  destruct (scan (out (blk s))) as [[top open]|]; [|auto].
  intros [H1 H2] E. rewrite E in *. subst open. cbn [scan_event].
  rewrite Z.eqb_refl. auto.
Qed.

Lemma switchBlockType_tracked t s :
  t <> ToolUse -> tracked (blk s) ->
  tracked (blk (switchBlockType t s)) /\
  is_open (currentBlockType (blk (switchBlockType t s))) = true.
Proof.
  intros Ht H. unfold switchBlockType.
  destruct (match currentBlockType (blk s) with
            | Some t0 => block_type_eqb t0 t | None => false end) eqn:Esame.
  - split; [exact H|].
    destruct (currentBlockType (blk s)) as [t0|]; [|discriminate].
    destruct t0, t; try discriminate; try reflexivity. congruence.
  - pose proof (stop_if_open_closed s H) as Hc.
    set (s1 := stop_if_open s) in *.
    unfold closed in Hc.
    destruct t; [| |congruence];
      unfold tracked, startTextBlock, startThinkingBlock, write,
        set_currentBlockType, set_currentIndex;
      cbn [blk on_blk out currentIndex currentBlockType is_open];
      rewrite scan_snoc;
      (destruct (scan (out (blk s1))) as [[top open]|]; [|contradiction]);
      destruct Hc as [H1 ->]; cbn [scan_event];
      (assert (E : (top <? currentIndex (blk s1) + 1) = true)
         by (apply Z.ltb_lt; lia));
      rewrite E; (split; [split; [lia|reflexivity]|reflexivity]).
Qed.

Lemma fold_left_keeps {A B} (P : A -> Prop) (f : A -> B -> A) (l : list B) (a : A) :
  (forall a b, P a -> P (f a b)) -> P a -> P (fold_left f l a).
Proof.
  intros Hf. revert a. induction l as [|b r IH]; simpl; intros a Ha; [exact Ha|].
  apply IH, Hf, Ha.
Qed.

(** What every step keeps, it keeps whether the steps return or throw. *)
Lemma and_then_keeps (P : state -> Prop) o next :
  P (state_of o) -> (forall s, P s -> P (state_of (next s))) ->
  P (state_of (and_then o next)).
Proof. destruct o as [s|s]; cbn; auto. Qed.

Lemma for_each_keeps {A} (P : state -> Prop) (body : A -> state -> outcome) l :
  (forall x s, P s -> P (state_of (body x s))) ->
  forall s, P s -> P (state_of (for_each body l s)).
Proof.
  intros Hbody. induction l as [|x r IH]; intros s Hs; [exact Hs|].
  cbn [for_each]. apply and_then_keeps; [now apply Hbody|exact IH].
Qed.

Section Invariant.
Variable JSON_parse : string -> option json.
Variable buildToolUseId : nat -> string.
Variable parseSSELine : string -> parsed_line.
Variable cfg : request_config.
Variables (first_rescue forced_rescue : rescue_reply).

Lemma emitToolUseBlock_tracked name args id s :
  closed (blk s) -> tracked (blk (emitToolUseBlock buildToolUseId name args id s)).
Proof.
  intros Hc. unfold emitToolUseBlock.
  assert (Hgen : forall toolUseId s0 jsonArgs, closed (blk s0) ->
    tracked (blk
      (set_currentBlockType None
         (set_emittedAnyToolUse true
            (write (content_block_stop (currentIndex (blk s0) + 1))
               (write (content_block_delta (currentIndex (blk s0) + 1)
                         (input_json_delta jsonArgs))
                  (write (content_block_start (currentIndex (blk s0) + 1)
                            (ToolUseBlock toolUseId name))
                     (set_currentIndex (currentIndex (blk s0) + 1) s0)))))))).
  { intros toolUseId s0 jsonArgs Hc0. unfold closed in Hc0.
    unfold tracked, write, set_currentBlockType, set_currentIndex, set_emittedAnyToolUse.
    cbn [blk on_blk on_emit out currentIndex currentBlockType is_open].
    rewrite !scan_snoc.
    destruct (scan (out (blk s0))) as [[top open]|]; [|contradiction].
    destruct Hc0 as [H1 ->]. cbn [scan_event].
    assert (E : (top <? currentIndex (blk s0) + 1) = true) by (apply Z.ltb_lt; lia).
    rewrite E. cbn [scan_event]. rewrite !Z.eqb_refl. cbn [scan_event].
    rewrite Z.eqb_refl. split; [lia|reflexivity]. }
  destruct id as [i|]; [destruct (JsString.is_empty i)|]; cbv beta iota zeta.
  - apply (Hgen _ (set_idsDrawn _ s)). exact Hc.
  - apply (Hgen _ s). exact Hc.
  - apply (Hgen _ (set_idsDrawn _ s)). exact Hc.
Qed.

(** Closing the open block, if any, and writing a whole tool block. *)
Lemma close_and_emit_tracked name args id s :
  tracked (blk s) ->
  tracked (blk (emitToolUseBlock buildToolUseId name args id
                  (set_currentBlockType (Some ToolUse) (stop_if_open s)))).
Proof.
  intros H. apply emitToolUseBlock_tracked, closed_set_type_closed.
  now apply stop_if_open_closed.
Qed.

(** The same when the name may be no string: then nothing is written. *)
Lemma close_and_call_tracked name args id s :
  tracked (blk s) ->
  tracked (blk (state_of
                  (emit_call buildToolUseId name args id
                     (set_currentBlockType (Some ToolUse) (stop_if_open s))))).
Proof.
  intros H. unfold emit_call.
  destruct name; cbn [state_of];
    try (apply closed_set_type; [now apply stop_if_open_closed|reflexivity]).
  now apply close_and_emit_tracked.
Qed.

Lemma flushPendingToolCallById_tracked id force s :
  tracked (blk s) ->
  tracked (blk (state_of (flushPendingToolCallById JSON_parse buildToolUseId id force s))).
Proof.
  intros H. unfold flushPendingToolCallById.
  destruct (JsMap.get id _) as [pending|]; [|exact H].
  destruct (negb (truthy (pending_name pending))); [exact H|]. cbv zeta.
  match goal with
  | |- context [match ?x with Some args => @?f args | None => Returned s end] =>
      destruct x as [args|]; [|exact H]
  end.
  destruct (mem _ _); [cbn [state_of]; blk_same; exact H|].
  apply (and_then_keeps (fun s => tracked (blk s))).
  - apply (close_and_call_tracked _ _ _ (set_emittedToolCallKeys _ _)).
    blk_same. exact H.
  - intros s0 Hs0. cbn [state_of]. blk_same. exact Hs0.
Qed.

Lemma function_call_run_tracked part s :
  tracked (blk s) ->
  tracked (blk (state_of (function_call_run JSON_parse buildToolUseId part s))).
Proof.
  intros H. unfold function_call_run.
  destruct (field "functionCall" part) as [functionCall|]; [|exact H].
  destruct (field "name" functionCall) as [name|]; [|exact H].
  destruct (negb (truthy name)); [exact H|].
  destruct (match str_field "id" functionCall with
            | Some i => if JsString.is_empty i then None else Some i
            | None => None end) as [id|].
  - cbv zeta.
    destruct (canContinue _).
    + cbn [state_of]. blk_same. exact H.
    + apply flushPendingToolCallById_tracked. blk_same. exact H.
  - cbv zeta. destruct (mem _ _); [exact H|].
    apply (close_and_call_tracked _ _ _ (set_emittedToolCallKeys _ s)).
    blk_same. exact H.
Qed.

Lemma function_call_step_tracked part s :
  tracked (blk s) ->
  tracked (blk (function_call_step JSON_parse buildToolUseId part s)).
Proof. apply function_call_run_tracked. Qed.

Lemma switch_and_delta_tracked t d s :
  t <> ToolUse -> tracked (blk s) ->
  tracked (blk (write_delta d (switchBlockType t s))).
Proof.
  intros Ht H. destruct (switchBlockType_tracked t s Ht H) as [H1 H2].
  now apply write_delta_tracked.
Qed.

Lemma signature_step_tracked sig s :
  tracked (blk s) -> tracked (blk (signature_step cfg sig s)).
Proof.
  intros H. unfold signature_step.
  destruct (_ && _)%bool; [|exact H]. cbv zeta.
  destruct (JsString.is_empty _); [exact H|].
  blk_same. apply switch_and_delta_tracked; [discriminate|exact H].
Qed.

Lemma signature_run_tracked sig s :
  tracked (blk s) -> tracked (blk (state_of (signature_run cfg sig s))).
Proof.
  intros H. unfold signature_run.
  destruct sig as [[| | |sig| |]|]; cbn [state_of];
    try (now apply signature_step_tracked);
    try exact H;
    destruct (_ && _)%bool; exact H.
Qed.

Lemma thought_step_tracked thought s :
  tracked (blk s) -> tracked (blk (thought_step cfg thought s)).
Proof.
  intros H. unfold thought_step.
  destruct (_ && _)%bool; [|exact H]. cbv zeta.
  destruct (JsString.is_empty _); [exact H|].
  apply write_delta_tracked.
  - blk_same. now apply switchBlockType_tracked.
  - blk_same. now apply switchBlockType_tracked.
Qed.

Lemma action_step_tracked s action :
  tracked (blk s) -> tracked (blk (action_step buildToolUseId s action)).
Proof.
  intros H. destruct action as [text|name args]; unfold action_step.
  - destruct (JsString.is_empty text); [exact H|].
    apply switch_and_delta_tracked; [discriminate|exact H].
  - apply emitToolUseBlock_tracked. now apply stop_if_open_closed.
Qed.

Lemma text_step_tracked text s :
  tracked (blk s) -> tracked (blk (text_step JSON_parse buildToolUseId text s)).
Proof.
  intros H. unfold text_step.
  destruct (JsString.is_empty text); [exact H|]. cbv zeta.
  destruct (JsString.is_empty _); [exact H|].
  blk_same.
  apply (fold_left_keeps (fun s => tracked (blk s))).
  - intros a b. apply action_step_tracked.
  - blk_same. exact H.
Qed.

Lemma handle_payload_tracked payload s :
  tracked (blk s) ->
  tracked (blk (state_of (handle_payload JSON_parse buildToolUseId cfg payload s))).
Proof.
  intros H. unfold handle_payload. cbv zeta.
  assert (H0 : forall s0, tracked (blk s0) ->
        tracked (blk match field_opt "finishReason"
                             match field "candidates" payload with
                             | Some (JArr (c :: _)) => Some c
                             | _ => None
                             end with
                     | Some fr => if truthy fr then set_finishReason (Some fr) s0 else s0
                     | None => s0
                     end)).
  { intros s0 Hs0. destruct (field_opt _ _) as [fr|]; [|exact Hs0].
    destruct (truthy fr); [blk_same|]; exact Hs0. }
  assert (H1 : tracked (blk match field "usageMetadata" payload with
                            | Some u => if truthy u
                                        then set_usageMetadata (Some u) s else s
                            | None => s
                            end)).
  { destruct (field "usageMetadata" payload) as [u|]; [|exact H].
    destruct (truthy u); [blk_same|]; exact H. }
  apply (and_then_keeps (fun s => tracked (blk s))).
  - destruct (wantsThinkingBlockFirst cfg); [|apply H0, H1].
    apply (and_then_keeps (fun s => tracked (blk s))).
    + apply signature_run_tracked, H0, H1.
    + intros s0 Hs0. now apply thought_step_tracked.
  - intros s0 Hs0. apply (and_then_keeps (fun s => tracked (blk s))).
    + apply (for_each_keeps (fun s => tracked (blk s))); [|exact Hs0].
      intros part s1. apply function_call_run_tracked.
    + intros s1 Hs1. apply (and_then_keeps (fun s => tracked (blk s))).
      * now apply signature_run_tracked.
      * intros s2 Hs2. cbn [state_of].
        now apply text_step_tracked, thought_step_tracked.
Qed.

Lemma handle_line_tracked line s :
  tracked (blk s) ->
  tracked (blk (state_of (handle_line JSON_parse buildToolUseId parseSSELine cfg line s))).
Proof.
  intros H. unfold handle_line.
  destruct (JsString.is_empty _); [exact H|].
  destruct (parseSSELine line); try exact H.
  destruct (truthy data); [|exact H].
  now apply handle_payload_tracked.
Qed.

Lemma on_data_tracked chunk s :
  tracked (blk s) ->
  tracked (blk (on_data JSON_parse buildToolUseId parseSSELine cfg chunk s)).
Proof.
  intros H. unfold on_data. cbv zeta.
  destruct (finished _); [blk_same; exact H|].
  destruct (pop_last _) as [lines rest].
  apply (for_each_keeps (fun s => tracked (blk s))).
  - intros line s0. apply handle_line_tracked.
  - blk_same. exact H.
Qed.

(** *** Ending the stream *)

Lemma emit_rescued_tracked toolUse s :
  tracked (blk s) -> tracked (blk (emit_rescued buildToolUseId toolUse s)).
Proof.
  intros H. unfold emit_rescued. cbv zeta.
  assert (Hc : closed (blk (stop_if_open s))) by now apply stop_if_open_closed.
  destruct (field "name" toolUse) as [[]|];
    try (apply closed_set_type; [exact Hc|reflexivity]).
  now apply close_and_emit_tracked.
Qed.

Lemma emit_rescued_text_tracked blocks s :
  tracked (blk s) -> tracked (blk (emit_rescued_text blocks s)).
Proof.
  intros H. unfold emit_rescued_text.
  destruct (JsString.is_empty (emittedText (emit s))); [|exact H]. cbv zeta.
  destruct (JsString.is_empty (rescued_text blocks)); [exact H|].
  apply write_delta_tracked; blk_same; now apply switchBlockType_tracked.
Qed.

Lemma adopt_usage_blk payload s : blk (adopt_usage payload s) = blk s.
Proof.
  unfold adopt_usage. destruct (field_opt _ _) as [u|]; [|reflexivity].
  destruct (truthy u); reflexivity.
Qed.

Lemma convert_rescued_blk payload s :
  blk (snd (convert_rescued JSON_parse buildToolUseId payload s)) = blk s.
Proof.
  unfold convert_rescued.
  destruct (convertGeminiPayloadToAnthropicContent _ _ _ _). reflexivity.
Qed.

Lemma tryRescue_tracked s :
  tracked (blk s) ->
  tracked (blk (tryRescueAfterMissingFinishReason JSON_parse buildToolUseId cfg
                  first_rescue forced_rescue s)).
Proof.
  intros H. unfold tryRescueAfterMissingFinishReason.
  destruct (negb _); [exact H|].
  destruct (rescueAttempted _); [exact H|].
  destruct (emittedAnyToolUse _); [exact H|]. cbv zeta.
  destruct first_rescue as [|raw]; [blk_same; exact H|].
  set (s1 := adopt_usage _ (note_rescue_request false s)).
  assert (H1 : tracked (blk s1)).
  { unfold s1. rewrite adopt_usage_blk. blk_same. exact H. }
  pose proof (convert_rescued_blk (rescue_payload raw) s1) as Hb.
  destruct (convert_rescued _ _ (rescue_payload raw) s1) as [content s2].
  simpl in Hb. assert (H2 : tracked (blk s2)) by now rewrite Hb.
  destruct (find_tool_use content) as [toolUse|];
    [now apply emit_rescued_tracked|].
  destruct (if forcedRescueAttempted (conn s2) then None else _) as [planned|];
    [|now apply emit_rescued_text_tracked].
  destruct forced_rescue as [|forcedRaw]; [blk_same; exact H2|].
  set (s3 := adopt_usage _ (note_rescue_request true s2)).
  assert (H3 : tracked (blk s3)).
  { unfold s3. rewrite adopt_usage_blk. blk_same. exact H2. }
  pose proof (convert_rescued_blk (rescue_payload forcedRaw) s3) as Hb3.
  destruct (convert_rescued _ _ (rescue_payload forcedRaw) s3) as [forcedContent s4].
  simpl in Hb3. assert (H4 : tracked (blk s4)) by now rewrite Hb3.
  destruct (find_tool_use forcedContent) as [toolUse|];
    [now apply emit_rescued_tracked|now apply emit_rescued_text_tracked].
Qed.

Lemma closed_well_formed b : closed b -> blocks_well_formed (out b) = true.
Proof.
  unfold closed, blocks_well_formed. destruct (scan (out b)); [reflexivity|contradiction].
Qed.

Lemma tracked_well_formed b : tracked b -> blocks_well_formed (out b) = true.
Proof.
  unfold tracked, blocks_well_formed. destruct (scan (out b)); [reflexivity|contradiction].
Qed.

Lemma close_message_closed reason tokens s :
  tracked (blk s) -> closed (blk (close_message reason tokens s)).
Proof.
  intros H. unfold close_message. cbv zeta. blk_same.
  apply write_outside_closed; [reflexivity|].
  apply write_outside_closed; [reflexivity|].
  now apply stop_if_open_closed.
Qed.

(** *** The [finished] flag *)

Lemma conn_write e s : conn (write e s) = conn s.
Proof. reflexivity. Qed.

Lemma conn_stop_if_open s : conn (stop_if_open s) = conn s.
Proof. unfold stop_if_open. destruct (is_open _); reflexivity. Qed.

Lemma conn_switchBlockType t s : conn (switchBlockType t s) = conn s.
Proof.
  unfold switchBlockType. destruct (match _ with Some _ => _ | None => _ end);
    [reflexivity|].
  cbv zeta. destruct t; cbn [conn write on_blk startTextBlock startThinkingBlock
                              set_currentBlockType set_currentIndex];
    apply conn_stop_if_open.
Qed.

Lemma conn_emitToolUseBlock name args id s :
  conn (emitToolUseBlock buildToolUseId name args id s) = conn s.
Proof.
  unfold emitToolUseBlock.
  destruct id as [i|]; [destruct (JsString.is_empty i)|]; reflexivity.
Qed.

Lemma conn_emit_call name args id s :
  conn (state_of (emit_call buildToolUseId name args id s)) = conn s.
Proof.
  unfold emit_call. destruct name; cbn [state_of]; try reflexivity.
  apply conn_emitToolUseBlock.
Qed.

Lemma conn_flush id force s :
  conn (state_of (flushPendingToolCallById JSON_parse buildToolUseId id force s))
  = conn s.
Proof.
  unfold flushPendingToolCallById.
  destruct (JsMap.get id _) as [pending|]; [|reflexivity].
  destruct (negb (truthy (pending_name pending))); [reflexivity|]. cbv zeta.
  match goal with
  | |- context [match ?x with Some args => @?f args | None => Returned s end] =>
      destruct x as [args|]; [|reflexivity]
  end.
  destruct (mem _ _); [reflexivity|].
  match goal with
  | |- context [emit_call ?b ?n ?a ?i ?s0] =>
      pose proof (conn_emit_call n a i s0) as Hc;
      destruct (emit_call b n a i s0) as [s1|s1]
  end; cbn [and_then state_of] in *.
  - unfold set_pendingToolCallsById. cbn [conn on_emit]. rewrite Hc.
    cbn [conn set_currentBlockType on_blk]. now rewrite conn_stop_if_open.
  - rewrite Hc. cbn [conn set_currentBlockType on_blk]. now rewrite conn_stop_if_open.
Qed.

Lemma finished_emit_rescued toolUse s :
  finished (conn (emit_rescued buildToolUseId toolUse s)) = finished (conn s).
Proof.
  unfold emit_rescued. cbv zeta.
  destruct (field "name" toolUse) as [[]|];
    try (cbn [conn set_currentBlockType on_blk]; now rewrite conn_stop_if_open).
  rewrite conn_emitToolUseBlock. cbn [conn set_currentBlockType on_blk].
  now rewrite conn_stop_if_open.
Qed.

Lemma finished_emit_rescued_text blocks s :
  finished (conn (emit_rescued_text blocks s)) = finished (conn s).
Proof.
  unfold emit_rescued_text.
  destruct (JsString.is_empty (emittedText (emit s))); [|reflexivity]. cbv zeta.
  destruct (JsString.is_empty (rescued_text blocks)); [reflexivity|].
  unfold write_delta. rewrite conn_write. unfold set_emittedText. cbn [conn on_emit].
  now rewrite conn_switchBlockType.
Qed.

Lemma finished_adopt_usage payload s :
  finished (conn (adopt_usage payload s)) = finished (conn s).
Proof.
  unfold adopt_usage. destruct (field_opt _ _) as [u|]; [|reflexivity].
  destruct (truthy u); reflexivity.
Qed.

Lemma finished_convert_rescued payload s :
  finished (conn (snd (convert_rescued JSON_parse buildToolUseId payload s)))
  = finished (conn s).
Proof.
  unfold convert_rescued.
  destruct (convertGeminiPayloadToAnthropicContent _ _ _ _). reflexivity.
Qed.

Lemma finished_tryRescue s :
  finished (conn (tryRescueAfterMissingFinishReason JSON_parse buildToolUseId cfg
                    first_rescue forced_rescue s)) = finished (conn s).
Proof.
  unfold tryRescueAfterMissingFinishReason.
  destruct (negb _); [reflexivity|].
  destruct (rescueAttempted _); [reflexivity|].
  destruct (emittedAnyToolUse _); [reflexivity|]. cbv zeta.
  destruct first_rescue as [|raw]; [reflexivity|].
  set (s1 := adopt_usage _ (note_rescue_request false s)).
  assert (H1 : finished (conn s1) = finished (conn s))
    by (unfold s1; now rewrite finished_adopt_usage).
  pose proof (finished_convert_rescued (rescue_payload raw) s1) as Hb.
  destruct (convert_rescued _ _ (rescue_payload raw) s1) as [content s2].
  simpl in Hb. rewrite H1 in Hb.
  destruct (find_tool_use content) as [toolUse|];
    [now rewrite finished_emit_rescued|].
  destruct (if forcedRescueAttempted (conn s2) then None else _) as [planned|];
    [|now rewrite finished_emit_rescued_text].
  destruct forced_rescue as [|forcedRaw]; [exact Hb|].
  set (s3 := adopt_usage _ (note_rescue_request true s2)).
  assert (H3 : finished (conn s3) = finished (conn s))
    by (unfold s3; now rewrite finished_adopt_usage).
  pose proof (finished_convert_rescued (rescue_payload forcedRaw) s3) as Hb3.
  destruct (convert_rescued _ _ (rescue_payload forcedRaw) s3) as [forcedContent s4].
  simpl in Hb3. rewrite H3 in Hb3.
  destruct (find_tool_use forcedContent) as [toolUse|];
    [now rewrite finished_emit_rescued|now rewrite finished_emit_rescued_text].
Qed.

Lemma finished_close_message reason tokens s :
  finished (conn (close_message reason tokens s)) = finished (conn s).
Proof.
  unfold close_message. cbv zeta. unfold res_end. cbn [conn on_conn finished].
  rewrite !conn_write. now rewrite conn_stop_if_open.
Qed.

(** After [finalize] the stream is finished; every block is closed when
    it returned, and the block state is as tracked when it threw. *)
Lemma finalize_closed s :
  tracked (blk s) -> finished (conn s) = false ->
  match finalize JSON_parse buildToolUseId cfg first_rescue forced_rescue s with
  | Returned s' => closed (blk s') /\ finished (conn s') = true
  | Raised s' => tracked (blk s') /\ finished (conn s') = true
  end.
Proof.
  intros H Hf. unfold finalize. rewrite Hf. cbv zeta.
  match goal with
  | |- context [for_each ?body ?l ?s0] =>
      assert (H1 : tracked (blk (state_of (for_each body l s0))) /\
                   finished (conn (state_of (for_each body l s0))) = true);
      [|destruct (for_each body l s0) as [s1|s1]]
  end.
  { apply (for_each_keeps (fun s => tracked (blk s) /\ finished (conn s) = true)).
    - intros id a [Ha Hfa]. split; [now apply flushPendingToolCallById_tracked|].
      now rewrite conn_flush.
    - split; [blk_same; exact H|reflexivity]. }
  2:{ exact H1. }
  cbn [state_of and_then] in *. destruct H1 as [H1 Hf1].
  set (s2 := if JsString.is_empty (mcpXmlBuffer (emit s1)) then s1 else _).
  assert (H2 : tracked (blk s2) /\ finished (conn s2) = true).
  { unfold s2. destruct (JsString.is_empty _); [now split|]. cbv zeta. split.
    - apply switch_and_delta_tracked; [discriminate|]. blk_same. exact H1.
    - unfold write_delta. now rewrite conn_write, conn_switchBlockType. }
  destruct H2 as [H2 Hf2].
  destruct (truthy_opt (finishReason (conn s2))).
  { split; [now apply close_message_closed|now rewrite finished_close_message]. }
  destruct (has_any_content s2).
  { split; [now apply close_message_closed|now rewrite finished_close_message]. }
  set (s3 := tryRescueAfterMissingFinishReason _ _ _ _ _ s2).
  assert (H3 : tracked (blk s3)) by now apply tryRescue_tracked.
  assert (Hf3 : finished (conn s3) = true)
    by (unfold s3; now rewrite finished_tryRescue).
  destruct (has_any_content s3).
  { split; [now apply close_message_closed|now rewrite finished_close_message]. }
  split.
  - apply close_message_closed. apply write_delta_tracked; blk_same;
      now apply switchBlockType_tracked.
  - rewrite finished_close_message. unfold write_delta. rewrite conn_write.
    unfold set_emittedText. cbn [conn on_emit]. now rewrite conn_switchBlockType.
Qed.

(** *** Every callback *)

(** While the stream is live the block state is tracked; once it is
    finished the trace written so far is well formed and stays as it is. *)
Definition stream_inv (s : state) : Prop :=
  (finished (conn s) = false /\ tracked (blk s)) \/
  (finished (conn s) = true /\ blocks_well_formed (out (blk s)) = true).

Lemma finished_on_data chunk s :
  finished (conn s) = true ->
  on_data JSON_parse buildToolUseId parseSSELine cfg chunk s
  = set_timers true true false s.
Proof.
  intros Hf. unfold on_data. cbv zeta.
  change (finished (conn (set_timers true true false s))) with (finished (conn s)).
  now rewrite Hf.
Qed.

Lemma step_inv s e :
  stream_inv s ->
  stream_inv (step JSON_parse buildToolUseId parseSSELine cfg
                   first_rescue forced_rescue s e).
Proof.
  intros [[Hf H]|[Hf H]]; destruct e as [chunk| |message| |]; unfold step.
  - (* data *)
    pose proof (on_data_tracked chunk s H) as Ht.
    destruct (finished (conn (on_data JSON_parse buildToolUseId parseSSELine cfg chunk s)))
      eqn:E.
    + right. split; [exact E|now apply tracked_well_formed].
    + left. now split.
  - (* end *)
    right. unfold on_end.
    pose proof (finalize_closed
                  (set_timers (receivedAnyUpstreamBytes (conn s)) false false s)) as Hend.
    destruct (finalize _ _ _ _ _ _) as [s'|s']; cbn [state_of];
      (destruct Hend as [Hc Hfin]; [blk_same; exact H|exact Hf|]);
      (split; [exact Hfin|]).
    + now apply closed_well_formed.
    + now apply tracked_well_formed.
  - (* error *)
    left. unfold on_error. cbv zeta.
    change (finished (conn (set_timers (receivedAnyUpstreamBytes (conn s)) false false s)))
      with (finished (conn s)).
    rewrite Hf. split; [exact Hf|]. blk_same.
    apply write_outside_tracked; [reflexivity|]. blk_same. exact H.
  - (* activity timer *)
    unfold on_activity_timeout.
    destruct (negb _); [left; now split|]. rewrite Hf. cbv zeta.
    right. split; [reflexivity|]. apply tracked_well_formed. blk_same.
    apply write_outside_tracked; [reflexivity|]. blk_same. exact H.
  - (* first-byte timer *)
    unfold on_first_byte_timeout.
    destruct (negb _); [left; now split|]. rewrite Hf.
    destruct (receivedAnyUpstreamBytes (conn s)); [left; now split|]. cbv zeta.
    right. split; [reflexivity|]. apply tracked_well_formed. blk_same.
    apply write_outside_tracked; [reflexivity|]. blk_same. exact H.
  - right. rewrite finished_on_data by exact Hf. now split.
  - right. unfold on_end, finalize.
    change (finished (conn (set_timers (receivedAnyUpstreamBytes (conn s)) false false s)))
      with (finished (conn s)).
    rewrite Hf. now split.
  - right. unfold on_error. cbv zeta.
    change (finished (conn (set_timers (receivedAnyUpstreamBytes (conn s)) false false s)))
      with (finished (conn s)).
    rewrite Hf. now split.
  - right. unfold on_activity_timeout. rewrite Hf.
    destruct (negb _); now split.
  - right. unfold on_first_byte_timeout. rewrite Hf.
    destruct (negb _); now split.
Qed.

Lemma start_inv : stream_inv (start cfg).
Proof.
  left. split; [reflexivity|].
  unfold tracked, start. cbn [blk out currentIndex currentBlockType].
  destruct (wantsThinkingBlockFirst cfg); cbn; split; solve [lia|reflexivity].
Qed.

Lemma run_inv events :
  stream_inv (run JSON_parse buildToolUseId parseSSELine cfg
                  first_rescue forced_rescue events).
Proof.
  unfold run. apply (fold_left_keeps stream_inv).
  - intros a b. apply step_inv.
  - apply start_inv.
Qed.

End Invariant.

(** ** The trace, block by block *)

Lemma events_at_snoc i events e :
  events_at i (events ++ [e]) =
  (events_at i events ++ (if concerns i e then [e] else []))%list.
Proof. unfold events_at. rewrite filter_app. reflexivity. Qed.

Lemma start_indices_snoc events e :
  start_indices (events ++ [e]) =
  (start_indices events ++
   match e with content_block_start i _ => [i] | _ => [] end)%list.
Proof.
  unfold start_indices. rewrite flat_map_app. cbn [flat_map].
  now rewrite app_nil_r.
Qed.

Lemma block_running_delta l e :
  block_running l = true -> is_delta e = true ->
  block_running (l ++ [e]) = true.
Proof.
  destruct l as [|b rest]; [discriminate|]. cbn [block_running app].
  intros H He. apply andb_true_iff in H as [Hb Hr].
  rewrite Hb, forallb_app, Hr. cbn. now rewrite He.
Qed.

Lemma block_running_stop l e :
  block_running l = true -> is_stop e = true ->
  block_done (l ++ [e]) = true.
Proof.
  destruct l as [|b rest]; [discriminate|]. cbn [block_running block_done app].
  intros H He. apply andb_true_iff in H as [Hb Hr].
  now rewrite removelast_last, last_last, Hb, Hr, He.
Qed.

Lemma sorted_snoc (l : list Z) a :
  StronglySorted Z.lt l -> Forall (fun x => x < a) l ->
  StronglySorted Z.lt (l ++ [a]).
Proof.
  induction 1 as [|x l Hs IH Hx]; intros Ha; cbn.
  - constructor; constructor.
  - inversion Ha as [|? ? Hxa Hl]; subst. constructor; [now apply IH|].
    apply Forall_app. split; [exact Hx|]. constructor; [exact Hxa|constructor].
Qed.

(** What an accepting [scan] says about the trace. *)
Record scanned (events : list sse_event) (top : Z) (open : option Z) : Prop := {
  open_below : forall j, open = Some j -> j <= top;
  starts_sorted : StronglySorted Z.lt (start_indices events);
  starts_below : Forall (fun i => i <= top) (start_indices events);
  unused_above : forall i, top < i -> events_at i events = [];
  open_running : forall i, open = Some i ->
                           block_running (events_at i events) = true;
  others_done : forall i, open <> Some i ->
                          block_done (events_at i events) = true
}.

Lemma scanned_other events top open e :
  event_index e = None -> is_start e = false ->
  scanned events top open -> scanned (events ++ [e]) top open.
Proof.
  intros He Hs [H1 H2 H3 H4 H5 H6].
  assert (Hc : forall i, concerns i e = false)
    by (intros i; unfold concerns; now rewrite He).
  assert (Hst : start_indices (events ++ [e]) = start_indices events).
  { rewrite start_indices_snoc. destruct e; try discriminate; apply app_nil_r. }
  split; try rewrite Hst; try assumption;
    intros i Hi; rewrite events_at_snoc, Hc, app_nil_r; auto.
Qed.

Lemma scan_scanned events :
  forall top open, scan events = Some (top, open) -> scanned events top open.
Proof.
  induction events as [|e events IH] using rev_ind; intros top open.
  - intros [= <- <-]. split; cbn; try constructor; try discriminate; reflexivity.
  - rewrite scan_snoc. destruct (scan events) as [[top0 open0]|]; [|discriminate].
    specialize (IH top0 open0 eq_refl).
    destruct e as [id model|i b|i d|i|reason tokens| |msg];
      try (intros [= <- <-]; now apply scanned_other).
    + (* start *)
      cbn [scan_event]. destruct open0 as [j|]; [discriminate|].
      destruct (Z.ltb_spec top0 i) as [Hlt|]; [|discriminate].
      intros [= <- <-]. destruct IH as [H1 H2 H3 H4 H5 H6].
      split.
      * intros j [= <-]. lia.
      * rewrite start_indices_snoc. apply sorted_snoc; [exact H2|].
        eapply Forall_impl; [|exact H3]. cbn. intros; lia.
      * rewrite start_indices_snoc. apply Forall_app. split.
        -- eapply Forall_impl; [|exact H3]. cbn. intros; lia.
        -- constructor; [lia|constructor].
      * intros k Hk. rewrite events_at_snoc. unfold concerns. cbn [event_index].
        destruct (Z.eqb_spec i k); [lia|]. rewrite app_nil_r. apply H4. lia.
      * intros k [= <-]. rewrite events_at_snoc. unfold concerns. cbn [event_index].
        rewrite Z.eqb_refl, H4 by lia. reflexivity.
      * intros k Hk. rewrite events_at_snoc. unfold concerns. cbn [event_index].
        destruct (Z.eqb_spec i k) as [->|]; [congruence|].
        rewrite app_nil_r. apply H6. discriminate.
    + (* delta *)
      cbn [scan_event]. destruct open0 as [j|]; [|discriminate].
      destruct (Z.eqb_spec i j) as [->|]; [|discriminate].
      intros [= <- <-]. destruct IH as [H1 H2 H3 H4 H5 H6].
      assert (Hst : start_indices (events ++ [content_block_delta j d])
                    = start_indices events)
        by (rewrite start_indices_snoc; apply app_nil_r).
      split; try rewrite Hst; try assumption.
      * intros k Hk. rewrite events_at_snoc. unfold concerns. cbn [event_index].
        specialize (H1 j eq_refl).
        destruct (Z.eqb_spec j k); [lia|]. rewrite app_nil_r. now apply H4.
      * intros k [= <-]. rewrite events_at_snoc. unfold concerns. cbn [event_index].
        rewrite Z.eqb_refl. apply block_running_delta; [now apply H5|reflexivity].
      * intros k Hk. rewrite events_at_snoc. unfold concerns. cbn [event_index].
        destruct (Z.eqb_spec j k) as [->|]; [congruence|].
        rewrite app_nil_r. now apply H6.
    + (* stop *)
      cbn [scan_event]. destruct open0 as [j|]; [|discriminate].
      destruct (Z.eqb_spec i j) as [->|]; [|discriminate].
      intros [= <- <-]. destruct IH as [H1 H2 H3 H4 H5 H6].
      assert (Hst : start_indices (events ++ [content_block_stop j])
                    = start_indices events)
        by (rewrite start_indices_snoc; apply app_nil_r).
      split; try rewrite Hst; try assumption.
      * discriminate.
      * intros k Hk. rewrite events_at_snoc. unfold concerns. cbn [event_index].
        specialize (H1 j eq_refl).
        destruct (Z.eqb_spec j k); [lia|]. rewrite app_nil_r. now apply H4.
      * discriminate.
      * intros k _. rewrite events_at_snoc. unfold concerns. cbn [event_index].
        destruct (Z.eqb_spec j k) as [<-|].
        -- apply block_running_stop; [now apply H5|reflexivity].
        -- rewrite app_nil_r. apply H6. congruence.
Qed.

Lemma well_formed_in_order events :
  blocks_well_formed events = true ->
  StronglySorted Z.lt (start_indices events) /\
  forall i, block_in_order (events_at i events) = true.
Proof.
  unfold blocks_well_formed. destruct (scan events) as [[top open]|] eqn:E;
    [intros _|discriminate].
  destruct (scan_scanned events top open E) as [H1 H2 H3 H4 H5 H6].
  split; [exact H2|]. intros i. unfold block_in_order.
  destruct open as [j|].
  - destruct (Z.eq_dec j i) as [->|Hn].
    + now rewrite H5.
    + rewrite (H6 i) by congruence. apply orb_true_r.
  - rewrite (H6 i) by discriminate. apply orb_true_r.
Qed.

(** Every prefix of a well-formed trace is well formed. *)
Lemma well_formed_prefix events later :
  blocks_well_formed (events ++ later) = true ->
  blocks_well_formed events = true.
Proof.
  unfold blocks_well_formed, scan. rewrite fold_left_app.
  destruct (fold_left scan_event events _); [reflexivity|].
  assert (E : fold_left scan_event later None = None)
    by (induction later; [reflexivity|assumption]).
  now rewrite E.
Qed.

(** What one [switchBlockType] writes. *)
Lemma switchBlockType_writes nextType s :
  currentBlockType (blk s) <> Some nextType ->
  out (blk (switchBlockType nextType s)) =
  (out (blk s)
   ++ (if is_open (currentBlockType (blk s))
       then [content_block_stop (currentIndex (blk s))] else [])
   ++ map (content_block_start (currentIndex (blk s) + 1))
          (opened_block nextType))%list.
Proof.
  intros Hne. unfold switchBlockType.
  assert (E : match currentBlockType (blk s) with
              | Some t => block_type_eqb t nextType
              | None => false
              end = false).
  { destruct (currentBlockType (blk s)) as [t|]; [|reflexivity].
    destruct t, nextType; try reflexivity; now elim Hne. }
  rewrite E. cbv zeta. unfold stop_if_open, stopCurrentBlock.
  destruct (is_open (currentBlockType (blk s))), nextType; cbn;
    rewrite <- ?app_assoc, ?app_nil_r; reflexivity.
Qed.

(** C2.  On every sequence of upstream events the translated stream is
    well ordered: the indices of the [content_block_start] events
    strictly increase, so no index is used twice; the events of every
    index are one start, then deltas, then at most one stop, and a block
    starts only when none is open; and a [switchBlockType] to a text or
    thinking block writes the stop of the open block, when there is one,
    and then the start of the block at the next index. *)
Theorem stream_blocks_are_well_ordered
  (JSON_parse : string -> option json) (buildToolUseId : nat -> string)
  (parseSSELine : string -> parsed_line) (cfg : request_config)
  (first_rescue forced_rescue : rescue_reply) (events : list upstream_event) :
  let trace := out (blk (run JSON_parse buildToolUseId parseSSELine cfg
                             first_rescue forced_rescue events)) in
  blocks_well_formed trace = true /\
  StronglySorted Z.lt (start_indices trace) /\
  (forall i, block_in_order (events_at i trace) = true) /\
  (forall nextType s,
     nextType <> ToolUse -> currentBlockType (blk s) <> Some nextType ->
     exists block,
       opened_block nextType = [block] /\
       out (blk (switchBlockType nextType s)) =
       (out (blk s)
        ++ (if is_open (currentBlockType (blk s))
            then [content_block_stop (currentIndex (blk s))] else [])
        ++ [content_block_start (currentIndex (blk s) + 1) block])%list).
Proof.
  intros trace.
  assert (Hwf : blocks_well_formed trace = true).
  { destruct (run_inv JSON_parse buildToolUseId parseSSELine cfg
                first_rescue forced_rescue events) as [[_ H]|[_ H]];
      [now apply tracked_well_formed|exact H]. }
  destruct (well_formed_in_order trace Hwf) as [Hs Ho].
  repeat split; try assumption.
  intros nextType s Ht Hne.
  destruct nextType; [eexists|eexists|now elim Ht];
    (split; [reflexivity|]); now rewrite switchBlockType_writes.
Qed.

(** ** A streamed Grep call *)

(** [{candidates: [{content: {parts: [{functionCall:
      {name: "Grep", args: {query: "foo"}}}]}, finishReason: "STOP"}]}] *)
Definition grep_payload : json :=
  JObj [("candidates",
         JArr [JObj [("content",
                      JObj [("parts",
                             JArr [JObj [("functionCall",
                                          JObj [("name", JStr "Grep");
                                                ("args", JObj [("query", JStr "foo")])])]])]);
                     ("finishReason", JStr "STOP")]])].

Definition grep_line : string := "data: " ++ stableJsonStringify grep_payload.

Definition newline : string := String (ascii_of_nat 10) "".

(** A stand-in for [parseSSELine] that knows the two lines of the
    scenario. *)
Definition parse_sample_line (line : string) : parsed_line :=
  if String.eqb line hello_line then DataLine hello_payload
  else if String.eqb line grep_line then DataLine grep_payload
  else InvalidLine.

Definition sample_stream_config : request_config :=
  hello_config (Some "antigravity") false false "msg_01" None.

(** The text arrives in one chunk, the call in the next, then the stream
    ends. *)
Definition sample_stream : list upstream_event :=
  [DataChunk (hello_line ++ newline); DataChunk (grep_line ++ newline); StreamEnd].

Definition sample_run : state :=
  run no_parse numbered_id parse_sample_line sample_stream_config
      RescueFailed RescueFailed sample_stream.

Definition sample_open_text : state :=
  write_delta (text_delta "Hello") (switchBlockType Text (start sample_stream_config)).

(** C2 on the sample stream, and on a switch away from an open text
    block. *)
Lemma stream_blocks_witness :
  blocks_well_formed (out (blk sample_run)) = true /\
  StronglySorted Z.lt (start_indices (out (blk sample_run))) /\
  block_in_order (events_at 1 (out (blk sample_run))) = true /\
  out (blk (switchBlockType Thinking sample_open_text)) =
  (out (blk sample_open_text)
   ++ [content_block_stop 0; content_block_start 1 ThinkingBlock])%list.
Proof.
  destruct (stream_blocks_are_well_ordered no_parse numbered_id parse_sample_line
              sample_stream_config RescueFailed RescueFailed sample_stream)
    as (Hwf & Hsorted & Horder & Hswitch).
  split; [exact Hwf|]. split; [exact Hsorted|]. split; [exact (Horder 1)|].
  destruct (Hswitch Thinking sample_open_text) as (block & Hblock & Hout);
    [discriminate|vm_compute; discriminate|].
  injection Hblock as <-. exact Hout.
Defined.

(** What the sample stream is translated to. *)
Example sample_run_trace :
  out (blk sample_run)
  = [message_start "msg_01" "claude-x";
     content_block_start 0 TextBlock;
     content_block_delta 0 (text_delta "Hello");
     content_block_stop 0;
     content_block_start 1 (ToolUseBlock "toolu_0" "Grep");
     content_block_delta 1
       (input_json_delta
          (stableJsonStringify (JObj [("path", JStr "."); ("pattern", JStr "foo")])));
     content_block_stop 1;
     message_delta "tool_use" 0;
     message_stop].
Proof. vm_compute. reflexivity. Qed.

(** ** The input of an emitted tool call *)

(** The object [emitToolUseBlock] serialises: the arguments after
    [remapFunctionCallArgs], [{}] when there are none. *)
Definition emitted_input (name : string) (args : option json) : json :=
  match args with
  | Some a =>
      let a := if (truthy a && is_object a)%bool
               then remapFunctionCallArgs name a else a in
      if truthy a then a else JObj []
  | None => JObj []
  end.

Lemma emitToolUseBlock_writes buildToolUseId name args id s :
  exists toolUseId,
    out (blk (emitToolUseBlock buildToolUseId name args id s)) =
    (out (blk s)
     ++ [content_block_start (currentIndex (blk s) + 1) (ToolUseBlock toolUseId name);
         content_block_delta (currentIndex (blk s) + 1)
           (input_json_delta (stableJsonStringify (emitted_input name args)));
         content_block_stop (currentIndex (blk s) + 1)])%list.
Proof.
  unfold emitToolUseBlock, emitted_input.
  destruct id as [i|]; [destruct (JsString.is_empty i)|];
    eexists; destruct args as [a|];
    try destruct (truthy a && is_object a)%bool;
    cbn [out blk write on_blk on_emit set_currentIndex set_currentBlockType
         set_emittedAnyToolUse set_idsDrawn currentIndex];
    rewrite <- !app_assoc; reflexivity.
Qed.

(** C3, as the code has it.  A Grep call with arguments
    [{"query":"foo"}] is emitted as one tool_use block whose input is
    [{"pattern":"foo","path":"."}]: the query is moved to [pattern], no
    [query] key is left, and the default [path] is added.  The block
    carries it as the JSON text with the keys in order. *)
Theorem grep_call_emitted_with_pattern_and_default_path
  (buildToolUseId : nat -> string) (id : option string) (s : state) :
  let input := remapFunctionCallArgs "Grep" (JObj [("query", JStr "foo")]) in
  let index := currentIndex (blk s) + 1 in
  input = JObj [("pattern", JStr "foo"); ("path", JStr ".")] /\
  field "query" input = None /\
  stableJsonStringify input =
    "{" ++ json_quote "path" ++ ":" ++ json_quote "." ++ ","
        ++ json_quote "pattern" ++ ":" ++ json_quote "foo" ++ "}" /\
  exists toolUseId,
    out (blk (emitToolUseBlock buildToolUseId "Grep"
                (Some (JObj [("query", JStr "foo")])) id s)) =
    (out (blk s)
     ++ [content_block_start index (ToolUseBlock toolUseId "Grep");
         content_block_delta index (input_json_delta (stableJsonStringify input));
         content_block_stop index])%list.
Proof.
  intros input index. repeat split; try reflexivity.
  destruct (emitToolUseBlock_writes buildToolUseId "Grep"
              (Some (JObj [("query", JStr "foo")])) id s) as [toolUseId H].
  exists toolUseId. exact H.
Qed.

(** C3 fails as stated: on the sample stream the input of the Grep block
    is not [{"pattern":"foo"}], it has the [path] key as well. *)
Lemma grep_call_input_is_not_pattern_alone :
  In (content_block_delta 1
        (input_json_delta
           (stableJsonStringify (JObj [("path", JStr "."); ("pattern", JStr "foo")]))))
     (out (blk sample_run)) /\
  ~ In (content_block_delta 1
          (input_json_delta (stableJsonStringify (JObj [("pattern", JStr "foo")]))))
       (out (blk sample_run)) /\
  remapFunctionCallArgs "Grep" (JObj [("query", JStr "foo")])
    <> JObj [("pattern", JStr "foo")] /\
  field "path" (remapFunctionCallArgs "Grep" (JObj [("query", JStr "foo")]))
    = Some (JStr ".").
Proof.
  rewrite sample_run_trace. repeat split.
  - do 5 right. left. reflexivity.
  - vm_compute. intros H.
    repeat (destruct H as [H|H]; [discriminate H|]). exact H.
  - discriminate.
Qed.

End StreamProofs.
(* ====================================================================== *)
(** * Bounds and round trips of the signature caches                        *)
(* ====================================================================== *)

Module CacheBoundsProofs.
Import JsMap JsMapFacts Json SignatureCache CacheBounds.

Lemma mem_In s l : mem s l = true <-> In s l.
Proof.
  induction l as [|x r IH]; simpl; [split; [discriminate|contradiction]|].
  rewrite orb_true_iff, IH, String.eqb_eq. split; intros [H|H]; auto.
Qed.

Section Maps.
Context {V : Type}.
Implicit Types (m : JsMap.t V) (k : string).

Lemma delete_filter k m :
  delete k m = filter (fun kv => negb (String.eqb k (fst kv))) m.
Proof.
  induction m as [|[k' v] r IH]; simpl; [reflexivity|].
  destruct (String.eqb k k'); simpl; now rewrite IH.
Qed.

Lemma filter_filter (f g : string * V -> bool) m :
  filter f (filter g m) = filter (fun x => g x && f x)%bool m.
Proof.
  induction m as [|x r IH]; simpl; [reflexivity|].
  destruct (g x); simpl; [destruct (f x)|]; now rewrite IH.
Qed.

Lemma delete_all_filter ks m :
  delete_all ks m = filter (fun kv => negb (mem (fst kv) ks)) m.
Proof.
  unfold delete_all. revert m.
  induction ks as [|k ks IH]; intros m; simpl.
  - induction m as [|x r IHm]; simpl; [reflexivity|]. now rewrite <- IHm.
  - rewrite IH, delete_filter, filter_filter. apply filter_ext.
    intros [k' v]. simpl. rewrite (String.eqb_sym k' k), negb_orb. reflexivity.
Qed.

Lemma keys_filter_NoDup (f : string * V -> bool) m :
  NoDup (keys m) -> NoDup (keys (filter f m)).
Proof.
  unfold keys. induction m as [|x r IH]; simpl; intros H; [constructor|].
  inversion H as [|? ? Hx Hr]; subst.
  destruct (f x); simpl; [|now apply IH].
  constructor; [|now apply IH].
  intros Hin. apply Hx. apply in_map_iff in Hin as (y & Hy & Hin).
  apply filter_In in Hin as [Hin _]. apply in_map_iff. now exists y.
Qed.

Lemma filter_length_le (f : string * V -> bool) m :
  (List.length (filter f m) <= List.length m)%nat.
Proof.
  induction m as [|x r IH]; simpl; [lia|]. destruct (f x); simpl; lia.
Qed.

(** Deleting distinct keys that are all present removes that many
    entries. *)
Lemma delete_all_length ks m :
  NoDup (keys m) -> NoDup ks -> incl ks (keys m) ->
  (List.length (delete_all ks m) + List.length ks = List.length m)%nat.
Proof.
  intros Hm Hks Hincl. rewrite delete_all_filter.
  pose proof (filter_length (fun kv : string * V => mem (fst kv) ks) m) as Hlen.
  assert (Hsame : List.length (filter (fun kv : string * V => mem (fst kv) ks) m)
                  = List.length ks).
  { rewrite <- (length_map fst).
    apply Permutation_length. apply NoDup_Permutation.
    - now apply keys_filter_NoDup.
    - exact Hks.
    - intros k. rewrite in_map_iff. split.
      + intros ([k' v] & <- & Hin). apply filter_In in Hin as [_ Hin].
        now apply mem_In.
      + intros Hin. specialize (Hincl k Hin). unfold keys in Hincl.
        apply in_map_iff in Hincl as (kv & <- & Hkv). exists kv.
        split; [reflexivity|]. apply filter_In. split; [exact Hkv|].
        now apply mem_In. }
  lia.
Qed.

Lemma set_keys k v m :
  keys (set k v m) = if has k m then keys m else (keys m ++ [k])%list.
Proof.
  unfold has, keys. induction m as [|[k' v'] r IH]; simpl; [reflexivity|].
  destruct (String.eqb k k') eqn:E; simpl.
  - apply String.eqb_eq in E. now subst.
  - rewrite IH. now destruct (get k r).
Qed.

Lemma has_false_keys k m : has k m = false -> ~ In k (keys m).
Proof.
  unfold has, keys. induction m as [|[k' v'] r IH]; simpl; [tauto|].
  destruct (String.eqb k k') eqn:E; [discriminate|].
  intros H [Hk|Hk]; [|now apply IH].
  subst. now rewrite String.eqb_refl in E.
Qed.

Lemma set_distinct k v m : distinct_keys m -> distinct_keys (set k v m).
Proof.
  unfold distinct_keys. intros H. rewrite set_keys.
  destruct (has k m) eqn:E; [exact H|].
  apply NoDup_app; [exact H|repeat constructor; intros []|].
  intros x Hx [<-|[]]. now apply (has_false_keys _ _ E).
Qed.

Lemma set_size k v m : size (set k v m) <= size m + 1.
Proof.
  unfold size. rewrite <- (length_map fst (set k v m)), <- (length_map fst m).
  change (map fst (set k v m)) with (keys (set k v m)).
  rewrite set_keys. destruct (has k m); [unfold keys; lia|].
  rewrite length_app. unfold keys. simpl. lia.
Qed.

Lemma delete_all_distinct ks m : distinct_keys m -> distinct_keys (delete_all ks m).
Proof. rewrite delete_all_filter. apply keys_filter_NoDup. Qed.

Lemma delete_distinct k m : distinct_keys m -> distinct_keys (delete k m).
Proof. rewrite delete_filter. apply keys_filter_NoDup. Qed.

Lemma delete_size k m : size (delete k m) <= size m.
Proof.
  unfold size. rewrite delete_filter.
  pose proof (filter_length_le (fun kv => negb (String.eqb k (fst kv))) m). lia.
Qed.

Lemma insert_by_ts_perm (ts : V -> Z) x l :
  Permutation (insert_by_ts ts x l) (x :: l).
Proof.
  induction l as [|y r IH]; simpl; [reflexivity|].
  destruct (ts (snd x) <=? ts (snd y)); [reflexivity|].
  rewrite IH. apply perm_swap.
Qed.

Lemma sort_by_ts_perm (ts : V -> Z) l : Permutation (sort_by_ts ts l) l.
Proof.
  unfold sort_by_ts. induction l as [|x r IH]; simpl; [reflexivity|].
  rewrite insert_by_ts_perm. now constructor.
Qed.

(** The sort is stable: the entries of one time stamp keep the order they
    have in the map. *)
Lemma insert_by_ts_same_age (ts : V -> Z) t x l :
  filter (fun kv => ts (snd kv) =? t) (insert_by_ts ts x l)
  = filter (fun kv => ts (snd kv) =? t) (x :: l).
Proof.
  induction l as [|y r IH]; [reflexivity|]. cbn [insert_by_ts].
  destruct (ts (snd x) <=? ts (snd y)) eqn:E; [reflexivity|].
  cbn [filter] in *. rewrite IH.
  destruct (ts (snd x) =? t) eqn:Ex; destruct (ts (snd y) =? t) eqn:Ey; try reflexivity.
  apply Z.eqb_eq in Ex, Ey. apply Z.leb_gt in E. lia.
Qed.

Lemma sort_by_ts_stable (ts : V -> Z) t l :
  filter (fun kv => ts (snd kv) =? t) (sort_by_ts ts l)
  = filter (fun kv => ts (snd kv) =? t) l.
Proof.
  unfold sort_by_ts. induction l as [|x r IH]; [reflexivity|].
  cbn [fold_right]. rewrite insert_by_ts_same_age. cbn [filter]. now rewrite IH.
Qed.

Lemma insert_by_ts_ascending (ts : V -> Z) x l :
  StronglySorted (fun a b => ts (snd a) <= ts (snd b)) l ->
  StronglySorted (fun a b => ts (snd a) <= ts (snd b)) (insert_by_ts ts x l).
Proof.
  induction 1 as [|y r Hr IH Hy]; cbn [insert_by_ts]; [repeat constructor|].
  destruct (ts (snd x) <=? ts (snd y)) eqn:E.
  - apply Z.leb_le in E. constructor; [now constructor|].
    constructor; [exact E|]. eapply Forall_impl; [|exact Hy]. cbv beta. intros a Ha. lia.
  - apply Z.leb_gt in E. constructor; [exact IH|].
    rewrite (insert_by_ts_perm ts x r). constructor; [lia|exact Hy].
Qed.

Lemma sort_by_ts_ascending (ts : V -> Z) l :
  StronglySorted (fun a b => ts (snd a) <= ts (snd b)) (sort_by_ts ts l).
Proof.
  unfold sort_by_ts. induction l as [|x r IH]; cbn [fold_right]; [constructor|].
  now apply insert_by_ts_ascending.
Qed.

Lemma firstn_keys_NoDup n m : NoDup (keys m) -> NoDup (keys (firstn n m)).
Proof.
  unfold keys. rewrite <- firstn_map. intros H.
  rewrite <- (firstn_skipn n (map fst m)) in H.
  now apply NoDup_app_remove_r in H.
Qed.

(** Removing the [n] oldest entries removes exactly [n] entries. *)
Lemma evict_oldest_length (ts : V -> Z) n m :
  NoDup (keys m) -> (n <= List.length m)%nat ->
  (List.length (delete_all (keys (firstn n (sort_by_ts ts m))) m) + n
   = List.length m)%nat.
Proof.
  intros Hm Hn.
  pose proof (sort_by_ts_perm ts m) as Hperm.
  assert (Hsorted : NoDup (keys (sort_by_ts ts m))).
  { unfold keys. eapply Permutation_NoDup; [|exact Hm].
    apply Permutation_map. now symmetry. }
  rewrite <- (delete_all_length (keys (firstn n (sort_by_ts ts m))) m Hm).
  - f_equal. unfold keys. rewrite length_map, length_firstn.
    rewrite (Permutation_length Hperm). lia.
  - now apply firstn_keys_NoDup.
  - intros k Hk. unfold keys in *. apply in_map_iff in Hk as (kv & <- & Hkv).
    apply in_map. apply (Permutation_in _ Hperm).
    rewrite <- (firstn_skipn n (sort_by_ts ts m)). apply in_or_app. now left.
Qed.

(** [cleanupCache] brings any map within its limit. *)
Lemma cleanupCache_within (ts : V -> Z) now m limit :
  0 <= limit -> distinct_keys m -> within limit (cleanupCache ts now m limit).
Proof.
  intros Hlimit Hm. unfold cleanupCache, within.
  destruct (Z.leb_spec (size m) limit) as [Hle|Hgt]; [now split|].
  set (m1 := delete_all _ m).
  assert (H1 : distinct_keys m1) by now apply delete_all_distinct.
  destruct (Z.ltb_spec limit (size m1)) as [Hover|Hfits]; [|now split].
  split; [now apply delete_all_distinct|].
  pose proof (evict_oldest_length ts (Z.to_nat (size m1 - limit)) m1 H1) as Hlen.
  unfold size in *. lia.
Qed.

End Maps.

Lemma within_set_cleanup {V} (ts : V -> Z) now k v (m : JsMap.t V) limit :
  0 <= limit -> distinct_keys m ->
  within limit (cleanupCache ts now (set k v m) limit).
Proof. intros Hl Hm. apply cleanupCache_within; [exact Hl|now apply set_distinct]. Qed.

Lemma within_nil {V} limit : 0 <= limit -> within limit ([] : JsMap.t V).
Proof. intros H. split; [constructor|exact H]. Qed.

Lemma within_delete {V} limit k (m : JsMap.t V) :
  within limit m -> within limit (delete k m).
Proof.
  intros [Hd Hs]. split; [now apply delete_distinct|].
  pose proof (delete_size k m). lia.
Qed.

Lemma empty_store_bounded : store_bounded empty_store.
Proof.
  repeat split; try constructor; vm_compute; discriminate.
Qed.

Lemma isValid_nonempty sig : isValidSignature sig = true -> JsString.is_empty sig = false.
Proof. destruct sig; [discriminate|reflexivity]. Qed.

Ltac bounded :=
  unfold store_bounded;
  cbn [signatureCache toolSignatureCache modelFamilyCache
       sessionLatestSignatureCache with_session with_signatureCache snd];
  tauto.

Lemma cacheToolSignature_bounded now k sig st :
  store_bounded st -> store_bounded (cacheToolSignature now k sig st).
Proof.
  intros H. pose proof H as (Ht & Hf & Hs & Ho & Hi). unfold cacheToolSignature.
  destruct (_ || _)%bool; [exact H|].
  destruct (negb _); [exact H|].
  assert (within TOOL_CACHE_LIMIT
            (cleanupCache timestamp now
               (set k {| signature := sig; timestamp := now |} (toolSignatureCache st))
               TOOL_CACHE_LIMIT))
    by (apply within_set_cleanup; [discriminate|apply Ht]).
  bounded.
Qed.

Lemma cacheSignatureFamily_bounded now sig fam st :
  store_bounded st -> store_bounded (cacheSignatureFamily now sig fam st).
Proof.
  intros H. pose proof H as (Ht & Hf & Hs & Ho & Hi). unfold cacheSignatureFamily.
  destruct (_ || _)%bool; [exact H|].
  destruct (negb _); [exact H|].
  assert (within FAMILY_CACHE_LIMIT
            (cleanupCache family_timestamp now
               (set sig {| modelFamily := fam; family_timestamp := now |}
                    (modelFamilyCache st))
               FAMILY_CACHE_LIMIT))
    by (apply within_set_cleanup; [discriminate|apply Hf]).
  bounded.
Qed.

Lemma cacheSessionSignature_bounded now sid sig st :
  store_bounded st -> store_bounded (cacheSessionSignature now sid sig st).
Proof.
  intros H. pose proof H as (Ht & Hf & Hs & Ho & Hi). unfold cacheSessionSignature.
  destruct (_ || _)%bool; [exact H|].
  destruct (negb _); [exact H|].
  destruct (shouldStore _ _ _); [|exact H].
  assert (within SESSION_CACHE_LIMIT
            (cleanupCache timestamp now
               (set sid {| signature := sig; timestamp := now |}
                    (sessionLatestSignatureCache st))
               SESSION_CACHE_LIMIT))
    by (apply within_set_cleanup; [discriminate|apply Hs]).
  bounded.
Qed.

(** The eviction of the text-hash layer makes room for the new entry. *)
Lemma session_entries_within now hash sig (inner : JsMap.t entry) :
  within MAX_ENTRIES_PER_SESSION inner ->
  within MAX_ENTRIES_PER_SESSION
    (set hash {| signature := sig; timestamp := now |}
       (if MAX_ENTRIES_PER_SESSION <=? size inner then
          let entries := sort_by_ts timestamp inner in
          let toRemove := Z.max 1 (Z.of_nat (List.length entries) / 4) in
          delete_all (keys (firstn (Z.to_nat toRemove) entries)) inner
        else inner)).
Proof.
  intros [Hd Hs]. unfold MAX_ENTRIES_PER_SESSION in *.
  destruct (Z.leb_spec 100 (size inner)) as [Hfull|Hroom]; cbv zeta.
  - split; [apply set_distinct; now apply delete_all_distinct|].
    set (n := Z.to_nat _).
    assert (Hlen : List.length (sort_by_ts timestamp inner) = List.length inner)
      by (apply Permutation_length, sort_by_ts_perm).
    assert (Hn : (1 <= n <= List.length inner)%nat).
    { unfold n. rewrite Hlen. unfold size in *.
      assert (Z.of_nat (List.length inner) / 4 <= Z.of_nat (List.length inner))
        by (apply Z.div_le_upper_bound; lia).
      lia. }
    pose proof (evict_oldest_length timestamp n inner Hd (proj2 Hn)) as Hev.
    pose proof (set_size hash {| signature := sig; timestamp := now |}
                  (delete_all (keys (firstn n (sort_by_ts timestamp inner))) inner)).
    unfold size in *. lia.
  - split; [now apply set_distinct|].
    pose proof (set_size hash {| signature := sig; timestamp := now |} inner). lia.
Qed.

Lemma Forall_within_get limit (outer : JsMap.t (JsMap.t entry)) k inner :
  Forall (fun kv => within limit (snd kv)) outer -> get k outer = Some inner ->
  within limit inner.
Proof. apply (SignatureCacheProofs.Forall_snd_get (within limit)). Qed.

Lemma Forall_within_set limit (outer : JsMap.t (JsMap.t entry)) k inner :
  within limit inner -> Forall (fun kv => within limit (snd kv)) outer ->
  Forall (fun kv => within limit (snd kv)) (set k inner outer).
Proof. apply (SignatureCacheProofs.Forall_snd_set (within limit)). Qed.

Lemma cacheSignature_bounded sha now sid text sig st :
  store_bounded st -> store_bounded (cacheSignature sha now sid text sig st).
Proof.
  intros H. pose proof H as (Ht & Hf & Hs & Ho & Hi). unfold cacheSignature.
  destruct (_ || _)%bool; [exact H|].
  destruct (negb _); [exact H|].
  unfold getOrCreateSessionCache.
  destruct (get sid (signatureCache st)) as [inner|] eqn:E.
  - destruct (JsString.is_empty _); [bounded|].
    apply cacheSessionSignature_bounded.
    pose proof (set_distinct sid
                  (set (hashText sha text) {| signature := sig; timestamp := now |}
                     (if MAX_ENTRIES_PER_SESSION <=? size inner then
                        let entries := sort_by_ts timestamp inner in
                        let toRemove := Z.max 1 (Z.of_nat (List.length entries) / 4) in
                        delete_all (keys (firstn (Z.to_nat toRemove) entries)) inner
                      else inner))
                  (signatureCache st) Ho).
    pose proof (Forall_within_set _ (signatureCache st) sid _
                  (session_entries_within now (hashText sha text) sig inner
                     (Forall_within_get _ _ sid inner Hi E)) Hi).
    bounded.
  - assert (Hnil : within MAX_ENTRIES_PER_SESSION ([] : JsMap.t entry))
      by (apply within_nil; discriminate).
    pose proof (set_distinct sid ([] : JsMap.t entry) (signatureCache st) Ho) as Ho'.
    pose proof (Forall_within_set _ (signatureCache st) sid _ Hnil Hi) as Hi'.
    destruct (JsString.is_empty _); [bounded|].
    apply cacheSessionSignature_bounded.
    pose proof (set_distinct sid
                  (set (hashText sha text) {| signature := sig; timestamp := now |}
                     (if MAX_ENTRIES_PER_SESSION <=? size ([] : JsMap.t entry) then
                        let entries := sort_by_ts timestamp ([] : JsMap.t entry) in
                        let toRemove := Z.max 1 (Z.of_nat (List.length entries) / 4) in
                        delete_all (keys (firstn (Z.to_nat toRemove) entries)) []
                      else []))
                  _ Ho').
    pose proof (Forall_within_set _ _ sid _
                  (session_entries_within now (hashText sha text) sig [] Hnil) Hi').
    bounded.
Qed.

Lemma lookups_bounded sha now k text st :
  store_bounded st ->
  store_bounded (snd (getToolSignature now k st)) /\
  store_bounded (snd (getSignatureFamily now k st)) /\
  store_bounded (snd (getSessionSignature now k st)) /\
  store_bounded (snd (getCachedSignature sha now k text st)).
Proof.
  intros H. pose proof H as (Ht & Hf & Hs & Ho & Hi).
  split; [|split; [|split]].
  - unfold getToolSignature. destruct (JsString.is_empty k); [exact H|].
    destruct (get k _) as [e|]; [|exact H].
    destruct (isExpired _ _); [|exact H].
    pose proof (within_delete _ k _ Ht). bounded.
  - unfold getSignatureFamily. destruct (JsString.is_empty k); [exact H|].
    destruct (get k _) as [e|]; [|exact H].
    destruct (isExpired _ _); [|exact H].
    pose proof (within_delete _ k _ Hf). bounded.
  - unfold getSessionSignature. destruct (JsString.is_empty k); [exact H|].
    destruct (get k _) as [e|]; [|exact H].
    destruct (isExpired _ _); [|exact H].
    pose proof (within_delete _ k _ Hs). bounded.
  - unfold getCachedSignature. destruct (_ || _)%bool; [exact H|].
    destruct (get k _) as [inner|] eqn:E; [|exact H].
    destruct (JsString.is_empty _); [exact H|].
    destruct (get _ inner) as [e|]; [|exact H].
    destruct (isExpired _ _); [|exact H].
    pose proof (set_distinct k (delete (hashText sha text) inner) _ Ho).
    pose proof (Forall_within_set _ _ k _
                  (within_delete _ (hashText sha text) _
                     (Forall_within_get _ _ k inner Hi E)) Hi).
    bounded.
Qed.

(** X1.  The caches never outgrow their limits: when every layer is
    within its limit (500 tool entries, 200 family entries, 1000 session
    entries, 100 text hashes per session), it still is after any of the
    four [cache*] calls and after any of the four lookups. *)
Theorem caches_stay_within_limits
  (sha256_hex : string -> string) (now : Z) (key text sig : string) (st : store) :
  store_bounded st ->
  store_bounded (cacheToolSignature now key sig st) /\
  store_bounded (cacheSignatureFamily now sig key st) /\
  store_bounded (cacheSessionSignature now key sig st) /\
  store_bounded (cacheSignature sha256_hex now key text sig st) /\
  store_bounded (snd (getToolSignature now key st)) /\
  store_bounded (snd (getSignatureFamily now key st)) /\
  store_bounded (snd (getSessionSignature now key st)) /\
  store_bounded (snd (getCachedSignature sha256_hex now key text st)).
Proof.
  intros H.
  split; [now apply cacheToolSignature_bounded|].
  split; [now apply cacheSignatureFamily_bounded|].
  split; [now apply cacheSessionSignature_bounded|].
  split; [now apply cacheSignature_bounded|].
  now apply lookups_bounded.
Qed.

Definition sample_signature : string :=
  "EqQBCkgIARABGAIiQKx0c2lnbmF0dXJlLWJ5dGVzLWZvci10ZXN0aW5nLW9ubHk=".

Definition sample_hash (_ : string) : string := "9f86d081884c7d659a2feaa0c55ad015a3bf4f1b".

Lemma caches_stay_within_limits_witness :
  store_bounded (cacheToolSignature 1000 "toolu_01" sample_signature empty_store) /\
  store_bounded
    (cacheSignature sample_hash 1000 "sess-1" "thinking" sample_signature empty_store).
Proof.
  destruct (caches_stay_within_limits sample_hash 1000 "toolu_01" "thinking"
              sample_signature empty_store empty_store_bounded)
    as (H1 & _).
  destruct (caches_stay_within_limits sample_hash 1000 "sess-1" "thinking"
              sample_signature empty_store empty_store_bounded)
    as (_ & _ & _ & H4 & _).
  split; assumption.
Defined.

(** ** Round trips *)

Lemma not_expired now now' :
  now' - now <= SIGNATURE_CACHE_TTL_MS -> isExpired now' now = false.
Proof. intros H. unfold isExpired. now apply Z.ltb_ge. Qed.

Lemma cleanup_below_limit {V} (ts : V -> Z) now (m : JsMap.t V) limit :
  size m <= limit -> cleanupCache ts now m limit = m.
Proof.
  intros H. unfold cleanupCache.
  destruct (Z.leb_spec (size m) limit); [reflexivity|lia].
Qed.

(** X2.  A tool signature that was cached is found again: while the tool
    layer is below its limit, a valid signature cached under a non-empty
    id is returned by every lookup made no later than the TTL after it,
    and the lookup leaves the store as it is. *)
Theorem tool_signature_round_trip (now now' : Z) (toolId sig : string) (st : store) :
  JsString.is_empty toolId = false ->
  isValidSignature sig = true ->
  size (toolSignatureCache st) < TOOL_CACHE_LIMIT ->
  now' - now <= SIGNATURE_CACHE_TTL_MS ->
  getToolSignature now' toolId (cacheToolSignature now toolId sig st)
  = (Some sig, cacheToolSignature now toolId sig st).
Proof.
  intros Hid Hsig Hsize Hnow.
  unfold cacheToolSignature. rewrite Hid, (isValid_nonempty _ Hsig), Hsig.
  cbn [orb negb]. rewrite cleanup_below_limit.
  - unfold getToolSignature. cbn [toolSignatureCache].
    rewrite Hid, get_set_eq. cbn [timestamp signature].
    now rewrite (not_expired _ _ Hnow).
  - pose proof (set_size toolId {| signature := sig; timestamp := now |}
                  (toolSignatureCache st)). lia.
Qed.

Lemma tool_signature_round_trip_witness :
  getToolSignature 7201000 "toolu_01"
    (cacheToolSignature 1000 "toolu_01" sample_signature empty_store)
  = (Some sample_signature,
     cacheToolSignature 1000 "toolu_01" sample_signature empty_store).
Proof.
  apply tool_signature_round_trip; vm_compute; congruence.
Defined.

(** X3.  The text-hash layer finds what it cached, whatever it evicted: a
    valid signature cached for a session and a thinking text is returned
    by every lookup for that session and text made no later than the TTL
    after it. *)
Theorem text_signature_round_trip
  (sha256_hex : string -> string) (now now' : Z) (sessionId text sig : string)
  (st : store) :
  JsString.is_empty sessionId = false ->
  JsString.is_empty (hashText sha256_hex text) = false ->
  isValidSignature sig = true ->
  now' - now <= SIGNATURE_CACHE_TTL_MS ->
  fst (getCachedSignature sha256_hex now' sessionId text
         (cacheSignature sha256_hex now sessionId text sig st))
  = Some sig.
Proof.
  intros Hid Hhash Hsig Hnow.
  assert (Htext : JsString.is_empty text = false).
  { unfold hashText in Hhash. now destruct (JsString.is_empty text). }
  unfold cacheSignature. rewrite Hid, Htext, (isValid_nonempty _ Hsig), Hsig.
  cbn [orb negb].
  destruct (getOrCreateSessionCache sessionId (signatureCache st)) as [outer inner].
  rewrite Hhash.
  set (st1 := with_signatureCache _ st).
  assert (Hsame : signatureCache (cacheSessionSignature now sessionId sig st1)
                  = signatureCache st1).
  { unfold cacheSessionSignature.
    destruct (_ || _)%bool; [reflexivity|].
    destruct (negb _); [reflexivity|].
    destruct (shouldStore _ _ _); reflexivity. }
  unfold getCachedSignature. rewrite Hid, Htext, Hsame. cbn [orb].
  unfold st1. cbn [with_signatureCache signatureCache].
  rewrite get_set_eq, Hhash, get_set_eq.
  cbn [timestamp signature]. now rewrite (not_expired _ _ Hnow).
Qed.

Lemma text_signature_round_trip_witness :
  fst (getCachedSignature sample_hash 5000 "sess-1" "thinking"
         (cacheSignature sample_hash 1000 "sess-1" "thinking" sample_signature
                         empty_store))
  = Some sample_signature.
Proof.
  apply text_signature_round_trip; vm_compute; congruence.
Defined.

(** X4.  After a valid signature is cached for a session, the session's
    latest signature is at least as long: while the session layer is
    below its limit, an immediate lookup returns a signature no shorter
    than the one just cached. *)
Theorem session_lookup_after_cache_is_no_shorter
  (now : Z) (sessionId sig : string) (st : store) :
  JsString.is_empty sessionId = false ->
  isValidSignature sig = true ->
  size (sessionLatestSignatureCache st) < SESSION_CACHE_LIMIT ->
  exists found,
    fst (getSessionSignature now sessionId (cacheSessionSignature now sessionId sig st))
    = Some found /\
    JsString.len sig <= JsString.len found.
Proof.
  intros Hid Hsig Hsize.
  unfold cacheSessionSignature. rewrite Hid, (isValid_nonempty _ Hsig), Hsig.
  cbn [orb negb].
  destruct (shouldStore now _ sig) eqn:Estore.
  - rewrite cleanup_below_limit.
    + exists sig. unfold getSessionSignature.
      cbn [with_session sessionLatestSignatureCache].
      rewrite Hid, get_set_eq. cbn [timestamp signature].
      rewrite (not_expired now now) by (unfold SIGNATURE_CACHE_TTL_MS; lia).
      split; [reflexivity|lia].
    + pose proof (set_size sessionId {| signature := sig; timestamp := now |}
                    (sessionLatestSignatureCache st)). lia.
  - unfold shouldStore in Estore.
    destruct (get sessionId (sessionLatestSignatureCache st)) as [e|] eqn:Eget;
      [|discriminate].
    apply orb_false_iff in Estore as [Hexp Hlen].
    exists (signature e). unfold getSessionSignature. rewrite Hid, Eget, Hexp.
    split; [reflexivity|]. apply Z.ltb_ge in Hlen. exact Hlen.
Qed.

Lemma session_lookup_after_cache_witness :
  exists found,
    fst (getSessionSignature 1000 "sess-1"
           (cacheSessionSignature 1000 "sess-1" sample_signature empty_store))
    = Some found /\
    JsString.len sample_signature <= JsString.len found.
Proof.
  apply session_lookup_after_cache_is_no_shorter; vm_compute; congruence.
Defined.

(** Of three equally old tool signatures over a limit of two, the one
    that was set first is evicted. *)
Example oldest_of_equally_old_entries_is_evicted :
  keys (cleanupCache timestamp 1000
          [("a", {| signature := "s1"; timestamp := 1000 |});
           ("b", {| signature := "s2"; timestamp := 1000 |});
           ("c", {| signature := "s3"; timestamp := 1000 |})] 2)
  = ["b"; "c"].
Proof. vm_compute. reflexivity. Qed.

End CacheBoundsProofs.

(* ====================================================================== *)
(** * Cooldowns, endpoints and the system instruction                       *)
(* ====================================================================== *)

Module AntigravityEndpointsProofs.
Import JsMap JsMapFacts Json JsonFacts AntigravityClient AntigravityEndpoints.

(** ** A cooldown that was set is enforced *)

(** X5.  A cooldown that was set is enforced: after
    [setModelCooldown(model, ms, reason)] with a positive duration, every
    [request] for that model made before the duration has passed throws
    the synthetic 429 carrying the remaining whole seconds and the
    reason, without reaching the endpoint loop. *)
Theorem cooldown_set_then_request_fails_fast
  {R : Type} (attemptRequest : cooldowns -> R)
  (now now' ms : Z) (model why : string) (cds : cooldowns) :
  JsString.is_empty (JsString.trim model) = false ->
  0 < ms -> 0 <= now -> now' < now + ms ->
  let cds' := setModelCooldown now model ms why cds in
  exists err,
    request attemptRequest now' model cds' = (Thrown err, cds') /\
    err_status err = 429 /\
    err_retry_after err = JsString.of_Z (ceil_div (now + ms - now') 1000) /\
    err_data_reason err =
      (if JsString.is_empty (JsString.trim why) then None
       else Some (JsString.trim why)).
Proof.
  intros Hk Hms Hnow Hlt cds'. unfold cds', setModelCooldown.
  rewrite Hk.
  assert (Hpos : (0 <? ms) = true) by now apply Z.ltb_lt.
  rewrite Hpos.
  assert (Hnz : (ms =? 0) = false) by (apply Z.eqb_neq; lia).
  rewrite Hnz.
  unfold request, getModelCooldownInfo. rewrite Hk, get_set_eq.
  cbn [untilMs reason].
  assert (Hu : (now + ms =? 0) = false) by (apply Z.eqb_neq; lia).
  assert (Hr : (now + ms - now' <=? 0) = false) by (apply Z.leb_gt; lia).
  assert (Hp : (0 <? now + ms - now') = true) by (apply Z.ltb_lt; lia).
  rewrite Hu, Hr. cbn [remainingMs]. rewrite Hp.
  eexists. split; [reflexivity|]. split; [reflexivity|].
  unfold cooldown_error. cbn [err_retry_after err_data_reason remainingMs info_reason].
  split; [|reflexivity].
  rewrite Z.max_r; [reflexivity|].
  apply AntigravityClientProofs.ceil_div_pos. lia.
Qed.

Lemma cooldown_set_then_request_witness :
  exists err,
    request (fun _ : cooldowns => tt) 1500 "gemini-2.5-pro"
            (setModelCooldown 1000 " gemini-2.5-pro" 15000 "MODEL_CAPACITY_EXHAUSTED" [])
    = (Thrown err,
       setModelCooldown 1000 " gemini-2.5-pro" 15000 "MODEL_CAPACITY_EXHAUSTED" []) /\
    err_retry_after err = "15".
Proof.
  destruct (cooldown_set_then_request_fails_fast (fun _ : cooldowns => tt)
              1000 1500 15000 " gemini-2.5-pro" "MODEL_CAPACITY_EXHAUSTED" [])
    as (err & Hreq & _ & Hretry & _);
    try (vm_compute; congruence).
  exists err. split; [exact Hreq|exact Hretry].
Defined.

(** X6.  Cooldowns are per model: setting a cooldown for one model
    changes nothing for a model whose trimmed name differs, neither the
    cooldown reported for it nor whether its entry is deleted. *)
Theorem cooldown_is_per_model
  (now now' ms : Z) (model other why : string) (cds : cooldowns) :
  JsString.trim model <> JsString.trim other ->
  let cds' := setModelCooldown now model ms why cds in
  fst (getModelCooldownInfo now' other cds') = fst (getModelCooldownInfo now' other cds) /\
  get (JsString.trim other) (snd (getModelCooldownInfo now' other cds'))
  = get (JsString.trim other) (snd (getModelCooldownInfo now' other cds)).
Proof.
  intros Hne cds'. unfold cds', setModelCooldown.
  destruct (JsString.is_empty (JsString.trim model)); [now split|].
  destruct ((if 0 <? ms then ms else 0) =? 0); [now split|].
  unfold getModelCooldownInfo.
  destruct (JsString.is_empty (JsString.trim other)).
  - cbn [fst snd]. split; [reflexivity|]. now apply get_set_ne.
  - rewrite (get_set_ne _ _ _ _ Hne).
    destruct (get (JsString.trim other) cds) as [e|] eqn:E; cbn [fst snd].
    + destruct (untilMs e =? 0); cbn [fst snd];
        [split; [reflexivity|now rewrite get_set_ne]|].
      destruct (untilMs e - now' <=? 0); cbn [fst snd].
      * split; [reflexivity|]. now rewrite !get_delete_eq.
      * split; [reflexivity|now rewrite get_set_ne].
    + split; [reflexivity|now rewrite get_set_ne].
Qed.

Lemma cooldown_is_per_model_witness :
  fst (getModelCooldownInfo 1500 "claude-sonnet-4-5"
         (setModelCooldown 1000 "gemini-2.5-pro" 15000 "model_unavailable" []))
  = no_cooldown.
Proof.
  destruct (cooldown_is_per_model 1000 1500 15000 "gemini-2.5-pro"
              "claude-sonnet-4-5" "model_unavailable" []) as [H _].
  - vm_compute. discriminate.
  - exact H.
Defined.

(** ** Endpoint candidates *)

Lemma defaults_normalized : map normalizeBaseUrl DEFAULT_URLS = DEFAULT_URLS.
Proof. vm_compute. reflexivity. Qed.

Lemma defaults_distinct : NoDup DEFAULT_URLS.
Proof.
  unfold DEFAULT_URLS. repeat constructor; simpl; intuition discriminate.
Qed.

Lemma existsb_eqb c l : existsb (String.eqb c) l = true <-> In c l.
Proof.
  rewrite existsb_exists. split.
  - intros (x & Hin & E). apply String.eqb_eq in E. now subst.
  - intros Hin. exists c. split; [exact Hin|apply String.eqb_refl].
Qed.

(** X7.  The configured base URL is always tried first and no base URL
    is tried twice: the candidate list starts with the normalised
    configured URL, has no duplicates and holds nothing but that URL and
    the three defaults.  When [ANTIGRAVITY_API_URL] is set and
    [ANTIGRAVITY_API_URL_ALLOW_FALLBACK] is neither ['true'] nor ['1'],
    the list is that URL alone; in every other case it is that URL
    followed by the defaults other than it, in the order daily, prod,
    daily sandbox. *)
Theorem api_url_candidates_configured_first (apiUrl allowFallback : option string) :
  let configured := normalizeBaseUrl (getAntigravityApiUrl apiUrl) in
  let candidates := getAntigravityApiUrlCandidates apiUrl allowFallback in
  hd_error candidates = Some configured /\
  NoDup candidates /\
  (forall u, In u candidates -> u = configured \/ In u DEFAULT_URLS) /\
  (env_truthy apiUrl = true ->
   allowFallback <> Some "true" -> allowFallback <> Some "1" ->
   candidates = [configured]) /\
  (env_truthy apiUrl = false \/ allowFallback = Some "true" \/ allowFallback = Some "1" ->
   candidates
   = configured :: filter (fun u => negb (String.eqb u configured)) DEFAULT_URLS).
Proof.
  intros configured candidates.
  assert (Hallow :
    match allowFallback with
    | Some v => (String.eqb v "true" || String.eqb v "1")%bool
    | None => false
    end = true <-> allowFallback = Some "true" \/ allowFallback = Some "1").
  { destruct allowFallback as [v|]; [|split; [discriminate|intros [|]; discriminate]].
    rewrite orb_true_iff, !String.eqb_eq. split; intros [H|H]; [left|right|left|right];
      congruence. }
  assert (Hfilter :
    filter (fun u => negb (String.eqb (normalizeBaseUrl u) configured)) DEFAULT_URLS
    = filter (fun u => negb (String.eqb u configured)) DEFAULT_URLS).
  { apply filter_ext_in. intros u Hu.
    assert (Hn : normalizeBaseUrl u = u).
    { destruct Hu as [<-|[<-|[<-|[]]]]; vm_compute; reflexivity. }
    now rewrite Hn. }
  assert (Hfresh : existsb (String.eqb configured) DEFAULT_URLS = false ->
                   filter (fun u => negb (String.eqb u configured)) DEFAULT_URLS
                   = DEFAULT_URLS).
  { intros E. apply forallb_filter_id. apply forallb_forall. intros u Hu.
    destruct (String.eqb_spec u configured) as [->|_]; [|reflexivity].
    apply existsb_eqb in Hu. congruence. }
  unfold candidates, getAntigravityApiUrlCandidates.
  fold configured. rewrite defaults_normalized, Hfilter.
  destruct (env_truthy apiUrl) eqn:Eenv;
    destruct (match allowFallback with
              | Some v => (String.eqb v "true" || String.eqb v "1")%bool
              | None => false
              end) eqn:Eallow; cbn [andb negb].
  2:{ (* a URL is configured and fallback is off *)
      repeat split.
      - repeat constructor. intros [].
      - intros u [<-|[]]. now left.
      - intros [H|H]; [discriminate|]. apply Hallow in H. discriminate. }
  all: destruct (existsb (String.eqb configured) DEFAULT_URLS) eqn:E;
    rewrite ?(Hfresh E).
  all: repeat split;
    try (intros _ H1 H2; exfalso;
         destruct (proj1 Hallow eq_refl) as [H|H]; [now apply H1|now apply H2]);
    try discriminate.
  all: try (constructor;
            [intros Hin; first
               [apply filter_In in Hin as [_ Hne]; now rewrite String.eqb_refl in Hne
               |apply existsb_eqb in Hin; congruence]
            |first [apply NoDup_filter, defaults_distinct|apply defaults_distinct]]).
  all: try (intros u [<-|Hin]; [now left|right];
            first [now apply filter_In in Hin as [Hin _]|exact Hin]).
  all: intros _; now rewrite Hfresh.
Qed.

Example configured_url_alone :
  getAntigravityApiUrlCandidates (Some "https://proxy.example/") None
  = ["https://proxy.example"].
Proof. vm_compute. reflexivity. Qed.

Example configured_url_with_fallback :
  getAntigravityApiUrlCandidates (Some "https://cloudcode-pa.googleapis.com/") (Some "1")
  = [PROD_URL; DAILY_URL; DAILY_SANDBOX_URL].
Proof. vm_compute. reflexivity. Qed.

(** X8.  With no [ANTIGRAVITY_API_URL] configured the endpoints are
    tried in the order daily, prod, daily sandbox for every model: the
    reordering for Claude models leaves the daily endpoint first, because
    the daily URL contains the prod host name and so scores like prod. *)
Theorem default_endpoint_order_is_daily_first
  (apiUrl allowFallback : option string) (model : string) :
  env_truthy apiUrl = false ->
  request_endpoints apiUrl allowFallback model
  = [DAILY_URL; PROD_URL; DAILY_SANDBOX_URL] /\
  endpoint_score DAILY_URL = endpoint_score PROD_URL.
Proof.
  intros Henv. unfold request_endpoints. rewrite Henv. cbn [negb andb].
  assert (Hc : getAntigravityApiUrlCandidates apiUrl allowFallback
               = [DAILY_URL; PROD_URL; DAILY_SANDBOX_URL]).
  { unfold getAntigravityApiUrlCandidates. rewrite Henv. cbn [andb].
    assert (Hu : getAntigravityApiUrl apiUrl = DAILY_URL).
    { destruct apiUrl as [s|]; [|reflexivity]. simpl in Henv.
      unfold getAntigravityApiUrl. destruct (JsString.is_empty s); [reflexivity|].
      discriminate. }
    rewrite Hu. vm_compute. reflexivity. }
  rewrite Hc. split; [|vm_compute; reflexivity].
  destruct (JsString.includes model "claude"); [vm_compute|]; reflexivity.
Qed.

Lemma default_endpoint_order_witness :
  request_endpoints None None "claude-sonnet-4-5"
  = [DAILY_URL; PROD_URL; DAILY_SANDBOX_URL].
Proof.
  destruct (default_endpoint_order_is_daily_first None None "claude-sonnet-4-5"
              eq_refl) as [H _].
  exact H.
Defined.

(** ** The system instruction *)

Lemma set_same {V} k (v : V) (m : JsMap.t V) : get k m = Some v -> set k v m = m.
Proof.
  induction m as [|[k' v'] r IH]; simpl; [discriminate|].
  destruct (String.eqb k k') eqn:E.
  - apply String.eqb_eq in E. intros [= ->]. now subst.
  - intros H. now rewrite IH.
Qed.

Lemma with_field_same k x v : field k v = Some x -> with_field k x v = v.
Proof.
  destruct v; simpl; try discriminate. intros H. now rewrite set_same.
Qed.

Lemma prompt_has_marker : has_marker prompt_part = true.
Proof. vm_compute. reflexivity. Qed.

Lemma ensured_parts_marked sys : existsb has_marker (ensured_parts sys) = true.
Proof.
  unfold ensured_parts.
  set (parts := match as_array (field "parts" sys) with Some l => l | None => [] end).
  destruct (existsb has_marker parts) eqn:E; [exact E|].
  cbn [existsb]. now rewrite prompt_has_marker.
Qed.

Lemma field_kept_under k k' x y v :
  k <> k' -> field k' (with_field k x (with_field k' y v)) = Some y.
Proof.
  intros Hne. rewrite field_with_field_ne; [apply field_with_field_eq|exact Hne|].
  destruct v; simpl; eauto.
Qed.

(** The instruction object after the call. *)
Definition ensured_instruction (sys : json) : json :=
  with_field "parts" (JArr (ensured_parts sys)) (with_field "role" (JStr "user") sys).

Lemma ensured_instruction_twice props :
  ensured_instruction (ensured_instruction (JObj props))
  = ensured_instruction (JObj props).
Proof.
  unfold ensured_instruction at 1.
  assert (Hparts : field "parts" (ensured_instruction (JObj props))
                   = Some (JArr (ensured_parts (JObj props))))
    by apply field_with_field_eq.
  assert (Hrole : field "role" (ensured_instruction (JObj props))
                  = Some (JStr "user")).
  { unfold ensured_instruction. apply field_kept_under. discriminate. }
  assert (Hsame : ensured_parts (ensured_instruction (JObj props))
                  = ensured_parts (JObj props)).
  { unfold ensured_parts at 1. rewrite Hparts. cbn [as_array].
    now rewrite ensured_parts_marked. }
  rewrite Hsame, (with_field_same "role") by exact Hrole.
  now apply with_field_same.
Qed.

Lemma ensured_instruction_obj sys :
  exists props, ensured_instruction (JObj sys) = JObj props.
Proof. unfold ensured_instruction. simpl. eauto. Qed.

(** X9.  [ensureAntigravitySystemInstruction] is idempotent: applied to
    a payload it has already been applied to, it changes nothing; in
    particular the prompt is never inserted twice. *)
Theorem ensure_system_instruction_idempotent (requestPayload : json) :
  ensureAntigravitySystemInstruction (ensureAntigravitySystemInstruction requestPayload)
  = ensureAntigravitySystemInstruction requestPayload.
Proof.
  destruct requestPayload as [| | | | |payload]; try reflexivity.
  assert (Hstep : forall sys,
    ensureAntigravitySystemInstruction
      (with_field "systemInstruction" (ensured_instruction (JObj sys)) (JObj payload))
    = with_field "systemInstruction" (ensured_instruction (JObj sys)) (JObj payload)).
  { intros sys.
    destruct (ensured_instruction_obj sys) as [props Hprops].
    unfold ensureAntigravitySystemInstruction.
    cbn [with_field]. change (field "systemInstruction" (JObj ?m))
      with (get "systemInstruction" m).
    rewrite get_set_eq, Hprops.
    assert (Hfix : JObj (set "parts" (JArr (ensured_parts (JObj props)))
                           (set "role" (JStr "user") props)) = JObj props).
    { change (ensured_instruction (JObj props) = JObj props).
      rewrite <- Hprops. apply ensured_instruction_twice. }
    cbn [with_field]. now rewrite Hfix, set_set. }
  assert (Hres :
    ensureAntigravitySystemInstruction (JObj payload) = JObj payload \/
    exists sys,
      ensureAntigravitySystemInstruction (JObj payload)
      = with_field "systemInstruction" (ensured_instruction (JObj sys)) (JObj payload)).
  { unfold ensureAntigravitySystemInstruction.
    destruct (field "systemInstruction" (JObj payload)) as [[| | | |items|props]|];
      solve [now left | right; now exists [] | right; now exists props]. }
  destruct Hres as [Hsame|[sys Hsys]].
  - now rewrite !Hsame.
  - rewrite Hsys. apply Hstep.
Qed.

(** X10.  On an object payload whose [systemInstruction] is not an
    array, the instruction afterwards has role ["user"] and parts that
    hold the Antigravity prompt; the parts it had before are all kept, in
    order, behind at most one inserted prompt part. *)
Theorem ensure_system_instruction_keeps_parts
  (payload : list (string * json)) :
  (forall items, field "systemInstruction" (JObj payload) <> Some (JArr items)) ->
  let before :=
    match as_array (field_opt "parts" (field "systemInstruction" (JObj payload))) with
    | Some l => l
    | None => []
    end in
  exists sys parts,
    field "systemInstruction" (ensureAntigravitySystemInstruction (JObj payload))
    = Some sys /\
    field "role" sys = Some (JStr "user") /\
    field "parts" sys = Some (JArr parts) /\
    existsb has_marker parts = true /\
    (parts = before \/ parts = prompt_part :: before).
Proof.
  intros Hnot before.
  set (sys0 := match field "systemInstruction" (JObj payload) with
               | Some (JObj props) => JObj props
               | _ => JObj []
               end).
  assert (Hres : ensureAntigravitySystemInstruction (JObj payload)
                 = with_field "systemInstruction" (ensured_instruction sys0)
                              (JObj payload)).
  { unfold ensureAntigravitySystemInstruction, sys0.
    destruct (field "systemInstruction" (JObj payload)) as [[| | | |items|props]|] eqn:E;
      try reflexivity.
    now elim (Hnot items). }
  assert (Hbefore : match as_array (field "parts" sys0) with
                    | Some l => l
                    | None => []
                    end = before).
  { unfold before, sys0.
    destruct (field "systemInstruction" (JObj payload)) as [[| | | |items|props]|];
      reflexivity. }
  exists (ensured_instruction sys0), (ensured_parts sys0).
  rewrite Hres. split; [apply field_with_field_eq|].
  split.
  { unfold ensured_instruction. apply field_kept_under. discriminate. }
  split; [apply field_with_field_eq|].
  split; [apply ensured_parts_marked|].
  unfold ensured_parts. rewrite Hbefore.
  destruct (existsb has_marker before); [now left|now right].
Qed.

Lemma ensure_system_instruction_witness :
  exists sys parts,
    field "systemInstruction"
      (ensureAntigravitySystemInstruction
         (JObj [("systemInstruction",
                 JObj [("parts", JArr [JObj [("text", JStr "Be brief.")]])])]))
    = Some sys /\
    field "parts" sys = Some (JArr parts) /\
    parts = [prompt_part; JObj [("text", JStr "Be brief.")]].
Proof.
  destruct (ensure_system_instruction_keeps_parts
              [("systemInstruction",
                JObj [("parts", JArr [JObj [("text", JStr "Be brief.")]])])])
    as (sys & parts & Hsys & _ & Hparts & Hmark & Hkeep).
  - intros items. vm_compute. discriminate.
  - exists sys, parts. split; [exact Hsys|]. split; [exact Hparts|].
    destruct Hkeep as [->| ->]; [|reflexivity].
    vm_compute in Hmark. discriminate.
Defined.

End AntigravityEndpointsProofs.

(* ====================================================================== *)
(** * Remapped arguments, stable serialisation, signatures                  *)
(* ====================================================================== *)

Module BridgeExtraProofs.
Import JsMap JsMapFacts Json JsonFacts Bridge.

(** ** Arguments of search calls *)

Definition path_step (args : list (string * json)) : list (string * json) :=
  if negb (has_truthy "path" args) then
    match get "paths" args with
    | Some paths =>
        if truthy paths
        then delete "paths" (set "path" (JStr (path_of_paths paths)) args)
        else set "path" (JStr ".") args
    | None => set "path" (JStr ".") args
    end
  else args.

Lemma path_step_other k args :
  k <> "path" -> k <> "paths" -> get k (path_step args) = get k args.
Proof.
  intros H1 H2. unfold path_step.
  destruct (negb _); [|reflexivity].
  destruct (get "paths" args) as [paths|];
    [destruct (truthy paths)|];
    rewrite ?get_delete_ne, ?get_set_ne by congruence; reflexivity.
Qed.

Lemma path_step_path args : get "path" (path_step args) <> None.
Proof.
  unfold path_step. destruct (negb (has_truthy "path" args)) eqn:E.
  - destruct (get "paths" args) as [paths|];
      [destruct (truthy paths)|];
      rewrite ?get_delete_ne, ?get_set_eq by discriminate; discriminate.
  - apply negb_false_iff in E. unfold has_truthy in E.
    destruct (get "path" args); [discriminate|discriminate].
Qed.

Lemma path_step_fresh args :
  has_truthy "path" args = false ->
  exists s, get "path" (path_step args) = Some (JStr s).
Proof.
  intros H. unfold path_step. rewrite H. cbn [negb].
  destruct (get "paths" args) as [paths|];
    [destruct (truthy paths)|];
    rewrite ?get_delete_ne, ?get_set_eq by discriminate; eauto.
Qed.

Lemma rename_other from to k args :
  k <> from -> k <> to -> get k (rename_prop from to args) = get k args.
Proof.
  intros H1 H2. unfold rename_prop.
  destruct (get from args); [|reflexivity].
  rewrite get_delete_ne, get_set_ne by congruence. reflexivity.
Qed.

Lemma rename_moves from to args :
  from <> to -> get from args <> None ->
  get to (rename_prop from to args) = get from args /\
  get from (rename_prop from to args) = None.
Proof.
  intros Hne Hsome. unfold rename_prop.
  destruct (get from args) as [v|]; [|congruence].
  split; [|apply get_delete_eq].
  rewrite get_delete_ne, get_set_eq by congruence. reflexivity.
Qed.

Lemma has_truthy_get k args : has_truthy k args = true -> get k args <> None.
Proof. unfold has_truthy. destruct (get k args); [discriminate|discriminate]. Qed.

Lemma remap_search_args_steps args :
  remap_search_args args =
  path_step
    (let args :=
       if (has_truthy "description" args && negb (has_truthy "pattern" args))%bool
       then rename_prop "description" "pattern" args else args in
     if (has_truthy "query" args && negb (has_truthy "pattern" args))%bool
     then rename_prop "query" "pattern" args else args).
Proof. reflexivity. Qed.

Definition search_tools : list string :=
  ["grep"; "search"; "glob"; "search_code_definitions"; "search_code_snippets"].

Lemma remap_props_search nameLower args :
  In nameLower search_tools -> remap_props nameLower args = remap_search_args args.
Proof.
  intros [<-|[<-|[<-|[<-|[<-|[]]]]]]; reflexivity.
Qed.

(** X11.  A remapped search call (Grep, Search, Glob and the two code
    searches, in any letter case) always has a [path]; a truthy
    [pattern] is never overwritten; without one, the pattern is taken
    from a truthy [description], or else from a truthy [query], and the
    property it was taken from is removed. *)
Theorem search_call_gets_pattern_and_path (name : string) (args : list (string * json)) :
  In (JsString.toLowerCase name) search_tools ->
  exists out,
    remapFunctionCallArgs name (JObj args) = JObj out /\
    get "path" out <> None /\
    (has_truthy "path" args = true -> get "path" out = get "path" args) /\
    (has_truthy "path" args = false -> exists s, get "path" out = Some (JStr s)) /\
    (has_truthy "pattern" args = true -> get "pattern" out = get "pattern" args) /\
    (has_truthy "pattern" args = false -> has_truthy "description" args = true ->
     get "pattern" out = get "description" args /\ get "description" out = None) /\
    (has_truthy "pattern" args = false -> has_truthy "description" args = false ->
     has_truthy "query" args = true ->
     get "pattern" out = get "query" args /\ get "query" out = None).
Proof.
  intros Hname. exists (remap_search_args args).
  split; [cbn [remapFunctionCallArgs]; now rewrite remap_props_search|].
  rewrite remap_search_args_steps. cbv zeta.
  set (args1 := if (has_truthy "description" args && negb (has_truthy "pattern" args))%bool
                then rename_prop "description" "pattern" args else args).
  set (args2 := if (has_truthy "query" args1 && negb (has_truthy "pattern" args1))%bool
                then rename_prop "query" "pattern" args1 else args1).
  assert (Hpath : get "path" args2 = get "path" args).
  { unfold args2, args1.
    destruct (_ && _)%bool; destruct (_ && _)%bool;
      rewrite ?rename_other by discriminate; reflexivity. }
  assert (Hpt : has_truthy "path" args2 = has_truthy "path" args)
    by (unfold has_truthy; now rewrite Hpath).
  split; [apply path_step_path|].
  split.
  { intros H. unfold path_step. rewrite Hpt, H. exact Hpath. }
  split.
  { intros H. apply path_step_fresh. now rewrite Hpt. }
  split.
  { intros H. rewrite path_step_other by discriminate.
    unfold args2, args1. rewrite H, andb_false_r.
    now rewrite H, andb_false_r. }
  split.
  { intros Hp Hd. rewrite !path_step_other by discriminate.
    assert (E1 : args1 = rename_prop "description" "pattern" args)
      by (unfold args1; now rewrite Hd, Hp).
    destruct (rename_moves "description" "pattern" args) as [Hto Hfrom];
      [discriminate|now apply has_truthy_get|].
    assert (Hp1 : has_truthy "pattern" args1 = true).
    { unfold has_truthy. rewrite E1, Hto. exact Hd. }
    assert (E2 : args2 = args1) by (unfold args2; now rewrite Hp1, andb_false_r).
    rewrite E2, E1. now split. }
  intros Hp Hd Hq. rewrite !path_step_other by discriminate.
  assert (E1 : args1 = args) by (unfold args1; now rewrite Hd).
  assert (E2 : args2 = rename_prop "query" "pattern" args)
    by (unfold args2; now rewrite E1, Hq, Hp).
  rewrite E2. apply rename_moves; [discriminate|now apply has_truthy_get].
Qed.

Lemma search_call_witness :
  exists out,
    remapFunctionCallArgs "Glob"
      (JObj [("description", JStr "*.v"); ("paths", JArr [JStr "src"])])
    = JObj out /\
    get "pattern" out = Some (JStr "*.v") /\
    get "path" out = Some (JStr "src").
Proof.
  destruct (search_call_gets_pattern_and_path "Glob"
              [("description", JStr "*.v"); ("paths", JArr [JStr "src"])])
    as (out & Hout & _ & _ & _ & _ & Hdesc & _).
  - vm_compute. tauto.
  - exists out. split; [exact Hout|].
    destruct (Hdesc eq_refl eq_refl) as [Hpattern _].
    split; [exact Hpattern|].
    injection Hout as <-. reflexivity.
Defined.

(** ** Serialisation does not depend on the order of the properties *)

Definition key_lt (a b : string * string) : Prop := String.ltb (fst a) (fst b) = true.

Lemma ltb_lt a b : String.ltb a b = true <-> OrderedTypeEx.String_as_OT.lt a b.
Proof.
  unfold String.ltb. rewrite <- OrderedTypeEx.String_as_OT.cmp_lt.
  unfold OrderedTypeEx.String_as_OT.cmp. destruct (String.compare a b); split; congruence.
Qed.

Lemma ltb_trans a b c :
  String.ltb a b = true -> String.ltb b c = true -> String.ltb a c = true.
Proof.
  rewrite !ltb_lt. apply OrderedTypeEx.String_as_OT.lt_trans.
Qed.

Lemma ltb_irrefl a : String.ltb a a = false.
Proof.
  destruct (String.ltb a a) eqn:E; [|reflexivity].
  apply ltb_lt in E. apply OrderedTypeEx.String_as_OT.lt_not_eq in E.
  now elim E.
Qed.

Lemma ltb_total a b : a <> b -> String.ltb a b = false -> String.ltb b a = true.
Proof.
  unfold String.ltb. intros Hne. rewrite (String.compare_antisym b a).
  destruct (String.compare a b) eqn:E; simpl; try congruence.
  apply String.compare_eq_iff in E. congruence.
Qed.

Lemma insert_by_key_perm x l : Permutation (insert_by_key x l) (x :: l).
Proof.
  induction l as [|y r IH]; simpl; [reflexivity|].
  destruct (String.ltb (fst x) (fst y)); [reflexivity|].
  rewrite IH. apply perm_swap.
Qed.

Lemma sort_by_key_perm l : Permutation (sort_by_key l) l.
Proof.
  unfold sort_by_key. induction l as [|x r IH]; simpl; [reflexivity|].
  rewrite insert_by_key_perm. now constructor.
Qed.

Lemma insert_by_key_sorted x l :
  ~ In (fst x) (map fst l) -> StronglySorted key_lt l ->
  StronglySorted key_lt (insert_by_key x l).
Proof.
  intros Hx Hs. induction Hs as [|y r Hr IH Hy]; simpl.
  - repeat constructor.
  - destruct (String.ltb (fst x) (fst y)) eqn:E.
    + constructor; [now constructor|].
      constructor; [exact E|].
      eapply Forall_impl; [|exact Hy]. intros z Hz. unfold key_lt in *.
      eapply ltb_trans; eassumption.
    + assert (Hyx : key_lt y x).
      { apply ltb_total; [|exact E]. intros Heq. apply Hx. simpl. now left. }
      constructor.
      * apply IH. intros Hin. apply Hx. simpl. now right.
      * eapply Permutation_Forall; [symmetry; apply insert_by_key_perm|].
        now constructor.
Qed.

Lemma sort_by_key_sorted l :
  NoDup (map fst l) -> StronglySorted key_lt (sort_by_key l).
Proof.
  unfold sort_by_key. induction l as [|x r IH]; simpl; intros H; [constructor|].
  inversion H as [|? ? Hx Hr]; subst.
  apply insert_by_key_sorted; [|now apply IH].
  intros Hin. apply Hx. eapply Permutation_in; [|exact Hin].
  apply Permutation_map, sort_by_key_perm.
Qed.

(** Two strictly sorted lists with the same elements are the same list. *)
Lemma sorted_perm_eq l l' :
  StronglySorted key_lt l -> StronglySorted key_lt l' -> Permutation l l' -> l = l'.
Proof.
  intros Hl. revert l'. induction Hl as [|a r Hr IH Ha]; intros l' Hl' Hp.
  - now apply Permutation_nil in Hp.
  - destruct Hl' as [|b r' Hr' Hb].
    + symmetry in Hp. now apply Permutation_nil in Hp.
    + assert (Hab : a = b).
      { assert (Hina : In a (b :: r')) by (apply (Permutation_in _ Hp); now left).
        assert (Hinb : In b (a :: r))
          by (apply (Permutation_in _ (Permutation_sym Hp)); now left).
        destruct Hina as [->|Hina]; [reflexivity|].
        destruct Hinb as [->|Hinb]; [reflexivity|].
        rewrite Forall_forall in Ha, Hb.
        specialize (Ha _ Hinb). specialize (Hb _ Hina). unfold key_lt in *.
        pose proof (ltb_trans _ _ _ Ha Hb) as Habs.
        now rewrite ltb_irrefl in Habs. }
      subst b. f_equal. apply IH; [exact Hr'|].
      now apply Permutation_cons_inv in Hp.
Qed.

Lemma sort_by_key_stable l l' :
  NoDup (map fst l) -> Permutation l l' -> sort_by_key l = sort_by_key l'.
Proof.
  intros Hl Hp. apply sorted_perm_eq.
  - now apply sort_by_key_sorted.
  - apply sort_by_key_sorted. eapply Permutation_NoDup; [|exact Hl].
    now apply Permutation_map.
  - rewrite !sort_by_key_perm. exact Hp.
Qed.

(** The pairs of a serialised object. *)
Definition serialised_pairs (props : list (string * json)) : list (string * string) :=
  map (fun kx => (fst kx, stableJsonStringify (snd kx))) props.

Lemma stableJsonStringify_obj props :
  stableJsonStringify (JObj props) =
  "{" ++ JsString.join ","
           (map (fun kv => json_quote (fst kv) ++ ":" ++ snd kv)
                (sort_by_key (serialised_pairs props)))
      ++ "}".
Proof.
  cbn [stableJsonStringify].
  match goal with
  | |- context [sort_by_key (?f props)] =>
      assert (E : forall ps, f ps = serialised_pairs ps)
  end.
  { induction ps as [|[k x] r IH]; [reflexivity|].
    unfold serialised_pairs. cbn [map fst snd]. f_equal. exact IH. }
  now rewrite E.
Qed.

(** X12.  [stableJsonStringify] is stable: two objects with the same
    properties, listed in any order, are serialised to the same text. *)
Theorem stableJsonStringify_ignores_property_order (props props' : list (string * json)) :
  NoDup (map fst props) -> Permutation props props' ->
  stableJsonStringify (JObj props) = stableJsonStringify (JObj props').
Proof.
  intros Hd Hp. rewrite !stableJsonStringify_obj.
  rewrite (sort_by_key_stable (serialised_pairs props) (serialised_pairs props'));
    [reflexivity| |now apply Permutation_map].
  unfold serialised_pairs. rewrite map_map. exact Hd.
Qed.

Lemma stableJsonStringify_order_witness :
  stableJsonStringify (JObj [("pattern", JStr "foo"); ("path", JStr ".")])
  = stableJsonStringify (JObj [("path", JStr "."); ("pattern", JStr "foo")]).
Proof.
  apply stableJsonStringify_ignores_property_order.
  - repeat constructor; simpl; intuition discriminate.
  - apply perm_swap.
Defined.

(** ** Thought signatures *)

Lemma token_char_not_space c : is_token_char c = true -> JsString.is_space c = false.
Proof.
  destruct c as [b0 b1 b2 b3 b4 b5 b6 b7].
  destruct b0, b1, b2, b3, b4, b5, b6, b7; vm_compute; congruence.
Qed.

Lemma remove_spaces_token s :
  all_chars is_token_char s = true -> remove_spaces s = s.
Proof.
  induction s as [|c r IH]; simpl; [reflexivity|].
  intros H. apply andb_true_iff in H as [Hc Hr].
  now rewrite (token_char_not_space c Hc), IH.
Qed.

Lemma trim_end_token s :
  all_chars is_token_char s = true -> JsString.trim_end s = s.
Proof.
  induction s as [|c r IH]; simpl; [reflexivity|].
  intros H. apply andb_true_iff in H as [Hc Hr].
  rewrite (IH Hr). destruct r; [|reflexivity].
  now rewrite (token_char_not_space c Hc).
Qed.

Lemma trim_token s : all_chars is_token_char s = true -> JsString.trim s = s.
Proof.
  intros H. unfold JsString.trim.
  assert (Hs : JsString.trim_start s = s).
  { destruct s as [|c r]; [reflexivity|]. simpl in *.
    apply andb_true_iff in H as [Hc _]. now rewrite (token_char_not_space c Hc). }
  rewrite Hs. now apply trim_end_token.
Qed.

Lemma sanitized_shape signature :
  sanitizeThoughtSignatureForAntigravity signature = "" \/
  (all_chars is_token_char (sanitizeThoughtSignatureForAntigravity signature) = true /\
   8 <= JsString.len (sanitizeThoughtSignatureForAntigravity signature) <= 65536).
Proof.
  unfold sanitizeThoughtSignatureForAntigravity.
  destruct signature as [[| | |s| |]|]; try now left.
  destruct (JsString.is_empty (JsString.trim s)); [now left|]. cbv zeta.
  destruct (Z.ltb_spec 65536 (JsString.len (remove_spaces (JsString.trim s))));
    [now left|].
  destruct (negb (JsString.is_empty _)); cbn [andb negb]; [|now left].
  destruct (all_chars is_token_char _) eqn:Etok; cbn [negb]; [|now left].
  destruct (Z.ltb_spec (JsString.len (remove_spaces (JsString.trim s))) 8);
    [now left|right].
  split; [exact Etok|lia].
Qed.

Lemma token_passes clean :
  all_chars is_token_char clean = true -> 8 <= JsString.len clean <= 65536 ->
  sanitizeThoughtSignatureForAntigravity (Some (JStr clean)) = clean.
Proof.
  intros Htok Hlen. unfold sanitizeThoughtSignatureForAntigravity.
  rewrite (trim_token _ Htok). cbv zeta. rewrite (remove_spaces_token _ Htok), Htok.
  assert (Hne : JsString.is_empty clean = false).
  { destruct clean; [|reflexivity]. unfold JsString.len in Hlen. simpl in Hlen. lia. }
  rewrite Hne. cbn [negb andb].
  destruct (Z.ltb_spec 65536 (JsString.len clean)); [lia|].
  destruct (Z.ltb_spec (JsString.len clean) 8); [lia|reflexivity].
Qed.

(** X13.  A sanitised thought signature is empty or a token of 8 to
    65536 characters from [A-Za-z0-9+/_=-], and sanitising is
    idempotent: a sanitised signature passes through unchanged. *)
Theorem sanitized_signature_is_token_and_stable (signature : option json) :
  let clean := sanitizeThoughtSignatureForAntigravity signature in
  (clean = "" \/
   (all_chars is_token_char clean = true /\ 8 <= JsString.len clean <= 65536)) /\
  sanitizeThoughtSignatureForAntigravity (Some (JStr clean)) = clean.
Proof.
  cbv zeta. pose proof (sanitized_shape signature) as Hshape.
  split; [exact Hshape|].
  destruct Hshape as [E|[Htok Hlen]]; [now rewrite E|now apply token_passes].
Qed.

(** ** Converted replies *)

Section Replies.
Variable JSON_parse : string -> option json.
Variable buildToolUseId : nat -> string.

Lemma partition_perm {A} (f : A -> bool) (l : list A) :
  Permutation (filter f l ++ filter (fun x => negb (f x)) l) l.
Proof.
  induction l as [|x r IH]; simpl; [constructor|].
  destruct (f x); simpl; [now constructor|].
  rewrite <- Permutation_middle. now constructor.
Qed.

Lemma filter_nil_existsb {A} (f : A -> bool) (l : list A) :
  filter f l = [] -> existsb f l = false.
Proof.
  induction l as [|x r IH]; simpl; [reflexivity|].
  destruct (f x); [discriminate|exact IH].
Qed.

(** A well-formed [tool_use] block: an id, the name, and an input that is
    an object or an array. *)
Definition tool_use_ok (block : json) : Prop :=
  type_is "tool_use" block = true ->
  exists id name input,
    block = JObj [("type", JStr "tool_use"); ("id", JStr id);
                  ("name", name); ("input", input)] /\
    truthy name = true /\ is_object input = true.

Lemma normalizeToolUseInput_object input :
  is_object (normalizeToolUseInput JSON_parse input) = true.
Proof.
  unfold normalizeToolUseInput.
  destruct input as [[| | |s| |]|]; try reflexivity.
  destruct (JsString.is_empty _); [reflexivity|].
  destruct (JSON_parse _) as [parsed|]; [|reflexivity].
  destruct (is_object parsed) eqn:E; [exact E|reflexivity].
Qed.

Lemma thinking_blocks_ok text sig : Forall tool_use_ok (thinking_blocks text sig).
Proof.
  unfold thinking_blocks.
  destruct (_ && _)%bool; [constructor|].
  destruct (JsString.is_empty _); repeat constructor; intros H; discriminate H.
Qed.

Lemma flushed_ok text : Forall tool_use_ok (flushed text).
Proof.
  unfold flushed. destruct (JsString.is_empty text); repeat constructor.
  intros H. discriminate H.
Qed.

Lemma convert_parts_ok parts :
  forall currentText n,
    Forall tool_use_ok (fst (convert_parts JSON_parse buildToolUseId parts currentText n)).
Proof.
  induction parts as [|part rest IH]; intros currentText n; cbn [convert_parts].
  - apply flushed_ok.
  - destruct (match field "thought" part with Some (JBool true) => true | _ => false end).
    + specialize (IH "" n).
      destruct (convert_parts JSON_parse buildToolUseId rest "" n) as [blocks n'].
      cbn [fst] in *. repeat (apply Forall_app; split);
        auto using flushed_ok, thinking_blocks_ok.
    + destruct (part_text part); [apply IH|].
      destruct (field "functionCall" part) as [functionCall|]; [|apply IH].
      destruct (field "name" functionCall) as [name|]; [|apply IH].
      destruct (truthy name) eqn:Ename; [|apply IH].
      set (drawn := match str_field "id" functionCall with
                    | Some id => if JsString.is_empty id
                                 then (buildToolUseId n, S n) else (id, n)
                    | None => (buildToolUseId n, S n)
                    end).
      destruct drawn as [toolUseId n1].
      specialize (IH "" n1).
      destruct (convert_parts JSON_parse buildToolUseId rest "" n1) as [blocks n'].
      cbn [fst] in *. repeat (apply Forall_app; split); auto using flushed_ok.
      * destruct (resolveSignature part); [apply thinking_blocks_ok|constructor].
      * constructor; [|constructor]. intros _.
        exists toolUseId, name, (normalizeToolUseInput JSON_parse (field "args" functionCall)).
        split; [reflexivity|]. split; [exact Ename|apply normalizeToolUseInput_object].
Qed.

(** X27.  A converted reply that holds thinking starts with a thinking
    block, and putting thinking first neither drops nor duplicates a
    block; every [tool_use] block in it has a string id, a truthy name
    and an input that is an object or an array. *)
Theorem converted_reply_is_well_formed (payload : option json) (n : nat) :
  let blocks :=
    fst (convertGeminiPayloadToAnthropicContent JSON_parse buildToolUseId payload n) in
  let converted :=
    fst (convert_parts JSON_parse buildToolUseId (extractGeminiParts payload) "" n) in
  Permutation blocks converted /\
  (existsb is_thinking_block blocks = true ->
   exists first rest, blocks = first :: rest /\ is_thinking_block first = true) /\
  Forall tool_use_ok blocks.
Proof.
  cbv zeta. unfold convertGeminiPayloadToAnthropicContent.
  pose proof (convert_parts_ok (extractGeminiParts payload) "" n) as Hok.
  destruct (convert_parts JSON_parse buildToolUseId (extractGeminiParts payload) "" n)
    as [content n'].
  cbn [fst] in Hok.
  destruct (filter is_thinking_block content) as [|t thinking] eqn:Ef.
  - cbn [fst]. split; [reflexivity|]. split; [|exact Hok].
    intros H. now rewrite (filter_nil_existsb _ _ Ef) in H.
  - destruct content as [|first rest]; [discriminate Ef|].
    destruct (is_thinking_block first) eqn:Efirst; cbn [fst].
    + split; [reflexivity|]. split; [eauto|exact Hok].
    + assert (Hperm : Permutation
                        ((t :: thinking)
                         ++ filter (fun b => negb (is_thinking_block b)) (first :: rest))
                        (first :: rest)).
      { rewrite <- Ef. apply partition_perm. }
      split; [exact Hperm|]. split.
      * intros _. exists t. eexists. split; [reflexivity|].
        assert (Hin : In t (filter is_thinking_block (first :: rest)))
          by (rewrite Ef; now left).
        now apply filter_In in Hin.
      * eapply Permutation_Forall; [symmetry; exact Hperm|exact Hok].
Qed.

End Replies.

End BridgeExtraProofs.

(* ====================================================================== *)
(** * Preparing the request                                                 *)
(* ====================================================================== *)

Module PreprocessProofs.
Import JsMap JsMapFacts Json JsonFacts Bridge Preprocess.

(** ** Model families *)

Lemma lower_char_twice c :
  JsString.lower_char (JsString.lower_char c) = JsString.lower_char c.
Proof.
  destruct c as [b0 b1 b2 b3 b4 b5 b6 b7].
  destruct b0, b1, b2, b3, b4, b5, b6, b7; vm_compute; reflexivity.
Qed.

Lemma toLowerCase_twice s :
  JsString.toLowerCase (JsString.toLowerCase s) = JsString.toLowerCase s.
Proof.
  unfold JsString.toLowerCase.
  induction s as [|c r IH]; simpl; [reflexivity|].
  now rewrite lower_char_twice, IH.
Qed.

Lemma toLowerCase_empty s :
  JsString.is_empty (JsString.toLowerCase s) = JsString.is_empty s.
Proof. now destruct s. Qed.

(** X14.  A signature is always compatible with the model it came from:
    the family [extractModelFamily] records for a model passes
    [isModelCompatible] against that same model, for every model name;
    and the family of a family is that family. *)
Theorem model_is_compatible_with_its_own_family (model : option string) :
  isModelCompatible (Some (extractModelFamily model)) model = true /\
  extractModelFamily (Some (extractModelFamily model)) = extractModelFamily model.
Proof.
  destruct model as [m|]; [|split; reflexivity].
  unfold extractModelFamily at 1 3 4.
  destruct (JsString.is_empty m) eqn:Em; [split; reflexivity|]. cbv zeta.
  set (n := JsString.toLowerCase m).
  assert (Hn : JsString.toLowerCase n = n) by apply toLowerCase_twice.
  assert (Hne : JsString.is_empty n = false)
    by (unfold n; now rewrite toLowerCase_empty).
  assert (Hfam : forall f,
    JsString.is_empty f = false -> JsString.toLowerCase f = f ->
    (f = n \/ exists both,
       JsString.includes n both = true /\ JsString.includes f both = true /\
       In both ["gemini-1.5"; "gemini-2.0"; "gemini-2.5"; "claude-3-5";
                "claude-3-7"; "claude-sonnet-4"; "claude-opus-4"]) ->
    isModelCompatible (Some f) (Some m) = true).
  { intros f Hf Hlow Hcase. unfold isModelCompatible. rewrite Hf, Em. cbn [orb].
    cbv zeta. fold n. rewrite Hlow.
    destruct Hcase as [->|(both & Hnb & Hfb & Hin)]; [now rewrite String.eqb_refl|].
    destruct (String.eqb f n); [reflexivity|].
    destruct Hin as [<-|[<-|[<-|[<-|[<-|[<-|[<-|[]]]]]]]];
      rewrite Hnb, Hfb; cbn [andb];
      repeat match goal with
             | |- (if (?a && ?b)%bool then true else _) = true =>
                 destruct (a && b)%bool; [reflexivity|]
             end; reflexivity. }
  destruct (JsString.includes n "gemini-2.5") eqn:E1.
  { split; [apply Hfam; [reflexivity|reflexivity|right; eexists; repeat split;
                         [exact E1|reflexivity|simpl; tauto]]|reflexivity]. }
  destruct (JsString.includes n "gemini-2.0") eqn:E2.
  { split; [apply Hfam; [reflexivity|reflexivity|right; eexists; repeat split;
                         [exact E2|reflexivity|simpl; tauto]]|reflexivity]. }
  destruct (JsString.includes n "gemini-1.5") eqn:E3.
  { split; [apply Hfam; [reflexivity|reflexivity|right; eexists; repeat split;
                         [exact E3|reflexivity|simpl; tauto]]|reflexivity]. }
  destruct (JsString.includes n "claude-opus-4") eqn:E4.
  { split; [apply Hfam; [reflexivity|reflexivity|right; eexists; repeat split;
                         [exact E4|reflexivity|simpl; tauto]]|reflexivity]. }
  destruct (JsString.includes n "claude-sonnet-4") eqn:E5.
  { split; [apply Hfam; [reflexivity|reflexivity|right; eexists; repeat split;
                         [exact E5|reflexivity|simpl; tauto]]|reflexivity]. }
  destruct (JsString.includes n "claude-3-7") eqn:E6.
  { split; [apply Hfam; [reflexivity|reflexivity|right; eexists; repeat split;
                         [exact E6|reflexivity|simpl; tauto]]|reflexivity]. }
  destruct (JsString.includes n "claude-3-5") eqn:E7.
  { split; [apply Hfam; [reflexivity|reflexivity|right; eexists; repeat split;
                         [exact E7|reflexivity|simpl; tauto]]|reflexivity]. }
  split; [apply Hfam; [exact Hne|exact Hn|now left]|].
  unfold extractModelFamily. rewrite Hne. cbv zeta. rewrite Hn.
  now rewrite E1, E2, E3, E4, E5, E6, E7.
Qed.

(** ** System parts *)

(** A system part that may be forwarded: [{ text }] with a text that is
    not empty and is not a system reminder. *)
Definition forwardable (part : json) : Prop :=
  exists text,
    part = JObj [("text", JStr text)] /\
    text <> "" /\
    JsString.startsWith (JsString.trim_start text) SYSTEM_REMINDER_PREFIX = false.

Lemma system_part_forwardable text : Forall forwardable (system_part text).
Proof.
  unfold system_part.
  destruct (JsString.is_empty text) eqn:E; [constructor|]. cbn [negb andb].
  destruct (shouldSkipText text) eqn:Es; [constructor|]. cbn [negb].
  constructor; [|constructor].
  exists text. split; [reflexivity|].
  split; [now apply JsStringFacts.is_empty_false|].
  unfold shouldSkipText in Es. now rewrite E in Es.
Qed.

(** X15.  No system reminder and no empty text reaches the upstream
    system instruction: every part [buildSystemParts] returns is
    [{ text }] with a non-empty text that, leading white space aside,
    does not start with [<system-reminder>]. *)
Theorem system_parts_hold_no_reminder (system : option json) :
  Forall forwardable (buildSystemParts system).
Proof.
  unfold buildSystemParts. destruct system as [system|]; [|constructor].
  destruct (truthy system); [|constructor]. cbn [negb].
  destruct system; try apply system_part_forwardable.
  induction items as [|part rest IH]; [constructor|]. cbn [flat_map].
  apply Forall_app. split; [|exact IH].
  destruct (_ || _)%bool; [constructor|apply system_part_forwardable].
Qed.

(** A string that is not a reminder is forwarded as it is. *)
Example system_string_forwarded :
  buildSystemParts (Some (JStr "You are a careful reviewer."))
  = [JObj [("text", JStr "You are a careful reviewer.")]] /\
  buildSystemParts
    (Some (JArr [JObj [("type", JStr "text");
                       ("text", JStr "  <system-reminder>be quiet</system-reminder>")];
                 JObj [("type", JStr "text"); ("text", JStr "Answer in French.")]]))
  = [JObj [("text", JStr "Answer in French.")]].
Proof. split; vm_compute; reflexivity. Qed.

(** ** Purifying the thinking history *)

Lemma filter_same_length {A} (f : A -> bool) (l : list A) :
  List.length (filter f l) = List.length l -> filter f l = l.
Proof.
  induction l as [|x r IH]; simpl; [reflexivity|].
  destruct (f x); simpl; intros H.
  - f_equal. apply IH. lia.
  - pose proof (filter_length_le f r). lia.
Qed.

Lemma field_content_same msg content :
  field "content" msg = Some content -> with_field "content" content msg = msg.
Proof.
  destruct msg; simpl; try discriminate.
  intros H. f_equal. revert H.
  induction props as [|[k v] r IH]; simpl; [discriminate|].
  destruct (String.eqb "content" k) eqn:E.
  - apply String.eqb_eq in E. intros [= ->]. now subst.
  - intros H. now rewrite IH.
Qed.

Lemma with_content_changes msg old new :
  field "content" msg = Some old -> new <> old ->
  with_field "content" new msg <> msg.
Proof.
  intros Hold Hne Heq. apply Hne.
  pose proof (field_with_field_eq "content" new msg) as H.
  rewrite Heq, Hold in H. congruence.
Qed.

(** The flag of one message tells whether the message changed. *)
Lemma purify_message_flag msg :
  snd (purify_message msg) = false <-> fst (purify_message msg) = msg.
Proof.
  unfold purify_message.
  destruct (negb _); [now split|].
  destruct (field "content" msg) as [[| | | |content|]|] eqn:E; try now split.
  cbv zeta.
  destruct (Nat.eqb_spec (List.length (filter (fun b => negb (is_thinking_type b)) content))
                         (List.length content)) as [Hlen|Hlen]; cbn [fst snd].
  - split; [intros _|reflexivity].
    rewrite (filter_same_length _ _ Hlen). now apply field_content_same.
  - split; [discriminate|]. intros Hsame. exfalso.
    apply (with_content_changes msg _ _ E) in Hsame; [exact Hsame|].
    intros [= Hkept]. apply Hlen.
    destruct (filter _ content) as [|b r] eqn:Ef.
    + destruct content as [|c [|]]; try discriminate. injection Hkept as <-.
      discriminate Ef.
    + now rewrite Hkept.
Qed.

Lemma purify_from_flag i start messages :
  snd (purify_from i start messages) = false
  <-> fst (purify_from i start messages) = messages.
Proof.
  revert i. induction messages as [|msg rest IH]; intros i; [now split|].
  cbn [purify_from].
  pose proof (purify_message_flag msg) as Hm. specialize (IH (S i)).
  destruct (purify_from (S i) start rest) as [rest' m2].
  destruct (Nat.leb start i).
  - cbn [fst snd orb] in *. split.
    + intros H. f_equal. now apply IH.
    + intros [= H]. now apply IH.
  - destruct (purify_message msg) as [msg' m1]. cbn [fst snd] in *. split.
    + intros H. apply orb_false_iff in H as [H1 H2].
      f_equal; [now apply Hm|now apply IH].
    + intros [= H1 H2]. apply orb_false_iff. split; [now apply Hm|now apply IH].
Qed.

Lemma purify_from_length i start messages :
  List.length (fst (purify_from i start messages)) = List.length messages.
Proof.
  revert i. induction messages as [|msg rest IH]; intros i; [reflexivity|].
  cbn [purify_from]. specialize (IH (S i)).
  destruct (purify_from (S i) start rest) as [rest' m2].
  destruct (if Nat.leb start i then (msg, false) else purify_message msg).
  cbn [fst] in *. simpl. now rewrite IH.
Qed.

(** X16.  [purifyHistoryThinking] reports exactly whether it changed
    anything: it returns [false] if and only if the messages are as they
    were, and it never changes the number of messages. *)
Theorem purify_reports_change (messages : list json) (strategy : string) :
  (snd (purifyHistoryThinking messages strategy) = false
   <-> fst (purifyHistoryThinking messages strategy) = messages) /\
  List.length (fst (purifyHistoryThinking messages strategy)) = List.length messages.
Proof.
  unfold purifyHistoryThinking.
  destruct (String.eqb strategy "none"); [now split|].
  destruct messages as [|msg rest]; [now split|].
  split; [apply purify_from_flag|apply purify_from_length].
Qed.

(** No thinking is left in an assistant message whose content is an
    array. *)
Definition free_of_thinking (msg : json) : Prop :=
  field_is "role" "assistant" msg = true ->
  forall content, field "content" msg = Some (JArr content) ->
  Forall (fun block => is_thinking_type block = false) content.

Lemma purify_message_free msg : free_of_thinking (fst (purify_message msg)).
Proof.
  unfold purify_message.
  destruct (negb (field_is "role" "assistant" msg)) eqn:Erole.
  { intros Hr. cbn [fst] in Hr. apply negb_true_iff in Erole. congruence. }
  destruct (field "content" msg) as [[| | | |content|]|] eqn:E;
    try (intros _ c Hc; cbn [fst] in Hc; congruence).
  cbv zeta.
  set (kept := filter (fun b => negb (is_thinking_type b)) content).
  assert (Hkept : Forall (fun block => is_thinking_type block = false) kept).
  { apply Forall_forall. intros b Hb. apply filter_In in Hb as [_ Hb].
    now apply negb_true_iff in Hb. }
  destruct (Nat.eqb (List.length kept) (List.length content));
    intros _ c Hc; cbn [fst] in Hc; rewrite field_with_field_eq in Hc;
    injection Hc as <-; [exact Hkept|].
  destruct kept as [|b r]; [|exact Hkept].
  constructor; [reflexivity|constructor].
Qed.

(** Messages below [start] are purified, messages from [start] on are
    left alone. *)
Lemma purify_from_split i start messages :
  (i <= start)%nat ->
  Forall free_of_thinking (firstn (start - i) (fst (purify_from i start messages))) /\
  skipn (start - i) (fst (purify_from i start messages)) = skipn (start - i) messages.
Proof.
  revert i. induction messages as [|msg rest IH]; intros i Hi.
  - cbn [purify_from fst]. rewrite firstn_nil, skipn_nil. now split.
  - cbn [purify_from].
    destruct (Nat.leb_spec start i) as [Hle|Hlt].
    + assert (E : (start - i = 0)%nat) by lia. rewrite E.
      destruct (purify_from (S i) start rest) as [rest' m2] eqn:Er.
      cbn [fst firstn skipn]. split; [constructor|].
      f_equal.
      assert (Hall : forall j l, (start <= j)%nat -> fst (purify_from j start l) = l).
      { intros j l. revert j. induction l as [|x l IHl]; intros j Hj; [reflexivity|].
        cbn [purify_from]. specialize (IHl (S j) ltac:(lia)).
        destruct (purify_from (S j) start l) as [l' m]. cbn [fst] in IHl.
        destruct (Nat.leb_spec start j); [|lia]. cbn [fst]. now rewrite IHl. }
      specialize (Hall (S i) rest ltac:(lia)). now rewrite Er in Hall.
    + destruct (IH (S i) ltac:(lia)) as [Hfree Hskip].
      pose proof (purify_message_free msg) as Hmsg.
      destruct (purify_from (S i) start rest) as [rest' m2].
      destruct (purify_message msg) as [msg' m1]. cbn [fst] in *.
      assert (E : (start - i = S (start - S i))%nat) by lia. rewrite E.
      cbn [firstn skipn]. split; [now constructor|exact Hskip].
Qed.

(** X17.  Every strategy but [none] strips the history: with [soft] the
    last four messages are left alone and with any other strategy none
    is; in every other assistant message whose content is an array no
    [thinking] or [redacted_thinking] block is left. *)
Theorem purified_history_has_no_thinking (messages : list json) (strategy : string) :
  strategy <> "none" ->
  let protectedCount := if String.eqb strategy "soft" then 4%nat else 0%nat in
  let stripped := (List.length messages - protectedCount)%nat in
  let purified := fst (purifyHistoryThinking messages strategy) in
  Forall free_of_thinking (firstn stripped purified) /\
  skipn stripped purified = skipn stripped messages.
Proof.
  intros Hs protectedCount stripped purified.
  unfold purified, purifyHistoryThinking.
  apply String.eqb_neq in Hs. rewrite Hs.
  destruct messages as [|msg rest].
  - cbn [fst]. rewrite firstn_nil, skipn_nil. now split.
  - fold protectedCount. fold stripped.
    pose proof (purify_from_split 0 stripped (msg :: rest) ltac:(lia)) as H.
    now rewrite Nat.sub_0_r in H.
Qed.

Definition thinking_turn : json :=
  JObj [("role", JStr "assistant");
        ("content", JArr [JObj [("type", JStr "thinking"); ("thinking", JStr "hm")];
                          JObj [("type", JStr "text"); ("text", JStr "done")]])].

Lemma purified_history_witness :
  fst (purifyHistoryThinking [thinking_turn] "aggressive")
  = [JObj [("role", JStr "assistant");
           ("content", JArr [JObj [("type", JStr "text"); ("text", JStr "done")]])]] /\
  Forall free_of_thinking (fst (purifyHistoryThinking [thinking_turn] "aggressive")).
Proof.
  destruct (purified_history_has_no_thinking [thinking_turn] "aggressive")
    as [Hfree _]; [discriminate|].
  split; [reflexivity|exact Hfree].
Defined.

(** ** Closing a broken tool loop *)

Definition is_assistant (msg : json) : bool := field_is "role" "assistant" msg.

Lemma last_assistant_none i messages :
  Forall (fun msg => is_assistant msg = false) messages ->
  last_assistant_from i messages = None.
Proof.
  intros H. revert i. induction H as [|msg rest Hmsg _ IH]; intros i; [reflexivity|].
  cbn [last_assistant_from]. rewrite IH. unfold is_assistant in Hmsg. now rewrite Hmsg.
Qed.

Lemma last_assistant_app i before msg after :
  is_assistant msg = true ->
  Forall (fun m => is_assistant m = false) after ->
  last_assistant_from i (before ++ msg :: after) = Some (i + List.length before)%nat.
Proof.
  intros Hmsg Hafter. revert i.
  induction before as [|x before IH]; intros i; cbn [app last_assistant_from List.length].
  - rewrite (last_assistant_none _ _ Hafter). unfold is_assistant in Hmsg.
    rewrite Hmsg. f_equal. lia.
  - rewrite IH. f_equal. lia.
Qed.

(** What a found index says about the list. *)
Lemma last_assistant_found i messages j :
  last_assistant_from i messages = Some j ->
  (i <= j)%nat /\ (j - i < List.length messages)%nat /\
  Forall (fun m => is_assistant m = false) (skipn (S (j - i)) messages).
Proof.
  revert i. induction messages as [|msg rest IH]; intros i; [discriminate|].
  cbn [last_assistant_from].
  destruct (last_assistant_from (S i) rest) as [k|] eqn:E.
  - intros [= <-]. destruct (IH (S i) E) as (H1 & H2 & H3).
    split; [lia|]. split; [simpl; lia|].
    replace (S (k - i)) with (S (S (k - S i))) by lia. exact H3.
  - destruct (field_is "role" "assistant" msg); [|discriminate].
    intros [= <-]. split; [lia|]. split; [simpl; lia|].
    rewrite Nat.sub_diag. cbn [skipn].
    clear IH. revert E. generalize (S i).
    induction rest as [|x rest IHr]; intros n E; [constructor|].
    cbn [last_assistant_from] in E.
    destruct (last_assistant_from (S n) rest) eqn:Er; [discriminate|].
    constructor; [|now apply (IHr (S n))].
    unfold is_assistant. now destruct (field_is "role" "assistant" x).
Qed.

(** A conversation whose last assistant message calls no tool is in no
    tool loop. *)
Lemma closed_by_text_turn at_least before msg after :
  is_assistant msg = true ->
  existsb (type_is "tool_use") (content_blocks msg) = false ->
  Forall (fun m => is_assistant m = false) after ->
  closeToolLoopForThinking at_least (before ++ msg :: after) = (before ++ msg :: after, false)%list /\
  inToolLoop (analyzeConversationState (before ++ msg :: after)) = false /\
  interruptedTool (analyzeConversationState (before ++ msg :: after)) = false.
Proof.
  intros Hmsg Htool Hafter.
  assert (Hstate : analyzeConversationState (before ++ msg :: after)
                   = {| inToolLoop := false; interruptedTool := false;
                        lastAssistantIdx := Some (List.length before) |}).
  { unfold analyzeConversationState.
    rewrite (last_assistant_app 0 before msg after Hmsg Hafter). cbn [Nat.add].
    rewrite app_nth2, Nat.sub_diag by lia. cbn [nth]. now rewrite Htool. }
  unfold closeToolLoopForThinking. rewrite Hstate. now repeat split.
Qed.

(** X18.  Closing a broken tool loop repairs it for good: once
    [closeToolLoopForThinking] has modified the messages, they are
    neither in a tool loop nor interrupted, and in every case a second
    call changes nothing and returns [false]. *)
Theorem tool_loop_closure_is_stable
  (at_least : json -> Z -> bool) (messages : list json) :
  let closed := fst (closeToolLoopForThinking at_least messages) in
  closeToolLoopForThinking at_least closed = (closed, false) /\
  (snd (closeToolLoopForThinking at_least messages) = true ->
   inToolLoop (analyzeConversationState closed) = false /\
   interruptedTool (analyzeConversationState closed) = false).
Proof.
  cbv zeta.
  match goal with |- ?G => set (P := G) end.
  assert (Hsame : closeToolLoopForThinking at_least messages = (messages, false) -> P).
  { intros E. unfold P. rewrite E. cbn [fst snd]. split; [exact E|discriminate]. }
  assert (Hfixed : forall before msg after,
    closeToolLoopForThinking at_least messages = ((before ++ msg :: after)%list, true) ->
    is_assistant msg = true ->
    existsb (type_is "tool_use") (content_blocks msg) = false ->
    Forall (fun m => is_assistant m = false) after -> P).
  { intros before msg after E H1 H2 H3. unfold P. rewrite E. cbn [fst snd].
    destruct (closed_by_text_turn at_least before msg after H1 H2 H3) as (Hc & Hl & Hi).
    split; [exact Hc|]. intros _. now split. }
  clearbody P.
  unfold closeToolLoopForThinking, analyzeConversationState in Hsame, Hfixed.
  destruct (last_assistant_from 0 messages) as [idx|] eqn:Eidx;
    [|apply Hsame; reflexivity].
  cbv zeta in Hsame, Hfixed.
  destruct (negb (existsb (type_is "tool_use")
                    (content_blocks (nth idx messages JNull))));
    [apply Hsame; reflexivity|].
  destruct (negb (field_is "role" "user" (last messages JNull)));
    [apply Hsame; reflexivity|].
  destruct (last_assistant_found 0 messages idx Eidx) as (_ & Hlt & Hafter).
  rewrite Nat.sub_0_r in Hlt, Hafter.
  destruct (field "content" (last messages JNull)) as [[| | |s|lastContent|]|];
    try (apply Hsame; reflexivity);
    cbn [inToolLoop interruptedTool lastAssistantIdx negb andb] in Hsame, Hfixed.
  - (* interrupted: the last message is a string *)
    destruct (existsb (is_valid_thinking at_least) _); [apply Hsame; reflexivity|].
    apply (Hfixed (firstn (S idx) messages) INTERRUPTED_ASSISTANT
                  (skipn (S idx) messages)); try reflexivity. exact Hafter.
  - destruct (existsb (type_is "tool_result") lastContent);
      cbn [inToolLoop interruptedTool lastAssistantIdx negb andb] in Hsame, Hfixed.
    + (* in a tool loop *)
      destruct (existsb (is_valid_thinking at_least) _); [apply Hsame; reflexivity|].
      apply (Hfixed messages LOOP_CLOSED_ASSISTANT [LOOP_CLOSED_USER]);
        try reflexivity. repeat constructor.
    + (* interrupted: the last message has no tool result *)
      destruct (existsb (is_valid_thinking at_least) _); [apply Hsame; reflexivity|].
      apply (Hfixed (firstn (S idx) messages) INTERRUPTED_ASSISTANT
                    (skipn (S idx) messages)); try reflexivity. exact Hafter.
Qed.

(** ** Merging consecutive messages *)

(** No two neighbours have the same role. *)
Fixpoint alternating (messages : list json) : Prop :=
  match messages with
  | a :: (b :: _) as rest =>
      strict_eq (field "role" a) (field "role" b) = false /\ alternating rest
  | _ => True
  end.

Lemma merge_into_role current next merged :
  merge_into current next = Some merged -> field "role" merged = field "role" current.
Proof.
  unfold merge_into.
  destruct current; destruct next; try discriminate; try (now intros [= <-]);
    (destruct (merged_content _ _); intros [= <-]; [|reflexivity];
     cbn [field with_field]; apply get_set_ne; discriminate).
Qed.

Lemma merge_loop_spec current rest merged :
  merge_loop current rest = Some merged ->
  alternating merged /\
  (exists first tail, merged = first :: tail /\
                      field "role" first = field "role" current) /\
  (List.length merged <= S (List.length rest))%nat /\
  (List.length merged = S (List.length rest) -> merged = current :: rest).
Proof.
  revert current merged. induction rest as [|next rest IH]; intros current merged.
  - intros [= <-]. repeat split; simpl; eauto.
  - cbn [merge_loop].
    destruct (strict_eq (field "role" current) (field "role" next)) eqn:Erole.
    + destruct (merge_into current next) as [current'|] eqn:Em; [|discriminate].
      intros H. destruct (IH _ _ H) as (Ha & (first & tail & -> & Hrole) & Hlen & _).
      split; [exact Ha|]. split.
      * exists first, tail. split; [reflexivity|].
        rewrite Hrole. now apply (merge_into_role current next).
      * simpl in *. split; [lia|lia].
    + destruct (merge_loop next rest) as [merged'|] eqn:El; [|discriminate].
      intros [= <-].
      destruct (IH _ _ El) as (Ha & (first & tail & -> & Hrole) & Hlen & Hfull).
      split; [|split; [|split]].
      * cbn [alternating]. split; [now rewrite Hrole|exact Ha].
      * eauto.
      * simpl in *. lia.
      * intros H. f_equal. apply Hfull. simpl in *. lia.
Qed.

Lemma merge_loop_alternating current rest :
  alternating (current :: rest) -> merge_loop current rest = Some (current :: rest).
Proof.
  revert current. induction rest as [|next rest IH]; intros current; [reflexivity|].
  cbn [alternating merge_loop]. intros [Hrole Hrest].
  now rewrite Hrole, (IH next Hrest).
Qed.

Lemma merge_loop_returns current rest :
  current <> JNull -> Forall (fun msg => msg <> JNull) rest ->
  exists merged, merge_loop current rest = Some merged.
Proof.
  intros Hc Hrest. revert current Hc.
  induction Hrest as [|next rest Hnext _ IH]; intros current Hc; [simpl; eauto|].
  cbn [merge_loop].
  destruct (strict_eq _ _).
  - assert (Hm : exists current', merge_into current next = Some current'
                                  /\ current' <> JNull).
    { unfold merge_into. destruct current; try congruence;
        destruct next; try congruence;
        try (eexists; split; [reflexivity|discriminate]);
        match goal with
        | |- context [merged_content ?a ?b] => destruct (merged_content a b)
        end; eexists; (split; [reflexivity|cbn [with_field]; discriminate]). }
    destruct Hm as (current' & -> & Hc'). now apply IH.
  - destruct (IH next Hnext) as [merged ->]. simpl. eauto.
Qed.

(** X19.  After [mergeConsecutiveMessages] no two neighbouring messages
    have the same role; the flag is [true] exactly when messages were
    merged, and then there are fewer of them; merging again changes
    nothing.  The call returns, rather than throws, whenever no message
    is [null]. *)
Theorem merged_messages_alternate (messages : list json) :
  (forall merged flag,
     mergeConsecutiveMessages messages = Some (merged, flag) ->
     alternating merged /\
     (flag = false <-> merged = messages) /\
     (flag = true -> (List.length merged < List.length messages)%nat) /\
     mergeConsecutiveMessages merged = Some (merged, false)) /\
  (Forall (fun msg => msg <> JNull) messages ->
   exists result, mergeConsecutiveMessages messages = Some result).
Proof.
  assert (Hshort : forall l : list json,
            alternating l -> mergeConsecutiveMessages l = Some (l, false)).
  { intros [|a [|b r]] Hl; try reflexivity.
    unfold mergeConsecutiveMessages. rewrite (merge_loop_alternating a (b :: r) Hl).
    now rewrite Nat.eqb_refl. }
  split.
  - intros merged flag. unfold mergeConsecutiveMessages.
    destruct messages as [|first [|second rest]].
    + intros [= <- <-]. repeat split; try discriminate; reflexivity.
    + intros [= <- <-]. repeat split; try discriminate; reflexivity.
    + destruct (merge_loop first (second :: rest)) as [looped|] eqn:El; [|discriminate].
      destruct (merge_loop_spec _ _ _ El) as (Ha & _ & Hlen & Hfull).
      destruct (Nat.eqb_spec (List.length looped)
                             (List.length (first :: second :: rest))) as [E|E];
        intros [= <- <-].
      * rewrite (Hfull E) in Ha.
        split; [exact Ha|]. split; [now split|]. split; [discriminate|].
        exact (Hshort (first :: second :: rest) Ha).
      * split; [exact Ha|]. split; [|split].
        -- split; [discriminate|]. intros ->. now elim E.
        -- intros _. simpl in *. lia.
        -- exact (Hshort looped Ha).
  - intros Hall. unfold mergeConsecutiveMessages.
    destruct messages as [|first [|second rest]]; eauto.
    inversion Hall as [|? ? Hfirst Hrest]; subst.
    destruct (merge_loop_returns first (second :: rest) Hfirst Hrest) as [looped ->].
    destruct (Nat.eqb _ _); eauto.
Qed.

Definition two_user_turns : list json :=
  [JObj [("role", JStr "user"); ("content", JStr "plan it")];
   JObj [("role", JStr "user"); ("content", JStr "now code it")];
   JObj [("role", JStr "assistant"); ("content", JStr "ok")]].

Lemma merged_messages_witness :
  mergeConsecutiveMessages two_user_turns
  = Some ([JObj [("role", JStr "user");
                 ("content",
                  JStr ("plan it" ++ String (ascii_of_nat 10)
                                       (String (ascii_of_nat 10) "now code it")))];
           JObj [("role", JStr "assistant"); ("content", JStr "ok")]], true) /\
  exists result, mergeConsecutiveMessages two_user_turns = Some result.
Proof.
  destruct (merged_messages_alternate two_user_turns) as [_ Hreturns].
  split; [reflexivity|].
  apply Hreturns. repeat constructor; discriminate.
Defined.


(** ** Removing every [cache_control] *)

(** Induction over a JSON value and the values inside it. *)
Lemma json_nested_ind (P : json -> Prop) :
  P JNull -> (forall b, P (JBool b)) -> (forall n, P (JNum n)) ->
  (forall s, P (JStr s)) ->
  (forall items, Forall P items -> P (JArr items)) ->
  (forall props, Forall (fun kv => P (snd kv)) props -> P (JObj props)) ->
  forall v, P v.
Proof.
  intros Hnull Hbool Hnum Hstr Harr Hobj.
  fix IH 1.
  intros [| b | n | s | items | props];
    [exact Hnull|apply Hbool|apply Hnum|apply Hstr| |].
  - apply Harr. induction items as [|x r IHr]; constructor; [apply IH|exact IHr].
  - apply Hobj. induction props as [|[k x] r IHr]; constructor; [apply IH|exact IHr].
Qed.

(** The properties of a cleaned object. *)
Definition cleaned_props (props : list (string * json)) : list (string * json) :=
  map (fun kv => (fst kv, deepCleanCacheControl (snd kv)))
      (filter (fun kv => negb (String.eqb "cache_control" (fst kv))) props).

Lemma deepClean_obj props :
  deepCleanCacheControl (JObj props) = JObj (cleaned_props props).
Proof.
  cbn [deepCleanCacheControl]. f_equal. unfold cleaned_props.
  induction props as [|[k x] r IH]; [reflexivity|]. cbn [filter fst].
  destruct (String.eqb "cache_control" k); cbn [negb map fst snd]; now rewrite IH.
Qed.

Definition any_cache_control (props : list (string * json)) : bool :=
  existsb (fun kv => (String.eqb "cache_control" (fst kv)
                      || has_cache_control (snd kv))%bool) props.

Lemma has_cache_control_obj props :
  has_cache_control (JObj props) = any_cache_control props.
Proof.
  cbn [has_cache_control]. unfold any_cache_control.
  induction props as [|[k x] r IH]; [reflexivity|]. cbn [existsb fst snd].
  now rewrite IH.
Qed.

Lemma deepClean_clean v : has_cache_control (deepCleanCacheControl v) = false.
Proof.
  induction v as [| | | |items IH|props IH] using json_nested_ind; try reflexivity.
  - cbn [deepCleanCacheControl has_cache_control].
    induction IH as [|x r Hx _ IHr]; [reflexivity|]. cbn [map existsb].
    now rewrite Hx, IHr.
  - rewrite deepClean_obj, has_cache_control_obj. unfold any_cache_control, cleaned_props.
    induction IH as [|[k x] r Hx _ IHr]; [reflexivity|]. cbn [filter fst].
    destruct (String.eqb "cache_control" k) eqn:E; cbn [negb]; [exact IHr|].
    cbn [map existsb fst snd] in *. now rewrite E, Hx, IHr.
Qed.

Lemma deepClean_untouched v : has_cache_control v = false -> deepCleanCacheControl v = v.
Proof.
  induction v as [| | | |items IH|props IH] using json_nested_ind; try reflexivity.
  - cbn [deepCleanCacheControl has_cache_control]. intros H. f_equal.
    induction IH as [|x r Hx _ IHr]; [reflexivity|]. cbn [map existsb] in *.
    apply orb_false_iff in H as [H1 H2]. now rewrite Hx, IHr.
  - rewrite deepClean_obj, has_cache_control_obj. unfold any_cache_control, cleaned_props.
    intros H. f_equal.
    induction IH as [|[k x] r Hx _ IHr]; [reflexivity|]. cbn [existsb fst snd] in H.
    apply orb_false_iff in H as [H1 H2]. apply orb_false_iff in H1 as [Hk Hv].
    cbn [filter fst]. rewrite Hk. cbn [negb map fst snd].
    cbn [snd] in Hx. now rewrite Hx, IHr.
Qed.

(** X20.  After [deepCleanCacheControl] no object at any depth has a
    [cache_control] property; a value that has none is left exactly as
    it is, so cleaning twice is cleaning once. *)
Theorem no_cache_control_survives (value : json) :
  has_cache_control (deepCleanCacheControl value) = false /\
  (has_cache_control value = false -> deepCleanCacheControl value = value) /\
  deepCleanCacheControl (deepCleanCacheControl value) = deepCleanCacheControl value.
Proof.
  split; [apply deepClean_clean|]. split; [apply deepClean_untouched|].
  apply deepClean_untouched, deepClean_clean.
Qed.

Example nested_cache_control_removed :
  deepCleanCacheControl
    (JObj [("contents",
            JArr [JObj [("parts",
                         JArr [JObj [("text", JStr "hi");
                                     ("cache_control",
                                      JObj [("type", JStr "ephemeral")])]])]])])
  = JObj [("contents", JArr [JObj [("parts", JArr [JObj [("text", JStr "hi")]])]])].
Proof. reflexivity. Qed.


End PreprocessProofs.

(* ====================================================================== *)
(** * Account lockout                                                       *)
(* ====================================================================== *)

Module RateLimitProofs.
Import JsMap JsMapFacts RateLimit.

(** The lockout of the [k]-th strike in a row: 60 s, 5 min, 30 min, then
    2 h for every further one. *)
Definition rung (k : Z) : Z :=
  nth (Z.to_nat (Z.min k 4 - 1)) ANTIGRAVITY_QUOTA_LOCKOUT_SECONDS 0.

(** Each instant is within the strike TTL of the one before it. *)
Fixpoint in_a_row (last : Z) (instants : list Z) : Prop :=
  match instants with
  | [] => True
  | now :: later =>
      now - last <= ANTIGRAVITY_QUOTA_STRIKE_TTL_MS /\ in_a_row now later
  end.

(** The lockouts after [c] strikes in a row. *)
Fixpoint rungs_after (c : Z) (n : nat) : list (option Z) :=
  match n with
  | O => []
  | S n' => Some (rung (c + 1)) :: rungs_after (c + 1) n'
  end.

Lemma rung_capped k : 4 <= k -> rung k = 7200.
Proof. intros H. unfold rung. rewrite Z.min_r by lia. reflexivity. Qed.

Lemma quota_step now accountId m c last :
  JsString.is_empty (JsString.trim accountId) = false ->
  get (JsString.trim accountId) m = Some {| count := c; lastAtMs := last |} ->
  0 <= c -> now - last <= ANTIGRAVITY_QUOTA_STRIKE_TTL_MS ->
  resolveAntigravityAccountRateLimitSeconds now accountId (Some "QUOTA_EXHAUSTED") None m
  = (Some (rung (c + 1)),
     set (JsString.trim accountId) {| count := Z.min 4 (c + 1); lastAtMs := now |} m).
Proof.
  intros Hk Hget Hc Hfresh.
  unfold resolveAntigravityAccountRateLimitSeconds, bumpAntigravityQuotaStrike.
  cbn [parsed_seconds or_zero]. rewrite Hk, Hget. cbn [lastAtMs count].
  assert (E : (now - last <=? ANTIGRAVITY_QUOTA_STRIKE_TTL_MS) = true)
    by now apply Z.leb_le.
  rewrite E. cbn [String.eqb]. 
  change (String.eqb "QUOTA_EXHAUSTED" "RATE_LIMIT_EXCEEDED") with false.
  change (String.eqb "QUOTA_EXHAUSTED" "QUOTA_EXHAUSTED") with true.
  cbv iota. f_equal. f_equal.
  change (Z.of_nat (List.length ANTIGRAVITY_QUOTA_LOCKOUT_SECONDS)) with 4.
  unfold rung. rewrite Z.max_l.
  - f_equal. f_equal. lia.
  - destruct (Z.to_nat _) as [|[|[|[|n]]]]; simpl; try lia. destruct n; simpl; lia.
Qed.

Lemma quota_first now accountId m :
  JsString.is_empty (JsString.trim accountId) = false ->
  (forall e, get (JsString.trim accountId) m = Some e ->
             ANTIGRAVITY_QUOTA_STRIKE_TTL_MS < now - lastAtMs e) ->
  resolveAntigravityAccountRateLimitSeconds now accountId (Some "QUOTA_EXHAUSTED") None m
  = (Some 60,
     set (JsString.trim accountId) {| count := 1; lastAtMs := now |} m).
Proof.
  intros Hk Hstale.
  unfold resolveAntigravityAccountRateLimitSeconds, bumpAntigravityQuotaStrike.
  cbn [parsed_seconds or_zero]. rewrite Hk.
  change (String.eqb "QUOTA_EXHAUSTED" "RATE_LIMIT_EXCEEDED") with false.
  change (String.eqb "QUOTA_EXHAUSTED" "QUOTA_EXHAUSTED") with true.
  cbv iota.
  destruct (get (JsString.trim accountId) m) as [e|] eqn:E; [|reflexivity].
  specialize (Hstale e eq_refl).
  assert (E' : (now - lastAtMs e <=? ANTIGRAVITY_QUOTA_STRIKE_TTL_MS) = false)
    by (apply Z.leb_gt; lia).
  now rewrite E'.
Qed.

Lemma quota_lockouts_in_a_row accountId instants m c last :
  JsString.is_empty (JsString.trim accountId) = false ->
  get (JsString.trim accountId) m = Some {| count := c; lastAtMs := last |} ->
  0 <= c -> in_a_row last instants ->
  quota_lockouts accountId instants m = rungs_after c (List.length instants).
Proof.
  intros Hk. revert m c last.
  induction instants as [|now later IH]; intros m c last Hget Hc Hrow; [reflexivity|].
  destruct Hrow as [Hfresh Hlater].
  cbn [quota_lockouts List.length rungs_after].
  rewrite (quota_step now accountId m c last Hk Hget Hc Hfresh).
  f_equal.
  rewrite (IH _ (Z.min 4 (c + 1)) now); [| apply get_set_eq | lia | exact Hlater].
  clear. generalize (List.length later) as n. revert c.
  assert (Hcap : forall n c, 4 <= c -> rungs_after c n = rungs_after 4 n).
  { induction n as [|n IHn]; intros c Hc; [reflexivity|]. cbn [rungs_after].
    rewrite !rung_capped by lia. f_equal.
    rewrite (IHn (c + 1)) by lia. symmetry. apply IHn. lia. }
  intros c n. destruct (Z.le_gt_cases 4 (c + 1)).
  - rewrite Z.min_l by lia. symmetry. apply Hcap. lia.
  - now rewrite Z.min_r by lia.
Qed.

(** X21.  Quota lockouts climb a ladder and stay at its top: for an
    account with no strike on record, or none younger than six hours,
    the first [QUOTA_EXHAUSTED] locks it for 60 s, and as long as each
    further one comes within six hours of the one before, the lockouts
    are 300 s, 1800 s and then 7200 s every time. *)
Theorem quota_lockouts_climb_the_ladder
  (accountId : string) (now : Z) (later : list Z) (m : strikes) :
  JsString.is_empty (JsString.trim accountId) = false ->
  (forall e, get (JsString.trim accountId) m = Some e ->
             ANTIGRAVITY_QUOTA_STRIKE_TTL_MS < now - lastAtMs e) ->
  in_a_row now later ->
  quota_lockouts accountId (now :: later) m
  = map (fun k => Some (rung (Z.of_nat k))) (seq 1 (S (List.length later))).
Proof.
  intros Hk Hstale Hrow. cbn [quota_lockouts].
  rewrite (quota_first now accountId m Hk Hstale).
  cbn [seq map]. f_equal.
  rewrite (quota_lockouts_in_a_row accountId later _ 1 now Hk);
    [|apply get_set_eq|lia|exact Hrow].
  generalize (List.length later) as n.
  assert (Hgen : forall n (c : nat),
            rungs_after (Z.of_nat c) n
            = map (fun k => Some (rung (Z.of_nat k))) (seq (S c) n)).
  { induction n as [|n IHn]; intros c; [reflexivity|].
    cbn [rungs_after seq map]. f_equal; [do 2 f_equal; lia|].
    rewrite <- IHn. f_equal. lia. }
  intros n. exact (Hgen n 1%nat).
Qed.

Lemma quota_lockouts_witness :
  quota_lockouts "acct-1"
    [1000; 3601000; 7201000; 10801000; 14401000] []
  = [Some 60; Some 300; Some 1800; Some 7200; Some 7200].
Proof.
  apply (quota_lockouts_climb_the_ladder "acct-1" 1000
           [3601000; 7201000; 10801000; 14401000] []).
  - reflexivity.
  - intros e. discriminate.
  - vm_compute. intuition discriminate.
Defined.

Lemma ceil_div_covers ms : 0 < ms -> ms <= 1000 * AntigravityClient.ceil_div ms 1000.
Proof.
  intros H. unfold AntigravityClient.ceil_div.
  pose proof (Z.div_mod (- ms) 1000 ltac:(lia)).
  pose proof (Z.mod_pos_bound (- ms) 1000 ltac:(lia)). lia.
Qed.

(** The counts on record are positive. *)
Definition strikes_wf (m : strikes) : Prop :=
  Forall (fun kv => 1 <= count (snd kv)) m.

(** X22.  An account is never released before the upstream allows it,
    nor before the floor of its reason: for [RATE_LIMIT_EXCEEDED] the
    lockout is at least 30 s and for [QUOTA_EXHAUSTED] at least 60 s,
    and with a positive retry delay it is never shorter than that delay;
    any other reason gives no lockout and records no strike. *)
Theorem lockout_respects_floor_and_retry_delay
  (now : Z) (accountId : string) (reason : option string) (retryDelayMs : option Z)
  (m : strikes) :
  strikes_wf m ->
  let result :=
    resolveAntigravityAccountRateLimitSeconds now accountId reason retryDelayMs m in
  (reason = Some "RATE_LIMIT_EXCEEDED" ->
   exists seconds, result = (Some seconds, m) /\ 30 <= seconds /\
     forall ms, retryDelayMs = Some ms -> ms <= 1000 * seconds) /\
  (reason = Some "QUOTA_EXHAUSTED" ->
   exists seconds, fst result = Some seconds /\ 60 <= seconds /\
     forall ms, retryDelayMs = Some ms -> ms <= 1000 * seconds) /\
  (reason <> Some "RATE_LIMIT_EXCEEDED" -> reason <> Some "QUOTA_EXHAUSTED" ->
   result = (None, m)).
Proof.
  intros Hwf result.
  assert (Hhint : forall floor ms, retryDelayMs = Some ms ->
            ms <= 1000 * Z.max floor (or_zero (parsed_seconds retryDelayMs)) \/ ms <= 0).
  { intros floor ms ->. unfold parsed_seconds.
    destruct (Z.ltb_spec 0 ms) as [Hpos|]; [left|now right]. cbn [or_zero].
    pose proof (ceil_div_covers ms Hpos). lia. }
  split; [|split].
  - intros ->. unfold result, resolveAntigravityAccountRateLimitSeconds.
    change (String.eqb "RATE_LIMIT_EXCEEDED" "RATE_LIMIT_EXCEEDED") with true.
    cbv iota. eexists. split; [reflexivity|].
    unfold ANTIGRAVITY_DEFAULT_RATE_LIMIT_SECONDS. split; [lia|].
    intros ms Hms. destruct (Hhint 30 ms Hms); lia.
  - intros ->. unfold result, resolveAntigravityAccountRateLimitSeconds.
    change (String.eqb "QUOTA_EXHAUSTED" "RATE_LIMIT_EXCEEDED") with false.
    change (String.eqb "QUOTA_EXHAUSTED" "QUOTA_EXHAUSTED") with true.
    cbv iota.
    destruct (bumpAntigravityQuotaStrike now accountId m) as [strike m'] eqn:Eb.
    cbn [fst].
    change (Z.of_nat (List.length ANTIGRAVITY_QUOTA_LOCKOUT_SECONDS)) with 4.
    set (base := nth _ ANTIGRAVITY_QUOTA_LOCKOUT_SECONDS 0).
    assert (Hstrike : 1 <= strike).
    { unfold bumpAntigravityQuotaStrike in Eb.
      destruct (JsString.is_empty _); [injection Eb as <- _; lia|].
      injection Eb as <- _.
      change (Z.of_nat (List.length ANTIGRAVITY_QUOTA_LOCKOUT_SECONDS)) with 4.
      destruct (get _ m) as [e|] eqn:Eg; [|lia].
      destruct (_ <=? _); [|lia].
      apply get_In in Eg. unfold strikes_wf in Hwf. rewrite Forall_forall in Hwf.
      specialize (Hwf _ Eg). cbn [snd] in Hwf. lia. }
    assert (Hbase : 60 <= base).
    { unfold base.
      destruct (Z.to_nat _) as [|[|[|[|n]]]] eqn:En; simpl; lia. }
    eexists. split; [reflexivity|]. split; [lia|].
    intros ms Hms. destruct (Hhint base ms Hms); lia.
  - intros H1 H2. unfold result, resolveAntigravityAccountRateLimitSeconds.
    destruct reason as [r|]; [|reflexivity].
    destruct (String.eqb_spec r "RATE_LIMIT_EXCEEDED"); [congruence|].
    destruct (String.eqb_spec r "QUOTA_EXHAUSTED"); [congruence|reflexivity].
Qed.

Lemma lockout_respects_witness :
  resolveAntigravityAccountRateLimitSeconds 1000 "acct-1"
    (Some "RATE_LIMIT_EXCEEDED") (Some 45500) []
  = (Some 46, []).
Proof.
  destruct (lockout_respects_floor_and_retry_delay 1000 "acct-1"
              (Some "RATE_LIMIT_EXCEEDED") (Some 45500) [])
    as [Hrate _]; [constructor|].
  destruct (Hrate eq_refl) as (seconds & Hres & _).
  reflexivity.
Defined.

Lemma bump_keeps_counts_positive now accountId m :
  strikes_wf m -> strikes_wf (snd (bumpAntigravityQuotaStrike now accountId m)).
Proof.
  intros Hwf. unfold bumpAntigravityQuotaStrike.
  destruct (JsString.is_empty _); [exact Hwf|]. cbn [snd].
  apply (SignatureCacheProofs.Forall_snd_set (fun e => 1 <= count e)); [|exact Hwf].
  cbn [count].
  change (Z.of_nat (List.length ANTIGRAVITY_QUOTA_LOCKOUT_SECONDS)) with 4.
  destruct (get _ m) as [e|] eqn:Eg; [|lia].
  destruct (_ <=? _); [|lia].
  apply get_In in Eg. unfold strikes_wf in Hwf. rewrite Forall_forall in Hwf.
  specialize (Hwf _ Eg). cbn [snd] in Hwf. lia.
Qed.

End RateLimitProofs.

(* ====================================================================== *)
(** * More about the streaming translator                                   *)
(* ====================================================================== *)

Module StreamExtraProofs.
Import JsMap JsMapFacts Json JsonFacts Bridge Stream StreamProofs.

Section Translator.
Variable JSON_parse : string -> option json.
Variable buildToolUseId : nat -> string.
Variable parseSSELine : string -> parsed_line.
Variable cfg : request_config.
Variables first_rescue forced_rescue : rescue_reply.

(** ** Repeated calls *)

Lemma keys_after_emit name args id s :
  emittedToolCallKeys (emit (emitToolUseBlock buildToolUseId name args id s))
  = emittedToolCallKeys (emit s).
Proof.
  unfold emitToolUseBlock.
  destruct id as [i|]; [destruct (JsString.is_empty i)|]; reflexivity.
Qed.

Lemma keys_after_stop s :
  emittedToolCallKeys (emit (stop_if_open s)) = emittedToolCallKeys (emit s).
Proof. unfold stop_if_open. destruct (is_open _); reflexivity. Qed.

Lemma keys_after_call name args id s :
  emittedToolCallKeys (emit (state_of (emit_call buildToolUseId name args id s)))
  = emittedToolCallKeys (emit s).
Proof.
  unfold emit_call. destruct name; cbn [state_of]; try reflexivity.
  apply keys_after_emit.
Qed.

(** X23.  A function call without an id is emitted once: when the same
    part, with the same name and arguments, is handled a second time
    right after the first, the state, and with it the response, stays as
    the first handling left it. *)
Theorem idless_call_is_emitted_once (part : json) (s : state) :
  (forall functionCall, field "functionCall" part = Some functionCall ->
     str_field "id" functionCall = None \/ str_field "id" functionCall = Some "") ->
  function_call_step JSON_parse buildToolUseId part
    (function_call_step JSON_parse buildToolUseId part s)
  = function_call_step JSON_parse buildToolUseId part s.
Proof.
  intros Hid. unfold function_call_step.
  destruct (field "functionCall" part) as [functionCall|] eqn:Ecall;
    [|unfold function_call_run; now rewrite Ecall].
  destruct (field "name" functionCall) as [name|] eqn:Ename;
    [|unfold function_call_run; now rewrite Ecall, Ename].
  destruct (negb (truthy name)) eqn:Efalsy;
    [unfold function_call_run; now rewrite Ecall, Ename, Efalsy|].
  assert (Enoid : match str_field "id" functionCall with
                  | Some i => if JsString.is_empty i then None else Some i
                  | None => None
                  end = None).
  { destruct (Hid functionCall eq_refl) as [-> | ->]; reflexivity. }
  set (finalArgs := match resolved_args (resolveFunctionCallArgs JSON_parse functionCall) with
                    | Some a => a
                    | None => []
                    end).
  set (toolKey := toString name ++ ":" ++ stableJsonStringify (JObj finalArgs)).
  assert (Hrun : forall s',
            function_call_run JSON_parse buildToolUseId part s'
            = if mem toolKey (emittedToolCallKeys (emit s')) then Returned s'
              else emit_call buildToolUseId name finalArgs None
                     (set_currentBlockType (Some ToolUse)
                        (stop_if_open
                           (set_emittedToolCallKeys
                              (toolKey :: emittedToolCallKeys (emit s')) s')))).
  { intros s'. unfold function_call_run.
    rewrite Ecall, Ename, Efalsy. cbv zeta. now rewrite Enoid. }
  rewrite (Hrun s).
  destruct (mem toolKey (emittedToolCallKeys (emit s))) eqn:Eseen.
  - cbn [state_of]. now rewrite Hrun, Eseen.
  - rewrite Hrun, keys_after_call. cbn [emit set_currentBlockType on_blk].
    rewrite keys_after_stop.
    cbn [emit set_emittedToolCallKeys on_emit emittedToolCallKeys mem].
    now rewrite String.eqb_refl.
Qed.

(** ** The inline tag loop *)

(** X24.  The inline tag loop of [processMcpXmlBridgeDelta] always ends:
    every pass that does not leave it makes the buffer strictly shorter,
    so from any state it is left within as many passes as the buffer has
    characters, and what is returned is the state in which it was left. *)
Theorem inline_tag_loop_terminates (x : xml_state) :
  (forall x', xml_iteration JSON_parse x = Continue x' ->
     (String.length (xml_buffer x') < String.length (xml_buffer x))%nat) /\
  xml_loop_runs JSON_parse x
    (xml_loop JSON_parse (S (String.length (xml_buffer x))) x).
Proof.
  split; [intros x'; apply xml_iteration_shrinks|].
  apply xml_loop_runs_to_end. lia.
Qed.

(** ** After the end *)





(** ** Pending calls and their names *)











Lemma pending_set_timers a b c s :
  pendingToolCallsById (emit (set_timers a b c s)) = pendingToolCallsById (emit s).
Proof. reflexivity. Qed.


(** ** The stop reason of a stream that called a tool *)







End Translator.


Lemma idless_call_witness :
  out (blk (function_call_step no_parse numbered_id
              (JObj [("functionCall", JObj [("name", JStr "Grep");
                                           ("args", JObj [("query", JStr "foo")])])])
              (function_call_step no_parse numbered_id
                 (JObj [("functionCall", JObj [("name", JStr "Grep");
                                              ("args", JObj [("query", JStr "foo")])])])
                 (start sample_stream_config))))
  = [message_start "msg_01" "claude-x";
     content_block_start 0 (ToolUseBlock "toolu_0" "Grep");
     content_block_delta 0
       (input_json_delta
          (stableJsonStringify (JObj [("path", JStr "."); ("pattern", JStr "foo")])));
     content_block_stop 0].
Proof.
  rewrite (idless_call_is_emitted_once no_parse numbered_id).
  - vm_compute. reflexivity.
  - intros functionCall [= <-]. now left.
Defined.


(** ** A name that is no string *)

(** A text chunk, then a call named [5] that is to be continued, then the
    end of the stream. *)
Definition numbered_call_payload : json :=
  JObj [("candidates",
         JArr [JObj [("content",
                      JObj [("parts",
                             JArr [JObj [("functionCall",
                                          JObj [("name", JNum 5); ("id", JStr "x");
                                                ("willContinue", JBool true)])]])])]])].

Definition numbered_call_line : string :=
  "data: " ++ stableJsonStringify numbered_call_payload.

Definition parse_numbered_call (line : string) : parsed_line :=
  if String.eqb line hello_line then DataLine hello_payload
  else if String.eqb line numbered_call_line then DataLine numbered_call_payload
  else InvalidLine.

Definition numbered_call_stream : list upstream_event :=
  [DataChunk hello_chunk;
   DataChunk (numbered_call_line ++ String (ascii_of_nat 10) "");
   StreamEnd].

(** The pending call is registered, and [finalize] throws while it
    flushes it: the text block is stopped, but neither [message_delta]
    nor [message_stop] is written and the response is not ended. *)
Example call_named_by_a_number_leaves_the_message_open :
  let s := run no_parse numbered_id parse_numbered_call
               (hello_config None false false "msg_01" None)
               RescueFailed RescueFailed numbered_call_stream in
  out (blk s)
  = [message_start "msg_01" "claude-x";
     content_block_start 0 TextBlock;
     content_block_delta 0 (text_delta "Hello");
     content_block_stop 0] /\
  finished (conn s) = true /\ ended (conn s) = false.
Proof. vm_compute. repeat split; reflexivity. Qed.

End StreamExtraProofs.

(* ====================================================================== *)
(** * Truncation                                                            *)
(* ====================================================================== *)

Module TruncationProofs.
Import Truncation.

Lemma take_length n s :
  String.length (JsString.take n s) = Nat.min n (String.length s).
Proof.
  revert s. induction n as [|n IH]; intros [|c r]; cbn; try reflexivity.
  now rewrite IH.
Qed.

Lemma split_position_le text maxChars :
  (split_position text maxChars <= maxChars)%nat.
Proof.
  unfold split_position. cbv zeta.
  destruct (lastIndexOf _ "<") as [lastOpen|];
    [destruct (closes_before _ lastOpen)|];
    (destruct (lastIndexOf _ "{") as [lastOpenBrace|];
     [destruct (_ && _)%bool|]); lia.
Qed.

(** X26.  [truncateTextSafe] accounts for every character: a text of at
    most [maxChars] characters is returned as it is; a longer one is cut
    to a prefix of at most [maxChars] characters, followed by a note
    whose count is exactly the number of characters left out. *)
Theorem truncated_text_accounts_for_every_character (text : string) (maxChars : Z) :
  0 < maxChars ->
  (JsString.len text <= maxChars -> truncateTextSafe text maxChars = text) /\
  (maxChars < JsString.len text ->
   exists kept : nat,
     truncateTextSafe text maxChars
     = JsString.take kept text ++ String (ascii_of_nat 10) "...[truncated "
         ++ JsString.of_Z (JsString.len text - Z.of_nat kept) ++ " chars]" /\
     Z.of_nat kept <= maxChars /\
     String.length (JsString.take kept text) = kept).
Proof.
  intros Hmax. unfold truncateTextSafe.
  assert (Hpos : (maxChars <=? 0) = false) by (apply Z.leb_gt; lia).
  split.
  - intros Hshort. destruct text as [|c r]; [reflexivity|]. cbn [JsString.is_empty].
    rewrite Hpos. apply Z.leb_le in Hshort. now rewrite Hshort.
  - intros Hlong.
    assert (Hne : JsString.is_empty text = false).
    { destruct text; [|reflexivity]. unfold JsString.len in Hlong. simpl in Hlong. lia. }
    rewrite Hne, Hpos.
    assert (Hl : (JsString.len text <=? maxChars) = false) by (apply Z.leb_gt; lia).
    rewrite Hl. cbv zeta.
    pose proof (split_position_le text (Z.to_nat maxChars)) as Hle.
    exists (split_position text (Z.to_nat maxChars)).
    unfold JsString.len in *.
    split; [|split].
    + rewrite Z.max_r by lia. reflexivity.
    + lia.
    + rewrite take_length. lia.
Qed.

Lemma truncated_text_witness :
  truncateTextSafe "<div><p>hello</p></div>" 7
  = "<div>" ++ String (ascii_of_nat 10) "...[truncated 18 chars]".
Proof.
  destruct (truncated_text_accounts_for_every_character "<div><p>hello</p></div>" 7)
    as [_ Hlong]; [reflexivity|].
  destruct (Hlong ltac:(vm_compute; reflexivity)) as (kept & Hres & _).
  vm_compute. reflexivity.
Defined.

End TruncationProofs.

Module ThinkingOrderProofs.
Import Json Bridge Preprocess ThinkingOrder JsonFacts.

(** What the second loop does with a block. *)
Inductive kind := Skipped | Thinking | KeptText | DroppedText | Throws | Tool | Other.

Definition kind_eq_dec (a b : kind) : {a = b} + {a <> b}.
Proof. decide equality. Defined.

Definition kind_of (block : json) : kind :=
  if negb (truthy block) then Skipped
  else if is_thinking_type block then Thinking
  else if type_is "text" block then
    match field "text" block with
    | None | Some JNull => DroppedText
    | Some (JStr s) =>
        if (negb (JsString.is_empty (JsString.trim s))
            && negb (String.eqb (JsString.trim s) "(no content)"))%bool
        then KeptText else DroppedText
    | Some _ => Throws
    end
  else if type_is "tool_use" block then Tool else Other.

Definition is_kind (k : kind) (block : json) : bool :=
  if kind_eq_dec (kind_of block) k then true else false.

Lemma is_kind_true k b : is_kind k b = true <-> kind_of b = k.
Proof. unfold is_kind. destruct (kind_eq_dec (kind_of b) k); split; congruence. Qed.

Lemma is_kind_false k b : is_kind k b = false <-> kind_of b <> k.
Proof. unfold is_kind. destruct (kind_eq_dec (kind_of b) k); split; congruence. Qed.

Lemma is_kind_refl b : is_kind (kind_of b) b = true.
Proof. now apply is_kind_true. Qed.

Lemma is_kind_other k k' b : kind_of b = k' -> k' <> k -> is_kind k b = false.
Proof. intros E Hne. apply is_kind_false. congruence. Qed.

Lemma partition_step_kind acc block :
  partition_step acc block =
  match kind_of block with
  | Skipped | DroppedText => Some acc
  | Throws => None
  | Thinking =>
      Some {| thinkingBlocks := thinkingBlocks acc ++ [block];
              textBlocks := textBlocks acc;
              toolBlocks := toolBlocks acc;
              otherBlocks := otherBlocks acc |}
  | KeptText =>
      Some {| thinkingBlocks := thinkingBlocks acc;
              textBlocks := textBlocks acc ++ [block];
              toolBlocks := toolBlocks acc;
              otherBlocks := otherBlocks acc |}
  | Tool =>
      Some {| thinkingBlocks := thinkingBlocks acc;
              textBlocks := textBlocks acc;
              toolBlocks := toolBlocks acc ++ [block];
              otherBlocks := otherBlocks acc |}
  | Other =>
      Some {| thinkingBlocks := thinkingBlocks acc;
              textBlocks := textBlocks acc;
              toolBlocks := toolBlocks acc;
              otherBlocks := otherBlocks acc ++ [block] |}
  end.
Proof.
  unfold partition_step, kind_of.
  destruct (negb (truthy block)); [reflexivity|].
  destruct (is_thinking_type block); [reflexivity|].
  destruct (type_is "text" block).
  - destruct (field "text" block) as [[| | |s| |]|]; try reflexivity.
    now destruct (negb (JsString.is_empty (JsString.trim s))
                  && negb (String.eqb (JsString.trim s) "(no content)"))%bool.
  - now destruct (type_is "tool_use" block).
Qed.

(** The second loop fills each array with the blocks of one kind, in
    their order, and throws exactly when some block does. *)
Lemma partition_loop_spec blocks : forall acc,
  partition_loop acc blocks =
  if existsb (is_kind Throws) blocks then None
  else Some {| thinkingBlocks := thinkingBlocks acc ++ filter (is_kind Thinking) blocks;
               textBlocks := textBlocks acc ++ filter (is_kind KeptText) blocks;
               toolBlocks := toolBlocks acc ++ filter (is_kind Tool) blocks;
               otherBlocks := otherBlocks acc ++ filter (is_kind Other) blocks |}.
Proof.
  induction blocks as [|b rest IH]; intros acc.
  - cbn. rewrite !app_nil_r. now destruct acc.
  - cbn [partition_loop existsb filter]. rewrite partition_step_kind.
    repeat match goal with
    | |- context [is_kind ?k b] =>
        change (is_kind k b) with (if kind_eq_dec (kind_of b) k then true else false)
    end.
    destruct (kind_of b);
      repeat match goal with
      | |- context [kind_eq_dec ?x ?y] =>
          let r := eval vm_compute in (kind_eq_dec x y) in
          change (kind_eq_dec x y) with r
      end;
      cbv beta iota; cbn [orb]; try reflexivity;
      rewrite IH; cbn [thinkingBlocks textBlocks toolBlocks otherBlocks];
      rewrite <- ?app_assoc; reflexivity.
Qed.

(** The content the loop builds from [blocks]. *)
Definition sorted_content (blocks : list json) : list json :=
  (filter (is_kind Thinking) blocks ++ filter (is_kind KeptText) blocks
   ++ filter (is_kind Other) blocks ++ filter (is_kind Tool) blocks)%list.


Ltac decide_kinds :=
  repeat match goal with
  | |- context [kind_eq_dec ?x ?y] =>
      let r := eval vm_compute in (kind_eq_dec x y) in
      change (kind_eq_dec x y) with r
  end;
  cbv beta iota.

Lemma filter_kind_Forall k l : Forall (fun b => kind_of b = k) (filter (is_kind k) l).
Proof.
  apply Forall_forall. intros b Hb. apply filter_In in Hb. now apply is_kind_true.
Qed.

Lemma filter_kind_all k l :
  Forall (fun b => kind_of b = k) l -> filter (is_kind k) l = l.
Proof.
  induction 1 as [|b r Hb _ IH]; cbn; [reflexivity|].
  rewrite (proj2 (is_kind_true k b) Hb). now rewrite IH.
Qed.

Lemma filter_kind_none k k' l :
  k <> k' -> Forall (fun b => kind_of b = k') l -> filter (is_kind k) l = [].
Proof.
  intros Hne. induction 1 as [|b r Hb _ IH]; cbn; [reflexivity|].
  rewrite (is_kind_other k k' b Hb) by congruence. exact IH.
Qed.

Lemma existsb_kind_none k k' l :
  k <> k' -> Forall (fun b => kind_of b = k') l -> existsb (is_kind k) l = false.
Proof.
  intros Hne. induction 1 as [|b r Hb _ IH]; cbn; [reflexivity|].
  rewrite (is_kind_other k k' b Hb) by congruence. exact IH.
Qed.

Lemma filter_kind_filter k k' l :
  filter (is_kind k) (filter (is_kind k') l)
  = if kind_eq_dec k k' then filter (is_kind k') l else [].
Proof.
  destruct (kind_eq_dec k k') as [->|Hne].
  - apply filter_kind_all, filter_kind_Forall.
  - apply (filter_kind_none k k'); [exact Hne|apply filter_kind_Forall].
Qed.

Lemma existsb_kind_filter k k' l :
  k <> k' -> existsb (is_kind k) (filter (is_kind k') l) = false.
Proof.
  intros Hne. apply (existsb_kind_none k k'); [exact Hne|apply filter_kind_Forall].
Qed.

Lemma sorted_thinking blocks :
  filter (is_kind Thinking) (sorted_content blocks) = filter (is_kind Thinking) blocks.
Proof.
  unfold sorted_content. rewrite !filter_app, !filter_kind_filter. decide_kinds.
  now rewrite !app_nil_r.
Qed.

Lemma sorted_text blocks :
  filter (is_kind KeptText) (sorted_content blocks) = filter (is_kind KeptText) blocks.
Proof.
  unfold sorted_content. rewrite !filter_app, !filter_kind_filter. decide_kinds.
  now rewrite !app_nil_r.
Qed.

Lemma sorted_other blocks :
  filter (is_kind Other) (sorted_content blocks) = filter (is_kind Other) blocks.
Proof.
  unfold sorted_content. rewrite !filter_app, !filter_kind_filter. decide_kinds.
  now rewrite !app_nil_r.
Qed.

Lemma sorted_tool blocks :
  filter (is_kind Tool) (sorted_content blocks) = filter (is_kind Tool) blocks.
Proof.
  unfold sorted_content. rewrite !filter_app, !filter_kind_filter. decide_kinds.
  reflexivity.
Qed.

Lemma sorted_twice blocks : sorted_content (sorted_content blocks) = sorted_content blocks.
Proof.
  unfold sorted_content at 1.
  now rewrite sorted_thinking, sorted_text, sorted_other, sorted_tool.
Qed.

Lemma sorted_never_throws blocks :
  existsb (is_kind Throws) (sorted_content blocks) = false.
Proof.
  unfold sorted_content. rewrite !existsb_app.
  now rewrite !existsb_kind_filter by discriminate.
Qed.

Lemma needs_reorder_kind saw b rest :
  needs_reorder saw (b :: rest) =
  match kind_of b with
  | Skipped => needs_reorder saw rest
  | Thinking => (saw || needs_reorder saw rest)%bool
  | _ => needs_reorder true rest
  end.
Proof.
  cbn [needs_reorder]. unfold kind_of.
  destruct (negb (truthy b)); [reflexivity|].
  destruct (is_thinking_type b); [reflexivity|].
  destruct (type_is "text" b).
  - destruct (field "text" b) as [[| | |s| |]|]; try reflexivity.
    now destruct (negb (JsString.is_empty (JsString.trim s))
                  && negb (String.eqb (JsString.trim s) "(no content)"))%bool.
  - now destruct (type_is "tool_use" b).
Qed.

Lemma no_thinking_no_reorder l : forall saw,
  Forall (fun b => kind_of b <> Thinking) l -> needs_reorder saw l = false.
Proof.
  induction l as [|b r IH]; intros saw H; [reflexivity|].
  inversion H as [|? ? Hb Hr]; subst. rewrite needs_reorder_kind.
  destruct (kind_of b); try (now apply IH). now elim Hb.
Qed.

Lemma thinking_prefix th rest :
  Forall (fun b => kind_of b = Thinking) th ->
  needs_reorder false (th ++ rest) = needs_reorder false rest.
Proof.
  induction 1 as [|b r Hb _ IH]; [reflexivity|].
  cbn [app]. rewrite needs_reorder_kind, Hb. exact IH.
Qed.

Lemma sorted_needs_no_reorder blocks :
  needs_reorder false (sorted_content blocks) = false.
Proof.
  unfold sorted_content. rewrite thinking_prefix by apply filter_kind_Forall.
  apply no_thinking_no_reorder. rewrite !Forall_app. repeat split;
    (eapply Forall_impl; [|apply filter_kind_Forall]);
    cbv beta; intros b ->; discriminate.
Qed.

Lemma short_needs_no_reorder blocks :
  (List.length blocks <=? 1)%nat = true -> needs_reorder false blocks = false.
Proof.
  destruct blocks as [|b [|c r]]; cbn [List.length]; intros H; try discriminate.
  - reflexivity.
  - rewrite needs_reorder_kind. now destruct (kind_of b).
Qed.

(** Thinking blocks come first: the blocks, falsy ones apart, are a run of
    thinking blocks followed by blocks that are none. *)
Definition in_order (blocks : list json) : Prop :=
  exists thinking rest,
    filter truthy blocks = (thinking ++ rest)%list /\
    Forall (fun b => is_thinking_type b = true) thinking /\
    Forall (fun b => is_thinking_type b = false) rest.

Lemma seen_no_thinking blocks :
  needs_reorder true blocks = false ->
  Forall (fun b => is_thinking_type b = false) (filter truthy blocks).
Proof.
  induction blocks as [|b r IH]; cbn [needs_reorder filter]; intros H; [constructor|].
  destruct (truthy b); cbn [negb] in H; [|now apply IH].
  destruct (is_thinking_type b) eqn:E; [discriminate|].
  constructor; [exact E|now apply IH].
Qed.

Lemma no_reorder_in_order blocks : needs_reorder false blocks = false -> in_order blocks.
Proof.
  unfold in_order.
  induction blocks as [|b r IH]; cbn [needs_reorder filter]; intros H.
  - exists [], []. now repeat split.
  - destruct (truthy b); cbn [negb] in H; [|now apply IH].
    destruct (is_thinking_type b) eqn:E.
    + destruct (IH H) as (th & rest & Hs & Hth & Hrest).
      exists (b :: th), rest. rewrite Hs. repeat split; [|exact Hrest].
      now constructor.
    + exists [], (b :: filter truthy r). repeat split; [constructor|].
      constructor; [exact E|now apply seen_no_thinking].
Qed.

(** An assistant message whose content is an array has its thinking
    blocks first. *)
Definition thinking_first (msg : json) : Prop :=
  forall blocks,
    field_is "role" "assistant" msg = true ->
    field "content" msg = Some (JArr blocks) -> in_order blocks.

Lemma sort_message_spec msg msg' flag :
  sort_message msg = Some (msg', flag) ->
  thinking_first msg' /\ (flag = false <-> msg' = msg) /\
  sort_message msg' = Some (msg', false).
Proof.
  intros H. pose proof H as Hrun. unfold sort_message in H.
  assert (Hkept : (forall blocks, field_is "role" "assistant" msg = true ->
                     field "content" msg = Some (JArr blocks) ->
                     needs_reorder false blocks = false) ->
                  Some (msg, false) = Some (msg', flag) ->
                  thinking_first msg' /\ (flag = false <-> msg' = msg) /\
                  sort_message msg' = Some (msg', false)).
  { intros Hord E. injection E as <- <-. repeat split; try reflexivity; [|exact Hrun].
    intros blocks Hr Hc. apply no_reorder_in_order. now apply Hord. }
  destruct (field_is "role" "assistant" msg) eqn:Hrole; cbn [negb] in H;
    [|apply Hkept; [discriminate|exact H]].
  destruct (field "content" msg) as [[| | | |blocks|]|] eqn:Hc;
    try (apply Hkept; [discriminate|exact H]).
  destruct (List.length blocks <=? 1)%nat eqn:Hlen.
  { apply Hkept; [|exact H]. intros blocks' _ E. injection E as <-.
    now apply short_needs_no_reorder. }
  rewrite andb_false_r, partition_loop_spec in H.
  destruct (existsb (is_kind Throws) blocks); [discriminate|].
  cbn [thinkingBlocks textBlocks toolBlocks otherBlocks no_blocks app] in H.
  change (filter (is_kind Thinking) blocks ++ filter (is_kind KeptText) blocks
          ++ filter (is_kind Other) blocks ++ filter (is_kind Tool) blocks)%list
    with (sorted_content blocks) in H.
  destruct (negb (List.length (sorted_content blocks) =? List.length blocks)%nat
            || needs_reorder false blocks)%bool eqn:Hmod.
  2:{ apply Hkept; [|exact H]. intros blocks' _ E. injection E as <-.
      now apply orb_false_elim in Hmod. }
  injection H as <- <-.
  destruct (field_Some_obj _ _ _ Hc) as [props Hobj].
  assert (Hrole' : field_is "role" "assistant"
                     (with_field "content" (JArr (sorted_content blocks)) msg) = true).
  { rewrite field_is_with_field_ne; [exact Hrole|discriminate|now exists props]. }
  repeat split.
  - intros blocks' _ E. rewrite field_with_field_eq in E. injection E as <-.
    apply no_reorder_in_order, sorted_needs_no_reorder.
  - discriminate.
  - intros E. exfalso.
    assert (Hsame : sorted_content blocks = blocks).
    { pose proof (field_with_field_eq "content" (JArr (sorted_content blocks)) msg) as Hf.
      rewrite E, Hc in Hf. congruence. }
    rewrite Hsame, Nat.eqb_refl in Hmod. cbn [negb orb] in Hmod.
    rewrite <- Hsame, sorted_needs_no_reorder in Hmod. discriminate.
  - unfold sort_message. rewrite Hrole', field_with_field_eq. cbn [negb].
    destruct (List.length (sorted_content blocks) <=? 1)%nat; [reflexivity|].
    rewrite andb_false_r, partition_loop_spec, sorted_never_throws.
    cbn [thinkingBlocks textBlocks toolBlocks otherBlocks no_blocks app].
    change (filter (is_kind Thinking) (sorted_content blocks)
            ++ filter (is_kind KeptText) (sorted_content blocks)
            ++ filter (is_kind Other) (sorted_content blocks)
            ++ filter (is_kind Tool) (sorted_content blocks))%list
      with (sorted_content (sorted_content blocks)).
    now rewrite sorted_twice, Nat.eqb_refl, sorted_needs_no_reorder.
Qed.

Lemma sort_loop_spec messages : forall sorted flag,
  sortThinkingBlocksFirst messages = Some (sorted, flag) ->
  Forall thinking_first sorted /\ (flag = false <-> sorted = messages) /\
  sortThinkingBlocksFirst sorted = Some (sorted, false).
Proof.
  induction messages as [|msg rest IH]; intros sorted flag H; cbn in H.
  - injection H as <- <-. repeat split; constructor.
  - destruct (sort_message msg) as [[msg' m1]|] eqn:E1; [|discriminate].
    destruct (sortThinkingBlocksFirst rest) as [[rest' m2]|] eqn:E2; [|discriminate].
    injection H as <- <-.
    destruct (sort_message_spec msg msg' m1 E1) as (Hfirst & Hflag & Hagain).
    destruct (IH rest' m2 eq_refl) as (Hfirsts & Hflags & Hagains).
    repeat split.
    + now constructor.
    + intros E. apply orb_false_elim in E as [E1' E2'].
      f_equal; [now apply Hflag|now apply Hflags].
    + intros E. injection E as Em Er.
      apply Hflag in Em. apply Hflags in Er. now rewrite Em, Er.
    + cbn. now rewrite Hagain, Hagains.
Qed.

(** The [text] of a block is a string, [null] or absent. *)
Definition text_is_string (block : json) : Prop :=
  match field "text" block with
  | None | Some JNull | Some (JStr _) => True
  | Some _ => False
  end.

Lemma typed_text_never_throws blocks :
  Forall text_is_string blocks -> existsb (is_kind Throws) blocks = false.
Proof.
  induction 1 as [|b r Hb _ IH]; cbn [existsb]; [reflexivity|].
  rewrite IH, orb_false_r. apply is_kind_false.
  unfold text_is_string in Hb. unfold kind_of.
  destruct (negb (truthy b)); [discriminate|].
  destruct (is_thinking_type b); [discriminate|].
  destruct (type_is "text" b).
  - destruct (field "text" b) as [[| | |s| |]|]; try discriminate; try contradiction.
    now destruct (negb (JsString.is_empty (JsString.trim s))
                  && negb (String.eqb (JsString.trim s) "(no content)"))%bool.
  - now destruct (type_is "tool_use" b).
Qed.

Lemma sort_message_returns msg :
  Forall text_is_string (content_blocks msg) ->
  exists result, sort_message msg = Some result.
Proof.
  unfold content_blocks, sort_message. intros H.
  destruct (negb (field_is "role" "assistant" msg)); [eauto|].
  destruct (field "content" msg) as [[| | | |blocks|]|]; eauto.
  destruct (List.length blocks <=? 1)%nat; [eauto|].
  rewrite andb_false_r, partition_loop_spec, (typed_text_never_throws blocks H).
  match goal with |- context [if ?c then _ else _] => destruct c end; eauto.
Qed.

(** X29.  After [sortThinkingBlocksFirst] every assistant message has
    its thinking blocks before all its other blocks; the flag is [false]
    exactly when nothing was changed, and sorting again changes nothing.
    The call returns, rather than throws, whenever the [text] of every
    block is a string, [null] or absent. *)
Theorem sorted_messages_have_thinking_first (messages : list json) :
  (forall sorted flag,
     sortThinkingBlocksFirst messages = Some (sorted, flag) ->
     Forall thinking_first sorted /\
     (flag = false <-> sorted = messages) /\
     sortThinkingBlocksFirst sorted = Some (sorted, false)) /\
  (Forall (fun msg => Forall text_is_string (content_blocks msg)) messages ->
   exists result, sortThinkingBlocksFirst messages = Some result).
Proof.
  split; [apply sort_loop_spec|].
  induction 1 as [|msg rest Hmsg _ IH]; cbn; [eauto|].
  destruct (sort_message_returns msg Hmsg) as [[msg' m1] ->].
  destruct IH as [[rest' m2] ->]. eauto.
Qed.

Definition thinking_block : json :=
  JObj [("type", JStr "thinking"); ("thinking", JStr "plan"); ("signature", JStr "sig")].

Definition tool_block : json :=
  JObj [("type", JStr "tool_use"); ("id", JStr "t1"); ("name", JStr "Read");
        ("input", JObj [])].

Definition assistant_with (blocks : list json) : json :=
  JObj [("role", JStr "assistant"); ("content", JArr blocks)].

(** A thinking block behind a text moves to the front, and an empty text
    is dropped on the way. *)
Example thinking_moves_to_front :
  sortThinkingBlocksFirst
    [assistant_with [text_block "  "; tool_block; text_block "hi"; thinking_block]]
  = Some ([assistant_with [thinking_block; text_block "hi"; tool_block]], true).
Proof. vm_compute. reflexivity. Qed.

(** Without a thinking block out of place and without a block to drop,
    the content is left as it is, a tool call before a text included. *)
Example tool_before_text_is_left :
  sortThinkingBlocksFirst [assistant_with [thinking_block; tool_block; text_block "hi"]]
  = Some ([assistant_with [thinking_block; tool_block; text_block "hi"]], false).
Proof. vm_compute. reflexivity. Qed.

(** A text block whose [text] is a number makes the call throw. *)
Example numeric_text_throws :
  sortThinkingBlocksFirst
    [assistant_with [JObj [("type", JStr "text"); ("text", JNum 5)]; tool_block]]
  = None.
Proof. vm_compute. reflexivity. Qed.

End ThinkingOrderProofs.

Module ErrorParserProofs.
Import Json JsStringFacts RateLimit ErrorParser.

Lemma nonempty_string_nonempty x s : nonempty_string x = Some s -> s <> "".
Proof.
  unfold nonempty_string. destruct x as [[| | |t| |]|]; try discriminate.
  destruct (JsString.is_empty t) eqn:E; [discriminate|].
  intros H. injection H as <-. now apply is_empty_false.
Qed.

Lemma first_reason_nonempty details : forall reason,
  first_reason details = Some reason -> reason <> "".
Proof.
  induction details as [|d rest IH]; intros reason; cbn [first_reason]; [discriminate|].
  destruct (negb (truthy d) || negb (is_object d))%bool; [apply IH|].
  destruct (nonempty_string (field "reason" d)) as [r|] eqn:E1.
  { intros H. injection H as <-. eapply nonempty_string_nonempty; eauto. }
  destruct (nonempty_string (field_opt "reason" (field "metadata" d))) as [r|] eqn:E2.
  { intros H. injection H as <-. eapply nonempty_string_nonempty; eauto. }
  apply IH.
Qed.

(** Any reason but the two the bridge knows gives no lockout. *)
Lemma other_reason_no_lockout now accountId reason retryDelayMs m :
  reason <> Some "RATE_LIMIT_EXCEEDED" -> reason <> Some "QUOTA_EXHAUSTED" ->
  resolveAntigravityAccountRateLimitSeconds now accountId reason retryDelayMs m
  = (None, m).
Proof.
  intros H1 H2. unfold resolveAntigravityAccountRateLimitSeconds.
  destruct reason as [r|]; [|reflexivity].
  destruct (String.eqb_spec r "RATE_LIMIT_EXCEEDED") as [->|_]; [now elim H1|].
  destruct (String.eqb_spec r "QUOTA_EXHAUSTED") as [->|_]; [now elim H2|].
  reflexivity.
Qed.

Lemma lockout_names_reason now accountId reason retryDelayMs m seconds :
  fst (resolveAntigravityAccountRateLimitSeconds now accountId reason retryDelayMs m)
  = Some seconds ->
  reason = Some "RATE_LIMIT_EXCEEDED" \/ reason = Some "QUOTA_EXHAUSTED".
Proof.
  intros H. unfold resolveAntigravityAccountRateLimitSeconds in H.
  destruct reason as [r|]; [|discriminate].
  destruct (String.eqb_spec r "RATE_LIMIT_EXCEEDED") as [->|_]; [now left|].
  destruct (String.eqb_spec r "QUOTA_EXHAUSTED") as [->|_]; [now right|].
  discriminate.
Qed.

Section Parse.

Variable JSON_parse : string -> option json.
Variable parseGoogleRetryDelayMs : option json -> option Z.

(** [parsed?.error?.details] of a body. *)
Definition details_of (body : option json) : option json :=
  field_opt "details" (field "error" (safeJsonParse JSON_parse body)).

Lemma reason_without_details body :
  (forall items, details_of body <> Some (JArr items)) ->
  parseGoogleErrorReason JSON_parse body = None \/
  parseGoogleErrorReason JSON_parse body = Some "RESOURCE_EXHAUSTED".
Proof.
  unfold details_of, parseGoogleErrorReason. intros H.
  destruct (field_opt "details" (field "error" (safeJsonParse JSON_parse body)))
    as [[| | | |items|]|];
    try (now elim (H items));
    repeat match goal with
    | |- context [if ?c then _ else _] => destruct c
    end; auto.
Qed.

Lemma reason_with_details body items :
  details_of body = Some (JArr items) ->
  parseGoogleErrorReason JSON_parse body = first_reason items.
Proof.
  unfold details_of, parseGoogleErrorReason. now intros ->.
Qed.

Lemma parsed_reason_nonempty body reason :
  parseGoogleErrorReason JSON_parse body = Some reason -> reason <> "".
Proof.
  intros H.
  destruct (details_of body) as [[| | | |items|]|] eqn:E;
    try (destruct (reason_without_details body) as [H'|H'];
         [intros items; rewrite E; discriminate
         |rewrite H' in H; discriminate
         |rewrite H' in H; injection H as <-; discriminate]).
  rewrite (reason_with_details body items E) in H.
  eapply first_reason_nonempty; eauto.
Qed.

Lemma meta_reason body :
  fst (parseAntigravity429Meta JSON_parse parseGoogleRetryDelayMs body)
  = parseGoogleErrorReason JSON_parse body.
Proof.
  unfold parseAntigravity429Meta. cbn [fst].
  destruct (parseGoogleErrorReason JSON_parse body) as [r|] eqn:E; [|reflexivity].
  apply parsed_reason_nonempty, is_empty_false in E. now rewrite E.
Qed.

(** X30.  An upstream 429 locks the account out only for a reason named
    in the error details: when [resetsInSeconds] is a number, the body
    has a [details] array whose first named reason is [QUOTA_EXHAUSTED]
    or [RATE_LIMIT_EXCEEDED].  A body without a [details] array, a bare
    [RESOURCE_EXHAUSTED] included, gives no lockout and records no
    strike; and a parsed reason is never the empty string. *)
Theorem lockout_needs_a_reason_in_the_details
  (now : Z) (accountId : string) (body : option json) (m : strikes) :
  let result := resetsInSeconds JSON_parse parseGoogleRetryDelayMs now accountId body m in
  (forall seconds, fst result = Some seconds ->
     exists items,
       details_of body = Some (JArr items) /\
       (first_reason items = Some "QUOTA_EXHAUSTED" \/
        first_reason items = Some "RATE_LIMIT_EXCEEDED")) /\
  ((forall items, details_of body <> Some (JArr items)) -> result = (None, m)) /\
  (forall reason, parseGoogleErrorReason JSON_parse body = Some reason -> reason <> "").
Proof.
  cbv zeta. unfold resetsInSeconds.
  pose proof (meta_reason body) as Hmeta.
  destruct (parseAntigravity429Meta JSON_parse parseGoogleRetryDelayMs body)
    as [reason retryDelayMs].
  cbn [fst] in Hmeta. subst reason.
  split; [|split].
  - intros seconds H. apply lockout_names_reason in H.
    destruct (details_of body) as [[| | | |items|]|] eqn:E;
      try (destruct (reason_without_details body) as [H'|H'];
           [intros items; rewrite E; discriminate
           |rewrite H' in H; destruct H; discriminate
           |rewrite H' in H; destruct H; discriminate]).
    exists items. split; [reflexivity|].
    rewrite (reason_with_details body items E) in H. tauto.
  - intros H. apply other_reason_no_lockout;
      destruct (reason_without_details body H) as [-> | ->]; discriminate.
  - apply parsed_reason_nonempty.
Qed.

End Parse.

(** The body of a 429 that names no reason in its details. *)
Definition bare_exhausted : json :=
  JObj [("error", JObj [("code", JNum 429);
                        ("message", JStr "Resource has been exhausted (e.g. check quota).");
                        ("status", JStr "RESOURCE_EXHAUSTED")])].

Definition quota_exhausted : json :=
  JObj [("error",
         JObj [("code", JNum 429);
               ("status", JStr "RESOURCE_EXHAUSTED");
               ("details",
                JArr [JObj [("@type", JStr "type.googleapis.com/google.rpc.ErrorInfo");
                            ("reason", JStr "QUOTA_EXHAUSTED")]])])].

Example bare_exhausted_is_recognised_but_locks_nothing :
  parseGoogleErrorReason (fun _ => None) (Some bare_exhausted) = Some "RESOURCE_EXHAUSTED" /\
  resetsInSeconds (fun _ => None) (fun _ => None) 1000 "acct" (Some bare_exhausted) []
  = (None, []).
Proof. split; vm_compute; reflexivity. Qed.

Example quota_exhausted_locks_for_a_minute :
  fst (resetsInSeconds (fun _ => None) (fun _ => None) 1000 "acct" (Some quota_exhausted) [])
  = Some 60.
Proof. vm_compute. reflexivity. Qed.

End ErrorParserProofs.
